(** * Provider layer of cursor-tools: model resolution, token budgets,
      retries and response post-processing

    A shallow embedding of [src/providers/base.ts]; the last two parts embed
    the environment file and the rules question of [src/commands/install.ts]
    and [src/utils/logger.ts].

    Conventions of the embedding.
    - A JavaScript string is a [string] (a sequence of 8-bit characters);
      case mapping and white space are the ASCII / Latin-1 ones.
    - A JavaScript number that the code only counts or compares (token
      counts, attempt numbers, delays, chunk indices) is a [Z].
    - A [Set<string>] is the list of its elements in insertion order, which
      is the order [Array.from] and [find] see.
    - [throw] is the [Throw] constructor of [result]; an awaited promise is
      the [result] it settles to.
    - The modules '../errors' and '../utils/stringSimilarity' are imported
      by the file but are not part of it: what they compute is a parameter
      of the sections below ([messageOf], [subclass], [getSimilarModels],
      [stringSimilarity]), and so is [String.prototype.localeCompare], whose
      order depends on the host's locale data.
    - Console output is not part of the model. *)

From Stdlib Require Import ZArith List Bool Ascii String Lia QArith.
From Stdlib Require Import DecimalString Sorted Permutation.
From Equations Require Import Equations.
Import ListNotations.

Open Scope string_scope.
Open Scope Z_scope.

Set Implicit Arguments.

(* ================================================================== *)
(** ** JavaScript strings and arrays *)

Module JS.

(** [s.startsWith(p)] *)
Fixpoint startsWith (s p : string) {struct p} : bool :=
  match p, s with
  | EmptyString, _ => true
  | String _ _, EmptyString => false
  | String c p', String d s' => Ascii.eqb d c && startsWith s' p'
  end.

(** [s.includes(sub)] *)
Fixpoint includes (s sub : string) : bool :=
  startsWith s sub ||
  match s with
  | EmptyString => false
  | String _ s' => includes s' sub
  end.

(** [s.slice(0, n)] for [0 <= n] *)
Fixpoint take (n : nat) (s : string) : string :=
  match n, s with
  | O, _ => EmptyString
  | S _, EmptyString => EmptyString
  | S n', String c s' => String c (take n' s')
  end.

(** [s.slice(n)] for [0 <= n] *)
Fixpoint drop (n : nat) (s : string) : string :=
  match n, s with
  | O, _ => s
  | S _, EmptyString => EmptyString
  | S n', String _ s' => drop n' s'
  end.

(** [s.endsWith(suffix)] *)
Definition endsWith (s suffix : string) : bool :=
  (String.length suffix <=? String.length s)%nat &&
  String.eqb (drop (String.length s - String.length suffix) s) suffix.

(** [s.slice(0, -k)] for [0 < k] *)
Definition sliceEnd (s : string) (k : nat) : string :=
  take (String.length s - k) s.

(** [s.split(sep)] for a one-character separator; the accumulator
    holds the current piece in reverse. *)
Fixpoint splitAcc (sep : ascii) (acc : string) (s : string) : list string :=
  match s with
  | EmptyString => [acc]
  | String c s' =>
      if Ascii.eqb c sep then acc :: splitAcc sep EmptyString s'
      else splitAcc sep (acc ++ String c EmptyString) s'
  end.

Definition split (s : string) (sep : ascii) : list string :=
  splitAcc sep EmptyString s.

(** [arr.join(sep)] *)
Definition join (sep : string) (arr : list string) : string :=
  String.concat sep arr.

(** [s.replace(pat, by)] with a string pattern: the first occurrence. *)
Fixpoint replace (s pat by_ : string) : string :=
  if startsWith s pat then by_ ++ drop (String.length pat) s
  else match s with
       | EmptyString => EmptyString
       | String c s' => String c (replace s' pat by_)
       end.

(** White space and line terminators removed by [trim]. *)
Definition isWhiteSpace (c : ascii) : bool :=
  let n := nat_of_ascii c in
  ((9 <=? n) && (n <=? 13) || (n =? 32) || (n =? 160))%nat.

Fixpoint trimStart (s : string) : string :=
  match s with
  | EmptyString => EmptyString
  | String c s' => if isWhiteSpace c then trimStart s' else s
  end.

Fixpoint trimEnd (s : string) : string :=
  match s with
  | EmptyString => EmptyString
  | String c s' =>
      match trimEnd s' with
      | EmptyString => if isWhiteSpace c then EmptyString else String c EmptyString
      | t => String c t
      end
  end.

(** [s.trim()] *)
Definition trim (s : string) : string := trimEnd (trimStart s).

Definition lowerChar (c : ascii) : ascii :=
  let n := nat_of_ascii c in
  if ((65 <=? n) && (n <=? 90))%nat then ascii_of_nat (n + 32) else c.

(** [s.toLowerCase()] *)
Fixpoint toLowerCase (s : string) : string :=
  match s with
  | EmptyString => EmptyString
  | String c s' => String (lowerChar c) (toLowerCase s')
  end.

(** A template literal applied to a non-negative integer. *)
Definition numberToString (n : Z) : string :=
  NilEmpty.string_of_int (Z.to_int n).

(** Truthiness of a string: the empty string is falsy. *)
Definition truthy (s : string) : bool := negb (String.eqb s EmptyString).

(** [set.has(x)] and [arr.includes(x)] on strings *)
Definition has (set : list string) (x : string) : bool :=
  existsb (String.eqb x) set.

(** [arr.sort(cmp)]: the sort is stable, and [cmp] is read through the
    sign of its result ([Lt]: first argument first).  For a consistent
    comparator the result is the one stable arrangement, which insertion
    from the right computes. *)
Section Sort.
Variable A : Type.
Variable cmp : A -> A -> comparison.

Fixpoint insert (x : A) (l : list A) : list A :=
  match l with
  | [] => [x]
  | y :: l' =>
      match cmp x y with
      | Gt => y :: insert x l'
      | _ => x :: l
      end
  end.

Fixpoint sort (l : list A) : list A :=
  match l with
  | [] => []
  | x :: l' => insert x (sort l')
  end.
End Sort.

(** [arr[arr.length - 1]] *)
Fixpoint lastElement (A : Type) (l : list A) : option A :=
  match l with
  | [] => None
  | [x] => Some x
  | _ :: l' => lastElement l'
  end.

End JS.

(* ================================================================== *)
(** ** Errors and results *)

(** The error classes the file throws; [PlainError] stands for the
    built-in [Error] and [TypeError]. *)
Inductive errorClass : Type :=
| ProviderError
| ModelNotFoundError
| NetworkError
| ApiKeyMissingError
| PlainError.

Definition errorClass_eqb (a b : errorClass) : bool :=
  match a, b with
  | ProviderError, ProviderError
  | ModelNotFoundError, ModelNotFoundError
  | NetworkError, NetworkError
  | ApiKeyMissingError, ApiKeyMissingError
  | PlainError, PlainError => true
  | _, _ => false
  end.

(** An error object: its class and the first argument its constructor
    was given. *)
Record error : Type := mkError { errClass : errorClass; errArg : string }.

Inductive result (T : Type) : Type :=
| Return (v : T)
| Throw (e : error).

Arguments Return {T} v.
Arguments Throw {T} e.

Definition bindR {T U : Type} (r : result T) (k : T -> result U) : result U :=
  match r with
  | Return v => k v
  | Throw e => Throw e
  end.

(* ================================================================== *)
(** ** Providers and options *)

Inductive provider : Type :=
| GoogleVertexAIProvider
| GoogleGenerativeLanguageProvider
| OpenAIProvider
| OpenRouterProvider
| PerplexityProvider
| ModelBoxProvider
| AnthropicProvider.

(** [this.constructor.name] *)
Definition constructorName (p : provider) : string :=
  match p with
  | GoogleVertexAIProvider => "GoogleVertexAIProvider"
  | GoogleGenerativeLanguageProvider => "GoogleGenerativeLanguageProvider"
  | OpenAIProvider => "OpenAIProvider"
  | OpenRouterProvider => "OpenRouterProvider"
  | PerplexityProvider => "PerplexityProvider"
  | ModelBoxProvider => "ModelBoxProvider"
  | AnthropicProvider => "AnthropicProvider"
  end.

(** [this.constructor.name.replace('Provider', '')] *)
Definition providerLabel (p : provider) : string :=
  JS.replace (constructorName p) "Provider" EmptyString.

(** [ModelOptions]; a field the caller may leave out is an [option]. *)
Record ModelOptions : Type := mkOptions {
  model : option string;
  maxTokens : Z;
  systemPrompt : option string;
  tokenCount : option Z;
  webSearch : option bool;
  timeout : option Z;
  debug : option bool
}.

(** [{ ...options, model: m }] *)
Definition withModel (o : ModelOptions) (m : string) : ModelOptions :=
  mkOptions (Some m) (maxTokens o) (systemPrompt o) (tokenCount o)
            (webSearch o) (timeout o) (debug o).

(** [options?.model], with the falsy values (absent, empty) as [None]. *)
Definition requestedModel (options : option ModelOptions) : option string :=
  match options with
  | None => None
  | Some o =>
      match model o with
      | None => None
      | Some m => if JS.truthy m then Some m else None
      end
  end.

(* ================================================================== *)
(** ** BaseProvider.getModel *)

Definition nl : string := String (ascii_of_nat 10) EmptyString.

Definition isLineTerminator (c : ascii) : bool :=
  let n := nat_of_ascii c in ((n =? 10) || (n =? 13))%nat.

Fixpoint noLineTerminator (s : string) : bool :=
  match s with
  | EmptyString => true
  | String c s' => negb (isLineTerminator c) && noLineTerminator s'
  end.

(** The pattern of the [-exp] attempt: start of string, a lazy group of any
    characters, then [-exp], then optionally a dash and any characters, then
    end of string.  [expTail s] matches what follows the group at the start of
    [s]: the optional part has to reach the end of the string, and "any
    character" stops at a line terminator. *)
Definition expTail (s : string) : bool :=
  JS.startsWith s "-exp" &&
  match JS.drop 4 s with
  | EmptyString => true
  | String c r => Ascii.eqb c "-"%char && noLineTerminator r
  end.

(** [model.match(...)]: the lazy group takes one more character at a time
    until the tail matches; the value is [expMatch[1]]. *)
Fixpoint expMatch (s : string) : option string :=
  if expTail s then Some EmptyString
  else match s with
       | EmptyString => None
       | String c s' =>
           if isLineTerminator c then None
           else option_map (String c) (expMatch s')
       end.

(** [`- ${m}`] for every element, joined by line feeds. *)
Definition bulletList (models : list string) : string :=
  JS.join nl (map (fun m => "- " ++ m) models).

Section Resolution.

(** [a.localeCompare(b)], through the sign of its result. *)
Variable localeCompare : string -> string -> comparison.

(** [getSimilarModels] of '../utils/stringSimilarity'. *)
Variable getSimilarModels : string -> list string -> list string.

(** The comparator [(a, b) => b.localeCompare(a)]. *)
Definition descending (a b : string) : comparison := localeCompare b a.

(** [Array.from(availableModels).filter(m => m.startsWith(p)).sort(...)] *)
Definition sortedMatches (availableModels : list string) (p : string) : list string :=
  JS.sort descending (filter (fun m => JS.startsWith m p) availableModels).

(** [Array.from(availableModels).find(m => { const parts = m.split('/');
    return parts.length === 2 && parts[1] === model; })] *)
Definition findQualified (availableModels : list string) (model : string) : option string :=
  find (fun m =>
          match JS.split m "/"%char with
          | [_; second] => String.eqb second model
          | _ => false
          end) availableModels.

Definition notFoundSimilar (p : provider) (model : string) (similarModels : list string) : string :=
  "Model '" ++ model ++ "' not found in " ++ providerLabel p ++ "." ++ nl ++ nl ++
  "You requested: " ++ model ++ nl ++
  "Similar available models:" ++ nl ++ bulletList similarModels ++ nl ++ nl ++
  "Use --model with one of the above models." ++
  (if String.eqb (constructorName p) "ModelBoxProvider"
   then " Note: ModelBox requires provider prefixes (e.g., 'openai/gpt-4' instead of just 'gpt-4')."
   else EmptyString).

Definition notFoundRecent (p : provider) (model : string) (recentModels : list string) : string :=
  "Model '" ++ model ++ "' not found in " ++ providerLabel p ++ "." ++ nl ++ nl ++
  "You requested: " ++ model ++ nl ++
  "Recent available models:" ++ nl ++ bulletList recentModels ++ nl ++ nl ++
  "Use --model with one of the above models.".

(** The last part of [getModel]: no resolution attempt succeeded. *)
Definition modelNotFound (p : provider) (availableModels : list string) (model : string) : error :=
  let similarModels := getSimilarModels model availableModels in
  if (0 <? List.length similarModels)%nat
  then mkError ModelNotFoundError (notFoundSimilar p model similarModels)
  else
    let recentModels := JS.sort descending availableModels in
    mkError ModelNotFoundError (notFoundRecent p model recentModels).

(** The [-exp] attempt and what follows it. *)
Definition resolveExp (p : provider) (availableModels : list string) (model : string) : result string :=
  match expMatch model with
  | Some modelWithoutExp =>
      match JS.lastElement (sortedMatches availableModels modelWithoutExp) with
      | Some resolvedModel => Return resolvedModel
      | None => Throw (modelNotFound p availableModels model)
      end
  | None => Throw (modelNotFound p availableModels model)
  end.

(** The [-latest] attempt and what follows it. *)
Definition resolveLatest (p : provider) (availableModels : list string) (model : string) : result string :=
  if JS.endsWith model "-latest" then
    let modelWithoutLatest := JS.sliceEnd model (String.length "-latest") in
    match JS.lastElement (sortedMatches availableModels modelWithoutLatest) with
    | Some resolvedModel => Return resolvedModel
    | None => resolveExp p availableModels model
    end
  else resolveExp p availableModels model.

(** The prefix attempt and what follows it. *)
Definition resolvePrefix (p : provider) (availableModels : list string) (model : string) : result string :=
  match JS.lastElement (sortedMatches availableModels model) with
  | Some resolvedModel => Return resolvedModel
  | None => resolveLatest p availableModels model
  end.

(** [getModel] once the set of available models is at hand. *)
Definition resolveModel (p : provider) (availableModels : list string) (model : string) : result string :=
  if JS.has availableModels model then Return model
  else if negb (JS.includes model "/") then
    match findQualified availableModels model with
    | Some exactMatchWithProvider =>
        if JS.truthy exactMatchWithProvider then Return exactMatchWithProvider
        else resolvePrefix p availableModels model
    | None => resolvePrefix p availableModels model
    end
  else resolvePrefix p availableModels model.

(** [getModel(options)].  [availableModels] is the provider's field: absent
    ([None]), or a promise that is awaited. *)
Definition getModel (p : provider) (availableModels : option (result (list string)))
           (options : option ModelOptions) : result string :=
  match requestedModel options with
  | None => Throw (mkError ModelNotFoundError (providerLabel p))
  | Some model =>
      match availableModels with
      | None => Return model
      | Some awaited =>
          bindR awaited (fun availableModels => resolveModel p availableModels model)
      end
  end.

End Resolution.

(* ================================================================== *)
(** ** Error classes at run time *)

Section Errors.

(** [subclass c d]: class [c] is declared, in '../errors', as extending
    [d], directly or not. *)
Variable subclass : errorClass -> errorClass -> bool.

(** How '../errors' builds [error.message] from the constructor's
    argument. *)
Variable messageOf : errorClass -> string -> string.

(** [e instanceof c], for [c] one of the classes of '../errors'; a
    built-in error is an instance of none of them. *)
Definition instanceOf (e : error) (c : errorClass) : bool :=
  match errClass e with
  | PlainError => false
  | k => errorClass_eqb k c || subclass k c
  end.

(** [error.message] *)
Definition message (e : error) : string := messageOf (errClass e) (errArg e).

(** The [shouldRetry] argument of the two Google providers. *)
Definition googleShouldRetry (e : error) : bool :=
  if instanceOf e NetworkError then
    let errorText := JS.toLowerCase (message e) in
    JS.includes errorText "429" || JS.includes errorText "resource exhausted"
  else false.

(** The [shouldRetry] argument of [PerplexityProvider]. *)
Definition perplexityShouldRetry (e : error) : bool :=
  if instanceOf e NetworkError then
    let errorText := JS.toLowerCase (message e) in
    JS.includes errorText "429" || JS.includes errorText "rate limit"
  else false.

End Errors.

(* ================================================================== *)
(** ** retryWithBackoff *)

Section Retry.

(** [W] is whatever the operation acts on; [T] is what it resolves to. *)
Context {W T : Type}.
Variable operation : W -> result T * W.
Variable maxAttempts : Z.
Variable baseDelay : Z.
Variable shouldRetry : error -> bool.

(** What one call of [retryWithBackoff] did: how it settled, the state it
    left, and, for the record, the number of calls of [operation], the
    errors caught in order and the delays waited in order. *)
Record retryRun : Type := mkRun {
  outcome : result T;
  final : W;
  invocations : nat;
  caught : list error;
  waited : list Z
}.

(** The test [attempt >= maxAttempts || !shouldRetry(error)], with the
    facts each branch can rely on. *)
Definition giveUp (attempt : Z) (e : error) :
  {attempt >= maxAttempts \/ shouldRetry e = false} +
  {attempt < maxAttempts /\ shouldRetry e = true}.
Proof.
  destruct (Z_ge_lt_dec attempt maxAttempts) as [Hge | Hlt].
  - left. left. exact Hge.
  - destruct (shouldRetry e) eqn:Hs.
    + right. split; [exact Hlt | reflexivity].
    + left. right. reflexivity.
Defined.

(** The body of [while (true)], entered with the current [attempt]. *)
Equations? retryLoop (attempt : Z) (w : W) : retryRun
  by wf (Z.to_nat (maxAttempts - attempt)) lt :=
  retryLoop attempt w with operation w => {
    | (Return v, w') := mkRun (Return v) w' 1 [] [];
    | (Throw e, w') with giveUp attempt e => {
        | left _ := mkRun (Throw e) w' 1 [e] [];
        | right _ :=
            let delay := baseDelay * 2 ^ (attempt - 1) in
            let rest := retryLoop (attempt + 1) w' in
            mkRun (outcome rest) (final rest) (S (invocations rest))
                  (e :: caught rest) (delay :: waited rest) } }.
Proof. lia. Qed.

(** [let attempt = 1; while (true) ...] *)
Definition retryTrace (w : W) : retryRun := retryLoop 1 w.

Definition retryWithBackoff (w : W) : result T * W :=
  let run := retryTrace w in (outcome run, final run).

End Retry.

(* ================================================================== *)
(** ** handleLargeTokenCount *)

(** The object [{ model?, error? }]; the field [model] is [switchTo]
    here. *)
Record tokenDecision : Type := mkDecision {
  switchTo : option string;
  tokenError : option string
}.

Definition tooLargeMessage : string :=
  "Repository content is too large for Vertex AI API." ++ nl ++
  "Please try:" ++ nl ++
  "1. Using a more specific query to document a particular feature or module" ++ nl ++
  "2. Running the documentation command on a specific directory or file" ++ nl ++
  "3. Cloning the repository locally and using .gitignore to exclude non-essential files".

(** The two overrides share their body but for the model name. *)
Definition googleTokenCount (switchModel : string) (tokenCount : Z) : tokenDecision :=
  if (800000 <? tokenCount) && (tokenCount <? 2000000) then
    mkDecision (Some switchModel) None
  else if tokenCount >=? 2000000 then
    mkDecision None (Some tooLargeMessage)
  else mkDecision None None.

(** [this.handleLargeTokenCount(tokenCount)], by the class of [this]. *)
Definition handleLargeTokenCount (p : provider) (tokenCount : Z) : tokenDecision :=
  match p with
  | GoogleVertexAIProvider => googleTokenCount "gemini-2.0-pro-exp-02-05" tokenCount
  | GoogleGenerativeLanguageProvider => googleTokenCount "gemini-2.0-pro-exp" tokenCount
  | _ => mkDecision None None
  end.

(* ================================================================== *)
(** ** Gemini responses and their citations *)

(** [chunk.web]: [uri] and the optional [title]. *)
Record GeminiWeb : Type := mkWeb { uri : string; title : option string }.

Record GeminiGroundingChunk : Type := mkChunk { web : option GeminiWeb }.

(** [segment.startIndex], [segment.endIndex] and [confidenceScores] are
    never read. *)
Record GeminiGroundingSupport : Type := mkSupport {
  segmentText : string;
  groundingChunkIndices : list Z
}.

(** The code reads every field through [?.], so each may be absent. *)
Record GeminiGroundingMetadata : Type := mkGrounding {
  groundingChunks : option (list GeminiGroundingChunk);
  groundingSupports : option (list GeminiGroundingSupport);
  webSearchQueries : option (list string)
}.

Record GeminiPart : Type := mkPart { text : option string }.

Record GeminiContent : Type := mkContent { parts : option (list GeminiPart) }.

Record GeminiCandidate : Type := mkCandidate {
  content : option GeminiContent;
  groundingMetadata : option GeminiGroundingMetadata
}.

(** The JSON body of a successful reply. *)
Record GeminiData : Type := mkData { candidates : option (list GeminiCandidate) }.

(** Reading a property of [undefined]. *)
Definition typeError : error := mkError PlainError "TypeError".

(** [data.candidates[0]] *)
Definition firstCandidate (data : GeminiData) : result (option GeminiCandidate) :=
  match candidates data with
  | None => Throw typeError
  | Some cs => Return (nth_error cs 0)
  end.

(** [candidate?.content?.parts[0]?.text] *)
Definition candidateText (candidate : option GeminiCandidate) : result (option string) :=
  match candidate with
  | None => Return None
  | Some c =>
      match content c with
      | None => Return None
      | Some ct =>
          match parts ct with
          | None => Throw typeError
          | Some ps =>
              match nth_error ps 0 with
              | None => Return None
              | Some part => Return (text part)
              end
          end
      end
  end.

(** The loop that builds [webSearchText]. *)
Definition webSearchTextOf (webSearchQueries : option (list string)) : string :=
  match webSearchQueries with
  | Some (q :: qs) =>
      fold_left (fun acc query => acc ++ "- " ++ query ++ nl) (q :: qs)
                (nl ++ "Web search queries:" ++ nl) ++ nl
  | _ => EmptyString
  end.

(** A [Map<number, { uri, title }>] in insertion order. *)
Definition citationMap : Type := list (Z * GeminiWeb).

(** [citationSources.get(idx)] *)
Fixpoint mapGet (m : citationMap) (idx : Z) : option GeminiWeb :=
  match m with
  | [] => None
  | (k, v) :: m' => if k =? idx then Some v else mapGet m' idx
  end.

(** [citationSources.set(idx, v)] for a key that may be there already. *)
Fixpoint mapSet (m : citationMap) (idx : Z) (v : GeminiWeb) : citationMap :=
  match m with
  | [] => [(idx, v)]
  | (k, v') :: m' => if k =? idx then (k, v) :: m' else (k, v') :: mapSet m' idx v
  end.

(** [groundingChunks.forEach((chunk, idx) => ...)], from index [idx] on. *)
Fixpoint collectSources (chunks : list GeminiGroundingChunk) (idx : Z)
         (citationSources : citationMap) : citationMap :=
  match chunks with
  | [] => citationSources
  | chunk :: rest =>
      collectSources rest (idx + 1)
        (match web chunk with
         | Some w => mapSet citationSources idx w
         | None => citationSources
         end)
  end.

(** [groundingChunkIndices.map(...).filter(Boolean).join('')] *)
Definition citationsOf (citationSources : citationMap) (indices : list Z) : string :=
  JS.join EmptyString
    (filter JS.truthy
       (map (fun idx =>
               match mapGet citationSources idx with
               | Some _ => "[" ++ JS.numberToString (idx + 1) ++ "]"
               | None => EmptyString
               end) indices)).

(** [groundingSupports.forEach(support => formattedText += ...)] *)
Definition formatSupports (citationSources : citationMap)
           (supports : list GeminiGroundingSupport) : string :=
  fold_left
    (fun formattedText support =>
       let citations := citationsOf citationSources (groundingChunkIndices support) in
       formattedText ++
       (segmentText support ++
        (if JS.truthy citations then " " ++ citations else EmptyString) ++ " "))
    supports EmptyString.

(** [citationSources.forEach((source, idx) => citationsText += ...)] *)
Definition formatCitations (citationSources : citationMap) : string :=
  fold_left
    (fun citationsText entry =>
       let '(idx, source) := entry in
       citationsText ++
       ("[" ++ JS.numberToString (idx + 1) ++ "]: " ++ uri source ++
        match title source with
        | Some t => if JS.truthy t then " " ++ t else EmptyString
        | None => EmptyString
        end ++ nl))
    citationSources (nl ++ "Citations:" ++ nl).

(** The body of [if (grounding?.groundingSupports?.length > 0 && ...)]:
    the value assigned to [formattedContent]. *)
Definition formatGrounded (chunks : list GeminiGroundingChunk)
           (supports : list GeminiGroundingSupport) (webSearchText : string) : string :=
  let citationSources := collectSources chunks 0 [] in
  let formattedText := formatSupports citationSources supports in
  let formattedText :=
    if (0 <? List.length citationSources)%nat
    then formatCitations citationSources ++ nl ++ webSearchText ++ formattedText
    else webSearchText ++ formattedText in
  JS.trim formattedText.

(** [grounding?.groundingSupports?.length > 0 &&
     grounding?.groundingChunks?.length > 0], with the two arrays. *)
Definition groundedLists (grounding : option GeminiGroundingMetadata)
  : option (list GeminiGroundingChunk * list GeminiGroundingSupport) :=
  match grounding with
  | None => None
  | Some g =>
      match groundingSupports g, groundingChunks g with
      | Some (s :: ss), Some (c :: cs) => Some (c :: cs, s :: ss)
      | _, _ => None
      end
  end.

(** The value of [formattedContent] when it is tested. *)
Definition formattedContentOf (rawContent : option string)
           (grounding : option GeminiGroundingMetadata) : option string :=
  let webSearchText :=
    webSearchTextOf (match grounding with
                     | Some g => webSearchQueries g
                     | None => None
                     end) in
  match groundedLists grounding with
  | Some (chunks, supports) => Some (formatGrounded chunks supports webSearchText)
  | None => rawContent
  end.

(** From [const content = ...] to [return formattedContent], for the
    provider whose name the error message carries. *)
Definition geminiResponseText (vendorName : string) (data : GeminiData) : result string :=
  bindR (firstCandidate data) (fun candidate =>
  bindR (candidateText candidate) (fun rawContent =>
    let grounding :=
      match candidate with
      | Some c => groundingMetadata c
      | None => None
      end in
    match formattedContentOf rawContent grounding with
    | Some formattedContent =>
        if JS.truthy formattedContent then Return formattedContent
        else Throw (mkError ProviderError (vendorName ++ " returned an empty response"))
    | None => Throw (mkError ProviderError (vendorName ++ " returned an empty response"))
    end)).

(* ================================================================== *)
(** ** Vendor requests and replies *)

(** [ProviderConfig], as declared in the file. *)
Record ProviderConfig : Type := mkProviderConfig {
  cfgModel : option string;
  cfgMaxTokens : option Z;
  apiKey : option string;
  referer : option string;
  appName : option string;
  debugLogMaxLength : option Z
}.

(** [Config] of '../types', which the file reads as a record indexed by
    the lower-cased class name. *)
Definition Config : Type := string -> option ProviderConfig.

(** A chat message: role and content. *)
Definition chatMessage : Type := (string * string)%type.

(** The second argument of [client.chat.completions.create], where one is
    passed: [{ timeout, maxRetries }].  The client repeats a failed HTTP
    request by itself up to [maxRetries] times within the one call. *)
Record RequestOptions : Type := mkRequestOptions {
  timeoutMs : Z;
  maxRetries : Z
}.

(** A call of a vendor: a [fetch], or one call of the [create] method of
    a client. *)
Inductive request : Type :=
| GeminiRequest (url : string) (bearer : option string) (role : option string)
                (prompt : string) (maxOutputTokens : Z)
                (system_instruction : option string) (google_search : bool)
| ChatRequest (sender : provider) (webSearchClient : bool) (chatModel : string)
              (messages : list chatMessage) (max_tokens : Z)
              (asCompletionTokens : bool) (requestOptions : option RequestOptions)
| PerplexityRequest (bearer : string) (chatModel : string)
                    (messages : list chatMessage) (max_tokens : Z)
| AnthropicRequest (chatModel : string) (max_tokens : Z) (system : string)
                   (prompt : string).

(** What [fetch] and the reading of its response come to. *)
Inductive httpReply (D : Type) : Type :=
| FetchThrows (e : error)
| NotOk (status : Z) (errorText : string)
| Ok (data : D).

Arguments FetchThrows {D} e.
Arguments NotOk {D} status errorText.
Arguments Ok {D} data.

(** [response.choices[i].message.content] of the OpenAI client. *)
Definition ChatCompletion : Type := list (option string).

(** [choice.message], then [message.content], both possibly absent. *)
Record PerplexityChoice : Type := mkChoice { choiceMessage : option (option string) }.

Record PerplexityData : Type := mkPerplexityData {
  choices : option (list PerplexityChoice)
}.

Record AnthropicBlock : Type := mkBlock { blockType : string; blockText : string }.

(** [response.content] of the Anthropic client. *)
Definition AnthropicMessage : Type := list AnthropicBlock.

(** Everything outside the process that [executePrompt] depends on.  A
    vendor answers a request knowing the requests sent before it.
    [getClient keyFile] is what [new GoogleAuth({ keyFile, scopes })
    .getClient()] settles to, [keyFile] being absent for the application
    default credentials. *)
Record host : Type := mkHost {
  GEMINI_API_KEY : option string;
  PERPLEXITY_API_KEY : option string;
  existsSync : string -> bool;
  getClient : option string -> result unit;
  getAccessToken : result string;
  fetchGemini : list request -> request -> httpReply GeminiData;
  fetchPerplexity : list request -> request -> httpReply PerplexityData;
  chatCompletionsCreate : list request -> request -> result ChatCompletion;
  messagesCreate : list request -> request -> result AnthropicMessage;
  chunkMessage : string -> Z -> list string
}.

(* ================================================================== *)
(** ** The provider object, the options objects and the monad *)

(** An options object is known by its address in [heap]. *)
Definition ref : Type := nat.

Record world : Type := mkWorld {
  thisConfig : Config;
  thisAvailableModels : option (result (list string));
  heap : list ModelOptions;
  sent : list request
}.

Definition M (T : Type) : Type := world -> result T * world.

Definition ret {T : Type} (v : T) : M T := fun w => (Return v, w).

Definition throw {T : Type} (e : error) : M T := fun w => (Throw e, w).

Definition bindM {T U : Type} (c : M T) (k : T -> M U) : M U :=
  fun w =>
    match c w with
    | (Return v, w') => k v w'
    | (Throw e, w') => (Throw e, w')
    end.

Notation "x <- c ;; k" := (bindM c (fun x => k))
  (at level 61, c at next level, right associativity).

(** [try { c } catch (error) { handler }] *)
Definition tryCatch {T : Type} (c : M T) (handler : error -> M T) : M T :=
  fun w =>
    match c w with
    | (Return v, w') => (Return v, w')
    | (Throw e, w') => handler e w'
    end.

(** A pure computation that may throw. *)
Definition lift {T : Type} (r : result T) : M T := fun w => (r, w).

(** [this.config = c] *)
Definition setConfig (c : Config) : M unit :=
  fun w => (Return tt, mkWorld c (thisAvailableModels w) (heap w) (sent w)).

(** [this.availableModels = promise] *)
Definition setAvailableModels (promise : result (list string)) : M unit :=
  fun w => (Return tt, mkWorld (thisConfig w) (Some promise) (heap w) (sent w)).

(** [this.availableModels] *)
Definition readAvailableModels : M (option (result (list string))) :=
  fun w => (Return (thisAvailableModels w), w).

(** [await this.availableModels] *)
Definition awaitAvailableModels : M (option (list string)) :=
  promise <- readAvailableModels ;;
  match promise with
  | None => ret None
  | Some (Return models) => ret (Some models)
  | Some (Throw e) => throw e
  end.

(** The object a variable holds, if it holds one. *)
Definition optionsAt (w : world) (options : option ref) : option ModelOptions :=
  match options with
  | Some a => nth_error (heap w) a
  | None => None
  end.

Definition deref (options : option ref) : M (option ModelOptions) :=
  fun w => (Return (optionsAt w options), w).

(** [options.field]: a [TypeError] when [options] is [undefined]. *)
Definition derefRequired (options : option ref) : M ModelOptions :=
  o <- deref options ;;
  match o with
  | Some opts => ret opts
  | None => throw typeError
  end.

(** A new object. *)
Definition alloc (o : ModelOptions) : M ref :=
  fun w =>
    (Return (List.length (heap w)),
     mkWorld (thisConfig w) (thisAvailableModels w) (heap w ++ [o]) (sent w)).

(** A request goes out and the vendor's reply comes back. *)
Definition exchange {D : Type} (vendor : list request -> request -> D)
           (rq : request) : M D :=
  fun w =>
    (Return (vendor (sent w) rq),
     mkWorld (thisConfig w) (thisAvailableModels w) (heap w) (sent w ++ [rq])).

(** The constructors: [BaseProvider] stores the loaded configuration, and
    the three classes that list their models store the promise of
    [initializeModels()]. *)
Definition construct (p : provider) (loadConfig : Config)
           (initializeModels : result (list string)) : M unit :=
  _ <- setConfig loadConfig ;;
  match p with
  | GoogleVertexAIProvider
  | GoogleGenerativeLanguageProvider
  | ModelBoxProvider => setAvailableModels initializeModels
  | _ => ret tt
  end.

(** [options?.systemPrompt || '...'] *)
Definition getSystemPrompt (options : option ModelOptions) : string :=
  match options with
  | Some o =>
      match systemPrompt o with
      | Some s =>
          if JS.truthy s then s
          else "You are a helpful assistant. Provide clear and concise responses."
      | None => "You are a helpful assistant. Provide clear and concise responses."
      end
  | None => "You are a helpful assistant. Provide clear and concise responses."
  end.

(** [[...(systemPrompt ? [{ role: 'system', ... }] : []), { role: 'user', ... }]] *)
Definition chatMessages (systemPrompt prompt : string) : list chatMessage :=
  (if JS.truthy systemPrompt then [("system", systemPrompt)] else []) ++
  [("user", prompt)].

(** [Math.floor(options?.timeout ?? TEN_MINUTES)] *)
Definition timeoutOf (o : ModelOptions) : Z :=
  match timeout o with
  | Some t => t
  | None => 600000
  end.

(** A truthy optional flag. *)
Definition flag (b : option bool) : bool :=
  match b with
  | Some true => true
  | _ => false
  end.

(* ================================================================== *)
(** ** Helpers shared by the providers *)

(** A string field that is present and not empty. *)
Definition truthyField (s : option string) : option string :=
  match s with
  | Some v => if JS.truthy v then Some v else None
  | None => None
  end.

(** [m.includes('/') ? m.split('/')[1] : m]; a string with a slash has a
    second piece. *)
Definition withoutPrefix (m : string) : string :=
  if JS.includes m "/" then nth 1 (JS.split m "/"%char) EmptyString else m.

(** [m.includes('sonar') || m.includes('online') || m.includes('gemini')] *)
Definition namesWebSearch (m : string) : bool :=
  JS.includes m "sonar" || JS.includes m "online" || JS.includes m "gemini".

Definition isWebSearchSupportedModelOnModelBox (model : string) : bool :=
  let modelWithoutPrefix := withoutPrefix model in
  namesWebSearch modelWithoutPrefix.

(** The filter that both ModelBox methods call [matchingModels]. *)
Definition matchesModelBox (model modelWithoutPrefix m : string) : bool :=
  String.eqb m model ||
  String.eqb m ("openai/" ++ model) ||
  JS.endsWith m ("/" ++ modelWithoutPrefix) ||
  String.eqb m modelWithoutPrefix.

Section Providers.

Variable localeCompare : string -> string -> comparison.
Variable getSimilarModels : string -> list string -> list string.

(** [stringSimilarity] of '../utils/stringSimilarity'. *)
Variable stringSimilarity : string -> string -> Q.

Variable subclass : errorClass -> errorClass -> bool.
Variable messageOf : errorClass -> string -> string.
Variable h : host.

(** [await this.getModel(options)] *)
Definition getModelOf (p : provider) (options : option ref) : M string :=
  o <- deref options ;;
  promise <- readAvailableModels ;;
  lift (getModel localeCompare getSimilarModels p promise o).

(** The block [if (options?.tokenCount) { ... }] of the two Google
    providers; its value is what [options] holds afterwards. *)
Definition applyTokenCount (p : provider) (options : option ref) : M (option ref) :=
  o <- deref options ;;
  match o with
  | None => ret options
  | Some opts =>
      match tokenCount opts with
      | None => ret options
      | Some n =>
          if n =? 0 then ret options
          else
            let decision := handleLargeTokenCount p n in
            match truthyField (tokenError decision) with
            | Some err => throw (mkError ProviderError err)
            | None =>
                match truthyField (switchTo decision) with
                | Some tokenModel =>
                    a <- alloc (withModel opts tokenModel) ;;
                    ret (Some a)
                | None => ret options
                end
            end
      end
  end.

(** The [catch] clauses: which errors pass unchanged, and the message of
    the [NetworkError] that replaces the others. *)
Definition rethrowProviderError {T : Type} (failure : string) (e : error) : M T :=
  if instanceOf subclass e ProviderError then throw e
  else throw (mkError NetworkError failure).

Definition rethrowProviderOrNetworkError {T : Type} (failure : string) (e : error) : M T :=
  if instanceOf subclass e ProviderError || instanceOf subclass e NetworkError
  then throw e
  else throw (mkError NetworkError failure).

(** [options?.webSearch], read when the request is built. *)
Definition webSearchOf (options : option ref) : M bool :=
  o <- deref options ;;
  ret (match o with
       | Some opts => flag (webSearch opts)
       | None => false
       end).

(** What a 2xx, a non-2xx or a failed fetch becomes, for the vendor whose
    name the messages carry. *)
Definition readGeminiReply (vendorName : string) (reply : httpReply GeminiData) : M string :=
  match reply with
  | FetchThrows e => throw e
  | NotOk status errorText =>
      throw (mkError NetworkError
               (vendorName ++ " API error (" ++ JS.numberToString status ++ "): " ++ errorText))
  | Ok data => lift (geminiResponseText vendorName data)
  end.

(* ------------------------------------------------------------------ *)
(** *** GoogleVertexAIProvider *)

Definition getAuthClient : result unit :=
  match truthyField (GEMINI_API_KEY h) with
  | None => Throw (mkError ApiKeyMissingError "Google Vertex AI")
  | Some apiKey =>
      if JS.endsWith apiKey ".json" then
        if negb (existsSync h apiKey)
        then Throw (mkError PlainError ("Google Vertex AI JSON key file not found at: " ++ apiKey))
        else getClient h (Some apiKey)
      else if String.eqb (JS.toLowerCase apiKey) "adc" then getClient h None
      else Throw (mkError PlainError
                    "Google Vertex AI requires service account authentication. Please provide a JSON key file or use ADC.")
  end.

Definition vertexURL (model : string) : string :=
  "https://us-central1-aiplatform.googleapis.com/v1/projects/prime-elf-451813-c9/locations/us-central1/publishers/google/models/"
  ++ model ++ ":generateContent".

(** The operation handed to [retryWithBackoff]. *)
Definition vertexOperation (prompt : string) (options : option ref) (maxTokens : Z)
           (systemPrompt : string) (baseURL : string) : M string :=
  tryCatch
    (tools <- webSearchOf options ;;
     _ <- lift getAuthClient ;;
     token <- lift (getAccessToken h) ;;
     reply <- exchange (fetchGemini h)
                (GeminiRequest baseURL (Some token) (Some "user") prompt maxTokens
                               (truthyField (Some systemPrompt)) tools) ;;
     readGeminiReply "Google Vertex AI" reply)
    (rethrowProviderError "Failed to communicate with Google Vertex AI API").

Definition vertexExecutePrompt (prompt : string) (options : option ref) : M string :=
  model <- getModelOf GoogleVertexAIProvider options ;;
  options <- applyTokenCount GoogleVertexAIProvider options ;;
  availableModels <- awaitAvailableModels ;;
  match availableModels with
  | None => throw (mkError PlainError "Models not initialized. Call initializeModels() first.")
  | Some availableModels =>
      if negb (JS.has availableModels model) then
        let similarModels := getSimilarModels model availableModels in
        throw (mkError ModelNotFoundError
                 ("Model '" ++ model ++ "' not found in Vertex AI." ++ nl ++ nl ++
                  "You requested: " ++ model ++ nl ++
                  "Similar available models:" ++ nl ++ bulletList similarModels ++ nl ++ nl ++
                  "Use --model with one of the above models."))
      else
        o <- derefRequired options ;;
        let maxTokens := maxTokens o in
        let systemPrompt := getSystemPrompt (Some o) in
        let baseURL := vertexURL model in
        retryWithBackoff
          (vertexOperation prompt options maxTokens systemPrompt baseURL)
          5 1000 (googleShouldRetry subclass messageOf)
  end.

(* ------------------------------------------------------------------ *)
(** *** GoogleGenerativeLanguageProvider *)

Definition getAPIKey : result string :=
  match truthyField (GEMINI_API_KEY h) with
  | None => Throw (mkError ApiKeyMissingError "Google Generative Language")
  | Some apiKey =>
      if JS.endsWith apiKey ".json" || String.eqb (JS.toLowerCase apiKey) "adc" then
        Throw (mkError PlainError
                 "Service account authentication is not supported for Google Generative Language API. Please use an API key.")
      else Return apiKey
  end.

Definition generativeLanguageURL (model : string) : string :=
  "https://generativelanguage.googleapis.com/v1beta/models/" ++ model ++ ":generateContent".

Definition generativeLanguageOperation (prompt : string) (options : option ref)
           (maxTokens : Z) (systemPrompt : string) (baseURL : string) : M string :=
  tryCatch
    (tools <- webSearchOf options ;;
     apiKey <- lift getAPIKey ;;
     let url := baseURL ++ "?key=" ++ apiKey in
     reply <- exchange (fetchGemini h)
                (GeminiRequest url None None prompt maxTokens
                               (truthyField (Some systemPrompt)) tools) ;;
     readGeminiReply "Google Generative Language" reply)
    (rethrowProviderError "Failed to communicate with Google Generative Language API").

Definition generativeLanguageExecutePrompt (prompt : string) (options : option ref) : M string :=
  options <- applyTokenCount GoogleGenerativeLanguageProvider options ;;
  model <- getModelOf GoogleGenerativeLanguageProvider options ;;
  o <- derefRequired options ;;
  let maxTokens := maxTokens o in
  let systemPrompt := getSystemPrompt (Some o) in
  let baseURL := generativeLanguageURL model in
  retryWithBackoff
    (generativeLanguageOperation prompt options maxTokens systemPrompt baseURL)
    5 1000 (googleShouldRetry subclass messageOf).

(* ------------------------------------------------------------------ *)
(** *** The OpenAI-compatible providers *)

(** [response.choices[0].message.content], when it is truthy. *)
Definition firstChoice (response : ChatCompletion) : result (option string) :=
  match nth_error response 0 with
  | None => Throw typeError
  | Some c => Return (truthyField c)
  end.

(** [OpenAIBase.executePrompt], which every subclass overrides. *)
Definition openAIBaseExecutePrompt (p : provider) (prompt : string)
           (options : option ref) : M string :=
  model <- getModelOf p options ;;
  o <- derefRequired options ;;
  let maxTokens := maxTokens o in
  let systemPrompt := getSystemPrompt (Some o) in
  let client := flag (webSearch o) in
  tryCatch
    (let messages := chatMessages systemPrompt prompt in
     reply <- exchange (chatCompletionsCreate h)
                (ChatRequest p client model messages maxTokens false None) ;;
     response <- lift reply ;;
     content <- lift (firstChoice response) ;;
     match content with
     | None => throw (mkError ProviderError (constructorName p ++ " returned an empty response"))
     | Some c => ret c
     end)
    (rethrowProviderError ("Failed to communicate with " ++ constructorName p ++ " API")).

(** The [for (const chunk of promptChunks)] loop of [OpenAIProvider];
    its value is [combinedResponseContent] after the last chunk. *)
Fixpoint openAIChunks (client : bool) (model : string) (maxTokens : Z)
         (systemPrompt : string) (promptChunks : list string)
         (combinedResponseContent : string) : M string :=
  match promptChunks with
  | [] => ret combinedResponseContent
  | chunk :: rest =>
      combined <-
        tryCatch
          (let messages := chatMessages systemPrompt chunk in
           reply <- exchange (chatCompletionsCreate h)
                      (ChatRequest OpenAIProvider client model messages maxTokens
                                   (JS.startsWith model "o") None) ;;
           response <- lift reply ;;
           content <- lift (firstChoice response) ;;
           match content with
           | Some c => ret (combinedResponseContent ++ c ++ nl)
           | None => ret combinedResponseContent
           end)
          (rethrowProviderError "Failed to communicate with OpenAIProvider API") ;;
      openAIChunks client model maxTokens systemPrompt rest combined
  end.

Definition openAIExecutePrompt (prompt : string) (options : option ref) : M string :=
  model <- getModelOf OpenAIProvider options ;;
  o <- derefRequired options ;;
  let maxTokens := maxTokens o in
  let systemPrompt := getSystemPrompt (Some o) in
  let messageLimit := 1048576 in
  let client := flag (webSearch o) in
  let promptChunks := chunkMessage h prompt messageLimit in
  combinedResponseContent <-
    openAIChunks client model maxTokens systemPrompt promptChunks EmptyString ;;
  if negb (JS.truthy (JS.trim combinedResponseContent)) then
    throw (mkError ProviderError
             "OpenAIProvider returned an overall empty response after processing chunks.")
  else ret (JS.trim combinedResponseContent).

Definition openRouterExecutePrompt (prompt : string) (options : option ref) : M string :=
  model <- getModelOf OpenRouterProvider options ;;
  o <- derefRequired options ;;
  let maxTokens := maxTokens o in
  let systemPrompt := getSystemPrompt (Some o) in
  let client := flag (webSearch o) in
  tryCatch
    (let messages := chatMessages systemPrompt prompt in
     reply <- exchange (chatCompletionsCreate h)
                (ChatRequest OpenRouterProvider client model messages maxTokens false
                             (Some (mkRequestOptions (timeoutOf o) 3))) ;;
     response <- lift reply ;;
     content <- lift (firstChoice response) ;;
     match content with
     | None => throw (mkError ProviderError "OpenRouterProvider returned an empty response")
     | Some c => ret c
     end)
    (rethrowProviderOrNetworkError "Failed to communicate with OpenRouterProvider API").

(** [ModelBoxProvider.executeWithModel] *)
Definition executeWithModel (model prompt : string) (maxTokens : Z)
           (systemPrompt : string) (o : ModelOptions) (client : bool) : M string :=
  let messages := chatMessages systemPrompt prompt in
  reply <- exchange (chatCompletionsCreate h)
             (ChatRequest ModelBoxProvider client model messages maxTokens false
                          (Some (mkRequestOptions (timeoutOf o) 3))) ;;
  response <- lift reply ;;
  content <- lift (firstChoice response) ;;
  match content with
  | None => throw (mkError ProviderError "ModelBoxProvider returned an empty response")
  | Some c => ret c
  end.

(** The models more than half similar to the request, most similar
    first. *)
Definition modelBoxSimilar (availableModels : list string) (modelWithoutPrefix : string)
  : list string :=
  JS.sort
    (fun a b =>
       Qcompare (stringSimilarity modelWithoutPrefix (withoutPrefix b))
                (stringSimilarity modelWithoutPrefix (withoutPrefix a)))
    (filter
       (fun m =>
          match Qcompare (stringSimilarity modelWithoutPrefix (withoutPrefix m)) (1 # 2) with
          | Gt => true
          | _ => false
          end) availableModels).

Definition modelBoxExecutePrompt (prompt : string) (options : option ref) : M string :=
  model <- getModelOf ModelBoxProvider options ;;
  o <- derefRequired options ;;
  let maxTokens := maxTokens o in
  let systemPrompt := getSystemPrompt (Some o) in
  let client := flag (webSearch o) in
  tryCatch
    (availableModels <- awaitAvailableModels ;;
     match availableModels with
     | None => throw (mkError PlainError "Models not initialized. Call initializeModels() first.")
     | Some availableModels =>
         let modelWithoutPrefix := withoutPrefix model in
         if JS.has availableModels model then
           executeWithModel model prompt maxTokens systemPrompt o client
         else
           match truthyField (findQualified availableModels modelWithoutPrefix) with
           | Some exactMatchWithProvider =>
               executeWithModel exactMatchWithProvider prompt maxTokens systemPrompt o client
           | None =>
               let matchingModels :=
                 filter (matchesModelBox model modelWithoutPrefix) availableModels in
               match matchingModels with
               | [] =>
                   let similarModels := modelBoxSimilar availableModels modelWithoutPrefix in
                   throw (mkError ModelNotFoundError
                            ("Model '" ++ model ++ "' not found in ModelBox." ++ nl ++ nl ++
                             "You requested: " ++ model ++ nl ++
                             "Similar available models:" ++ nl ++
                             bulletList (firstn 5 similarModels) ++ nl ++ nl ++
                             "Use --model with one of the above models. Note: ModelBox requires provider prefixes (e.g., 'openai/gpt-4' instead of just 'gpt-4')."))
               | resolvedModel :: _ =>
                   executeWithModel resolvedModel prompt maxTokens systemPrompt o client
               end
           end
     end)
    (rethrowProviderOrNetworkError "Failed to communicate with ModelBoxProvider API").

(* ------------------------------------------------------------------ *)
(** *** PerplexityProvider *)

(** [data.choices[0]?.message?.content], when it is truthy. *)
Definition perplexityContent (data : PerplexityData) : result (option string) :=
  match choices data with
  | None => Throw typeError
  | Some cs =>
      match nth_error cs 0 with
      | None => Return None
      | Some c =>
          match choiceMessage c with
          | None => Return None
          | Some msg => Return (truthyField msg)
          end
      end
  end.

Definition perplexityOperation (apiKey prompt : string) (options : option ref) : M string :=
  model <- getModelOf PerplexityProvider options ;;
  o <- derefRequired options ;;
  let maxTokens := maxTokens o in
  let systemPrompt := getSystemPrompt (Some o) in
  tryCatch
    (reply <- exchange (fetchPerplexity h)
                (PerplexityRequest apiKey model (chatMessages systemPrompt prompt) maxTokens) ;;
     match reply with
     | FetchThrows e => throw e
     | NotOk _ errorText =>
         throw (mkError NetworkError ("Perplexity API error: " ++ errorText))
     | Ok data =>
         content <- lift (perplexityContent data) ;;
         match content with
         | None => throw (mkError ProviderError "Perplexity returned an empty response")
         | Some c => ret c
         end
     end)
    (rethrowProviderOrNetworkError "Failed to communicate with Perplexity API").

Definition perplexityExecutePrompt (prompt : string) (options : option ref) : M string :=
  match truthyField (PERPLEXITY_API_KEY h) with
  | None => throw (mkError ApiKeyMissingError "Perplexity")
  | Some apiKey =>
      retryWithBackoff (perplexityOperation apiKey prompt options)
                       5 1000 (perplexityShouldRetry subclass messageOf)
  end.

(* ------------------------------------------------------------------ *)
(** *** AnthropicProvider *)

Definition anthropicExecutePrompt (prompt : string) (options : option ref) : M string :=
  model <- getModelOf AnthropicProvider options ;;
  o <- derefRequired options ;;
  let maxTokens := maxTokens o in
  let systemPrompt := getSystemPrompt (Some o) in
  tryCatch
    (reply <- exchange (messagesCreate h)
                (AnthropicRequest model maxTokens systemPrompt prompt) ;;
     response <- lift reply ;;
     match nth_error response 0 with
     | None => throw (mkError ProviderError "Anthropic returned an invalid response")
     | Some content =>
         if negb (String.eqb (blockType content) "text")
         then throw (mkError ProviderError "Anthropic returned an invalid response")
         else ret (blockText content)
     end)
    (rethrowProviderError "Failed to communicate with Anthropic API").

(* ------------------------------------------------------------------ *)
(** *** Dispatch on the class of [this] *)

Definition executePrompt (p : provider) (prompt : string) (options : option ref) : M string :=
  match p with
  | GoogleVertexAIProvider => vertexExecutePrompt prompt options
  | GoogleGenerativeLanguageProvider => generativeLanguageExecutePrompt prompt options
  | OpenAIProvider => openAIExecutePrompt prompt options
  | OpenRouterProvider => openRouterExecutePrompt prompt options
  | PerplexityProvider => perplexityExecutePrompt prompt options
  | ModelBoxProvider => modelBoxExecutePrompt prompt options
  | AnthropicProvider => anthropicExecutePrompt prompt options
  end.

(* ------------------------------------------------------------------ *)
(** *** supportsWebSearch *)

(** The object [{ supported, model?, error? }]; its fields [model] and
    [error] are [suggestion] and [explanation] here. *)
Record webSearchSupport : Type := mkSupportAnswer {
  supported : bool;
  suggestion : option string;
  explanation : option string
}.

(** What the [catch] clauses of the two methods that list models return. *)
Definition checkFailed : webSearchSupport :=
  mkSupportAnswer false None
    (Some "Failed to check web search support. Please try again.").

(** [Array.from(availableModels).filter(...).slice(0, 5)] *)
Definition webSearchModelsOf (availableModels : list string) : list string :=
  firstn 5 (filter namesWebSearch availableModels).

Definition vertexSupportsWebSearch (promise : option (result (list string)))
           (modelName : string) : webSearchSupport :=
  match promise with
  | Some (Return availableModels) =>
      let modelWithoutPrefix := withoutPrefix modelName in
      if negb (JS.has availableModels modelWithoutPrefix) then
        let similarModels := getSimilarModels modelWithoutPrefix availableModels in
        let webSearchModels := filter namesWebSearch similarModels in
        match webSearchModels with
        | first :: _ =>
            mkSupportAnswer false (Some first)
              (Some ("Model '" ++ modelName ++ "' not found. Consider using " ++ first ++
                     " for web search instead."))
        | [] =>
            mkSupportAnswer false None
              (Some ("Model '" ++ modelName ++ "' not found." ++ nl ++ nl ++
                     "Available web search models:" ++ nl ++
                     bulletList (webSearchModelsOf availableModels)))
        end
      else if isWebSearchSupportedModelOnModelBox modelWithoutPrefix then
        mkSupportAnswer true None None
      else
        let webSearchModels := webSearchModelsOf availableModels in
        mkSupportAnswer false (nth_error webSearchModels 0)
          (Some ("Model " ++ modelName ++
                 " does not support web search. Try one of these models:" ++ nl ++
                 bulletList webSearchModels))
  | _ => checkFailed
  end.

Definition modelBoxSupportsWebSearch (promise : option (result (list string)))
           (modelName : string) : webSearchSupport :=
  match promise with
  | Some (Return availableModels) =>
      let modelWithoutPrefix := withoutPrefix modelName in
      let matchingModels :=
        filter (matchesModelBox modelName modelWithoutPrefix) availableModels in
      match matchingModels with
      | [] =>
          let similarModels := modelBoxSimilar availableModels modelWithoutPrefix in
          let webSearchModels := filter namesWebSearch similarModels in
          match webSearchModels with
          | first :: _ =>
              mkSupportAnswer false (Some first)
                (Some ("Model '" ++ modelName ++ "' not found. Consider using " ++ first ++
                       " for web search instead." ++ nl ++
                       "Note: ModelBox requires provider prefixes (e.g., 'openai/gpt-4' instead of just 'gpt-4')."))
          | [] =>
              mkSupportAnswer false None
                (Some ("Model '" ++ modelName ++ "' not found." ++ nl ++ nl ++
                       "Available web search models:" ++ nl ++
                       bulletList (webSearchModelsOf availableModels) ++ nl ++ nl ++
                       "Note: ModelBox requires provider prefixes (e.g., 'openai/gpt-4' instead of just 'gpt-4')."))
          end
      | resolvedModel :: _ =>
          if isWebSearchSupportedModelOnModelBox resolvedModel then
            mkSupportAnswer true None None
          else
            let webSearchModels := webSearchModelsOf availableModels in
            mkSupportAnswer false (nth_error webSearchModels 0)
              (Some ("Model " ++ resolvedModel ++
                     " does not support web search. Try one of these models:" ++ nl ++
                     bulletList webSearchModels))
      end
  | _ => checkFailed
  end.

Definition generativeLanguageSupportsWebSearch (modelName : string) : webSearchSupport :=
  let unsupportedModels :=
    ["gemini-2.0-flash-thinking-exp-01-21"; "gemini-2.0-flash-thinking-exp"] in
  if JS.has unsupportedModels modelName then
    mkSupportAnswer false (Some "gemini-2.0-pro-exp")
      (Some ("Model " ++ modelName ++ " does not support web search."))
  else mkSupportAnswer true None None.

Definition perplexitySupportsWebSearch (modelName : string) : webSearchSupport :=
  if JS.startsWith modelName "sonar" then mkSupportAnswer true None None
  else
    mkSupportAnswer false (Some "sonar-pro")
      (Some ("Model " ++ modelName ++
             " does not support web search. Use a model with -online suffix instead.")).

(** [supportsWebSearch(modelName)] on a provider whose field
    [availableModels] holds [promise]. *)
Definition supportsWebSearch (p : provider) (promise : option (result (list string)))
           (modelName : string) : webSearchSupport :=
  match p with
  | GoogleVertexAIProvider => vertexSupportsWebSearch promise modelName
  | GoogleGenerativeLanguageProvider => generativeLanguageSupportsWebSearch modelName
  | OpenAIProvider =>
      mkSupportAnswer false None (Some "OpenAI does not support web search capabilities")
  | OpenRouterProvider =>
      mkSupportAnswer false None (Some "OpenRouter does not support web search capabilities")
  | PerplexityProvider => perplexitySupportsWebSearch modelName
  | ModelBoxProvider => modelBoxSupportsWebSearch promise modelName
  | AnthropicProvider =>
      mkSupportAnswer false None (Some "Anthropic does not support web search capabilities")
  end.

End Providers.

(* ================================================================== *)
(** ** The vocabulary of the specification *)

(** [p] is a string prefix of [s]. *)
Definition IsPrefix (p s : string) : Prop := exists r, s = p ++ r.

(** [s] ends in [suffix]. *)
Definition IsSuffix (suffix s : string) : Prop := exists r, s = r ++ suffix.

(** [s] contains [sub]. *)
Definition Contains (sub s : string) : Prop := exists pre post, s = pre ++ sub ++ post.

(** [s] contains no ['/']. *)
Definition NoSlash (s : string) : Prop := ~ Contains "/" s.

(** [m] has the form 'prefix/name': two components, the second one
    [name]. *)
Definition Qualified (name m : string) : Prop :=
  exists pre, m = pre ++ "/" ++ name /\ NoSlash pre /\ NoSlash name.

(** [name] without an '-exp' or '-exp-...' suffix is [stem]. *)
Definition ExpSuffix (name stem : string) : Prop :=
  exists tail, name = stem ++ "-exp" ++ tail /\ (tail = EmptyString \/ IsPrefix "-" tail).

(** The stem the pattern captures: the name has no line break (the
    pattern's "any character" does not match one), and of the '-exp'
    suffixes the longest is removed. *)
Definition ExpStem (name stem : string) : Prop :=
  noLineTerminator name = true /\
  ExpSuffix name stem /\
  forall stem', ExpSuffix name stem' -> (String.length stem <= String.length stem')%nat.

(** [m] is in [l] and no element of [l] comes before it. *)
Definition Least (localeCompare : string -> string -> comparison)
           (m : string) (l : list string) : Prop :=
  In m l /\ forall x, In x l -> localeCompare m x <> Gt.

Section Stages.

Variable localeCompare : string -> string -> comparison.
Variable availableModels : list string.
Variable name : string.

(** [m] is a smallest available model, in the order of [localeCompare],
    among those with prefix [p]. *)
Definition SmallestWithPrefix (p m : string) : Prop :=
  In m availableModels /\ IsPrefix p m /\
  forall m', In m' availableModels -> IsPrefix p m' -> localeCompare m m' <> Gt.

(** The five stages; [StageN m] reads "stage N matches and yields [m]". *)
Definition Stage1 (m : string) : Prop := m = name /\ In name availableModels.

Definition Stage2 (m : string) : Prop :=
  NoSlash name /\ In m availableModels /\ Qualified name m.

Definition Stage3 (m : string) : Prop := SmallestWithPrefix name m.

Definition Stage4 (m : string) : Prop :=
  exists stem, name = stem ++ "-latest" /\ SmallestWithPrefix stem m.

Definition Stage5 (m : string) : Prop :=
  exists stem, ExpStem name stem /\ SmallestWithPrefix stem m.

Definition Matches (stage : string -> Prop) : Prop := exists m, stage m.

(** [m] is what the first matching stage yields. *)
Definition FirstMatch (m : string) : Prop :=
  Stage1 m \/
  (~ Matches Stage1 /\ Stage2 m) \/
  (~ Matches Stage1 /\ ~ Matches Stage2 /\ Stage3 m) \/
  (~ Matches Stage1 /\ ~ Matches Stage2 /\ ~ Matches Stage3 /\ Stage4 m) \/
  (~ Matches Stage1 /\ ~ Matches Stage2 /\ ~ Matches Stage3 /\ ~ Matches Stage4 /\ Stage5 m).

(** No stage matches. *)
Definition NoMatch : Prop :=
  ~ Matches Stage1 /\ ~ Matches Stage2 /\ ~ Matches Stage3 /\
  ~ Matches Stage4 /\ ~ Matches Stage5.

End Stages.

(** [text] is the list of [models] as a message shows it: one line for
    each model, in order, made of '- ' and the name, with a line feed
    between two lines. *)
Inductive ListOf : list string -> string -> Prop :=
| list_of_none : ListOf [] EmptyString
| list_of_one (m : string) : ListOf [m] ("- " ++ m)
| list_of_more (m : string) (models : list string) (text : string) :
    models <> [] -> ListOf models text ->
    ListOf (m :: models) ("- " ++ m ++ nl ++ text).

(** [text] shows the list of [models] under [heading]: the heading on a
    line, the list on the next ones, and an empty line after it. *)
Definition ListsUnder (heading : string) (models : list string) (text : string) : Prop :=
  exists listing,
    ListOf models listing /\ Contains (heading ++ nl ++ listing ++ nl ++ nl) text.

(** [l] is in descending order: no element comes before a later one. *)
Definition Descending (localeCompare : string -> string -> comparison)
           (l : list string) : Prop :=
  StronglySorted (fun a b => localeCompare b a <> Gt) l.

(** The comparator is consistent: swapping the arguments flips the sign,
    and "not after" is transitive. *)
Definition ConsistentComparator (localeCompare : string -> string -> comparison) : Prop :=
  (forall a b, localeCompare b a = CompOpp (localeCompare a b)) /\
  (forall a b c, localeCompare a b <> Gt -> localeCompare b c <> Gt ->
                 localeCompare a c <> Gt).


(** Letter case, as the specification reads it: [small] is the small
    letter of the capital letter [capital] of ASCII, thirty-two code units
    further. *)
Definition SmallOf (capital small : ascii) : Prop :=
  (65 <= nat_of_ascii capital <= 90)%nat /\
  nat_of_ascii small = (nat_of_ascii capital + 32)%nat.

(** [c] is the character [w] or its capital letter. *)
Definition ReadsAs (c w : ascii) : Prop := c = w \/ SmallOf c w.

(** [s] is [word] in some letter case, character by character. *)
Inductive SaysIgnoringCase : string -> string -> Prop :=
| says_nothing : SaysIgnoringCase EmptyString EmptyString
| says_more (c w : ascii) (s word : string) :
    ReadsAs c w -> SaysIgnoringCase s word ->
    SaysIgnoringCase (String c s) (String w word).

(** [s] contains [word] in some letter case. *)
Definition ContainsIgnoringCase (word s : string) : Prop :=
  exists pre mid post, s = pre ++ mid ++ post /\ SaysIgnoringCase mid word.

(** [word] is written without capital letters. *)
Fixpoint NoCapital (word : string) : Prop :=
  match word with
  | EmptyString => True
  | String c word' => ~ (65 <= nat_of_ascii c <= 90)%nat /\ NoCapital word'
  end.

(** White space, as the specification reads it: tab, line feed, vertical
    tab, form feed, carriage return, space and no-break space. *)
Definition WhiteSpace (c : ascii) : Prop :=
  In (nat_of_ascii c) [9; 10; 11; 12; 13; 32; 160]%nat.

(** [s] is made of white space only (the empty string is). *)
Fixpoint Blank (s : string) : Prop :=
  match s with
  | EmptyString => True
  | String c s' => WhiteSpace c /\ Blank s'
  end.

(** [t] is [s] without the white space at its two ends: [s] is [t]
    between two blank strings, and [t] neither starts nor ends with white
    space. *)
Definition TrimOf (s t : string) : Prop :=
  exists before after,
    s = before ++ t ++ after /\ Blank before /\ Blank after /\
    (forall c rest, t = String c rest -> ~ WhiteSpace c) /\
    (forall rest c, t = rest ++ String c EmptyString -> ~ WhiteSpace c).

(** The delays grow linearly with the attempt number, starting from the
    base delay: a constant step from each one to the next. *)
Definition LinearDelays (baseDelay : Z) (delays : list Z) : Prop :=
  exists step, forall i d, nth_error delays i = Some d -> d = baseDelay + step * Z.of_nat i.

(** Calls of [operation] one after the other, the first one in state [w]:
    their results, oldest first, and the state the last one leaves. *)
Inductive CallsFrom {W T : Type} (operation : W -> result T * W) :
  W -> list (result T) -> W -> Prop :=
| calls_none (w : W) : CallsFrom operation w [] w
| calls_more (w w' w'' : W) (r : result T) (rest : list (result T)) :
    operation w = (r, w') -> CallsFrom operation w' rest w'' ->
    CallsFrom operation w (r :: rest) w''.

(** The operation, watched: beside the state it acts on there is a record
    of the results of its calls, and every call adds its own at the end. *)
Definition watched {W T : Type} (operation : W -> result T * W)
           (s : W * list (result T)) : result T * (W * list (result T)) :=
  let (r, w') := operation (fst s) in (r, (w', (snd s ++ [r])%list)).

(** The result of a call is an error that [shouldRetry] accepts. *)
Definition Retryable {T : Type} (shouldRetry : error -> bool) (r : result T) : Prop :=
  exists e, r = Throw e /\ shouldRetry e = true.

(** The default values of [maxAttempts], [baseDelay] and [shouldRetry]. *)
Definition defaultMaxAttempts : Z := 5.
Definition defaultBaseDelay : Z := 1000.
Definition defaultShouldRetry (e : error) : bool := true.

(* ================================================================== *)
(** ** Sample inputs *)

(** Errors as '../errors' could declare them: the three classes extend
    [ProviderError], and the message is the constructor's argument. *)
Definition sampleSubclass (c d : errorClass) : bool :=
  match c, d with
  | ModelNotFoundError, ProviderError
  | NetworkError, ProviderError
  | ApiKeyMissingError, ProviderError => true
  | _, _ => false
  end.

Definition sampleMessageOf (c : errorClass) (arg : string) : string := arg.

(** An operation that fails with a rate-limit error whatever happens. *)
Definition alwaysRateLimited (w : unit) : result string * unit :=
  (Throw (mkError NetworkError "Google Vertex AI API error (429): quota"), w).

(** An operation on a counter of calls: two rate-limit errors, then an
    answer. *)
Definition thirdTimeLucky (calls : nat) : result string * nat :=
  if (calls <? 2)%nat
  then (Throw (mkError NetworkError "Google Vertex AI API error (429): quota"), S calls)
  else (Return "done", S calls).

(** An operation on a counter of calls: two quota errors written in
    capitals, then a refusal that is no rate limit. *)
Definition exhaustedThenRefused (calls : nat) : result string * nat :=
  if (calls <? 2)%nat
  then (Throw (mkError NetworkError "Quota exceeded: RESOURCE EXHAUSTED"), S calls)
  else (Throw (mkError NetworkError "Google Vertex AI API error (400): bad request"), S calls).

(* ================================================================== *)
(** ** What a call leaves untouched *)

(** From [w] to [w'] the provider's two fields are the same and every
    options object that existed is still there, unchanged; objects may
    have been added. *)
Definition Frame (w w' : world) : Prop :=
  thisConfig w' = thisConfig w /\
  thisAvailableModels w' = thisAvailableModels w /\
  exists fresh, heap w' = (heap w ++ fresh)%list.

(** A computation that never breaks the frame. *)
Definition Framed {T : Type} (c : M T) : Prop := forall w, Frame w (snd (c w)).

(** A result that is an error of class [c]. *)
Definition FailsWith (c : errorClass) (r : result string) : Prop :=
  exists e, r = Throw e /\ errClass e = c.

(** A reply of Gemini with plain text and no grounding. *)
Definition plainGeminiData (answer : string) : GeminiData :=
  mkData (Some [mkCandidate (Some (mkContent (Some [mkPart (Some answer)]))) None]).

(** A host where every vendor answers [answer]; [geminiKey] is the value
    of GEMINI_API_KEY. *)
Definition answeringHost (geminiKey answer : string) : host :=
  mkHost (Some geminiKey) (Some "pplx-key") (fun _ => true) (fun _ => Return tt) (Return "token")
         (fun _ _ => Ok (plainGeminiData answer))
         (fun _ _ => Ok (mkPerplexityData (Some [mkChoice (Some (Some answer))])))
         (fun _ _ => Return [Some answer])
         (fun _ _ => Return [mkBlock "text" answer])
         (fun prompt _ => [prompt]).

(** A provider object with the given models and one options object, at
    address 0. *)
Definition worldWith (models : list string) (o : ModelOptions) : world :=
  mkWorld (fun _ => None) (Some (Return models)) [o] [].

(** A provider object that lists no models and one options object, at
    address 0. *)
Definition worldWithout (o : ModelOptions) : world :=
  mkWorld (fun _ => None) None [o] [].

(** A large repository documented with gemini-2.0-flash. *)
Definition largeRepositoryOptions : ModelOptions :=
  mkOptions (Some "gemini-2.0-flash") 8000 None (Some 900000) None None None.

(** A large repository and no model. *)
Definition noModelLargeRepositoryOptions : ModelOptions :=
  mkOptions None 8000 None (Some 900000) None None None.

(** No model and no token count. *)
Definition noModelOptions : ModelOptions :=
  mkOptions None 8000 None None None None None.

(** A computation that never returns the empty string. *)
Definition NeverEmpty (c : M string) : Prop :=
  forall w s, fst (c w) = Return s -> s <> EmptyString.

(* ================================================================== *)
(** ** The reformatted body, in the specification's words *)















(** The entries [collectSources] adds for [chunks], the first of which
    has index [idx]. *)
Fixpoint sourcesFrom (chunks : list GeminiGroundingChunk) (idx : Z) : citationMap :=
  match chunks with
  | [] => []
  | chunk :: rest =>
      match web chunk with
      | Some source => (idx, source) :: sourcesFrom rest (idx + 1)
      | None => sourcesFrom rest (idx + 1)
      end
  end.

(** A grounded reply: two chunks, the second without a web field, one
    query and two supports. *)
Definition groundedData : GeminiData :=
  mkData (Some [mkCandidate
                  (Some (mkContent (Some [mkPart (Some "raw text")])))
                  (Some (mkGrounding
                           (Some [mkChunk (Some (mkWeb "https://a.example" (Some "A")));
                                  mkChunk None;
                                  mkChunk (Some (mkWeb "https://c.example" None))])
                           (Some [mkSupport "Rocq is a proof assistant." [0; 1; 2];
                                  mkSupport "It has tactics." [7]])
                           (Some ["rocq prover"])))]).




(* ================================================================== *)
(** ** Web search, in the specification's words *)

(** The name contains 'sonar', 'online' or 'gemini'. *)
Definition NamesWebSearch (s : string) : Prop :=
  Contains "sonar" s \/ Contains "online" s \/ Contains "gemini" s.

(** [n] is [m] without its 'provider/' prefix, for [m] of the form 'name'
    or 'provider/name'. *)
Definition BareName (m n : string) : Prop :=
  (NoSlash m /\ n = m) \/
  (exists pre, m = pre ++ "/" ++ n /\ NoSlash pre /\ NoSlash n).



(* ================================================================== *)
(** ** Which model a request addresses *)

(** The model a vendor request is for: the one in its URL for the Google
    endpoints, the one in its body for the others. *)
Definition Addresses (m : string) (rq : request) : Prop :=
  match rq with
  | GeminiRequest url _ _ _ _ _ _ =>
      url = vertexURL m \/ exists key, url = generativeLanguageURL m ++ "?key=" ++ key
  | ChatRequest _ _ chatModel _ _ _ _ => chatModel = m
  | PerplexityRequest _ chatModel _ _ => chatModel = m
  | AnthropicRequest chatModel _ _ _ => chatModel = m
  end.

(** Every request a computation sends satisfies [P]; requests sent before
    stay where they are. *)
Definition Sends {T : Type} (P : request -> Prop) (c : M T) : Prop :=
  forall w, exists new, sent (snd (c w)) = (sent w ++ new)%list /\ Forall P new.

(** A computation that sends nothing. *)
Definition Silent {T : Type} (c : M T) : Prop := forall w, sent (snd (c w)) = sent w.

(** The options a provider goes on with after its token-count step: only
    [GoogleGenerativeLanguageProvider] resolves the model after the step, so
    only there does a count between 800000 and 2000000 change the model that
    is resolved. *)
Definition effectiveOptions (p : provider) (o : option ModelOptions) : option ModelOptions :=
  match p, o with
  | GoogleGenerativeLanguageProvider, Some opts =>
      match tokenCount opts with
      | Some n =>
          if (800000 <? n) && (n <? 2000000)
          then Some (withModel opts "gemini-2.0-pro-exp")
          else o
      | None => o
      end
  | _, _ => o
  end.

(** A computation that leaves the provider's model list and the options
    objects exactly as they are. *)
Definition KeepsObjects {T : Type} (c : M T) : Prop :=
  forall w, thisAvailableModels (snd (c w)) = thisAvailableModels w /\
            heap (snd (c w)) = heap w.

(** The time waited in all, in milliseconds. *)
Definition totalDelay (delays : list Z) : Z := fold_right Z.add 0 delays.

(* ================================================================== *)
(** ** The retried operation of the Google providers *)

(** The operation [executePrompt] hands to [retryWithBackoff], by the class
    of the provider; a class that is not one of the two Google ones has no
    such operation, and the value here is a computation that throws. *)
Definition googleOperation (subclass : errorClass -> errorClass -> bool) (h : host)
           (p : provider) (prompt : string) (options : option ref) (maxTokens : Z)
           (systemPrompt : string) (baseURL : string) : M string :=
  match p with
  | GoogleVertexAIProvider =>
      vertexOperation subclass h prompt options maxTokens systemPrompt baseURL
  | GoogleGenerativeLanguageProvider =>
      generativeLanguageOperation subclass h prompt options maxTokens systemPrompt baseURL
  | _ => throw typeError
  end.

(** The credentials of [h] are of the kind the provider needs. *)
Definition GoogleAuthorized (h : host) (p : provider) : Prop :=
  match p with
  | GoogleVertexAIProvider =>
      getAuthClient h = Return tt /\ exists token, getAccessToken h = Return token
  | GoogleGenerativeLanguageProvider => exists key, getAPIKey h = Return key
  | _ => False
  end.

(** A host whose Gemini endpoints answer every request with 429. *)
Definition rateLimitedHost (geminiKey : string) : host :=
  mkHost (Some geminiKey) (Some "pplx-key") (fun _ => true) (fun _ => Return tt) (Return "token")
         (fun _ _ => NotOk 429 "quota exceeded")
         (fun _ _ => NotOk 429 "rate limit reached")
         (fun _ _ => Throw (mkError PlainError "429"))
         (fun _ _ => Throw (mkError PlainError "429"))
         (fun prompt _ => [prompt]).

(* ================================================================== *)
(** ** initializeModels and createProvider *)

Module Listing.

(** [new Set(arr)]: the values of [arr] in the order of their first
    occurrence. *)
Definition newSet (arr : list string) : list string :=
  fold_left (fun set x => if JS.has set x then set else (set ++ [x])%list) arr [].

(** The field of the parsed body that should hold the models
    ([publisherModels], [models]): falsy or absent, truthy without being an
    array, or an array.  An element of the array is given by its [name] when
    that is a string; [model.name.replace] throws on every other element. *)
Inductive listing : Type :=
| NoListing
| NotAnArray
| Entries (names : list (option string)).

(** What the request for the list of models comes to: [fetch] rejects, the
    status is not 2xx, [response.json()] rejects, or a body is parsed. *)
Inductive modelsReply : Type :=
| ListFetchThrows (e : error)
| ListNotOk (statusText : string)
| ListJsonThrows (e : error)
| ListOk (body : listing).

(** [entries.map((model) => rename(model.name))] *)
Fixpoint mapNames (rename : string -> string) (entries : list (option string))
  : result (list string) :=
  match entries with
  | [] => Return []
  | None :: _ => Throw typeError
  | Some name :: rest =>
      bindR (mapNames rename rest) (fun names => Return (rename name :: names))
  end.

(** The [catch] clause of [initializeModels]: whatever was thrown, a
    [NetworkError] with the text of the class. *)
Definition orNetworkError {T : Type} (failure : string) (r : result T) : result T :=
  match r with
  | Return v => Return v
  | Throw _ => Throw (mkError NetworkError failure)
  end.

Section Fetch.

Variable h : host.

(** [fetch(url, { headers: { Authorization } })] for the list of models,
    read as far as the parsed body. *)
Variable fetchModels : string -> option string -> modelsReply.

(** [GoogleVertexAIProvider.initializeModels] *)
Definition vertexInitializeModels : result (list string) :=
  orNetworkError "Failed to fetch available Vertex AI models"
    (bindR (getAuthClient h) (fun _ =>
     bindR (getAccessToken h) (fun token =>
     match fetchModels "https://us-central1-aiplatform.googleapis.com/v1beta1/publishers/google/models"
                       (Some ("Bearer " ++ token)) with
     | ListFetchThrows e => Throw e
     | ListNotOk statusText =>
         Throw (mkError NetworkError ("Failed to fetch Vertex AI models: " ++ statusText))
     | ListJsonThrows e => Throw e
     | ListOk NoListing => Return []
     | ListOk NotAnArray => Throw typeError
     | ListOk (Entries publisherModels) =>
         bindR (mapNames (fun name => JS.replace name "publishers/google/models/" EmptyString)
                         publisherModels)
               (fun names => Return (newSet names))
     end))).

(** [GoogleGenerativeLanguageProvider.initializeModels] *)
Definition generativeLanguageInitializeModels : result (list string) :=
  orNetworkError "Failed to fetch available Gemini models"
    (bindR (getAPIKey h) (fun apiKey =>
     match fetchModels ("https://generativelanguage.googleapis.com/v1beta/models?key=" ++ apiKey)
                       None with
     | ListFetchThrows e => Throw e
     | ListNotOk statusText =>
         Throw (mkError NetworkError ("Failed to fetch Gemini models: " ++ statusText))
     | ListJsonThrows e => Throw e
     | ListOk NoListing => Return []
     | ListOk NotAnArray => Throw typeError
     | ListOk (Entries models) =>
         bindR (mapNames (fun name => JS.replace name "models/" EmptyString) models)
               (fun names =>
                  Return (newSet (filter (fun name => JS.includes name "gemini") names)))
     end)).

End Fetch.

End Listing.

(** The argument of [createProvider], one of the six literals of its type;
    any other value reaches [exhaustiveMatchGuard], which is not part of the
    file. *)
Inductive providerName : Type :=
| gemini | openai | openrouter | perplexity | modelbox | anthropic.

(** The keys the constructors read from [process.env]. *)
Record constructorKeys : Type := mkKeys {
  OPENAI_API_KEY : option string;
  OPENROUTER_API_KEY : option string;
  MODELBOX_API_KEY : option string;
  ANTHROPIC_API_KEY : option string
}.

Section CreateProvider.

Variable h : host.
Variable keys : constructorKeys.
Variable loadConfig : Config.
Variable fetchModels : string -> option string -> Listing.modelsReply.

(** What the promise of [ModelBoxProvider.initializeModels] settles to.  The
    method keeps the [id] of every element of the listing as it is, of
    whatever type, so that its set is taken as given here. *)
Variable modelBoxModels : result (list string).

(** [new P()]: the key check of the class, before or after [super()] as the
    class has it, and the constructor of [BaseProvider].  A class that lists
    no models leaves [availableModels] as it is, so that what [construct] is
    given for it is not read. *)
Definition newProvider (p : provider) : M provider :=
  let requireKey (key : option string) (label : string) : M unit :=
    match truthyField key with
    | Some _ => ret tt
    | None => throw (mkError ApiKeyMissingError label)
    end in
  match p with
  | GoogleVertexAIProvider =>
      _ <- construct p loadConfig (Listing.vertexInitializeModels h fetchModels) ;; ret p
  | GoogleGenerativeLanguageProvider =>
      _ <- construct p loadConfig (Listing.generativeLanguageInitializeModels h fetchModels) ;;
      ret p
  | OpenAIProvider =>
      _ <- requireKey (OPENAI_API_KEY keys) "OpenAI" ;;
      _ <- construct p loadConfig (Return []) ;; ret p
  | OpenRouterProvider =>
      _ <- requireKey (OPENROUTER_API_KEY keys) "OpenRouter" ;;
      _ <- construct p loadConfig (Return []) ;; ret p
  | PerplexityProvider =>
      _ <- construct p loadConfig (Return []) ;; ret p
  | ModelBoxProvider =>
      _ <- requireKey (MODELBOX_API_KEY keys) "ModelBox" ;;
      _ <- construct p loadConfig modelBoxModels ;; ret p
  | AnthropicProvider =>
      _ <- construct p loadConfig (Return []) ;;
      _ <- requireKey (ANTHROPIC_API_KEY keys) "Anthropic" ;; ret p
  end.

(** [createProvider(provider)] *)
Definition createProvider (name : providerName) : M provider :=
  match name with
  | gemini =>
      match truthyField (GEMINI_API_KEY h) with
      | None => throw (mkError ApiKeyMissingError "Gemini")
      | Some apiKey =>
          if JS.endsWith apiKey ".json" || String.eqb (JS.toLowerCase apiKey) "adc"
          then newProvider GoogleVertexAIProvider
          else newProvider GoogleGenerativeLanguageProvider
      end
  | openai => newProvider OpenAIProvider
  | openrouter => newProvider OpenRouterProvider
  | perplexity => newProvider PerplexityProvider
  | modelbox => newProvider ModelBoxProvider
  | anthropic => newProvider AnthropicProvider
  end.

End CreateProvider.

(** The names a reply lists: the elements of its array that have one. *)
Definition listedNames (reply : Listing.modelsReply) : list string :=
  match reply with
  | Listing.ListOk (Listing.Entries names) =>
      flat_map (fun entry => match entry with Some name => [name] | None => [] end) names
  | _ => []
  end.

(** The request of [GoogleGenerativeLanguageProvider.initializeModels]. *)
Definition geminiModelsURL (apiKey : string) : string :=
  "https://generativelanguage.googleapis.com/v1beta/models?key=" ++ apiKey.

(** The request of [GoogleVertexAIProvider.initializeModels]. *)
Definition vertexModelsURL : string :=
  "https://us-central1-aiplatform.googleapis.com/v1beta1/publishers/google/models".

(** A service that lists three models, one of them twice. *)
Definition sampleListing (url : string) (authorization : option string) : Listing.modelsReply :=
  Listing.ListOk
    (Listing.Entries [Some "models/gemini-2.0-flash"; Some "models/text-embedding-004";
                      Some "models/gemini-2.0-pro-exp"; Some "models/gemini-2.0-flash"]).

(** A service whose list of models cannot be read. *)
Definition brokenListing (url : string) (authorization : option string) : Listing.modelsReply :=
  Listing.ListNotOk "Service Unavailable".

(** No key for the constructors that read one. *)
Definition noKeys : constructorKeys := mkKeys None None None None.

(* ================================================================== *)
(** ** truncateForLogging *)

(** [str.slice(0, n)] for an integer [n]; a negative [n] counts from the
    end of the string. *)
Definition slicePrefix (str : string) (n : Z) : string :=
  if n <? 0 then JS.take (Z.to_nat (Z.max (Z.of_nat (String.length str) + n) 0)) str
  else JS.take (Z.to_nat n) str.

(** [maxLength ?? configMaxLength ?? defaultMaxLength], the configured
    length being the one under the lower-cased class name. *)
Definition effectiveMaxLength (config : Config) (p : provider) (maxLength : option Z) : Z :=
  let defaultMaxLength := 500 in
  let configMaxLength :=
    match config (JS.toLowerCase (constructorName p)) with
    | Some c => debugLogMaxLength c
    | None => None
    end in
  match maxLength with
  | Some n => n
  | None =>
      match configMaxLength with
      | Some n => n
      | None => defaultMaxLength
      end
  end.

(** [truncateForLogging(obj, maxLength)] for a string [obj]. *)
Definition truncateForLogging (config : Config) (p : provider) (obj : string)
           (maxLength : option Z) : string :=
  let effectiveMaxLength := effectiveMaxLength config p maxLength in
  let str := obj in
  if Z.of_nat (String.length str) <=? effectiveMaxLength then str
  else slicePrefix str effectiveMaxLength ++ "... (truncated)".

(* ================================================================== *)
(** ** The requests of OpenAIProvider *)

(** The body [OpenAIProvider.executePrompt] sends for one chunk. *)
Definition openAIRequest (client : bool) (model : string) (maxTokens : Z)
           (systemPrompt : string) (chunk : string) : request :=
  ChatRequest OpenAIProvider client model (chatMessages systemPrompt chunk) maxTokens
              (JS.startsWith model "o") None.

(** A host that cuts a prompt at its commas. *)
Definition chunkingHost (answer : string) : host :=
  mkHost None None (fun _ => false) (fun _ => Return tt) (Return "token")
         (fun _ _ => Ok (plainGeminiData answer))
         (fun _ _ => Ok (mkPerplexityData (Some [mkChoice (Some (Some answer))])))
         (fun _ _ => Return [Some answer])
         (fun _ _ => Return [mkBlock "text" answer])
         (fun prompt _ => JS.split prompt ","%char).

(** The variable a constructor checks, and the name it reports when the
    variable is unset or empty; [None] for the two arguments of
    [createProvider] whose constructors check nothing. *)
Definition checkedKey (keys : constructorKeys) (name : providerName)
  : option (option string * string) :=
  match name with
  | openai => Some (OPENAI_API_KEY keys, "OpenAI")
  | openrouter => Some (OPENROUTER_API_KEY keys, "OpenRouter")
  | modelbox => Some (MODELBOX_API_KEY keys, "ModelBox")
  | anthropic => Some (ANTHROPIC_API_KEY keys, "Anthropic")
  | gemini | perplexity => None
  end.

(* ================================================================== *)
(** ** The system prompt of a request *)

(** The request carries a system prompt that is not empty: the
    [system_instruction] of a Gemini request, the first message of a chat
    request, the [system] field of an Anthropic request. *)
Definition CarriesSystemPrompt (rq : request) : Prop :=
  exists s,
    s <> EmptyString /\
    match rq with
    | GeminiRequest _ _ _ _ _ system_instruction _ => system_instruction = Some s
    | ChatRequest _ _ _ messages _ _ _ =>
        exists user, messages = [("system", s); ("user", user)]
    | PerplexityRequest _ _ messages _ =>
        exists user, messages = [("system", s); ("user", user)]
    | AnthropicRequest _ _ system _ => system = s
    end.

(* ================================================================== *)
(** * commands/install.ts *)

(** The part of the file that works on strings: the environment file that
    [writeKeysToFile] parses, merges and writes, and the question
    [askForCursorRulesDirectory] settles.  A [Record<string, string>] is the
    list of its own properties in the order JavaScript enumerates them; the
    file system is the state of the one file at [filePath]; the terminal is
    the list of chunks still to come on stdin and the list of strings written
    to stdout.  [checkLocalDependencies] (JSON) and the prompts of
    [setupApiKeys] are not modelled. *)

Module Install.

Definition backslash : ascii := ascii_of_nat 92.
Definition doubleQuote : ascii := ascii_of_nat 34.
Definition singleQuote : ascii := ascii_of_nat 39.
Definition lineFeed : ascii := ascii_of_nat 10.

(** ** Objects that hold strings *)

(** The own properties of an object, in the order of [Object.entries]: the
    array indices in ascending order, then the other names in the order in
    which they were created. *)
Definition record : Type := list (string * string).

Definition isDigit (c : ascii) : bool :=
  let n := nat_of_ascii c in ((48 <=? n) && (n <=? 57))%nat.

Fixpoint digitsValue (acc : N) (s : string) : option N :=
  match s with
  | EmptyString => Some acc
  | String c s' =>
      if isDigit c
      then digitsValue (acc * 10 + N.of_nat (nat_of_ascii c - 48)) s'
      else None
  end.

(** The number a property name denotes when it is an array index: a
    canonical numeric string below 2^32 - 1. *)
Definition arrayIndex (name : string) : option N :=
  match name with
  | EmptyString => None
  | String c rest =>
      if Ascii.eqb c "0" && negb (String.eqb rest EmptyString) then None
      else
        match digitsValue 0 name with
        | Some n => if (n <? 4294967295)%N then Some n else None
        | None => None
        end
  end.

Definition hasOwn (o : record) (name : string) : bool :=
  existsb (fun entry => String.eqb (fst entry) name) o.

(** The value of an existing property changes in place. *)
Definition update (name value : string) (o : record) : record :=
  map (fun entry => if String.eqb (fst entry) name then (name, value) else entry) o.

(** A new property: an array index goes among the array indices, by its
    number; any other name goes last. *)
Fixpoint add (name value : string) (o : record) : record :=
  match o with
  | [] => [(name, value)]
  | (n, v) :: rest =>
      match arrayIndex name, arrayIndex n with
      | Some i, Some j =>
          if (i <? j)%N then (name, value) :: o else (n, v) :: add name value rest
      | Some _, None => (name, value) :: o
      | None, _ => (n, v) :: add name value rest
      end
  end.

(** The definition of a property by an object literal, a spread or
    [Object.fromEntries]. *)
Definition define (o : record) (entry : string * string) : record :=
  let '(name, value) := entry in
  if hasOwn o name then update name value o else add name value o.

(** [o[name] = value] on an object made by [{}]: the name '__proto__' is
    the accessor of [Object.prototype], whose setter ignores a string. *)
Definition assign (o : record) (name value : string) : record :=
  if String.eqb name "__proto__" then o else define o (name, value).

(** [Object.fromEntries(entries)] *)
Definition fromEntries (entries : list (string * string)) : record :=
  fold_left define entries [].

(** [{ ...a, ...b }] *)
Definition spread (a b : record) : record :=
  fold_left define b (fold_left define a []).

(** ** Reading the file *)

(** The loop that counts the backslashes right before a position, on the
    characters before it, the nearest first. *)
Fixpoint escapeCount (before : list ascii) : nat :=
  match before with
  | c :: rest => if Ascii.eqb c backslash then S (escapeCount rest) else O
  | [] => O
  end.

(** [line.split('').findIndex(...)]: the first '=' with an even number of
    backslashes right before it; [None] is -1. *)
Fixpoint findEq (before : list ascii) (i : nat) (rest : string) : option nat :=
  match rest with
  | EmptyString => None
  | String char rest' =>
      if Ascii.eqb char "=" && Nat.even (escapeCount before) then Some i
      else findEq (char :: before) (S i) rest'
  end.

(** [value.slice(1, -1)] *)
Definition slice1 (value : string) : string :=
  JS.take (String.length value - 2) (JS.drop 1 value).

Definition quotedWith (q : ascii) (value : string) : bool :=
  JS.startsWith value (String q EmptyString) && JS.endsWith value (String q EmptyString).

(** The body of the [forEach]: the property a line sets, if any. *)
Definition parseLine (line : string) : option (string * string) :=
  let line := JS.trim line in
  if negb (JS.truthy line) || JS.startsWith line "#" then None
  else
    match findEq [] 0 line with
    | None => None
    | Some eqIndex =>
        let key := JS.trim (JS.take eqIndex line) in
        let value := JS.trim (JS.drop (eqIndex + 1) line) in
        let value :=
          if quotedWith doubleQuote value || quotedWith singleQuote value
          then slice1 value else value in
        if JS.truthy key then Some (key, value) else None
    end.

(** [existingContent.split('\n').forEach(...)], from [{}]. *)
Definition parseEnv (existingContent : string) : record :=
  fold_left
    (fun existingEnvVars line =>
       match parseLine line with
       | Some (key, value) => assign existingEnvVars key value
       | None => existingEnvVars
       end)
    (JS.split existingContent lineFeed) [].

(** ** Writing the file *)

(** [normalizedValue.replace(/(?<!\\)"/g, '\\"')]: a backslash goes before
    every double quote that has no backslash right before it in the value;
    [previous] is the character before the rest that is read. *)
Fixpoint escapeAfter (previous : option ascii) (value : string) : string :=
  match value with
  | EmptyString => EmptyString
  | String c rest =>
      let escaped :=
        match previous with
        | Some p => Ascii.eqb p backslash
        | None => false
        end in
      if Ascii.eqb c doubleQuote && negb escaped
      then String backslash (String doubleQuote (escapeAfter (Some c) rest))
      else String c (escapeAfter (Some c) rest)
  end.

Definition escapeQuotes (value : string) : string := escapeAfter None value.

(** One line of the file: the name, '=', and the escaped value in double
    quotes. *)
Definition envLine (entry : string * string) : string :=
  let '(key, value) := entry in
  key ++ "=" ++ String doubleQuote (escapeQuotes value ++ String doubleQuote EmptyString).

(** [mergedKeys]: the existing variables, then the keys that have a value. *)
Definition mergedKeys (existingEnvVars : record) (keys : list (string * string)) : record :=
  spread existingEnvVars
         (fromEntries (filter (fun entry => JS.truthy (snd entry)) keys)).

(** [envContent] *)
Definition envContent (existingEnvVars : record) (keys : list (string * string)) : string :=
  JS.join (String lineFeed EmptyString) (map envLine (mergedKeys existingEnvVars keys))
  ++ String lineFeed EmptyString.

(** The file at [filePath]: absent, present but unreadable, or present with
    its content. *)
Inductive fileState : Type :=
| Missing
| Unreadable
| Content (content : string).

(** The first half of [writeKeysToFile]: an absent or unreadable file gives
    no variables. *)
Definition readExisting (file : fileState) : record :=
  match file with
  | Content existingContent => parseEnv existingContent
  | Missing | Unreadable => []
  end.

(** [writeKeysToFile(filePath, keys)], with [keys] as [Object.entries]
    lists it.  [writeFails] is the error of [mkdirSync] or [writeFileSync],
    if they fail; the file is then taken to be as it was. *)
Definition writeKeysToFile (keys : list (string * string)) (writeFails : option error)
           (file : fileState) : result unit * fileState :=
  let existingEnvVars := readExisting file in
  let envContent := envContent existingEnvVars keys in
  match writeFails with
  | Some e => (Throw e, file)
  | None => (Return tt, Content envContent)
  end.

End Install.

(** ** Names and values that the file format can hold *)

(** The characters of a string. *)
Definition chars (s : string) : list ascii := list_ascii_of_string s.

(** A name the format can hold: not empty, not '__proto__', not starting
    with '#', and without white space, '=' or backslash. *)
Definition plainName (name : string) : bool :=
  JS.truthy name && negb (String.eqb name "__proto__") && negb (JS.startsWith name "#") &&
  forallb (fun c => negb (JS.isWhiteSpace c) && negb (Ascii.eqb c "=") &&
                    negb (Ascii.eqb c Install.backslash)) (chars name).

(** A value the format can hold on one line. *)
Definition oneLine (value : string) : bool :=
  forallb (fun c => negb (Ascii.eqb c Install.lineFeed)) (chars value).

Definition plainEntry (entry : string * string) : bool :=
  plainName (fst entry) && oneLine (snd entry).

(** Every double quote of the string has a backslash right before it. *)
Definition QuotesEscaped (s : string) : Prop :=
  forall pre post,
    s = pre ++ String Install.doubleQuote post ->
    exists pre', pre = pre' ++ String Install.backslash EmptyString.

(** ** The order of the properties *)

(** A name that [Object.entries] lists no later than another: an array
    index before a larger one and before every other name. *)
Definition listedBefore (a b : string) : Prop :=
  match Install.arrayIndex a, Install.arrayIndex b with
  | Some i, Some j => (i <= j)%N
  | Some _, None => True
  | None, Some _ => False
  | None, None => True
  end.

(** A list that is the enumeration of an object: no name twice, and the
    names in the order of [Object.entries]. *)
Definition Enumerated (o : Install.record) : Prop :=
  StronglySorted (fun x y => listedBefore (fst x) (fst y)) o /\ NoDup (map fst o).

(** The record with every value escaped. *)
Definition escapedValues (o : Install.record) : Install.record :=
  map (fun entry => (fst entry, Install.escapeQuotes (snd entry))) o.

(** Two records with the same names in the same order, the values of the
    first being those of the second, escaped or not. *)
Definition SameLines (x m : Install.record) : Prop :=
  Forall2 (fun a b => fst a = fst b /\
                      (snd a = snd b \/ snd a = Install.escapeQuotes (snd b))) x m.

(** An environment file with a comment, a quoted value and a blank line. *)
Definition sampleEnvFile : Install.fileState :=
  Install.Content
    ("# keys of the tools" ++ String Install.lineFeed
       ("OLD = 'x y'" ++ String Install.lineFeed
          (String Install.lineFeed ("GEMINI_API_KEY=abc" ++ String Install.lineFeed EmptyString)))).

(** The keys of a run that sets two of them, one with a double quote. *)
Definition sampleKeys : list (string * string) :=
  [("PERPLEXITY_API_KEY", "pplx-1"); ("GEMINI_API_KEY", EmptyString);
   ("OPENAI_API_KEY", "sk" ++ String Install.doubleQuote "1")].

(* ================================================================== *)
(** ** askForCursorRulesDirectory *)

Module Rules.

(** What the function sees of the process: the variable
    USE_LEGACY_CURSORRULES, the chunks still to come on stdin and what was
    written to stdout. *)
Record process : Type := mkProcess {
  USE_LEGACY_CURSORRULES : option string;
  stdin : list string;
  stdout : list string
}.

(** A promise: resolved, rejected, or never settled. *)
Inductive settled (T : Type) : Type :=
| Resolved (v : T)
| Rejected (e : error)
| Pending.
Arguments Resolved {T} v.
Arguments Rejected {T} e.
Arguments Pending {T}.

(** [getUserInput(prompt)]: the prompt is written, and the promise resolves
    with the next chunk of stdin, trimmed; without a chunk it stays
    pending. *)
Definition getUserInput (prompt : string) (w : process) : settled string * process :=
  let written := mkProcess (USE_LEGACY_CURSORRULES w) (stdin w) (stdout w ++ [prompt]) in
  match stdin w with
  | data :: rest =>
      (Resolved (JS.trim data),
       mkProcess (USE_LEGACY_CURSORRULES w) rest (stdout w ++ [prompt]))
  | [] => (Pending, written)
  end.

Definition mustBeTrueOrFalse : error :=
  mkError PlainError
    ("USE_LEGACY_CURSORRULES must be either "
       ++ String Install.doubleQuote ("true" ++ String Install.doubleQuote
       (" or " ++ String Install.doubleQuote ("false"
       ++ String Install.doubleQuote EmptyString)))).

(** [value?.toLowerCase() === word] *)
Definition says (value : option string) (word : string) : bool :=
  match value with
  | Some v => String.eqb (JS.toLowerCase v) word
  | None => false
  end.

(** [value && value.trim() !== ''] *)
Definition setAndNotBlank (value : option string) : bool :=
  match value with
  | Some v => JS.truthy v && negb (String.eqb (JS.trim v) EmptyString)
  | None => false
  end.

(** [askForCursorRulesDirectory()] *)
Definition askForCursorRulesDirectory (w : process) : settled bool * process :=
  if says (USE_LEGACY_CURSORRULES w) "true" then (Resolved false, w)
  else if says (USE_LEGACY_CURSORRULES w) "false" then (Resolved true, w)
  else if setAndNotBlank (USE_LEGACY_CURSORRULES w) then (Rejected mustBeTrueOrFalse, w)
  else
    match getUserInput
            "Would you like to use the new .cursor/rules directory for cursor rules? (y/N): "
            w with
    | (Resolved answer, w') =>
        (Resolved (String.eqb (JS.toLowerCase answer) "y"
                   || String.eqb (JS.toLowerCase answer) "yes"), w')
    | (Rejected e, w') => (Rejected e, w')
    | (Pending, w') => (Pending, w')
    end.

(** [(!b).toString()] *)
Definition negationToString (b : bool) : string := if b then "false" else "true".

(** The two statements of [InstallCommand.execute] that settle the
    question and record the answer in the environment. *)
Definition recordRulesDirectory (w : process) : settled bool * process :=
  match askForCursorRulesDirectory w with
  | (Resolved useCursorRulesDirectory, w') =>
      (Resolved useCursorRulesDirectory,
       mkProcess (Some (negationToString useCursorRulesDirectory)) (stdin w') (stdout w'))
  | (Rejected e, w') => (Rejected e, w')
  | (Pending, w') => (Pending, w')
  end.

End Rules.

(* ================================================================== *)
(** * utils/logger.ts *)

(** The object [createLogger] returns is known by the two values its
    methods close over: the prefix and the component.  What a method hands
    to consola is the level and the text; the further arguments are passed
    on unchanged and are left out. *)

Module Logger.

Inductive level : Type := Log | Info | Success | Debug | Warn | Error.

Record logger : Type := mkLogger {
  prefix : string;
  component : string
}.

(** [createLogger(component, subComponent)] *)
Definition createLogger (component : string) (subComponent : option string) : logger :=
  let prefix :=
    match truthyField subComponent with
    | Some sub => "[" ++ component ++ ":" ++ sub ++ "]"
    | None => "[" ++ component ++ "]"
    end in
  mkLogger prefix component.

(** The six methods: what reaches consola; [DEBUG] is [process.env.DEBUG]
    at the time of the call. *)
Definition emit (l : logger) (DEBUG : option string) (lv : level) (message : string)
  : list (level * string) :=
  match lv with
  | Debug =>
      match truthyField DEBUG with
      | Some _ => [(Debug, prefix l ++ " " ++ message)]
      | None => []
      end
  | _ => [(lv, prefix l ++ " " ++ message)]
  end.

(** [logger.subLogger(childComponent)] *)
Definition subLogger (l : logger) (childComponent : string) : logger :=
  createLogger (component l) (Some childComponent).

End Logger.

(* ================================================================== *)
(** ** A Perplexity endpoint that refuses *)

(** A host whose Perplexity endpoint answers every request with the given
    status and body. *)
Definition refusingHost (status : Z) (errorText : string) : host :=
  mkHost None (Some "pplx-key") (fun _ => false) (fun _ => Return tt) (Return "token")
         (fun _ _ => NotOk status errorText)
         (fun _ _ => NotOk status errorText)
         (fun _ _ => Throw (mkError PlainError errorText))
         (fun _ _ => Throw (mkError PlainError errorText))
         (fun prompt _ => [prompt]).

(* ================================================================== *)
(** ** What a Gemini request carries *)

(** The request is a Gemini request with the given prompt, the token limit
    and the system prompt of the options, and the Google search tool exactly
    when the options ask for web search. *)
Definition FollowsOptions (prompt : string) (o : ModelOptions) (rq : request) : Prop :=
  exists url bearer role,
    rq = GeminiRequest url bearer role prompt (maxTokens o)
                       (Some (getSystemPrompt (Some o))) (flag (webSearch o)).
(* ================================================================== *)
(** * Properties *)

Unset Implicit Arguments.

(** ** Strings *)

Lemma append_empty_r (s : string) : s ++ EmptyString = s.
Proof. induction s as [| c s IH]; simpl; [reflexivity | now rewrite IH]. Qed.

Lemma append_assoc (a b c : string) : (a ++ b) ++ c = a ++ (b ++ c).
Proof. induction a as [| x a IH]; simpl; [reflexivity | now rewrite IH]. Qed.

Lemma length_append (a b : string) :
  String.length (a ++ b) = (String.length a + String.length b)%nat.
Proof. induction a as [| x a IH]; simpl; [reflexivity | now rewrite IH]. Qed.

Lemma append_inv_head (a b c : string) : a ++ b = a ++ c -> b = c.
Proof.
  induction a as [| x a IH]; simpl; intros H; [exact H |].
  injection H as H. now apply IH.
Qed.

Lemma startsWith_iff (s p : string) : JS.startsWith s p = true <-> IsPrefix p s.
Proof.
  revert s. induction p as [| c p IH]; intros s; simpl.
  - split; [intros _; now exists s | reflexivity].
  - destruct s as [| d s]; simpl.
    + split; [discriminate | intros [r Hr]; discriminate].
    + rewrite andb_true_iff, Ascii.eqb_eq, IH. split.
      * intros [-> [r ->]]. now exists r.
      * intros [r Hr]. injection Hr as -> ->. split; [reflexivity | now exists r].
Qed.

Lemma startsWith_append (p r : string) : JS.startsWith (p ++ r) p = true.
Proof. apply startsWith_iff. now exists r. Qed.

Lemma includes_iff (s sub : string) : JS.includes s sub = true <-> Contains sub s.
Proof.
  induction s as [| c s IH]; simpl.
  - rewrite orb_false_r, startsWith_iff. split.
    + intros [r Hr]. exists EmptyString, r. exact Hr.
    + intros [pre [post H]]. destruct pre; simpl in H; [now exists post | discriminate].
  - rewrite orb_true_iff, startsWith_iff, IH. split.
    + intros [[r Hr] | [pre [post H]]].
      * exists EmptyString, r. exact Hr.
      * exists (String c pre), post. simpl. now rewrite H.
    + intros [pre [post H]]. destruct pre as [| d pre]; simpl in H.
      * left. now exists post.
      * right. injection H as _ H. now exists pre, post.
Qed.

Lemma drop_append (a b : string) : JS.drop (String.length a) (a ++ b) = b.
Proof. induction a as [| x a IH]; simpl; [now destruct b | exact IH]. Qed.

Lemma take_append (a b : string) : JS.take (String.length a) (a ++ b) = a.
Proof. induction a as [| x a IH]; simpl; [now destruct b | now rewrite IH]. Qed.

Lemma take_drop (n : nat) (s : string) : JS.take n s ++ JS.drop n s = s.
Proof.
  revert s. induction n as [| n IH]; intros s; simpl; [reflexivity |].
  destruct s as [| c s]; simpl; [reflexivity | now rewrite IH].
Qed.

Lemma endsWith_iff (s suffix : string) : JS.endsWith s suffix = true <-> IsSuffix suffix s.
Proof.
  unfold JS.endsWith. rewrite andb_true_iff, Nat.leb_le, String.eqb_eq. split.
  - intros [_ H]. remember (String.length s - String.length suffix)%nat as n.
    exists (JS.take n s). rewrite <- H. symmetry. apply take_drop.
  - intros [r ->]. rewrite length_append. split; [lia |].
    replace (String.length r + String.length suffix - String.length suffix)%nat
      with (String.length r) by lia.
    apply drop_append.
Qed.

Lemma sliceEnd_append (r suffix : string) :
  JS.sliceEnd (r ++ suffix) (String.length suffix) = r.
Proof.
  unfold JS.sliceEnd. rewrite length_append.
  replace (String.length r + String.length suffix - String.length suffix)%nat
    with (String.length r) by lia.
  apply take_append.
Qed.

Lemma has_iff (set : list string) (x : string) : JS.has set x = true <-> In x set.
Proof.
  unfold JS.has. rewrite existsb_exists. split.
  - intros [y [Hy Heq]]. apply String.eqb_eq in Heq. now subst.
  - intros H. exists x. split; [exact H | apply String.eqb_refl].
Qed.

Lemma truthy_iff (s : string) : JS.truthy s = true <-> s <> EmptyString.
Proof.
  unfold JS.truthy. rewrite negb_true_iff. apply String.eqb_neq.
Qed.

Lemma append_inv_tail (a b c : string) : a ++ c = b ++ c -> a = b.
Proof.
  revert b. induction a as [| x a IH]; intros b H.
  - destruct b as [| y b]; [reflexivity |].
    apply (f_equal String.length) in H. simpl in H. rewrite length_append in H. lia.
  - destruct b as [| y b].
    + apply (f_equal String.length) in H. simpl in H. rewrite length_append in H. lia.
    + simpl in H. injection H as -> H. f_equal. now apply IH.
Qed.

Lemma append_same_length (a b c d : string) :
  a ++ b = c ++ d -> String.length a = String.length c -> a = c /\ b = d.
Proof.
  revert c. induction a as [| x a IH]; intros c H Hlen.
  - destruct c; [simpl in H; now split | discriminate].
  - destruct c as [| y c]; [discriminate |].
    simpl in H. injection H as -> H. simpl in Hlen.
    destruct (IH c H) as [-> ->]; [lia | now split].
Qed.

(** ** Letter case and white space *)

Lemma lowerChar_reads (c w : ascii) :
  ~ (65 <= nat_of_ascii w <= 90)%nat -> JS.lowerChar c = w <-> ReadsAs c w.
Proof.
  intros Hw. unfold JS.lowerChar, ReadsAs, SmallOf.
  pose proof (nat_ascii_bounded c) as Hc.
  destruct ((65 <=? nat_of_ascii c) && (nat_of_ascii c <=? 90))%nat eqn:Hcapital.
  - apply andb_true_iff in Hcapital. destruct Hcapital as [Hlow Hhigh].
    apply Nat.leb_le in Hlow, Hhigh. split.
    + intros <-. right. split; [lia |]. apply nat_ascii_embedding. lia.
    + intros [-> | [_ Hsmall]]; [lia |].
      rewrite <- Hsmall. apply ascii_nat_embedding.
  - apply andb_false_iff in Hcapital. split.
    + now left.
    + intros [-> | [Hrange _]]; [reflexivity |].
      destruct Hcapital as [H | H]; apply Nat.leb_gt in H; lia.
Qed.

Lemma noCapital_check (word : string) :
  JS.toLowerCase word = word -> NoCapital word.
Proof.
  induction word as [| c word IH]; simpl; [trivial |].
  intros [= Hc Hword]. split; [| auto].
  intros [Hlow Hhigh]. unfold JS.lowerChar in Hc.
  apply Nat.leb_le in Hlow, Hhigh. rewrite Hlow, Hhigh in Hc. simpl in Hc.
  apply (f_equal nat_of_ascii) in Hc. rewrite nat_ascii_embedding in Hc.
  - lia.
  - apply Nat.leb_le in Hhigh. lia.
Qed.

Lemma toLowerCase_says (word : string) :
  NoCapital word -> forall s, JS.toLowerCase s = word <-> SaysIgnoringCase s word.
Proof.
  induction word as [| w word IH]; intros Hword s.
  - split.
    + destruct s; [constructor | discriminate].
    + intros H. inversion H. reflexivity.
  - destruct Hword as [Hw Hword]. split.
    + destruct s as [| c s]; [discriminate |]. simpl. intros [= Hc Hs].
      constructor; [now apply lowerChar_reads | now apply IH].
    + intros H. inversion H as [| c w' s' word' Hc Hs]; subst. simpl.
      f_equal; [now apply lowerChar_reads | now apply IH].
Qed.

Lemma toLowerCase_split (a b : string) :
  forall s, JS.toLowerCase s = a ++ b ->
            exists s1 s2, s = s1 ++ s2 /\ JS.toLowerCase s1 = a /\ JS.toLowerCase s2 = b.
Proof.
  induction a as [| x a IH]; intros s H.
  - exists EmptyString, s. auto.
  - destruct s as [| c s]; [discriminate |]. simpl in H. injection H as Hc Hs.
    destruct (IH s Hs) as [s1 [s2 [-> [H1 H2]]]].
    exists (String c s1), s2. simpl. rewrite Hc, H1. auto.
Qed.

Lemma toLowerCase_joins (a b : string) :
  JS.toLowerCase (a ++ b) = JS.toLowerCase a ++ JS.toLowerCase b.
Proof. induction a as [| c a IH]; simpl; [reflexivity | now rewrite IH]. Qed.

Lemma contains_ignoring_case (word s : string) :
  NoCapital word -> Contains word (JS.toLowerCase s) <-> ContainsIgnoringCase word s.
Proof.
  intros Hword. split.
  - intros [pre [post H]].
    destruct (toLowerCase_split _ _ _ H) as [s1 [rest [-> [_ Hrest]]]].
    destruct (toLowerCase_split _ _ _ Hrest) as [mid [s3 [-> [Hmid _]]]].
    exists s1, mid, s3. split; [reflexivity |]. now apply toLowerCase_says.
  - intros [pre [mid [post [-> Hmid]]]].
    exists (JS.toLowerCase pre), (JS.toLowerCase post).
    rewrite !toLowerCase_joins. apply (toLowerCase_says word Hword) in Hmid.
    now rewrite Hmid.
Qed.

Lemma isWhiteSpace_iff (c : ascii) : JS.isWhiteSpace c = true <-> WhiteSpace c.
Proof.
  unfold JS.isWhiteSpace, WhiteSpace. cbv zeta.
  rewrite !orb_true_iff, andb_true_iff, !Nat.leb_le, !Nat.eqb_eq. simpl. lia.
Qed.

Lemma isWhiteSpace_not (c : ascii) : JS.isWhiteSpace c = false <-> ~ WhiteSpace c.
Proof.
  rewrite <- isWhiteSpace_iff. destruct (JS.isWhiteSpace c); split; congruence.
Qed.

Lemma trimStart_blank (before s : string) :
  Blank before -> JS.trimStart (before ++ s) = JS.trimStart s.
Proof.
  induction before as [| c before IH]; simpl; [reflexivity |].
  intros [Hc Hbefore]. apply isWhiteSpace_iff in Hc. rewrite Hc. auto.
Qed.

Lemma trimEnd_blank (after : string) : Blank after -> JS.trimEnd after = EmptyString.
Proof.
  induction after as [| c after IH]; simpl; [reflexivity |].
  intros [Hc Hafter]. rewrite (IH Hafter). apply isWhiteSpace_iff in Hc. now rewrite Hc.
Qed.

Lemma trimEnd_after (t after : string) (l : ascii) :
  ~ WhiteSpace l -> Blank after ->
  JS.trimEnd ((t ++ String l EmptyString) ++ after) = t ++ String l EmptyString.
Proof.
  intros Hl Hafter. apply isWhiteSpace_not in Hl.
  induction t as [| c t IH]; simpl.
  - rewrite (trimEnd_blank after Hafter), Hl. reflexivity.
  - rewrite IH. destruct t; reflexivity.
Qed.

Lemma string_ends (s : string) :
  s = EmptyString \/ exists rest l, s = rest ++ String l EmptyString.
Proof.
  induction s as [| c s IH]; [now left | right].
  destruct IH as [-> | [rest [l ->]]].
  - now exists EmptyString, c.
  - now exists (String c rest), l.
Qed.

Lemma trimOf_trim (s t : string) : TrimOf s t -> JS.trim s = t.
Proof.
  intros [before [after [-> [Hbefore [Hafter [Hfirst Hlast]]]]]].
  unfold JS.trim. rewrite trimStart_blank by exact Hbefore.
  destruct (string_ends t) as [-> | [rest [l Ht]]].
  - simpl. assert (Hstart : forall a, Blank a -> JS.trimStart a = EmptyString).
    { induction a as [| c a IH]; simpl; [reflexivity |].
      intros [Hc Ha]. apply isWhiteSpace_iff in Hc. rewrite Hc. auto. }
    now rewrite (Hstart after Hafter).
  - assert (Hl : ~ WhiteSpace l) by (apply (Hlast rest); exact Ht).
    assert (Hstart : JS.trimStart (t ++ after) = t ++ after).
    { destruct t as [| c t']; [destruct rest; discriminate |].
      simpl. assert (Hc : JS.isWhiteSpace c = false)
        by (apply isWhiteSpace_not, (Hfirst c t'); reflexivity).
      now rewrite Hc. }
    rewrite Hstart, Ht. now apply trimEnd_after.
Qed.

Lemma trimStart_spec (s : string) :
  exists before, s = before ++ JS.trimStart s /\ Blank before /\
                 forall c rest, JS.trimStart s = String c rest -> ~ WhiteSpace c.
Proof.
  induction s as [| c s IH]; simpl.
  - exists EmptyString. repeat split. discriminate.
  - destruct (JS.isWhiteSpace c) eqn:Hc.
    + destruct IH as [before [Hs [Hbefore Hfirst]]].
      exists (String c before). simpl. split; [now rewrite <- Hs |].
      split; [| exact Hfirst]. split; [now apply isWhiteSpace_iff | exact Hbefore].
    + exists EmptyString. repeat split.
      intros d rest [= <- _]. now apply isWhiteSpace_not.
Qed.

Lemma trimEnd_spec (s : string) :
  exists after, s = JS.trimEnd s ++ after /\ Blank after /\
                (forall rest c, JS.trimEnd s = rest ++ String c EmptyString -> ~ WhiteSpace c) /\
                (forall c rest, JS.trimEnd s = String c rest -> s = String c (JS.drop 1 s)).
Proof.
  induction s as [| c s IH]; simpl.
  - exists EmptyString. repeat split; try discriminate.
    intros rest c H. destruct rest; discriminate.
  - destruct IH as [after [Hs [Hafter [Hlast _]]]].
    destruct (JS.trimEnd s) as [| d t] eqn:Ht.
    + destruct (JS.isWhiteSpace c) eqn:Hc.
      * exists (String c s). simpl. split; [reflexivity |].
        split; [split; [now apply isWhiteSpace_iff | simpl in Hs; now rewrite Hs] |].
        split; [| discriminate]. intros rest x H. destruct rest; discriminate.
      * exists s. simpl. split; [reflexivity |].
        split; [simpl in Hs; now rewrite Hs |].
        split; [| intros x rest [= <- _]; reflexivity].
        intros rest x H. destruct rest as [| y rest].
        -- injection H as <-. now apply isWhiteSpace_not.
        -- injection H as _ H. destruct rest; discriminate.
    + exists after. split; [simpl in Hs |- *; now rewrite <- Hs |]. split; [exact Hafter |].
      split; [| intros x rest [= <- _]; reflexivity].
      intros rest x H. destruct rest as [| y rest].
      * discriminate.
      * injection H as _ H. now apply (Hlast rest).
Qed.

Lemma trim_trimOf (s : string) : TrimOf s (JS.trim s).
Proof.
  unfold JS.trim.
  destruct (trimStart_spec s) as [before [Hs [Hbefore Hfirst]]].
  destruct (trimEnd_spec (JS.trimStart s)) as [after [Ht [Hafter [Hlast Hhead]]]].
  exists before, after. split; [now rewrite <- Ht |].
  split; [exact Hbefore |]. split; [exact Hafter |]. split; [| exact Hlast].
  intros c rest H. apply (Hfirst c (JS.drop 1 (JS.trimStart s))).
  now apply (Hhead c rest).
Qed.

Lemma trim_blank (s : string) : JS.trim s = EmptyString <-> Blank s.
Proof.
  split.
  - intros H. pose proof (trim_trimOf s) as [before [after [Hs [Hbefore [Hafter _]]]]].
    rewrite H in Hs. simpl in Hs. rewrite Hs. clear - Hbefore Hafter.
    induction before as [| c before IH]; simpl; [exact Hafter |].
    destruct Hbefore as [Hc Hbefore]. auto.
  - intros H. apply trimOf_trim. exists s, EmptyString. simpl.
    split; [clear; induction s as [| c s IH]; simpl; [reflexivity | now rewrite <- IH] |].
    repeat split; try exact H; try discriminate.
    intros rest c Hrest. destruct rest; discriminate.
Qed.

(** ** Splitting at a separator *)

Lemma includes_char_cons (d c : ascii) (s : string) :
  JS.includes (String d s) (String c EmptyString) =
  Ascii.eqb d c || JS.includes s (String c EmptyString).
Proof. simpl. now rewrite andb_true_r. Qed.

Lemma splitAcc_no_separator (sep : ascii) (s acc : string) :
  JS.includes s (String sep EmptyString) = false ->
  JS.splitAcc sep acc s = [acc ++ s].
Proof.
  revert acc. induction s as [| c s IH]; intros acc H.
  - simpl. now rewrite append_empty_r.
  - rewrite includes_char_cons in H. apply orb_false_iff in H as [Hc Hs].
    simpl. rewrite Hc, IH by exact Hs. rewrite append_assoc. reflexivity.
Qed.

Lemma splitAcc_separator (sep : ascii) (a b acc : string) :
  JS.includes a (String sep EmptyString) = false ->
  JS.splitAcc sep acc (a ++ String sep b) = (acc ++ a) :: JS.splitAcc sep EmptyString b.
Proof.
  revert acc. induction a as [| c a IH]; intros acc H.
  - simpl. now rewrite Ascii.eqb_refl, append_empty_r.
  - rewrite includes_char_cons in H. apply orb_false_iff in H as [Hc Ha].
    simpl. rewrite Hc, IH by exact Ha. rewrite append_assoc. reflexivity.
Qed.

Lemma splitAcc_cases (sep : ascii) (s : string) :
  JS.includes s (String sep EmptyString) = false \/
  exists a b, s = a ++ String sep b /\ JS.includes a (String sep EmptyString) = false.
Proof.
  induction s as [| c s IH].
  - now left.
  - rewrite includes_char_cons. destruct (Ascii.eqb c sep) eqn:Hc.
    + right. apply Ascii.eqb_eq in Hc. subst. now exists EmptyString, s.
    + destruct IH as [H | [a [b [-> Ha]]]]; [now left |].
      right. exists (String c a), b. split; [reflexivity |].
      rewrite includes_char_cons, Hc. exact Ha.
Qed.

Lemma splitAcc_not_nil (sep : ascii) (s acc : string) : JS.splitAcc sep acc s <> [].
Proof.
  revert acc. induction s as [| c s IH]; intros acc; simpl; [discriminate |].
  destruct (Ascii.eqb c sep); [discriminate | apply IH].
Qed.

Lemma split_two (sep : ascii) (m a b : string) :
  JS.split m sep = [a; b] <->
  m = a ++ String sep b /\
  JS.includes a (String sep EmptyString) = false /\
  JS.includes b (String sep EmptyString) = false.
Proof.
  unfold JS.split. split.
  - intros H. destruct (splitAcc_cases sep m) as [Hm | [a0 [b0 [-> Ha0]]]].
    + rewrite splitAcc_no_separator in H by exact Hm. discriminate.
    + rewrite splitAcc_separator in H by exact Ha0. simpl in H.
      injection H as -> H.
      destruct (splitAcc_cases sep b0) as [Hb | [a1 [b1 [-> Ha1]]]].
      * rewrite splitAcc_no_separator in H by exact Hb. simpl in H.
        injection H as ->. now repeat split.
      * rewrite splitAcc_separator in H by exact Ha1. injection H as _ H.
        now apply splitAcc_not_nil in H.
  - intros [-> [Ha Hb]].
    rewrite splitAcc_separator by exact Ha. rewrite splitAcc_no_separator by exact Hb. reflexivity.
Qed.

Lemma noSlash_iff (s : string) : NoSlash s <-> JS.includes s "/" = false.
Proof.
  unfold NoSlash. rewrite <- includes_iff. now destruct (JS.includes s "/").
Qed.

Lemma split_qualified (name m : string) :
  (exists pre, JS.split m "/"%char = [pre; name]) <-> Qualified name m.
Proof.
  unfold Qualified. split.
  - intros [pre H]. apply split_two in H as [-> [Hp Hn]].
    exists pre. rewrite !noSlash_iff. now repeat split.
  - intros [pre [-> [Hp Hn]]]. exists pre. apply split_two.
    rewrite noSlash_iff in Hp, Hn. now repeat split.
Qed.

(** ** Sorting and the last element *)

Section SortFacts.

Variable localeCompare : string -> string -> comparison.
Hypothesis consistent : ConsistentComparator localeCompare.

Let desc := descending localeCompare.

Lemma localeCompare_refl (a : string) : localeCompare a a <> Gt.
Proof.
  destruct consistent as [Hflip _]. specialize (Hflip a a).
  destruct (localeCompare a a); simpl in Hflip; congruence.
Qed.

Lemma insert_In (x y : string) (l : list string) :
  In y (JS.insert desc x l) <-> y = x \/ In y l.
Proof.
  induction l as [| z l IH]; simpl.
  - intuition.
  - destruct (desc x z); simpl; rewrite ?IH; intuition.
Qed.

Lemma sort_In (y : string) (l : list string) : In y (JS.sort desc l) <-> In y l.
Proof.
  induction l as [| x l IH]; simpl; [tauto |].
  rewrite insert_In, IH. intuition.
Qed.

Lemma lastElement_In (A : Type) (l : list A) (m : A) :
  JS.lastElement l = Some m -> In m l.
Proof.
  induction l as [| x l IH]; simpl; [discriminate |].
  destruct l as [| y l]; [intros [= ->]; now left | intros H; right; now apply IH].
Qed.

Lemma lastElement_None (A : Type) (l : list A) : JS.lastElement l = None <-> l = [].
Proof.
  induction l as [| x l IH]; simpl; [tauto |].
  destruct l as [| y l]; [split; discriminate |].
  rewrite IH. split; discriminate.
Qed.

Let later_first (a b : string) : Prop := localeCompare b a <> Gt.

Lemma insert_sorted (x : string) (l : list string) :
  StronglySorted later_first l -> StronglySorted later_first (JS.insert desc x l).
Proof.
  destruct consistent as [Hflip Htrans].
  induction l as [| y l IH]; intros Hs; simpl.
  - constructor; constructor.
  - inversion Hs as [| y' l' Hl Hy]; subst.
    assert (Hbefore : desc x y <> Gt -> StronglySorted later_first (x :: y :: l)).
    { intros Hxy. constructor; [exact Hs |]. constructor; [exact Hxy |].
      rewrite Forall_forall in *. intros z Hz.
      apply Htrans with y; [now apply Hy | exact Hxy]. }
    destruct (desc x y) eqn:Hxy; try (apply Hbefore; congruence).
    constructor; [now apply IH |].
    rewrite Forall_forall in *. intros z Hz. apply insert_In in Hz as [-> | Hz].
    + unfold later_first. unfold desc, descending in Hxy.
      rewrite (Hflip y x), Hxy. discriminate.
    + now apply Hy.
Qed.

Lemma sort_sorted (l : list string) : StronglySorted later_first (JS.sort desc l).
Proof.
  induction l as [| x l IH]; simpl; [constructor | now apply insert_sorted].
Qed.

Lemma sorted_last_least (l : list string) (m : string) :
  StronglySorted later_first l -> JS.lastElement l = Some m -> Least localeCompare m l.
Proof.
  induction l as [| x l IH]; intros Hs Hm; [discriminate |].
  inversion Hs as [| x' l' Hl Hx]; subst.
  destruct l as [| y l].
  - injection Hm as <-. split; [now left |].
    intros z [<- | []]. apply localeCompare_refl.
  - assert (Hm' : JS.lastElement (y :: l) = Some m) by exact Hm.
    destruct (IH Hl Hm') as [Hin Hmin]. split; [now right |].
    intros z [<- | Hz]; [| now apply Hmin].
    rewrite Forall_forall in Hx. now apply Hx.
Qed.

(** The element the code picks among the names with prefix [p]. *)
Lemma sortedMatches_last (availableModels : list string) (p m : string) :
  JS.lastElement (sortedMatches localeCompare availableModels p) = Some m ->
  SmallestWithPrefix localeCompare availableModels p m.
Proof.
  intros H. apply sorted_last_least in H; [| apply sort_sorted].
  destruct H as [Hin Hmin]. apply sort_In, filter_In in Hin as [Hin Hp].
  split; [exact Hin |]. split; [now apply startsWith_iff |].
  intros m' Hm' Hp'. apply Hmin. apply sort_In, filter_In.
  split; [exact Hm' | now apply startsWith_iff].
Qed.

Lemma sortedMatches_none (availableModels : list string) (p : string) :
  JS.lastElement (sortedMatches localeCompare availableModels p) = None ->
  forall m, In m availableModels -> ~ IsPrefix p m.
Proof.
  intros H m Hm Hp. apply lastElement_None in H.
  assert (Hin : In m (sortedMatches localeCompare availableModels p)).
  { apply sort_In, filter_In. split; [exact Hm | now apply startsWith_iff]. }
  rewrite H in Hin. exact Hin.
Qed.

End SortFacts.

(** ** The [-exp] pattern *)

Lemma noLineTerminator_append (a b : string) :
  noLineTerminator (a ++ b) = noLineTerminator a && noLineTerminator b.
Proof.
  induction a as [| c a IH]; simpl; [reflexivity |].
  now rewrite IH, andb_assoc.
Qed.

Lemma expMatch_unfold (s : string) :
  expMatch s =
  if expTail s then Some EmptyString
  else match s with
       | EmptyString => None
       | String c s' =>
           if isLineTerminator c then None else option_map (String c) (expMatch s')
       end.
Proof. destruct s; reflexivity. Qed.

(** What [expTail] accepts: [-exp], then nothing, or a dash and a run of
    characters without a line break. *)
Lemma expTail_iff (s : string) :
  expTail s = true <->
  exists tail, s = "-exp" ++ tail /\
    (tail = EmptyString \/
     exists t, tail = String "-" t /\ noLineTerminator t = true).
Proof.
  unfold expTail. rewrite andb_true_iff, startsWith_iff. split.
  - intros [[r ->] H]. exists r. split; [reflexivity |].
    change (JS.drop 4 ("-exp" ++ r)) with r in H.
    destruct r as [| c r]; [now left | right].
    apply andb_true_iff in H as [Hc Hr]. apply Ascii.eqb_eq in Hc. subst.
    now exists r.
  - intros [tail [-> H]]. split; [now exists tail |].
    change (JS.drop 4 ("-exp" ++ tail)) with tail.
    destruct H as [-> | [t [-> Ht]]]; [reflexivity |].
    now rewrite Ascii.eqb_refl.
Qed.

Lemma expMatch_Some (s stem : string) :
  expMatch s = Some stem ->
  exists rest, s = stem ++ rest /\ expTail rest = true /\
    noLineTerminator stem = true /\
    forall p q, s = p ++ q -> (String.length p < String.length stem)%nat ->
                expTail q = false.
Proof.
  revert stem. induction s as [| c s IH]; intros stem H; rewrite expMatch_unfold in H.
  - destruct (expTail EmptyString) eqn:Ht; [| discriminate].
    injection H as <-. exists EmptyString. repeat split; auto.
    intros p q _ Hlen. simpl in Hlen. lia.
  - destruct (expTail (String c s)) eqn:Ht.
    + injection H as <-. exists (String c s). repeat split; auto.
      intros p q _ Hlen. simpl in Hlen. lia.
    + destruct (isLineTerminator c) eqn:Hc; [discriminate |].
      destruct (expMatch s) as [stem' |] eqn:Hs; [| discriminate].
      injection H as <-.
      destruct (IH stem' eq_refl) as [rest [-> [Hrest [Hno Hmin]]]].
      exists rest. split; [reflexivity |]. split; [exact Hrest |].
      split; [simpl; now rewrite Hc |].
      intros p q Hpq Hlen. destruct p as [| d p].
      * simpl in Hpq. now subst q.
      * simpl in Hpq. injection Hpq as _ Hpq. apply (Hmin p q Hpq).
        simpl in Hlen. lia.
Qed.

Lemma expMatch_None (s : string) :
  expMatch s = None ->
  forall p q, s = p ++ q -> noLineTerminator p = true -> expTail q = false.
Proof.
  induction s as [| c s IH]; intros H p q Hpq Hp; rewrite expMatch_unfold in H.
  - destruct (expTail EmptyString) eqn:Ht; [discriminate |].
    destruct p; [simpl in Hpq; now subst q | discriminate].
  - destruct (expTail (String c s)) eqn:Ht; [discriminate |].
    destruct p as [| d p]; [simpl in Hpq; now subst q |].
    simpl in Hpq. injection Hpq as <- Hpq.
    simpl in Hp. apply andb_true_iff in Hp as [Hd Hp].
    apply negb_true_iff in Hd. rewrite Hd in H.
    destruct (expMatch s) eqn:Hs; [discriminate |].
    now apply (IH eq_refl p q).
Qed.

(** An '-exp' suffix of a name without line breaks is one the pattern's
    tail accepts. *)
Lemma expSuffix_tail (name stem : string) :
  noLineTerminator name = true -> ExpSuffix name stem ->
  exists rest, name = stem ++ rest /\ expTail rest = true /\
               noLineTerminator stem = true.
Proof.
  intros Hno [tail [-> Htail]].
  rewrite !noLineTerminator_append in Hno.
  apply andb_true_iff in Hno as [Hstem Hrest].
  apply andb_true_iff in Hrest as [_ Htl].
  exists ("-exp" ++ tail). split; [reflexivity |]. split; [| exact Hstem].
  apply expTail_iff. exists tail. split; [reflexivity |].
  destruct Htail as [-> | [r ->]]; [now left | right].
  exists r. split; [reflexivity |]. simpl in Htl. exact Htl.
Qed.

Lemma expMatch_stem (name stem : string) :
  expMatch name = Some stem <-> ExpStem name stem.
Proof.
  split.
  - intros H. destruct (expMatch_Some _ _ H) as [rest [-> [Hrest [Hno Hmin]]]].
    assert (Hname : noLineTerminator (stem ++ rest) = true).
    { rewrite noLineTerminator_append, Hno. simpl.
      apply expTail_iff in Hrest as [tail [-> [-> | [t [-> Ht]]]]]; [reflexivity |].
      simpl. exact Ht. }
    assert (Hsuffix : ExpSuffix (stem ++ rest) stem).
    { apply expTail_iff in Hrest as [tail [-> Htail]]. exists tail.
      split; [reflexivity |].
      destruct Htail as [-> | [t [-> _]]]; [now left | right; now exists t]. }
    split; [exact Hname |]. split; [exact Hsuffix |].
    intros stem' Hs'.
    destruct (expSuffix_tail _ _ Hname Hs') as [rest' [Heq [Hrest' _]]].
    destruct (Nat.le_gt_cases (String.length stem) (String.length stem')) as [Hle | Hlt];
      [exact Hle |].
    rewrite (Hmin stem' rest' Heq Hlt) in Hrest'. discriminate.
  - intros [Hno [Hsuffix Hmin]].
    destruct (expSuffix_tail _ _ Hno Hsuffix) as [rest [Heq [Hrest Hstem]]].
    destruct (expMatch name) as [stem0 |] eqn:Hm.
    + destruct (expMatch_Some _ _ Hm) as [rest0 [Heq0 [Hrest0 [Hno0 Hmin0]]]].
      assert (Hs0 : ExpSuffix name stem0).
      { apply expTail_iff in Hrest0 as [tail [-> Htail]]. exists tail.
        split; [exact Heq0 |].
        destruct Htail as [-> | [t [-> _]]]; [now left | right; now exists t]. }
      assert (Hlen : String.length stem0 = String.length stem).
      { apply Nat.le_antisymm; [| now apply Hmin].
        destruct (Nat.le_gt_cases (String.length stem0) (String.length stem)) as [Hle | Hlt];
          [exact Hle |].
        rewrite (Hmin0 stem rest Heq Hlt) in Hrest. discriminate. }
      rewrite Heq in Heq0 at 1.
      destruct (append_same_length _ _ _ _ Heq0 (eq_sym Hlen)) as [-> _]. reflexivity.
    + rewrite (expMatch_None _ Hm stem rest Heq Hstem) in Hrest. discriminate.
Qed.

(** ** The stages of getModel *)

Lemma qualified_test (name m : string) :
  (match JS.split m "/"%char with
   | [_; second] => String.eqb second name
   | _ => false
   end) = true <-> Qualified name m.
Proof.
  rewrite <- split_qualified. split.
  - destruct (JS.split m "/"%char) as [| a [| b [| c l]]]; try discriminate.
    intros H. apply String.eqb_eq in H. subst. now exists a.
  - intros [pre ->]. apply String.eqb_refl.
Qed.

Lemma findQualified_Some (availableModels : list string) (name m : string) :
  findQualified availableModels name = Some m ->
  In m availableModels /\ Qualified name m /\ JS.truthy m = true.
Proof.
  unfold findQualified. intros H. apply find_some in H as [Hin Hq].
  apply qualified_test in Hq. repeat split; try assumption.
  destruct Hq as [pre [-> _]]. now destruct pre.
Qed.

Lemma findQualified_None (availableModels : list string) (name : string) :
  findQualified availableModels name = None ->
  forall m, In m availableModels -> ~ Qualified name m.
Proof.
  unfold findQualified. intros H m Hin Hq.
  apply qualified_test in Hq. now rewrite (find_none _ _ H m Hin) in Hq.
Qed.

Section ResolutionFacts.

Variable localeCompare : string -> string -> comparison.
Variable getSimilarModels : string -> list string -> list string.
Hypothesis consistent : ConsistentComparator localeCompare.

Variable p : provider.
Variable availableModels : list string.
Variable name : string.

Let resolveExp' := resolveExp localeCompare getSimilarModels p availableModels name.
Let resolveLatest' := resolveLatest localeCompare getSimilarModels p availableModels name.
Let resolvePrefix' := resolvePrefix localeCompare getSimilarModels p availableModels name.
Let resolveModel' := resolveModel localeCompare getSimilarModels p availableModels name.
Let notFound := modelNotFound localeCompare getSimilarModels p availableModels name.

Let Stage3' := Stage3 localeCompare availableModels name.
Let Stage4' := Stage4 localeCompare availableModels name.
Let Stage5' := Stage5 localeCompare availableModels name.

Lemma smallest_excluded (q : string) :
  (forall m, In m availableModels -> ~ IsPrefix q m) ->
  forall m, ~ SmallestWithPrefix localeCompare availableModels q m.
Proof. intros H m [Hin [Hp _]]. exact (H m Hin Hp). Qed.

Lemma resolveExp_cases :
  (exists m, resolveExp' = Return m /\ Stage5' m) \/
  (resolveExp' = Throw notFound /\ ~ Matches Stage5').
Proof.
  unfold resolveExp', resolveExp.
  destruct (expMatch name) as [stem |] eqn:Hm.
  - destruct (JS.lastElement (sortedMatches localeCompare availableModels stem))
      as [m |] eqn:Hlast.
    + left. exists m. split; [reflexivity |]. exists stem.
      split; [now apply expMatch_stem | now apply (sortedMatches_last localeCompare consistent)].
    + right. split; [reflexivity |]. intros [m [stem' [Hstem' Hsmall]]].
      apply expMatch_stem in Hstem'. rewrite Hm in Hstem'. injection Hstem' as <-.
      revert Hsmall. apply smallest_excluded. now apply (sortedMatches_none localeCompare).
  - right. split; [reflexivity |]. intros [m [stem' [Hstem' _]]].
    apply expMatch_stem in Hstem'. rewrite Hm in Hstem'. discriminate.
Qed.

Lemma resolveLatest_cases :
  (exists m, resolveLatest' = Return m /\ Stage4' m) \/
  (resolveLatest' = resolveExp' /\ ~ Matches Stage4').
Proof.
  unfold resolveLatest', resolveLatest.
  destruct (JS.endsWith name "-latest") eqn:Hends.
  - apply endsWith_iff in Hends as [stem Hname].
    assert (Hslice : JS.sliceEnd name (String.length "-latest") = stem).
    { rewrite Hname. apply sliceEnd_append. }
    rewrite Hslice.
    destruct (JS.lastElement (sortedMatches localeCompare availableModels stem))
      as [m |] eqn:Hlast.
    + left. exists m. split; [reflexivity |]. exists stem.
      split; [exact Hname | now apply (sortedMatches_last localeCompare consistent)].
    + right. split; [reflexivity |]. intros [m [stem' [Hname' Hsmall]]].
      assert (stem' = stem) as ->.
      { rewrite Hname in Hname'. symmetry. now apply append_inv_tail in Hname'. }
      revert Hsmall. apply smallest_excluded. now apply (sortedMatches_none localeCompare).
  - right. split; [reflexivity |]. intros [m [stem' [Hname' _]]].
    assert (Hsuf : JS.endsWith name "-latest" = true)
      by (apply endsWith_iff; now exists stem').
    rewrite Hends in Hsuf. discriminate.
Qed.

Lemma resolvePrefix_cases :
  (exists m, resolvePrefix' = Return m /\ Stage3' m) \/
  (resolvePrefix' = resolveLatest' /\ ~ Matches Stage3').
Proof.
  unfold resolvePrefix', resolvePrefix.
  destruct (JS.lastElement (sortedMatches localeCompare availableModels name))
    as [m |] eqn:Hlast.
  - left. exists m. split; [reflexivity | now apply (sortedMatches_last localeCompare consistent)].
  - right. split; [reflexivity |]. intros [m Hsmall].
    revert Hsmall. apply smallest_excluded. now apply (sortedMatches_none localeCompare).
Qed.

Lemma resolveModel_first_stages :
  (resolveModel' = Return name /\ Stage1 availableModels name name) \/
  (~ Matches (Stage1 availableModels name) /\
   exists m, resolveModel' = Return m /\ Stage2 availableModels name m) \/
  (~ Matches (Stage1 availableModels name) /\
   ~ Matches (Stage2 availableModels name) /\
   resolveModel' = resolvePrefix').
Proof.
  unfold resolveModel', resolveModel.
  destruct (JS.has availableModels name) eqn:Hhas.
  - left. apply has_iff in Hhas. now repeat split.
  - right.
    assert (H1 : ~ Matches (Stage1 availableModels name)).
    { intros [m [_ Hin]]. apply has_iff in Hin. rewrite Hhas in Hin. discriminate. }
    destruct (JS.includes name "/") eqn:Hslash; simpl.
    + right. repeat split; [exact H1 |].
      intros [m [Hno _]]. apply noSlash_iff in Hno. rewrite Hslash in Hno. discriminate.
    + destruct (findQualified availableModels name) as [m |] eqn:Hfind.
      * apply findQualified_Some in Hfind as [Hin [Hq Ht]]. rewrite Ht.
        left. split; [exact H1 |]. exists m. split; [reflexivity |].
        repeat split; try assumption. now apply noSlash_iff.
      * right. repeat split; [exact H1 |].
        intros [m [_ [Hin Hq]]]. exact (findQualified_None _ _ Hfind m Hin Hq).
Qed.

(** [resolveModel] returns what the first matching stage yields, a member
    of the set, or throws [modelNotFound] when no stage matches. *)
Lemma resolveModel_cases :
  (exists m, resolveModel' = Return m /\ In m availableModels /\
             FirstMatch localeCompare availableModels name m) \/
  (resolveModel' = Throw notFound /\ NoMatch localeCompare availableModels name).
Proof.
  assert (Hsmall : forall q m, SmallestWithPrefix localeCompare availableModels q m ->
                               In m availableModels) by (intros q m [H _]; exact H).
  destruct resolveModel_first_stages as [[Hr S1] | [[N1 [m [Hr S2]]] | [N1 [N2 Hr]]]].
  - left. exists name. split; [exact Hr |]. split; [apply S1 | now left].
  - left. exists m. split; [exact Hr |]. split; [apply S2 | right; now left].
  - rewrite Hr. destruct resolvePrefix_cases as [[m [Hr3 S3]] | [Hr3 N3]].
    + left. exists m. split; [exact Hr3 |]. split; [exact (Hsmall _ _ S3) |].
      right; right; left. exact (conj N1 (conj N2 S3)).
    + rewrite Hr3. destruct resolveLatest_cases as [[m [Hr4 S4]] | [Hr4 N4]].
      * left. exists m. split; [exact Hr4 |].
        split; [destruct S4 as [stem [_ S4]]; exact (Hsmall _ _ S4) |].
        right; right; right; left. exact (conj N1 (conj N2 (conj N3 S4))).
      * rewrite Hr4. destruct resolveExp_cases as [[m [Hr5 S5]] | [Hr5 N5]].
        -- left. exists m. split; [exact Hr5 |].
           split; [destruct S5 as [stem [_ S5]]; exact (Hsmall _ _ S5) |].
           right; right; right; right. exact (conj N1 (conj N2 (conj N3 (conj N4 S5)))).
        -- right. split; [exact Hr5 |].
           exact (conj N1 (conj N2 (conj N3 (conj N4 N5)))).
Qed.

End ResolutionFacts.

(** ** The order of code units is a consistent comparator *)

Lemma ascii_compare_refl (a : ascii) : Ascii.compare a a = Eq.
Proof. unfold Ascii.compare. apply N.compare_refl. Qed.

Lemma string_compare_trans (a b c : string) :
  String.compare a b <> Gt -> String.compare b c <> Gt -> String.compare a c <> Gt.
Proof.
  revert b c. induction a as [| x a IH]; intros [| y b] [| z c]; simpl;
    try congruence.
  unfold Ascii.compare.
  destruct (N.compare_spec (N_of_ascii x) (N_of_ascii y)) as [Hxy | Hxy | Hxy];
    destruct (N.compare_spec (N_of_ascii y) (N_of_ascii z)) as [Hyz | Hyz | Hyz];
    destruct (N.compare_spec (N_of_ascii x) (N_of_ascii z)) as [Hxz | Hxz | Hxz];
    try congruence; try lia.
  apply IH.
Qed.

Lemma codeUnitOrder_consistent : ConsistentComparator String.compare.
Proof.
  split.
  - intros a b. apply String.compare_antisym.
  - apply string_compare_trans.
Qed.

(** ** getModel *)

Lemma getModel_requested (localeCompare : string -> string -> comparison)
      (getSimilarModels : string -> list string -> list string)
      (p : provider) (availableModels : list string)
      (options : ModelOptions) (name : string) :
  model options = Some name -> name <> EmptyString ->
  getModel localeCompare getSimilarModels p (Some (Return availableModels)) (Some options) =
  resolveModel localeCompare getSimilarModels p availableModels name.
Proof.
  intros Hm Hname. unfold getModel, requestedModel. rewrite Hm.
  apply truthy_iff in Hname. now rewrite Hname.
Qed.

Lemma firstMatch_matches (localeCompare : string -> string -> comparison)
      (availableModels : list string) (name m : string) :
  FirstMatch localeCompare availableModels name m ->
  ~ NoMatch localeCompare availableModels name.
Proof.
  intros H [N1 [N2 [N3 [N4 N5]]]].
  destruct H as [S | [[_ S] | [[_ [_ S]] | [[_ [_ [_ S]]] | [_ [_ [_ [_ S]]]]]]]].
  - apply N1. now exists m.
  - apply N2. now exists m.
  - apply N3. now exists m.
  - apply N4. now exists m.
  - apply N5. now exists m.
Qed.

(** C1.  For a provider whose set of available models is at hand and a
    requested (present, non-empty) model name, [getModel] tries the five
    stages in order: exact membership; for a name without '/', an entry
    'prefix/name'; the smallest entry, in the order of [localeCompare], with
    the name as prefix; for a name ending in '-latest', the smallest entry
    with the name minus '-latest' as prefix; for a name with an '-exp' or
    '-exp-...' suffix, the smallest entry with the name minus that suffix as
    prefix.  Whatever it returns is what the first matching stage yields and
    is a member of the set; and it does return as soon as some stage
    matches. *)
Theorem getModel_first_matching_stage
        (localeCompare : string -> string -> comparison)
        (getSimilarModels : string -> list string -> list string)
        (p : provider) (availableModels : list string)
        (options : ModelOptions) (name : string) :
  ConsistentComparator localeCompare ->
  model options = Some name -> name <> EmptyString ->
  let outcome :=
    getModel localeCompare getSimilarModels p (Some (Return availableModels)) (Some options) in
  (forall m, outcome = Return m ->
             In m availableModels /\ FirstMatch localeCompare availableModels name m) /\
  (~ NoMatch localeCompare availableModels name ->
   exists m, outcome = Return m /\ In m availableModels /\
             FirstMatch localeCompare availableModels name m).
Proof.
  intros Hc Hm Hname outcome. subst outcome.
  rewrite (getModel_requested _ _ _ _ _ _ Hm Hname).
  destruct (resolveModel_cases localeCompare getSimilarModels Hc p availableModels name)
    as [[m [Hr [Hin Hf]]] | [Hr Hn]].
  - split.
    + intros m' Hm'. rewrite Hr in Hm'. injection Hm' as <-. now split.
    + intros _. now exists m.
  - split.
    + intros m' Hm'. rewrite Hr in Hm'. discriminate.
    + intros Hnot. now elim Hnot.
Qed.

Lemma getModel_first_matching_stage_witness :
  ConsistentComparator String.compare /\
  (let options := mkOptions (Some "gemini-2.0-pro-exp-03") 8000 None None None None None in
   let availableModels :=
     ["openai/gpt-4"; "gemini-2.0-pro-exp-02-05"; "gemini-2.0-pro"; "gemini-1.5"] in
   let outcome :=
     getModel String.compare (fun _ _ => []) GoogleGenerativeLanguageProvider
              (Some (Return availableModels)) (Some options) in
   (forall m, outcome = Return m ->
              In m availableModels /\
              FirstMatch String.compare availableModels "gemini-2.0-pro-exp-03" m) /\
   (~ NoMatch String.compare availableModels "gemini-2.0-pro-exp-03" ->
    exists m, outcome = Return m /\ In m availableModels /\
              FirstMatch String.compare availableModels "gemini-2.0-pro-exp-03" m)).
Proof.
  split; [exact codeUnitOrder_consistent |].
  apply (getModel_first_matching_stage String.compare (fun _ _ => [])
           GoogleGenerativeLanguageProvider
           ["openai/gpt-4"; "gemini-2.0-pro-exp-02-05"; "gemini-2.0-pro"; "gemini-1.5"]
           (mkOptions (Some "gemini-2.0-pro-exp-03") 8000 None None None None None)
           "gemini-2.0-pro-exp-03").
  - exact codeUnitOrder_consistent.
  - reflexivity.
  - discriminate.
Defined.

Example getModel_exact :
  getModel String.compare (fun _ _ => []) ModelBoxProvider
           (Some (Return ["openai/gpt-4"; "gpt-4"]))
           (Some (mkOptions (Some "gpt-4") 100 None None None None None))
  = Return "gpt-4".
Proof. reflexivity. Qed.

Example getModel_qualified :
  getModel String.compare (fun _ _ => []) ModelBoxProvider
           (Some (Return ["anthropic/claude"; "openai/gpt-4"; "azure/gpt-4"]))
           (Some (mkOptions (Some "gpt-4") 100 None None None None None))
  = Return "openai/gpt-4".
Proof. reflexivity. Qed.

Example getModel_prefix :
  getModel String.compare (fun _ _ => []) GoogleGenerativeLanguageProvider
           (Some (Return ["gemini-2.0-pro"; "gemini-1.5-flash"; "gemini-1.5-pro"]))
           (Some (mkOptions (Some "gemini-1") 100 None None None None None))
  = Return "gemini-1.5-flash".
Proof. reflexivity. Qed.

Example getModel_latest :
  getModel String.compare (fun _ _ => []) GoogleGenerativeLanguageProvider
           (Some (Return ["gemini-2.0-pro"; "gemini-1.5-flash-002"; "gemini-1.5-flash-001"]))
           (Some (mkOptions (Some "gemini-1.5-flash-latest") 100 None None None None None))
  = Return "gemini-1.5-flash-001".
Proof. reflexivity. Qed.

Example getModel_exp :
  getModel String.compare (fun _ _ => []) GoogleGenerativeLanguageProvider
           (Some (Return ["gemini-2.0-pro-exp-02-05"; "gemini-2.0-pro"; "gemini-1.5"]))
           (Some (mkOptions (Some "gemini-2.0-pro-exp-03") 100 None None None None None))
  = Return "gemini-2.0-pro".
Proof. reflexivity. Qed.

(** ** The error of getModel *)

Lemma insert_perm (cmp : string -> string -> comparison) (x : string) (l : list string) :
  Permutation (JS.insert cmp x l) (x :: l).
Proof.
  induction l as [| y l IH]; simpl; [reflexivity |].
  destruct (cmp x y); try reflexivity.
  rewrite IH. apply perm_swap.
Qed.

Lemma sort_perm (cmp : string -> string -> comparison) (l : list string) :
  Permutation (JS.sort cmp l) l.
Proof.
  induction l as [| x l IH]; simpl; [reflexivity |].
  rewrite insert_perm. now constructor.
Qed.

Lemma contains_middle (pre sub post : string) : Contains sub (pre ++ sub ++ post).
Proof. now exists pre, post. Qed.

Lemma bulletList_listOf (models : list string) : ListOf models (bulletList models).
Proof.
  unfold bulletList, JS.join. induction models as [| m models IH].
  - constructor.
  - destruct models as [| m' models].
    + apply list_of_one.
    + change (String.concat nl (map (fun m => "- " ++ m) (m :: m' :: models)))
        with (("- " ++ m) ++ nl ++ String.concat nl (map (fun m => "- " ++ m) (m' :: models))).
      rewrite append_assoc. apply list_of_more; [discriminate | exact IH].
Qed.

Lemma notFoundSimilar_lists (p : provider) (name : string) (similarModels : list string) :
  ListsUnder "Similar available models:" similarModels
             (notFoundSimilar p name similarModels).
Proof.
  exists (bulletList similarModels). split; [apply bulletList_listOf |].
  unfold notFoundSimilar.
  exists ("Model '" ++ name ++ "' not found in " ++ providerLabel p ++ "." ++ nl ++ nl ++
          "You requested: " ++ name ++ nl).
  eexists. rewrite !append_assoc. reflexivity.
Qed.

Lemma notFoundRecent_lists (p : provider) (name : string) (recentModels : list string) :
  ListsUnder "Recent available models:" recentModels
             (notFoundRecent p name recentModels).
Proof.
  exists (bulletList recentModels). split; [apply bulletList_listOf |].
  unfold notFoundRecent.
  exists ("Model '" ++ name ++ "' not found in " ++ providerLabel p ++ "." ++ nl ++ nl ++
          "You requested: " ++ name ++ nl).
  eexists. rewrite !append_assoc. reflexivity.
Qed.

(** C6.  When no stage matches the requested name, [getModel] throws a
    [ModelNotFoundError] and returns no model; its message lists the similar
    models, one on a line after the line 'Similar available models:', when
    [getSimilarModels] finds some, and otherwise lists in the same way, after
    the line 'Recent available models:', all the available models in
    descending order. *)
Theorem getModel_not_found_error
        (localeCompare : string -> string -> comparison)
        (getSimilarModels : string -> list string -> list string)
        (p : provider) (availableModels : list string)
        (options : ModelOptions) (name : string) :
  ConsistentComparator localeCompare ->
  model options = Some name -> name <> EmptyString ->
  NoMatch localeCompare availableModels name ->
  exists e,
    getModel localeCompare getSimilarModels p (Some (Return availableModels)) (Some options)
    = Throw e /\
    errClass e = ModelNotFoundError /\
    (getSimilarModels name availableModels <> [] ->
     ListsUnder "Similar available models:" (getSimilarModels name availableModels)
                (errArg e)) /\
    (getSimilarModels name availableModels = [] ->
     exists recentModels,
       Permutation recentModels availableModels /\
       Descending localeCompare recentModels /\
       ListsUnder "Recent available models:" recentModels (errArg e)).
Proof.
  intros Hc Hm Hname Hno.
  rewrite (getModel_requested _ _ _ _ _ _ Hm Hname).
  destruct (resolveModel_cases localeCompare getSimilarModels Hc p availableModels name)
    as [[m [_ [_ Hf]]] | [Hr _]].
  - now apply firstMatch_matches in Hf.
  - rewrite Hr. eexists. split; [reflexivity |].
    unfold modelNotFound.
    destruct (getSimilarModels name availableModels) as [| s similar] eqn:Hs; simpl.
    + split; [reflexivity |]. split; [congruence |]. intros _.
      exists (JS.sort (descending localeCompare) availableModels).
      split; [apply sort_perm |]. split; [now apply sort_sorted |].
      apply notFoundRecent_lists.
    + split; [reflexivity |]. split; [| discriminate]. intros _.
      apply notFoundSimilar_lists.
Qed.

Lemma getModel_not_found_error_witness :
  let availableModels := ["gemini-1.5-flash"; "gemini-2.0-pro"; "gemini-2.0-flash"] in
  let options := mkOptions (Some "gpt-4") 8000 None None None None None in
  let nearest := fun (_ : string) (models : list string) => firstn 2 models in
  let none := fun (_ : string) (_ : list string) => @nil string in
  ConsistentComparator String.compare /\
  NoMatch String.compare availableModels "gpt-4" /\
  (exists e,
      getModel String.compare nearest GoogleGenerativeLanguageProvider
               (Some (Return availableModels)) (Some options) = Throw e /\
      errClass e = ModelNotFoundError /\
      Contains ("Similar available models:" ++ nl ++
                "- gemini-1.5-flash" ++ nl ++ "- gemini-2.0-pro" ++ nl ++ nl) (errArg e)) /\
  (exists e,
      getModel String.compare none GoogleGenerativeLanguageProvider
               (Some (Return availableModels)) (Some options) = Throw e /\
      errClass e = ModelNotFoundError /\
      Contains ("Recent available models:" ++ nl ++
                "- gemini-2.0-pro" ++ nl ++ "- gemini-2.0-flash" ++ nl ++
                "- gemini-1.5-flash" ++ nl ++ nl) (errArg e)).
Proof.
  cbv zeta.
  assert (Hno : NoMatch String.compare
                        ["gemini-1.5-flash"; "gemini-2.0-pro"; "gemini-2.0-flash"] "gpt-4").
  { destruct (resolveModel_cases String.compare (fun _ _ => []) codeUnitOrder_consistent
                GoogleGenerativeLanguageProvider
                ["gemini-1.5-flash"; "gemini-2.0-pro"; "gemini-2.0-flash"] "gpt-4")
      as [[m [Hr _]] | [_ Hn]]; [discriminate | exact Hn]. }
  assert (Hlisting : forall models listing text,
             ListOf models listing -> listing = text -> ListOf models text)
    by (intros models listing text H <-; exact H).
  split; [exact codeUnitOrder_consistent |]. split; [exact Hno |]. split.
  - destruct (getModel_not_found_error
                String.compare (fun _ models => firstn 2 models)
                GoogleGenerativeLanguageProvider
                ["gemini-1.5-flash"; "gemini-2.0-pro"; "gemini-2.0-flash"]
                (mkOptions (Some "gpt-4") 8000 None None None None None) "gpt-4"
                codeUnitOrder_consistent eq_refl ltac:(discriminate) Hno)
      as [e [Hthrown [Hclass [Hsimilar _]]]].
    exists e. split; [exact Hthrown |]. split; [exact Hclass |].
    destruct Hsimilar as [listing [Hlist Hshown]]; [discriminate |].
    cbn [firstn] in Hlist.
    inversion Hlist as [| | m models text Hmore Hrest]; subst.
    inversion Hrest as [| m | m models text' Hmore' Hrest']; subst; [| congruence].
    exact Hshown.
  - destruct (getModel_not_found_error
                String.compare (fun _ _ => [])
                GoogleGenerativeLanguageProvider
                ["gemini-1.5-flash"; "gemini-2.0-pro"; "gemini-2.0-flash"]
                (mkOptions (Some "gpt-4") 8000 None None None None None) "gpt-4"
                codeUnitOrder_consistent eq_refl ltac:(discriminate) Hno)
      as [e [Hthrown [Hclass [_ Hrecent]]]].
    exists e. split; [exact Hthrown |]. split; [exact Hclass |].
    injection Hthrown as <-. destruct (Hrecent eq_refl) as [recent [_ [_ Hshown]]].
    clear Hrecent. exists ("Model 'gpt-4' not found in GoogleGenerativeLanguage." ++ nl ++ nl
                           ++ "You requested: gpt-4" ++ nl).
    now exists "Use --model with one of the above models.".
Defined.

(** ** retryWithBackoff *)

Section RetryFacts.

Context {W T : Type}.
Variable operation : W -> result T * W.
Variable maxAttempts : Z.
Variable baseDelay : Z.
Variable shouldRetry : error -> bool.

Let loop := retryLoop operation maxAttempts baseDelay shouldRetry.

(** The delays, from the one after attempt [attempt] on. *)
Lemma retryLoop_waited (attempt : Z) (w : W) :
  forall i d, nth_error (waited (loop attempt w)) i = Some d ->
              d = baseDelay * 2 ^ (attempt - 1 + Z.of_nat i).
Proof.
  unfold loop. funelim (retryLoop operation maxAttempts baseDelay shouldRetry attempt w);
    intros i d Hd; simpl in Hd.
  - destruct i; discriminate.
  - destruct i; discriminate.
  - destruct i as [| i]; simpl in Hd.
    + injection Hd as <-. f_equal. f_equal. lia.
    + match goal with
      | IH : forall i d, nth_error (waited _) i = Some d -> _ |- _ =>
          rewrite (IH i d Hd)
      end.
      f_equal. f_equal. lia.
Qed.

(** One delay per retry. *)
Lemma retryLoop_invocations (attempt : Z) (w : W) :
  invocations (loop attempt w) = S (List.length (waited (loop attempt w))).
Proof.
  unfold loop. funelim (retryLoop operation maxAttempts baseDelay shouldRetry attempt w);
    simpl; try reflexivity.
  now f_equal.
Qed.

(** The loop stops at [maxAttempts]. *)
Lemma retryLoop_bound (attempt : Z) (w : W) :
  Z.of_nat (invocations (loop attempt w)) <= Z.max 1 (maxAttempts - attempt + 1).
Proof.
  unfold loop. funelim (retryLoop operation maxAttempts baseDelay shouldRetry attempt w);
    simpl invocations; lia.
Qed.

(** The errors caught: all but the last were retryable and caught before
    [maxAttempts]; a thrown error is the last one caught; after a success
    every caught error was retryable. *)
Lemma retryLoop_caught (attempt : Z) (w : W) :
  let run := loop attempt w in
  (forall i e, nth_error (caught run) i = Some e ->
               shouldRetry e = false \/ attempt + Z.of_nat i >= maxAttempts ->
               outcome run = Throw e /\ invocations run = S i) /\
  (forall e, outcome run = Throw e ->
             JS.lastElement (caught run) = Some e /\
             List.length (caught run) = invocations run /\
             (shouldRetry e = false \/
              attempt + Z.of_nat (invocations run) - 1 >= maxAttempts)) /\
  (forall v, outcome run = Return v ->
             S (List.length (caught run)) = invocations run /\
             Forall (fun e => shouldRetry e = true) (caught run)).
Proof.
  unfold loop. funelim (retryLoop operation maxAttempts baseDelay shouldRetry attempt w);
    cbv zeta; simpl.
  - split; [| split].
    + intros i e Hi. destruct i; discriminate.
    + discriminate.
    + intros v0 _. split; [reflexivity | constructor].
  - split; [| split].
    + intros i e0 Hi _. destruct i as [| [| i]]; simpl in Hi; try discriminate.
      injection Hi as <-. now split.
    + intros e0 He. injection He as <-. split; [reflexivity |].
      split; [reflexivity |].
      destruct o as [Hge | Hs]; [right; lia | now left].
    + discriminate.
  - match goal with
    | IH : _ /\ _ /\ _ |- _ => destruct IH as [IH1 [IH2 IH3]]
    end.
    destruct a as [Hlt Hretry].
    split; [| split].
    + intros i e' Hi Hstop. destruct i as [| i]; simpl in Hi.
      * injection Hi as <-. destruct Hstop as [Hs | Hge]; [congruence | lia].
      * destruct (IH1 i e' Hi) as [Ho Hn].
        { destruct Hstop as [Hs | Hge]; [now left | right; lia]. }
        split; [exact Ho | now rewrite Hn].
    + intros e' Ho. destruct (IH2 e' Ho) as [Hlast [Hlen Hwhy]].
      split; [| split].
      * destruct (caught (retryLoop operation maxAttempts baseDelay shouldRetry
                                    (attempt + 1) w')); [discriminate | exact Hlast].
      * now rewrite Hlen.
      * destruct Hwhy as [Hs | Hge]; [now left | right; lia].
    + intros v Ho. destruct (IH3 v Ho) as [Hlen Hall].
      split; [now rewrite Hlen | now constructor].
Qed.

(** One turn of the loop. *)
Lemma retryLoop_step {V : Type} (op : V -> result T * V) (attempt : Z) (v : V) :
  retryLoop op maxAttempts baseDelay shouldRetry attempt v
  = match op v with
    | (Return x, v') => mkRun (Return x) v' 1 [] []
    | (Throw e, v') =>
        match giveUp maxAttempts shouldRetry attempt e with
        | left _ => mkRun (Throw e) v' 1 [e] []
        | right _ =>
            let rest := retryLoop op maxAttempts baseDelay shouldRetry (attempt + 1) v' in
            mkRun (outcome rest) (final rest) (S (invocations rest))
                  (e :: caught rest) (baseDelay * 2 ^ (attempt - 1) :: waited rest)
        end
    end.
Proof.
  rewrite retryLoop_equation_1. destruct (op v) as [[x | e] v']; simpl; [reflexivity |].
  destruct (giveUp maxAttempts shouldRetry attempt e); reflexivity.
Qed.

Lemma watched_call (w w' : W) (r : result T) (log : list (result T)) :
  operation w = (r, w') -> watched operation (w, log) = (r, (w', (log ++ [r])%list)).
Proof. intros H. unfold watched. cbn [fst snd]. now rewrite H. Qed.

(** The loop on the watched operation: it settles as the loop on the
    operation does, and the record it leaves is the sequence of the calls
    the loop made. *)
Lemma retryLoop_watched (attempt : Z) (w : W) :
  forall log,
    let run := loop attempt w in
    let seen := retryLoop (watched operation) maxAttempts baseDelay shouldRetry
                          attempt (w, log) in
    exists earlier,
      outcome seen = outcome run /\
      final seen = (final run, (log ++ earlier ++ [outcome run])%list) /\
      CallsFrom operation w (earlier ++ [outcome run])%list (final run) /\
      invocations run = S (List.length earlier) /\
      Forall (Retryable shouldRetry) earlier /\
      (earlier = [] \/ attempt + Z.of_nat (List.length earlier) <= maxAttempts) /\
      (forall e, outcome run = Throw e ->
                 shouldRetry e = false \/
                 attempt + Z.of_nat (List.length earlier) >= maxAttempts).
Proof.
  unfold loop. funelim (retryLoop operation maxAttempts baseDelay shouldRetry attempt w);
    intros log; cbv zeta; rewrite (retryLoop_step (watched operation));
    match goal with
    | H : operation _ = _ |- _ => rewrite (watched_call _ _ _ log H)
    end.
  - exists []. cbn [outcome final invocations app List.length].
    split; [reflexivity |]. split; [reflexivity |].
    split; [eapply calls_more; [exact Heq | constructor] |].
    split; [reflexivity |]. split; [constructor |]. split; [now left |]. discriminate.
  - rewrite Heq. exists []. cbn [outcome final invocations app List.length].
    split; [reflexivity |]. split; [reflexivity |].
    split; [eapply calls_more; [exact Heq0 | constructor] |].
    split; [reflexivity |]. split; [constructor |]. split; [now left |].
    intros e0 [= <-]. destruct o as [Hge | Hno]; [right; simpl; lia | now left].
  - rewrite Heq. cbv zeta. cbn [outcome final invocations].
    destruct a as [Hlt Hretry].
    match goal with
    | IH : forall log, _ |- _ =>
        destruct (IH (log ++ [Throw e])%list)
          as [earlier [Hout [Hfinal [Hcalls [Hcount [Hall [Hbound Hwhy]]]]]]]
    end.
    exists (Throw e :: earlier). cbn [app List.length].
    split; [exact Hout |].
    split; [rewrite Hfinal, <- app_assoc; reflexivity |].
    split; [eapply calls_more; [exact Heq0 | exact Hcalls] |].
    split; [now rewrite Hcount |].
    split; [constructor; [now exists e | exact Hall] |].
    split.
    + right. destruct Hbound as [-> | Hbound]; simpl; lia.
    + intros e0 He0. destruct (Hwhy e0 He0) as [Hno | Hge]; [now left | right; lia].
Qed.

End RetryFacts.

Example retry_third_time_lucky :
  let run := retryTrace thirdTimeLucky 5 1000
               (googleShouldRetry sampleSubclass sampleMessageOf) 0%nat in
  outcome run = Return "done" /\ invocations run = 3%nat /\ waited run = [1000; 2000].
Proof. repeat split. Qed.

Example retry_gives_up :
  let run := retryTrace alwaysRateLimited 5 1000
               (googleShouldRetry sampleSubclass sampleMessageOf) tt in
  invocations run = 5%nat /\ waited run = [1000; 2000; 4000; 8000].
Proof. split; reflexivity. Qed.

(** C3, as the code has it.  The waiting time before each retry doubles:
    the retry after the attempt numbered [k] waits [baseDelay * 2 ^ (k - 1)],
    so the delays are [baseDelay], [2 * baseDelay], [4 * baseDelay], ..., one
    for each call of the operation after the first. *)
Theorem retryWithBackoff_delays_double
        (W T : Type) (operation : W -> result T * W)
        (maxAttempts baseDelay : Z) (shouldRetry : error -> bool) (w : W) :
  let run := retryTrace operation maxAttempts baseDelay shouldRetry w in
  (forall i d, nth_error (waited run) i = Some d -> d = baseDelay * 2 ^ Z.of_nat i) /\
  invocations run = S (List.length (waited run)).
Proof.
  cbv zeta. unfold retryTrace. split.
  - intros i d Hd.
    rewrite (retryLoop_waited operation maxAttempts baseDelay shouldRetry 1 w i d Hd).
    replace (1 - 1 + Z.of_nat i) with (Z.of_nat i) by lia. reflexivity.
  - apply retryLoop_invocations.
Qed.

Lemma retryWithBackoff_delays_double_witness :
  let run := retryTrace alwaysRateLimited 5 1000
               (googleShouldRetry sampleSubclass sampleMessageOf) tt in
  (forall i d, nth_error (waited run) i = Some d -> d = 1000 * 2 ^ Z.of_nat i) /\
  invocations run = S (List.length (waited run)).
Proof.
  exact (retryWithBackoff_delays_double unit string alwaysRateLimited 5 1000
           (googleShouldRetry sampleSubclass sampleMessageOf) tt).
Defined.

(** C3 as stated fails: with a base delay of one second the code waits
    1000, 2000, 4000 and 8000 ms, which is no arithmetic progression. *)
Lemma retryWithBackoff_delays_not_linear :
  ~ LinearDelays 1000
      (waited (retryTrace alwaysRateLimited 5 1000
                 (googleShouldRetry sampleSubclass sampleMessageOf) tt)).
Proof.
  intros [step Hstep].
  change (waited _) with [1000; 2000; 4000; 8000] in Hstep.
  pose proof (Hstep 1%nat 2000 eq_refl) as H1.
  pose proof (Hstep 2%nat 4000 eq_refl) as H2.
  lia.
Qed.

(** ** The retry predicates *)

Lemma googleShouldRetry_iff (subclass : errorClass -> errorClass -> bool)
      (messageOf : errorClass -> string -> string) (e : error) :
  googleShouldRetry subclass messageOf e = true <->
  instanceOf subclass e NetworkError = true /\
  (Contains "429" (JS.toLowerCase (message messageOf e)) \/
   Contains "resource exhausted" (JS.toLowerCase (message messageOf e))).
Proof.
  unfold googleShouldRetry. destruct (instanceOf subclass e NetworkError).
  - rewrite orb_true_iff, !includes_iff. tauto.
  - split; [discriminate | intros [H _]; discriminate].
Qed.

Lemma perplexityShouldRetry_iff (subclass : errorClass -> errorClass -> bool)
      (messageOf : errorClass -> string -> string) (e : error) :
  perplexityShouldRetry subclass messageOf e = true <->
  instanceOf subclass e NetworkError = true /\
  (Contains "429" (JS.toLowerCase (message messageOf e)) \/
   Contains "rate limit" (JS.toLowerCase (message messageOf e))).
Proof.
  unfold perplexityShouldRetry. destruct (instanceOf subclass e NetworkError).
  - rewrite orb_true_iff, !includes_iff. tauto.
  - split; [discriminate | intros [H _]; discriminate].
Qed.

Lemma googleShouldRetry_ignoring_case (subclass : errorClass -> errorClass -> bool)
      (messageOf : errorClass -> string -> string) (e : error) :
  googleShouldRetry subclass messageOf e = true <->
  instanceOf subclass e NetworkError = true /\
  (ContainsIgnoringCase "429" (message messageOf e) \/
   ContainsIgnoringCase "resource exhausted" (message messageOf e)).
Proof.
  rewrite googleShouldRetry_iff.
  rewrite <- !contains_ignoring_case by (apply noCapital_check; reflexivity). reflexivity.
Qed.

Lemma perplexityShouldRetry_ignoring_case (subclass : errorClass -> errorClass -> bool)
      (messageOf : errorClass -> string -> string) (e : error) :
  perplexityShouldRetry subclass messageOf e = true <->
  instanceOf subclass e NetworkError = true /\
  (ContainsIgnoringCase "429" (message messageOf e) \/
   ContainsIgnoringCase "rate limit" (message messageOf e)).
Proof.
  rewrite perplexityShouldRetry_iff.
  rewrite <- !contains_ignoring_case by (apply noCapital_check; reflexivity). reflexivity.
Qed.

Lemma nth_error_last_call {A : Type} (earlier : list A) (last x : A) (i : nat) :
  nth_error (earlier ++ [last]) i = Some x ->
  (i < List.length earlier)%nat /\ nth_error earlier i = Some x \/
  i = List.length earlier /\ x = last.
Proof.
  intros H. destruct (Nat.lt_ge_cases i (List.length earlier)) as [Hlt | Hge].
  - left. split; [exact Hlt |]. now rewrite nth_error_app1 in H.
  - right. rewrite nth_error_app2 in H by exact Hge.
    destruct (i - List.length earlier)%nat as [| k] eqn:Hk; simpl in H.
    + injection H as <-. split; [lia | reflexivity].
    + destruct k; discriminate.
Qed.

(** ** The frame of executePrompt *)

Lemma frame_refl (w : world) : Frame w w.
Proof. repeat split. exists []. now rewrite app_nil_r. Qed.

Lemma frame_trans (w1 w2 w3 : world) : Frame w1 w2 -> Frame w2 w3 -> Frame w1 w3.
Proof.
  intros [Hc1 [Ha1 [f1 Hh1]]] [Hc2 [Ha2 [f2 Hh2]]]. split; [congruence |].
  split; [congruence |]. exists (f1 ++ f2)%list. now rewrite Hh2, Hh1, app_assoc.
Qed.

Lemma framed_ret (T : Type) (v : T) : Framed (ret v).
Proof. intros w. apply frame_refl. Qed.

Lemma framed_throw (T : Type) (e : error) : Framed (@throw T e).
Proof. intros w. apply frame_refl. Qed.

Lemma framed_lift (T : Type) (r : result T) : Framed (lift r).
Proof. intros w. apply frame_refl. Qed.

Lemma framed_bind (T U : Type) (c : M T) (k : T -> M U) :
  Framed c -> (forall v, Framed (k v)) -> Framed (bindM c k).
Proof.
  intros Hc Hk w. unfold bindM. specialize (Hc w).
  destruct (c w) as [[v | e] w']; simpl in *; [| exact Hc].
  apply frame_trans with w'; [exact Hc | apply Hk].
Qed.

Lemma framed_tryCatch (T : Type) (c : M T) (handler : error -> M T) :
  Framed c -> (forall e, Framed (handler e)) -> Framed (tryCatch c handler).
Proof.
  intros Hc Hh w. unfold tryCatch. specialize (Hc w).
  destruct (c w) as [[v | e] w']; simpl in *; [exact Hc |].
  apply frame_trans with w'; [exact Hc | apply Hh].
Qed.

Lemma framed_readAvailableModels : Framed readAvailableModels.
Proof. intros w. apply frame_refl. Qed.

Lemma framed_deref (options : option ref) : Framed (deref options).
Proof. intros w. apply frame_refl. Qed.

Lemma framed_alloc (o : ModelOptions) : Framed (alloc o).
Proof. intros w. simpl. repeat split. now exists [o]. Qed.

Lemma framed_exchange (D : Type) (vendor : list request -> request -> D) (rq : request) :
  Framed (exchange vendor rq).
Proof. intros w. simpl. repeat split. exists []. now rewrite app_nil_r. Qed.

Lemma framed_retryLoop (T : Type) (operation : M T) (maxAttempts baseDelay : Z)
      (shouldRetry : error -> bool) :
  Framed operation ->
  forall attempt w,
    Frame w (final (retryLoop operation maxAttempts baseDelay shouldRetry attempt w)).
Proof.
  intros Hop attempt w.
  funelim (retryLoop operation maxAttempts baseDelay shouldRetry attempt w); simpl.
  - specialize (Hop w). now rewrite Heq in Hop.
  - specialize (Hop w). now rewrite Heq0 in Hop.
  - apply frame_trans with w'; [| now auto].
    specialize (Hop w). now rewrite Heq0 in Hop.
Qed.

Lemma framed_retryWithBackoff (T : Type) (operation : M T) (maxAttempts baseDelay : Z)
      (shouldRetry : error -> bool) :
  Framed operation ->
  Framed (retryWithBackoff operation maxAttempts baseDelay shouldRetry).
Proof.
  intros Hop w. unfold retryWithBackoff, retryTrace. simpl. now apply framed_retryLoop.
Qed.

(** Decomposes a computation into the primitives above. *)
Ltac framed :=
  repeat first
    [ apply framed_ret
    | apply framed_throw
    | apply framed_lift
    | apply framed_readAvailableModels
    | apply framed_deref
    | apply framed_alloc
    | apply framed_exchange
    | apply framed_retryWithBackoff
    | apply framed_bind; [| intros ?]
    | apply framed_tryCatch; [| intros ?]
    | match goal with
      | |- Framed (match ?x with _ => _ end) => destruct x
      | |- Framed (let _ := _ in _) => cbv zeta
      end ].

Section FrameFacts.

Variable localeCompare : string -> string -> comparison.
Variable getSimilarModels : string -> list string -> list string.
Variable stringSimilarity : string -> string -> Q.
Variable subclass : errorClass -> errorClass -> bool.
Variable messageOf : errorClass -> string -> string.
Variable h : host.

Lemma framed_getModelOf (p : provider) (options : option ref) :
  Framed (getModelOf localeCompare getSimilarModels p options).
Proof. unfold getModelOf. framed. Qed.

Lemma framed_applyTokenCount (p : provider) (options : option ref) :
  Framed (applyTokenCount p options).
Proof. unfold applyTokenCount. framed. Qed.

Lemma framed_awaitAvailableModels : Framed awaitAvailableModels.
Proof. unfold awaitAvailableModels. framed. Qed.

Lemma framed_derefRequired (options : option ref) : Framed (derefRequired options).
Proof. unfold derefRequired. framed. Qed.

Lemma framed_rethrowProviderError (T : Type) (failure : string) (e : error) :
  Framed (@rethrowProviderError subclass T failure e).
Proof. unfold rethrowProviderError. framed. Qed.

Lemma framed_rethrowProviderOrNetworkError (T : Type) (failure : string) (e : error) :
  Framed (@rethrowProviderOrNetworkError subclass T failure e).
Proof. unfold rethrowProviderOrNetworkError. framed. Qed.

Lemma framed_openAIChunks (client : bool) (model : string) (maxTokens : Z)
      (systemPrompt : string) (promptChunks : list string) :
  forall combined,
    Framed (openAIChunks subclass h client model maxTokens systemPrompt promptChunks combined).
Proof.
  induction promptChunks as [| chunk rest IH]; intros combined; simpl.
  - apply framed_ret.
  - apply framed_bind; [| intros ?; apply IH].
    apply framed_tryCatch; [| intros ?; apply framed_rethrowProviderError].
    framed.
Qed.

Lemma framed_executeWithModel (model prompt : string) (maxTokens : Z)
      (systemPrompt : string) (o : ModelOptions) (client : bool) :
  Framed (executeWithModel h model prompt maxTokens systemPrompt o client).
Proof. unfold executeWithModel. framed. Qed.

Lemma framed_executePrompt (p : provider) (prompt : string) (options : option ref) :
  Framed (executePrompt localeCompare getSimilarModels stringSimilarity
                        subclass messageOf h p prompt options).
Proof.
  destruct p; simpl.
  - unfold vertexExecutePrompt.
    apply framed_bind; [apply framed_getModelOf | intros model].
    apply framed_bind; [apply framed_applyTokenCount | intros options'].
    apply framed_bind; [apply framed_awaitAvailableModels | intros available].
    destruct available as [available |]; [| apply framed_throw].
    destruct (negb (JS.has available model)); [apply framed_throw |].
    apply framed_bind; [apply framed_derefRequired | intros o].
    apply framed_retryWithBackoff. unfold vertexOperation, webSearchOf, readGeminiReply.
    apply framed_tryCatch; [| intros ?; apply framed_rethrowProviderError]. framed.
  - unfold generativeLanguageExecutePrompt.
    apply framed_bind; [apply framed_applyTokenCount | intros options'].
    apply framed_bind; [apply framed_getModelOf | intros model].
    apply framed_bind; [apply framed_derefRequired | intros o].
    apply framed_retryWithBackoff.
    unfold generativeLanguageOperation, webSearchOf, readGeminiReply.
    apply framed_tryCatch; [| intros ?; apply framed_rethrowProviderError]. framed.
  - unfold openAIExecutePrompt.
    apply framed_bind; [apply framed_getModelOf | intros model].
    apply framed_bind; [apply framed_derefRequired | intros o].
    apply framed_bind; [apply framed_openAIChunks | intros combined]. framed.
  - unfold openRouterExecutePrompt.
    apply framed_bind; [apply framed_getModelOf | intros model].
    apply framed_bind; [apply framed_derefRequired | intros o].
    apply framed_tryCatch; [| intros ?; apply framed_rethrowProviderOrNetworkError]. framed.
  - unfold perplexityExecutePrompt.
    destruct (truthyField (PERPLEXITY_API_KEY h)); [| apply framed_throw].
    apply framed_retryWithBackoff. unfold perplexityOperation.
    apply framed_bind; [apply framed_getModelOf | intros model].
    apply framed_bind; [apply framed_derefRequired | intros o].
    apply framed_tryCatch; [| intros ?; apply framed_rethrowProviderOrNetworkError]. framed.
  - unfold modelBoxExecutePrompt.
    apply framed_bind; [apply framed_getModelOf | intros model].
    apply framed_bind; [apply framed_derefRequired | intros o].
    apply framed_tryCatch; [| intros ?; apply framed_rethrowProviderOrNetworkError].
    apply framed_bind; [apply framed_awaitAvailableModels | intros available].
    destruct available as [available |]; [| apply framed_throw].
    destruct (JS.has available model); [apply framed_executeWithModel |].
    destruct (truthyField _); [apply framed_executeWithModel |].
    destruct (filter _ available); [apply framed_throw | apply framed_executeWithModel].
  - unfold anthropicExecutePrompt.
    apply framed_bind; [apply framed_getModelOf | intros model].
    apply framed_bind; [apply framed_derefRequired | intros o].
    apply framed_tryCatch; [| intros ?; apply framed_rethrowProviderError]. framed.
Qed.

End FrameFacts.

Lemma applyTokenCount_fresh (p : provider) (options : option ref) (w : world) :
  forall r, fst (applyTokenCount p options w) = Return r ->
            r = options \/
            exists a, r = Some a /\ nth_error (heap w) a = None /\
                      heap (snd (applyTokenCount p options w)) <> heap w.
Proof.
  intros r. unfold applyTokenCount, bindM, deref, ret, throw, alloc. simpl.
  destruct (optionsAt w options) as [opts |]; simpl; [| intros [= <-]; now left].
  destruct (tokenCount opts) as [n |]; simpl; [| intros [= <-]; now left].
  destruct (n =? 0); simpl; [intros [= <-]; now left |].
  destruct (truthyField (tokenError (handleLargeTokenCount p n))); simpl; [discriminate |].
  destruct (truthyField (switchTo (handleLargeTokenCount p n))); simpl;
    [| intros [= <-]; now left].
  intros [= <-]. right. exists (List.length (heap w)). split; [reflexivity |].
  split; [apply nth_error_None; lia |].
  intros H. apply (f_equal (@List.length _)) in H. rewrite length_app in H. simpl in H. lia.
Qed.

(** C7.  A call of [executePrompt], on any provider, leaves the provider's
    [config] and [availableModels] as they were and leaves every options
    object that existed, the caller's among them, unchanged; when the token
    budget switches the model, the options the call goes on with are a new
    object at an address that did not exist before. *)
Theorem executePrompt_leaves_provider_and_options
        (localeCompare : string -> string -> comparison)
        (getSimilarModels : string -> list string -> list string)
        (stringSimilarity : string -> string -> Q)
        (subclass : errorClass -> errorClass -> bool)
        (messageOf : errorClass -> string -> string)
        (h : host) (p : provider) (prompt : string) (options : option ref) (w : world) :
  let w' := snd (executePrompt localeCompare getSimilarModels stringSimilarity
                               subclass messageOf h p prompt options w) in
  thisConfig w' = thisConfig w /\
  thisAvailableModels w' = thisAvailableModels w /\
  (forall a o, nth_error (heap w) a = Some o -> nth_error (heap w') a = Some o) /\
  (forall r, fst (applyTokenCount p options w) = Return r ->
             r = options \/ exists a, r = Some a /\ nth_error (heap w) a = None).
Proof.
  cbv zeta.
  destruct (framed_executePrompt localeCompare getSimilarModels stringSimilarity
              subclass messageOf h p prompt options w) as [Hc [Ha [fresh Hh]]].
  assert (Hkeep : forall a o, nth_error (heap w) a = Some o ->
                              nth_error (heap (snd (executePrompt localeCompare
                                getSimilarModels stringSimilarity subclass messageOf
                                h p prompt options w))) a = Some o).
  { intros a o Hao. rewrite Hh, nth_error_app1; [exact Hao |].
    apply nth_error_Some. congruence. }
  split; [exact Hc |]. split; [exact Ha |]. split; [exact Hkeep |].
  intros r Hr. destruct (applyTokenCount_fresh p options w r Hr) as [-> | [a [-> [Hn _]]]];
    [now left | right; now exists a].
Qed.

Lemma executePrompt_leaves_provider_and_options_witness :
  let w := worldWith ["gemini-2.0-flash"; "gemini-2.0-pro-exp"] largeRepositoryOptions in
  let w' := snd (executePrompt String.compare (fun _ _ => []) (fun _ _ => 0%Q)
                   sampleSubclass sampleMessageOf (answeringHost "key-123" "hello")
                   GoogleGenerativeLanguageProvider "hi" (Some 0%nat) w) in
  thisConfig w' = thisConfig w /\
  thisAvailableModels w' = thisAvailableModels w /\
  (forall a o, nth_error (heap w) a = Some o -> nth_error (heap w') a = Some o) /\
  (forall r, fst (applyTokenCount GoogleGenerativeLanguageProvider (Some 0%nat) w) = Return r ->
             r = Some 0%nat \/ exists a, r = Some a /\ nth_error (heap w) a = None).
Proof.
  exact (executePrompt_leaves_provider_and_options String.compare (fun _ _ => [])
           (fun _ _ => 0%Q) sampleSubclass sampleMessageOf
           (answeringHost "key-123" "hello") GoogleGenerativeLanguageProvider "hi"
           (Some 0%nat)
           (worldWith ["gemini-2.0-flash"; "gemini-2.0-pro-exp"] largeRepositoryOptions)).
Defined.

(** The constructor, by contrast, does write the two fields, and the
    token-budget step does add an object. *)
Example construct_writes_fields :
  thisAvailableModels
    (snd (construct ModelBoxProvider (fun _ => None) (Return ["openai/gpt-4o"])
                    (mkWorld (fun _ => None) None [] [])))
  = Some (Return ["openai/gpt-4o"]).
Proof. reflexivity. Qed.

Example token_switch_copies_options :
  applyTokenCount GoogleGenerativeLanguageProvider (Some 0%nat)
                  (worldWith ["gemini-2.0-pro-exp"] largeRepositoryOptions)
  = (Return (Some 1%nat),
     mkWorld (fun _ => None) (Some (Return ["gemini-2.0-pro-exp"]))
             [largeRepositoryOptions;
              withModel largeRepositoryOptions "gemini-2.0-pro-exp"] []).
Proof. reflexivity. Qed.

(** ** No model supplied *)

Lemma getModel_no_model (localeCompare : string -> string -> comparison)
      (getSimilarModels : string -> list string -> list string)
      (p : provider) (availableModels : option (result (list string)))
      (options : option ModelOptions) :
  requestedModel options = None ->
  getModel localeCompare getSimilarModels p availableModels options =
  Throw (mkError ModelNotFoundError (providerLabel p)).
Proof. intros H. unfold getModel. now rewrite H. Qed.

Lemma getModelOf_no_model (localeCompare : string -> string -> comparison)
      (getSimilarModels : string -> list string -> list string)
      (p : provider) (options : option ref) (w : world) :
  requestedModel (optionsAt w options) = None ->
  getModelOf localeCompare getSimilarModels p options w =
  (Throw (mkError ModelNotFoundError (providerLabel p)), w).
Proof.
  intros H. unfold getModelOf, bindM, deref, readAvailableModels, lift. simpl.
  now rewrite getModel_no_model.
Qed.

Lemma providerLabel_suffix (p : provider) :
  constructorName p = providerLabel p ++ "Provider".
Proof. destruct p; reflexivity. Qed.

Lemma googleTokenCount_small (switchModel : string) (n : Z) :
  n <= 800000 -> googleTokenCount switchModel n = mkDecision None None.
Proof.
  intros H. unfold googleTokenCount.
  replace (800000 <? n) with false by (symmetry; apply Z.ltb_ge; lia).
  replace (n >=? 2000000) with false by (rewrite Z.geb_leb; symmetry; apply Z.leb_gt; lia).
  reflexivity.
Qed.

Lemma applyTokenCount_small (p : provider) (options : option ref) (w : world) :
  (forall o n, optionsAt w options = Some o -> tokenCount o = Some n -> n <= 800000) ->
  applyTokenCount p options w = (Return options, w).
Proof.
  intros H. unfold applyTokenCount, bindM, deref, ret. simpl.
  destruct (optionsAt w options) as [o |]; [| reflexivity].
  destruct (tokenCount o) as [n |] eqn:Hn; [| reflexivity].
  destruct (n =? 0); [reflexivity |].
  assert (Hd : handleLargeTokenCount p n = mkDecision None None).
  { destruct p; try reflexivity; apply googleTokenCount_small; now apply (H o). }
  now rewrite Hd.
Qed.

(** An operation that fails the same way without changing the state makes
    [retryWithBackoff] fail that way. *)
Lemma retryLoop_fixed_throw (W T : Type) (operation : W -> result T * W)
      (maxAttempts baseDelay : Z) (shouldRetry : error -> bool) (e : error)
      (attempt : Z) (w : W) :
  operation w = (Throw e, w) ->
  outcome (retryLoop operation maxAttempts baseDelay shouldRetry attempt w) = Throw e /\
  final (retryLoop operation maxAttempts baseDelay shouldRetry attempt w) = w.
Proof.
  funelim (retryLoop operation maxAttempts baseDelay shouldRetry attempt w);
    intros Hop; rewrite Hop in *; simpl.
  - discriminate.
  - match goal with H : (_, _) = (_, _) |- _ => injection H as <- <- end. now split.
  - match goal with H : (_, _) = (_, _) |- _ => injection H as <- <- end. auto.
Qed.

Lemma retryWithBackoff_fixed_throw (W T : Type) (operation : W -> result T * W)
      (maxAttempts baseDelay : Z) (shouldRetry : error -> bool) (e : error) (w : W) :
  operation w = (Throw e, w) ->
  retryWithBackoff operation maxAttempts baseDelay shouldRetry w = (Throw e, w).
Proof.
  intros Hop. unfold retryWithBackoff, retryTrace.
  destruct (retryLoop_fixed_throw W T operation maxAttempts baseDelay shouldRetry e 1 w Hop)
    as [-> ->].
  reflexivity.
Qed.

Lemma requestedModel_None (options : option ModelOptions) :
  requestedModel options = None <->
  options = None \/
  exists o, options = Some o /\ (model o = None \/ model o = Some EmptyString).
Proof.
  unfold requestedModel. destruct options as [o |]; [| split; [now left | reflexivity]].
  destruct (model o) as [m |] eqn:Hm.
  - destruct (JS.truthy m) eqn:Ht.
    + split; [discriminate |].
      intros [H | [o' [[= <-] [H | H]]]]; try congruence.
      rewrite Hm in H. injection H as ->. discriminate.
    + split; [| reflexivity]. intros _. right. exists o. split; [reflexivity |].
      right. rewrite Hm. f_equal.
      unfold JS.truthy in Ht. apply negb_false_iff in Ht. now apply String.eqb_eq.
  - split; [| reflexivity]. intros _. right. exists o. split; [reflexivity | now left].
Qed.

(** C9, as the code has it.  [getModel] throws a [ModelNotFoundError]
    naming the provider (the class name without 'Provider') when [options]
    is undefined or its model is absent or empty.  So [executePrompt] fails
    with that error when no model is supplied, provided that, on
    [GoogleGenerativeLanguageProvider], the token count is absent or at most
    800000 (the token-budget step comes first there and may supply a model
    or throw) and that, on [PerplexityProvider], the API key is set (the key
    is checked first there). *)
Theorem no_model_is_model_not_found
        (localeCompare : string -> string -> comparison)
        (getSimilarModels : string -> list string -> list string)
        (stringSimilarity : string -> string -> Q)
        (subclass : errorClass -> errorClass -> bool)
        (messageOf : errorClass -> string -> string)
        (h : host) (p : provider) :
  (forall options,
      requestedModel options = None <->
      options = None \/
      exists o, options = Some o /\ (model o = None \/ model o = Some EmptyString)) /\
  (forall availableModels options,
      requestedModel options = None ->
      getModel localeCompare getSimilarModels p availableModels options =
      Throw (mkError ModelNotFoundError (providerLabel p))) /\
  constructorName p = providerLabel p ++ "Provider" /\
  (forall prompt options w,
      requestedModel (optionsAt w options) = None ->
      (p = GoogleGenerativeLanguageProvider ->
       forall o n, optionsAt w options = Some o -> tokenCount o = Some n -> n <= 800000) ->
      (p = PerplexityProvider -> truthyField (PERPLEXITY_API_KEY h) <> None) ->
      executePrompt localeCompare getSimilarModels stringSimilarity subclass messageOf
                    h p prompt options w =
      (Throw (mkError ModelNotFoundError (providerLabel p)), w)).
Proof.
  split; [exact requestedModel_None |].
  split; [intros; now apply getModel_no_model |].
  split; [apply providerLabel_suffix |].
  intros prompt options w Hno Htokens Hkey.
  pose proof (getModelOf_no_model localeCompare getSimilarModels p options w Hno) as Hget.
  destruct p; simpl.
  - unfold vertexExecutePrompt, bindM. now rewrite Hget.
  - unfold generativeLanguageExecutePrompt, bindM.
    rewrite (applyTokenCount_small _ options w (Htokens eq_refl)). now rewrite Hget.
  - unfold openAIExecutePrompt, bindM. now rewrite Hget.
  - unfold openRouterExecutePrompt, bindM. now rewrite Hget.
  - unfold perplexityExecutePrompt.
    destruct (truthyField (PERPLEXITY_API_KEY h)) as [key |] eqn:Hk;
      [| now elim (Hkey eq_refl)].
    apply retryWithBackoff_fixed_throw.
    unfold perplexityOperation, bindM. now rewrite Hget.
  - unfold modelBoxExecutePrompt, bindM. now rewrite Hget.
  - unfold anthropicExecutePrompt, bindM. now rewrite Hget.
Qed.

Lemma no_model_is_model_not_found_witness :
  requestedModel (optionsAt (worldWithout noModelOptions) (Some 0%nat)) = None /\
  truthyField (PERPLEXITY_API_KEY (answeringHost "key-123" "hello")) <> None /\
  executePrompt String.compare (fun _ _ => []) (fun _ _ => 0%Q)
                sampleSubclass sampleMessageOf (answeringHost "key-123" "hello")
                PerplexityProvider "hi" (Some 0%nat)
                (worldWithout noModelOptions) =
  (Throw (mkError ModelNotFoundError "Perplexity"), worldWithout noModelOptions).
Proof.
  split; [reflexivity |]. split; [discriminate |].
  apply (no_model_is_model_not_found String.compare (fun _ _ => []) (fun _ _ => 0%Q)
           sampleSubclass sampleMessageOf (answeringHost "key-123" "hello")
           PerplexityProvider).
  - reflexivity.
  - discriminate.
  - discriminate.
Defined.

(** C9 as stated fails: on [GoogleGenerativeLanguageProvider], with no
    model and a token count of 900000, the token-budget step supplies
    'gemini-2.0-pro-exp' and the call answers. *)
Lemma no_model_large_repository_answers :
  requestedModel
    (optionsAt (worldWith ["gemini-2.0-pro-exp"] noModelLargeRepositoryOptions)
               (Some 0%nat)) = None /\
  fst (executePrompt String.compare (fun _ _ => []) (fun _ _ => 0%Q)
         sampleSubclass sampleMessageOf (answeringHost "key-123" "hello")
         GoogleGenerativeLanguageProvider "hi" (Some 0%nat)
         (worldWith ["gemini-2.0-pro-exp"] noModelLargeRepositoryOptions))
  = Return "hello" /\
  ~ FailsWith ModelNotFoundError
      (fst (executePrompt String.compare (fun _ _ => []) (fun _ _ => 0%Q)
              sampleSubclass sampleMessageOf (answeringHost "key-123" "hello")
              GoogleGenerativeLanguageProvider "hi" (Some 0%nat)
              (worldWith ["gemini-2.0-pro-exp"] noModelLargeRepositoryOptions))).
Proof.
  split; [reflexivity |].
  assert (Hrun :
    fst (executePrompt String.compare (fun _ _ => []) (fun _ _ => 0%Q)
           sampleSubclass sampleMessageOf (answeringHost "key-123" "hello")
           GoogleGenerativeLanguageProvider "hi" (Some 0%nat)
           (worldWith ["gemini-2.0-pro-exp"] noModelLargeRepositoryOptions))
    = Return "hello") by (vm_compute; reflexivity).
  split; [exact Hrun |].
  intros [e [He _]]. rewrite Hrun in He. discriminate.
Qed.

(** ** Token budgets *)

Lemma googleTokenCount_cases (switchModel : string) (n : Z) :
  (800000 < n < 2000000 -> googleTokenCount switchModel n = mkDecision (Some switchModel) None) /\
  (2000000 <= n -> googleTokenCount switchModel n = mkDecision None (Some tooLargeMessage)) /\
  (n <= 800000 -> googleTokenCount switchModel n = mkDecision None None).
Proof.
  unfold googleTokenCount. rewrite Z.geb_leb.
  destruct (Z.ltb_spec 800000 n), (Z.ltb_spec n 2000000), (Z.leb_spec 2000000 n);
    simpl; repeat split; intros; try reflexivity; lia.
Qed.

(** On [GoogleGenerativeLanguageProvider] a token count of 900000 sends the
    request to the model that 'gemini-2.0-pro-exp' resolves to. *)
Example generativeLanguage_switches_request :
  sent (snd (executePrompt String.compare (fun _ _ => []) (fun _ _ => 0%Q)
               sampleSubclass sampleMessageOf (answeringHost "key-123" "hello")
               GoogleGenerativeLanguageProvider "hi" (Some 0%nat)
               (worldWith ["gemini-2.0-flash"; "gemini-2.0-pro-exp"] largeRepositoryOptions)))
  = [GeminiRequest (generativeLanguageURL "gemini-2.0-pro-exp" ++ "?key=key-123")
                   None None "hi" 8000
                   (Some "You are a helpful assistant. Provide clear and concise responses.")
                   false].
Proof. vm_compute. reflexivity. Qed.

(** C2 at the failing input.  On [GoogleVertexAIProvider], with
    'gemini-2.0-flash' requested and a token count of 900000,
    [handleLargeTokenCount] names 'gemini-2.0-pro-exp-02-05' and the options
    are copied with it, but the model was resolved before and the one request
    sent still goes to 'gemini-2.0-flash'. *)
Theorem vertex_token_switch_misses_request :
  handleLargeTokenCount GoogleVertexAIProvider 900000 =
  mkDecision (Some "gemini-2.0-pro-exp-02-05") None /\
  executePrompt String.compare (fun _ _ => []) (fun _ _ => 0%Q)
                sampleSubclass sampleMessageOf (answeringHost "adc" "hello")
                GoogleVertexAIProvider "hi" (Some 0%nat)
                (worldWith ["gemini-2.0-flash"; "gemini-2.0-pro-exp-02-05"]
                           largeRepositoryOptions)
  = (Return "hello",
     mkWorld (fun _ => None)
             (Some (Return ["gemini-2.0-flash"; "gemini-2.0-pro-exp-02-05"]))
             [largeRepositoryOptions;
              withModel largeRepositoryOptions "gemini-2.0-pro-exp-02-05"]
             [GeminiRequest (vertexURL "gemini-2.0-flash") (Some "token") (Some "user")
                            "hi" 8000
                            (Some "You are a helpful assistant. Provide clear and concise responses.")
                            false]).
Proof. split; [reflexivity |]. vm_compute. reflexivity. Qed.

(** ** Empty responses *)

Lemma neverEmpty_throw (e : error) : NeverEmpty (throw e).
Proof. intros w s H. discriminate. Qed.

Lemma neverEmpty_ret (s : string) : s <> EmptyString -> NeverEmpty (ret s).
Proof. intros Hs w s' H. simpl in H. now injection H as <-. Qed.

Lemma neverEmpty_bind (T : Type) (c : M T) (k : T -> M string) :
  (forall v, NeverEmpty (k v)) -> NeverEmpty (bindM c k).
Proof.
  intros Hk w s. unfold bindM. destruct (c w) as [[v | e] w']; [apply Hk | discriminate].
Qed.

Lemma neverEmpty_tryCatch (c : M string) (handler : error -> M string) :
  NeverEmpty c -> (forall e, NeverEmpty (handler e)) -> NeverEmpty (tryCatch c handler).
Proof.
  intros Hc Hh w s. unfold tryCatch. specialize (Hc w).
  destruct (c w) as [[v | e] w']; simpl in *; [apply Hc | apply Hh].
Qed.

Lemma neverEmpty_retryWithBackoff (operation : M string) (maxAttempts baseDelay : Z)
      (shouldRetry : error -> bool) :
  NeverEmpty operation ->
  NeverEmpty (retryWithBackoff operation maxAttempts baseDelay shouldRetry).
Proof.
  intros Hop w s. unfold retryWithBackoff, retryTrace. simpl. generalize 1.
  intros attempt.
  funelim (retryLoop operation maxAttempts baseDelay shouldRetry attempt w); simpl.
  - intros [= <-]. apply (Hop w). now rewrite Heq.
  - discriminate.
  - auto.
Qed.

Lemma truthyField_nonempty (s : option string) (v : string) :
  truthyField s = Some v -> v <> EmptyString.
Proof.
  destruct s as [x |]; simpl; [| discriminate].
  destruct (JS.truthy x) eqn:Ht; [| discriminate].
  intros [= <-]. now apply truthy_iff.
Qed.

Lemma neverEmpty_choice (content : option string) (e : error) :
  (forall c, content = Some c -> c <> EmptyString) ->
  NeverEmpty (match content with
              | None => throw e
              | Some c => ret c
              end).
Proof.
  intros H. destruct content as [c |]; [apply neverEmpty_ret; now apply H |].
  apply neverEmpty_throw.
Qed.

Lemma firstChoice_nonempty (response : ChatCompletion) (content : option string) (c : string) :
  firstChoice response = Return content -> content = Some c -> c <> EmptyString.
Proof.
  unfold firstChoice. destruct (nth_error response 0); [| discriminate].
  intros [= <-]. apply truthyField_nonempty.
Qed.

Lemma neverEmpty_geminiResponseText (vendorName : string) (data : GeminiData) :
  NeverEmpty (lift (geminiResponseText vendorName data)).
Proof.
  intros w s. unfold lift, geminiResponseText, bindR. simpl.
  destruct (firstCandidate data) as [candidate |]; [| discriminate].
  destruct (candidateText candidate) as [raw |]; [| discriminate].
  destruct (formattedContentOf raw _) as [formatted |]; [| discriminate].
  destruct (JS.truthy formatted) eqn:Ht; [| discriminate].
  intros [= <-]. now apply truthy_iff.
Qed.

Lemma neverEmpty_readGeminiReply (vendorName : string) (reply : httpReply GeminiData) :
  NeverEmpty (readGeminiReply vendorName reply).
Proof.
  destruct reply; simpl; try apply neverEmpty_throw. apply neverEmpty_geminiResponseText.
Qed.

Lemma neverEmpty_rethrowProviderError (subclass : errorClass -> errorClass -> bool)
      (failure : string) (e : error) :
  NeverEmpty (rethrowProviderError subclass failure e).
Proof.
  unfold rethrowProviderError. destruct (instanceOf subclass e ProviderError);
    apply neverEmpty_throw.
Qed.

Lemma neverEmpty_rethrowProviderOrNetworkError
      (subclass : errorClass -> errorClass -> bool) (failure : string) (e : error) :
  NeverEmpty (rethrowProviderOrNetworkError subclass failure e).
Proof.
  unfold rethrowProviderOrNetworkError.
  destruct (instanceOf subclass e ProviderError || instanceOf subclass e NetworkError);
    apply neverEmpty_throw.
Qed.

Section EmptyFacts.

Variable localeCompare : string -> string -> comparison.
Variable getSimilarModels : string -> list string -> list string.
Variable stringSimilarity : string -> string -> Q.
Variable subclass : errorClass -> errorClass -> bool.
Variable messageOf : errorClass -> string -> string.
Variable h : host.

(** The tail every chat request shares: read the reply, take the first
    choice, refuse an empty one. *)
Lemma neverEmpty_chatReply (reply : result ChatCompletion) (e : error) :
  NeverEmpty (response <- lift reply ;;
              content <- lift (firstChoice response) ;;
              match content with
              | None => throw e
              | Some c => ret c
              end).
Proof.
  apply neverEmpty_bind. intros response w s. unfold bindM, lift.
  destruct (firstChoice response) as [content |] eqn:Hc; [| discriminate].
  apply neverEmpty_choice. intros c. now apply firstChoice_nonempty with response.
Qed.

Lemma neverEmpty_executeWithModel (model prompt : string) (maxTokens : Z)
      (systemPrompt : string) (o : ModelOptions) (client : bool) :
  NeverEmpty (executeWithModel h model prompt maxTokens systemPrompt o client).
Proof.
  unfold executeWithModel. apply neverEmpty_bind. intros reply.
  apply neverEmpty_chatReply.
Qed.

(** Every provider but [AnthropicProvider] refuses an empty response. *)
Lemma executePrompt_never_empty (p : provider) (prompt : string) (options : option ref) :
  p <> AnthropicProvider ->
  NeverEmpty (executePrompt localeCompare getSimilarModels stringSimilarity
                            subclass messageOf h p prompt options).
Proof.
  intros Hp. destruct p; simpl; [| | | | | | congruence].
  - unfold vertexExecutePrompt.
    apply neverEmpty_bind; intros model.
    apply neverEmpty_bind; intros options'.
    apply neverEmpty_bind; intros available.
    destruct available as [available |]; [| apply neverEmpty_throw].
    destruct (negb (JS.has available model)); [apply neverEmpty_throw |].
    apply neverEmpty_bind; intros o.
    apply neverEmpty_retryWithBackoff. unfold vertexOperation.
    apply neverEmpty_tryCatch; [| intros e; apply neverEmpty_rethrowProviderError].
    repeat (apply neverEmpty_bind; intros ?). apply neverEmpty_readGeminiReply.
  - unfold generativeLanguageExecutePrompt.
    apply neverEmpty_bind; intros options'.
    apply neverEmpty_bind; intros model.
    apply neverEmpty_bind; intros o.
    apply neverEmpty_retryWithBackoff. unfold generativeLanguageOperation.
    apply neverEmpty_tryCatch; [| intros e; apply neverEmpty_rethrowProviderError].
    repeat (apply neverEmpty_bind; intros ?). apply neverEmpty_readGeminiReply.
  - unfold openAIExecutePrompt.
    apply neverEmpty_bind; intros model.
    apply neverEmpty_bind; intros o.
    apply neverEmpty_bind; intros combined.
    destruct (JS.truthy (JS.trim combined)) eqn:Ht; simpl; [| apply neverEmpty_throw].
    apply neverEmpty_ret. now apply truthy_iff.
  - unfold openRouterExecutePrompt.
    apply neverEmpty_bind; intros model.
    apply neverEmpty_bind; intros o.
    apply neverEmpty_tryCatch;
      [| intros e; apply neverEmpty_rethrowProviderOrNetworkError].
    apply neverEmpty_bind; intros reply. apply neverEmpty_chatReply.
  - unfold perplexityExecutePrompt.
    destruct (truthyField (PERPLEXITY_API_KEY h)); [| apply neverEmpty_throw].
    apply neverEmpty_retryWithBackoff. unfold perplexityOperation.
    apply neverEmpty_bind; intros model.
    apply neverEmpty_bind; intros o.
    apply neverEmpty_tryCatch;
      [| intros e; apply neverEmpty_rethrowProviderOrNetworkError].
    apply neverEmpty_bind; intros reply.
    destruct reply as [e | status errorText | data]; try apply neverEmpty_throw.
    intros w0 s0. unfold bindM, lift.
    destruct (perplexityContent data) as [content |] eqn:Hc; [| discriminate].
    apply neverEmpty_choice. intros c ->. revert Hc. unfold perplexityContent.
    destruct (choices data) as [cs |]; [| discriminate].
    destruct (nth_error cs 0) as [choice |]; [| discriminate].
    destruct (choiceMessage choice) as [msg |]; [| discriminate].
    intros [= Hc]. now apply truthyField_nonempty with msg.
  - unfold modelBoxExecutePrompt.
    apply neverEmpty_bind; intros model.
    apply neverEmpty_bind; intros o.
    apply neverEmpty_tryCatch;
      [| intros e; apply neverEmpty_rethrowProviderOrNetworkError].
    apply neverEmpty_bind; intros available.
    destruct available as [available |]; [| apply neverEmpty_throw].
    destruct (JS.has available model); [apply neverEmpty_executeWithModel |].
    destruct (truthyField _); [apply neverEmpty_executeWithModel |].
    destruct (filter _ available);
      [apply neverEmpty_throw | apply neverEmpty_executeWithModel].
Qed.

End EmptyFacts.

(** C8 at the failing input.  [AnthropicProvider] checks that the first
    content block exists and is of type 'text', but not that its text is
    non-empty: when the vendor answers with an empty text block the call
    resolves to the empty string, where every other provider throws a
    [ProviderError]. *)
Theorem anthropic_resolves_to_empty_string :
  fst (executePrompt String.compare (fun _ _ => []) (fun _ _ => 0%Q)
         sampleSubclass sampleMessageOf (answeringHost "key-123" EmptyString)
         AnthropicProvider "hi" (Some 0%nat)
         (worldWithout (mkOptions (Some "claude-3-5-sonnet") 8000 None None None None None)))
  = Return EmptyString /\
  fst (executePrompt String.compare (fun _ _ => []) (fun _ _ => 0%Q)
         sampleSubclass sampleMessageOf (answeringHost "key-123" EmptyString)
         OpenRouterProvider "hi" (Some 0%nat)
         (worldWithout (mkOptions (Some "claude-3-5-sonnet") 8000 None None None None None)))
  = Throw (mkError ProviderError "OpenRouterProvider returned an empty response").
Proof. split; vm_compute; reflexivity. Qed.

(** ** Citations *)




Lemma sourcesFrom_keys (chunks : list GeminiGroundingChunk) (idx k : Z) (v : GeminiWeb) :
  In (k, v) (sourcesFrom chunks idx) -> idx <= k.
Proof.
  revert idx. induction chunks as [| c rest IH]; intros idx; simpl; [tauto |].
  destruct (web c); simpl.
  - intros [[= <- _] | Hin]; [lia |]. apply IH in Hin. lia.
  - intros Hin. apply IH in Hin. lia.
Qed.















Example grounded_reply_formatted :
  geminiResponseText "Google Vertex AI" groundedData =
  Return ("Citations:" ++ nl ++
          "[1]: https://a.example A" ++ nl ++
          "[3]: https://c.example" ++ nl ++ nl ++ nl ++
          "Web search queries:" ++ nl ++
          "- rocq prover" ++ nl ++ nl ++
          "Rocq is a proof assistant. [1][3] It has tactics.").
Proof. reflexivity. Qed.



(** ** Web search *)

Lemma namesWebSearch_iff (s : string) : namesWebSearch s = true <-> NamesWebSearch s.
Proof.
  unfold namesWebSearch, NamesWebSearch. rewrite !orb_true_iff, !includes_iff. tauto.
Qed.

Lemma withoutPrefix_bare (m n : string) : BareName m n -> withoutPrefix m = n.
Proof.
  unfold withoutPrefix. intros [[Hno ->] | [pre [-> [Hpre Hn]]]].
  - apply noSlash_iff in Hno. now rewrite Hno.
  - assert (Hin : JS.includes (pre ++ "/" ++ n) "/" = true)
      by (apply includes_iff; now exists pre, n).
    rewrite Hin.
    assert (Hsplit : JS.split (pre ++ "/" ++ n) "/"%char = [pre; n]).
    { apply split_two. apply noSlash_iff in Hpre, Hn. now repeat split. }
    now rewrite Hsplit.
Qed.

Lemma bareName_idempotent (m n : string) : BareName m n -> withoutPrefix n = n.
Proof.
  intros H. apply withoutPrefix_bare. left. split; [| reflexivity].
  destruct H as [[Hno ->] | [pre [_ [_ Hn]]]]; assumption.
Qed.

Example modelBox_gemini_supported :
  supported (supportsWebSearch (fun _ _ => []) (fun _ _ => 0%Q) ModelBoxProvider
               (Some (Return ["openai/gpt-4o"; "google/gemini-2.0-flash"]))
               "gemini-2.0-flash") = true.
Proof. reflexivity. Qed.

Example modelBox_gpt_unsupported :
  supportsWebSearch (fun _ _ => []) (fun _ _ => 0%Q) ModelBoxProvider
    (Some (Return ["openai/gpt-4o"; "google/gemini-2.0-flash"])) "gpt-4o" =
  mkSupportAnswer false (Some "google/gemini-2.0-flash")
    (Some ("Model openai/gpt-4o does not support web search. Try one of these models:" ++
           nl ++ "- google/gemini-2.0-flash")).
Proof. reflexivity. Qed.







(* ================================================================== *)
(** * Further properties of the provider layer *)

(** ** The requests a call sends *)

Lemma sends_silent (T : Type) (P : request -> Prop) (c : M T) : Silent c -> Sends P c.
Proof. intros H w. exists []. rewrite H, app_nil_r. now split. Qed.

Lemma silent_ret (T : Type) (v : T) : Silent (ret v).
Proof. intros w. reflexivity. Qed.

Lemma silent_throw (T : Type) (e : error) : Silent (@throw T e).
Proof. intros w. reflexivity. Qed.

Lemma silent_lift (T : Type) (r : result T) : Silent (lift r).
Proof. intros w. reflexivity. Qed.

Lemma silent_deref (options : option ref) : Silent (deref options).
Proof. intros w. reflexivity. Qed.

Lemma silent_readAvailableModels : Silent readAvailableModels.
Proof. intros w. reflexivity. Qed.

Lemma silent_alloc (o : ModelOptions) : Silent (alloc o).
Proof. intros w. reflexivity. Qed.

Lemma silent_bind (T U : Type) (c : M T) (k : T -> M U) :
  Silent c -> (forall v, Silent (k v)) -> Silent (bindM c k).
Proof.
  intros Hc Hk w. unfold bindM. specialize (Hc w).
  destruct (c w) as [[v | e] w']; simpl in *; [| exact Hc].
  now rewrite Hk.
Qed.

Lemma sends_exchange (D : Type) (P : request -> Prop)
      (vendor : list request -> request -> D) (rq : request) :
  P rq -> Sends P (exchange vendor rq).
Proof. intros H w. exists [rq]. simpl. split; [reflexivity | now constructor]. Qed.

Lemma sends_bind (T U : Type) (P : request -> Prop) (c : M T) (k : T -> M U) :
  Sends P c -> (forall v, Sends P (k v)) -> Sends P (bindM c k).
Proof.
  intros Hc Hk w. unfold bindM. destruct (Hc w) as [new1 [H1 F1]].
  destruct (c w) as [[v | e] w']; simpl in *; [| now exists new1].
  destruct (Hk v w') as [new2 [H2 F2]]. exists (new1 ++ new2)%list.
  split; [now rewrite H2, H1, app_assoc | now apply Forall_app].
Qed.

Lemma sends_tryCatch (T : Type) (P : request -> Prop) (c : M T) (handler : error -> M T) :
  Sends P c -> (forall e, Sends P (handler e)) -> Sends P (tryCatch c handler).
Proof.
  intros Hc Hh w. unfold tryCatch. destruct (Hc w) as [new1 [H1 F1]].
  destruct (c w) as [[v | e] w']; simpl in *; [now exists new1 |].
  destruct (Hh e w') as [new2 [H2 F2]]. exists (new1 ++ new2)%list.
  split; [now rewrite H2, H1, app_assoc | now apply Forall_app].
Qed.

Lemma sends_retryWithBackoff (T : Type) (P : request -> Prop) (operation : M T)
      (maxAttempts baseDelay : Z) (shouldRetry : error -> bool) :
  Sends P operation ->
  Sends P (retryWithBackoff operation maxAttempts baseDelay shouldRetry).
Proof.
  intros Hop w. unfold retryWithBackoff, retryTrace. simpl. generalize 1. intros attempt.
  funelim (retryLoop operation maxAttempts baseDelay shouldRetry attempt w); simpl.
  - specialize (Hop w). now rewrite Heq in Hop.
  - specialize (Hop w). now rewrite Heq0 in Hop.
  - destruct (Hop w) as [new1 [H1 F1]]. rewrite Heq0 in H1. simpl in H1.
    match goal with
    | IH : forall P, Sends P operation -> _ |- _ => destruct (IH P Hop) as [new2 [H2 F2]]
    end.
    exists (new1 ++ new2)%list.
    split; [now rewrite H2, H1, app_assoc | now apply Forall_app].
Qed.

(** Decomposes a computation that sends at most requests satisfying the
    property at hand. *)
Ltac sends :=
  repeat first
    [ apply sends_exchange
    | apply sends_retryWithBackoff
    | apply sends_bind; [| intros ?]
    | apply sends_tryCatch; [| intros ?]
    | apply sends_silent;
      first [ apply silent_ret | apply silent_throw | apply silent_lift
            | apply silent_deref | apply silent_readAvailableModels
            | apply silent_alloc ]
    | match goal with
      | |- Sends _ (match ?x with _ => _ end) => destruct x
      | |- Sends _ (let _ := _ in _) => cbv zeta
      end ].

(** What [getModel] returns is in the set, whatever the comparator. *)
Lemma sortedMatches_member (localeCompare : string -> string -> comparison)
      (availableModels : list string) (q m : string) :
  JS.lastElement (sortedMatches localeCompare availableModels q) = Some m ->
  In m availableModels.
Proof.
  intros H. apply lastElement_In in H. unfold sortedMatches in H.
  apply sort_In in H. now apply filter_In in H.
Qed.

Lemma resolveModel_member (localeCompare : string -> string -> comparison)
      (getSimilarModels : string -> list string -> list string)
      (p : provider) (availableModels : list string) (name m : string) :
  resolveModel localeCompare getSimilarModels p availableModels name = Return m ->
  In m availableModels.
Proof.
  unfold resolveModel, resolvePrefix, resolveLatest, resolveExp.
  destruct (JS.has availableModels name) eqn:Hhas.
  { intros [= <-]. now apply has_iff. }
  assert (Hrest :
    match JS.lastElement (sortedMatches localeCompare availableModels name) with
    | Some resolvedModel => Return resolvedModel
    | None =>
        if JS.endsWith name "-latest"
        then
          match JS.lastElement
                  (sortedMatches localeCompare availableModels
                     (JS.sliceEnd name (String.length "-latest"))) with
          | Some resolvedModel => Return resolvedModel
          | None =>
              match expMatch name with
              | Some modelWithoutExp =>
                  match JS.lastElement
                          (sortedMatches localeCompare availableModels modelWithoutExp) with
                  | Some resolvedModel => Return resolvedModel
                  | None =>
                      Throw (modelNotFound localeCompare getSimilarModels p
                                           availableModels name)
                  end
              | None =>
                  Throw (modelNotFound localeCompare getSimilarModels p availableModels name)
              end
          end
        else
          match expMatch name with
          | Some modelWithoutExp =>
              match JS.lastElement
                      (sortedMatches localeCompare availableModels modelWithoutExp) with
              | Some resolvedModel => Return resolvedModel
              | None =>
                  Throw (modelNotFound localeCompare getSimilarModels p availableModels name)
              end
          | None =>
              Throw (modelNotFound localeCompare getSimilarModels p availableModels name)
          end
    end = Return m -> In m availableModels).
  { repeat match goal with
           | |- context [JS.lastElement (sortedMatches ?lc ?a ?q)] =>
               let H := fresh "Hlast" in
               destruct (JS.lastElement (sortedMatches lc a q)) eqn:H;
               [intros [= <-]; exact (sortedMatches_member _ _ _ _ H) |]
           | |- context [if ?b then _ else _] => destruct b
           | |- context [expMatch ?n] => destruct (expMatch n)
           | |- Throw _ = Return _ -> _ => discriminate
           end. }
  destruct (negb (JS.includes name "/")); [| exact Hrest].
  destruct (findQualified availableModels name) as [q |] eqn:Hq; [| exact Hrest].
  destruct (JS.truthy q); [| exact Hrest].
  intros [= <-]. now apply findQualified_Some in Hq.
Qed.

Lemma getModel_member (localeCompare : string -> string -> comparison)
      (getSimilarModels : string -> list string -> list string)
      (p : provider) (availableModels : list string)
      (options : option ModelOptions) (m : string) :
  getModel localeCompare getSimilarModels p (Some (Return availableModels)) options
  = Return m ->
  In m availableModels.
Proof.
  unfold getModel. destruct (requestedModel options) as [name |]; [| discriminate].
  simpl. apply resolveModel_member.
Qed.

Lemma getModelOf_eval (localeCompare : string -> string -> comparison)
      (getSimilarModels : string -> list string -> list string)
      (p : provider) (options : option ref) (w : world) :
  getModelOf localeCompare getSimilarModels p options w =
  (getModel localeCompare getSimilarModels p (thisAvailableModels w) (optionsAt w options), w).
Proof. reflexivity. Qed.

Lemma silent_applyTokenCount (p : provider) (options : option ref) :
  Silent (applyTokenCount p options).
Proof.
  unfold applyTokenCount. apply silent_bind; [apply silent_deref | intros o].
  destruct o as [opts |]; [| apply silent_ret].
  destruct (tokenCount opts) as [n |]; [| apply silent_ret].
  destruct (n =? 0); [apply silent_ret |].
  destruct (truthyField _); [apply silent_throw |].
  destruct (truthyField _); [| apply silent_ret].
  apply silent_bind; [apply silent_alloc | intros a; apply silent_ret].
Qed.

Lemma silent_awaitAvailableModels : Silent awaitAvailableModels.
Proof.
  unfold awaitAvailableModels.
  apply silent_bind; [apply silent_readAvailableModels | intros promise].
  destruct promise as [[models | e] |];
    [apply silent_ret | apply silent_throw | apply silent_ret].
Qed.

Lemma silent_derefRequired (options : option ref) : Silent (derefRequired options).
Proof.
  unfold derefRequired. apply silent_bind; [apply silent_deref | intros o].
  destruct o; [apply silent_ret | apply silent_throw].
Qed.

Lemma silent_webSearchOf (options : option ref) : Silent (webSearchOf options).
Proof.
  unfold webSearchOf. apply silent_bind; [apply silent_deref | intros o; apply silent_ret].
Qed.

Lemma silent_rethrowProviderError (subclass : errorClass -> errorClass -> bool)
      (T : Type) (failure : string) (e : error) :
  Silent (@rethrowProviderError subclass T failure e).
Proof.
  unfold rethrowProviderError. destruct (instanceOf subclass e ProviderError);
    apply silent_throw.
Qed.

Lemma silent_rethrowProviderOrNetworkError (subclass : errorClass -> errorClass -> bool)
      (T : Type) (failure : string) (e : error) :
  Silent (@rethrowProviderOrNetworkError subclass T failure e).
Proof.
  unfold rethrowProviderOrNetworkError. destruct (_ || _); apply silent_throw.
Qed.

Lemma silent_readGeminiReply (vendorName : string) (reply : httpReply GeminiData) :
  Silent (readGeminiReply vendorName reply).
Proof. destruct reply; simpl; first [apply silent_throw | apply silent_lift]. Qed.

(** The token-count step hands on the options [effectiveOptions]
    describes. *)
Lemma applyTokenCount_effective (options : option ref) (w : world) (r : option ref) :
  fst (applyTokenCount GoogleGenerativeLanguageProvider options w) = Return r ->
  optionsAt (snd (applyTokenCount GoogleGenerativeLanguageProvider options w)) r =
  effectiveOptions GoogleGenerativeLanguageProvider (optionsAt w options) /\
  thisAvailableModels (snd (applyTokenCount GoogleGenerativeLanguageProvider options w)) =
  thisAvailableModels w.
Proof.
  unfold applyTokenCount, bindM, deref, ret, throw, alloc. simpl.
  destruct (optionsAt w options) as [opts |] eqn:Ho; simpl;
    [| intros [= <-]; now rewrite Ho].
  destruct (tokenCount opts) as [n |] eqn:Hn; simpl; [| intros [= <-]; now rewrite Ho].
  destruct (Z.eqb_spec n 0) as [-> | Hnz]; simpl; [intros [= <-]; now rewrite Ho |].
  destruct (googleTokenCount_cases "gemini-2.0-pro-exp" n) as [Hmid [Hbig Hsmall]].
  destruct (Z.ltb_spec 800000 n) as [Hlo | Hlo];
    [destruct (Z.ltb_spec n 2000000) as [Hhi | Hhi] |]; simpl.
  - rewrite Hmid by lia. simpl. intros [= <-]. simpl. split; [| reflexivity].
    rewrite nth_error_app2 by lia. now rewrite Nat.sub_diag.
  - rewrite Hbig by lia. simpl. discriminate.
  - rewrite Hsmall by lia. simpl. intros [= <-]. now rewrite Ho.
Qed.

Section RequestFacts.

Variable localeCompare : string -> string -> comparison.
Variable getSimilarModels : string -> list string -> list string.
Variable stringSimilarity : string -> string -> Q.
Variable subclass : errorClass -> errorClass -> bool.
Variable messageOf : errorClass -> string -> string.
Variable h : host.

(** From [Sends] for what follows [getModel] to the statement about the
    whole call. *)
Lemma after_getModel (p : provider) (o : option ModelOptions) (rest : string -> M string)
      (w : world) :
  (forall m, Sends (Addresses m) (rest m)) ->
  let r := getModel localeCompare getSimilarModels p (thisAvailableModels w) o in
  exists new,
    sent (snd (match r with
               | Return m => rest m w
               | Throw e => (Throw e, w)
               end)) = (sent w ++ new)%list /\
    (new = [] \/ exists m, r = Return m /\ Forall (Addresses m) new).
Proof.
  intros Hrest r. destruct r as [m | e].
  - destruct (Hrest m w) as [new [Hs Hf]]. exists new. split; [exact Hs |].
    right. now exists m.
  - exists []. simpl. rewrite app_nil_r. split; [reflexivity | now left].
Qed.

Lemma sends_chatReply (P : request -> Prop) (reply : result ChatCompletion) (e : error) :
  Sends P (response <- lift reply ;;
           content <- lift (firstChoice response) ;;
           match content with
           | None => throw e
           | Some c => ret c
           end).
Proof. sends. Qed.

Lemma sends_executeWithModel (m prompt : string) (maxTokens : Z)
      (systemPrompt : string) (o : ModelOptions) (client : bool) :
  Sends (Addresses m) (executeWithModel h m prompt maxTokens systemPrompt o client).
Proof.
  unfold executeWithModel. apply sends_bind; [now apply sends_exchange | intros reply].
  apply sends_chatReply.
Qed.

Lemma sends_openAIChunks (client : bool) (m : string) (maxTokens : Z)
      (systemPrompt : string) (promptChunks : list string) :
  forall combined,
    Sends (Addresses m)
          (openAIChunks subclass h client m maxTokens systemPrompt promptChunks combined).
Proof.
  induction promptChunks as [| chunk rest IH]; intros combined; simpl.
  - apply sends_silent, silent_ret.
  - apply sends_bind; [| intros ?; apply IH].
    apply sends_tryCatch;
      [| intros ?; apply sends_silent, silent_rethrowProviderError].
    apply sends_bind; [now apply sends_exchange | intros reply]. sends.
Qed.

Lemma sends_vertex_rest (m prompt : string) (options : option ref) :
  Sends (Addresses m)
        (options' <- applyTokenCount GoogleVertexAIProvider options ;;
         availableModels <- awaitAvailableModels ;;
         match availableModels with
         | None =>
             throw (mkError PlainError "Models not initialized. Call initializeModels() first.")
         | Some availableModels =>
             if negb (JS.has availableModels m) then
               let similarModels := getSimilarModels m availableModels in
               throw (mkError ModelNotFoundError
                        ("Model '" ++ m ++ "' not found in Vertex AI." ++ nl ++ nl ++
                         "You requested: " ++ m ++ nl ++
                         "Similar available models:" ++ nl ++ bulletList similarModels ++
                         nl ++ nl ++ "Use --model with one of the above models."))
             else
               o <- derefRequired options' ;;
               let maxTokens := maxTokens o in
               let systemPrompt := getSystemPrompt (Some o) in
               let baseURL := vertexURL m in
               retryWithBackoff
                 (vertexOperation subclass h prompt options' maxTokens systemPrompt baseURL)
                 5 1000 (googleShouldRetry subclass messageOf)
         end).
Proof.
  apply sends_bind; [apply sends_silent, silent_applyTokenCount | intros options'].
  apply sends_bind; [apply sends_silent, silent_awaitAvailableModels | intros available].
  destruct available as [available |]; [| apply sends_silent, silent_throw].
  destruct (negb (JS.has available m)); [apply sends_silent, silent_throw |].
  apply sends_bind; [apply sends_silent, silent_derefRequired | intros o].
  apply sends_retryWithBackoff. unfold vertexOperation.
  apply sends_tryCatch; [| intros ?; apply sends_silent, silent_rethrowProviderError].
  apply sends_bind; [apply sends_silent, silent_webSearchOf | intros tools].
  apply sends_bind; [apply sends_silent, silent_lift | intros ?].
  apply sends_bind; [apply sends_silent, silent_lift | intros token].
  apply sends_bind; [apply sends_exchange; now left | intros reply].
  apply sends_silent, silent_readGeminiReply.
Qed.

Lemma sends_generativeLanguage_rest (m prompt : string) (options : option ref) :
  Sends (Addresses m)
        (o <- derefRequired options ;;
         let maxTokens := maxTokens o in
         let systemPrompt := getSystemPrompt (Some o) in
         let baseURL := generativeLanguageURL m in
         retryWithBackoff
           (generativeLanguageOperation subclass h prompt options maxTokens systemPrompt
                                        baseURL)
           5 1000 (googleShouldRetry subclass messageOf)).
Proof.
  apply sends_bind; [apply sends_silent, silent_derefRequired | intros o].
  apply sends_retryWithBackoff. unfold generativeLanguageOperation.
  apply sends_tryCatch; [| intros ?; apply sends_silent, silent_rethrowProviderError].
  apply sends_bind; [apply sends_silent, silent_webSearchOf | intros tools].
  apply sends_bind; [apply sends_silent, silent_lift | intros apiKey].
  apply sends_bind; [apply sends_exchange; right; now exists apiKey | intros reply].
  apply sends_silent, silent_readGeminiReply.
Qed.

Lemma sends_perplexity_rest (m apiKey prompt : string) (options : option ref) :
  Sends (Addresses m)
        (o <- derefRequired options ;;
         let maxTokens := maxTokens o in
         let systemPrompt := getSystemPrompt (Some o) in
         tryCatch
           (reply <- exchange (fetchPerplexity h)
                       (PerplexityRequest apiKey m (chatMessages systemPrompt prompt)
                                          maxTokens) ;;
            match reply with
            | FetchThrows e => throw e
            | NotOk _ errorText =>
                throw (mkError NetworkError ("Perplexity API error: " ++ errorText))
            | Ok data =>
                content <- lift (perplexityContent data) ;;
                match content with
                | None => throw (mkError ProviderError "Perplexity returned an empty response")
                | Some c => ret c
                end
            end)
           (rethrowProviderOrNetworkError subclass "Failed to communicate with Perplexity API")).
Proof.
  apply sends_bind; [apply sends_silent, silent_derefRequired | intros o]. cbv zeta.
  apply sends_tryCatch;
    [| intros ?; apply sends_silent, silent_rethrowProviderOrNetworkError].
  apply sends_bind; [now apply sends_exchange | intros reply]. sends.
Qed.

End RequestFacts.

Lemma keeps_ret (T : Type) (v : T) : KeepsObjects (ret v).
Proof. intros w. now split. Qed.

Lemma keeps_throw (T : Type) (e : error) : KeepsObjects (@throw T e).
Proof. intros w. now split. Qed.

Lemma keeps_lift (T : Type) (r : result T) : KeepsObjects (lift r).
Proof. intros w. now split. Qed.

Lemma keeps_deref (options : option ref) : KeepsObjects (deref options).
Proof. intros w. now split. Qed.

Lemma keeps_exchange (D : Type) (vendor : list request -> request -> D) (rq : request) :
  KeepsObjects (exchange vendor rq).
Proof. intros w. now split. Qed.

Lemma keeps_bind (T U : Type) (c : M T) (k : T -> M U) :
  KeepsObjects c -> (forall v, KeepsObjects (k v)) -> KeepsObjects (bindM c k).
Proof.
  intros Hc Hk w. unfold bindM. destruct (Hc w) as [Ha Hh].
  destruct (c w) as [[v | e] w']; simpl in *; [| now split].
  destruct (Hk v w') as [Ha' Hh']. split; congruence.
Qed.

Lemma keeps_tryCatch (T : Type) (c : M T) (handler : error -> M T) :
  KeepsObjects c -> (forall e, KeepsObjects (handler e)) -> KeepsObjects (tryCatch c handler).
Proof.
  intros Hc Hh w. unfold tryCatch. destruct (Hc w) as [Ha Hhp].
  destruct (c w) as [[v | e] w']; simpl in *; [now split |].
  destruct (Hh e w') as [Ha' Hh']. split; congruence.
Qed.

Ltac keeps :=
  repeat first
    [ apply keeps_ret | apply keeps_throw | apply keeps_lift | apply keeps_deref
    | apply keeps_exchange
    | apply keeps_bind; [| intros ?]
    | apply keeps_tryCatch; [| intros ?]
    | match goal with
      | |- KeepsObjects (match ?x with _ => _ end) => destruct x
      | |- KeepsObjects (if ?x then _ else _) => destruct x
      | |- KeepsObjects (let _ := _ in _) => cbv zeta
      end ].

Lemma awaitAvailableModels_eval (w : world) :
  awaitAvailableModels w =
  (match thisAvailableModels w with
   | None => Return None
   | Some (Return models) => Return (Some models)
   | Some (Throw e) => Throw e
   end, w).
Proof.
  unfold awaitAvailableModels, bindM, readAvailableModels. simpl.
  now destruct (thisAvailableModels w) as [[models | e] |].
Qed.

Lemma derefRequired_eval (options : option ref) (w : world) :
  derefRequired options w =
  (match optionsAt w options with
   | Some o => Return o
   | None => Throw typeError
   end, w).
Proof.
  unfold derefRequired, bindM, deref. simpl. now destruct (optionsAt w options).
Qed.

(** [retryWithBackoff] keeps what every call of the operation keeps. *)
Lemma retryWithBackoff_invariant (T : Type) (I : world -> Prop) (P : request -> Prop)
      (operation : M T) (maxAttempts baseDelay : Z) (shouldRetry : error -> bool) :
  (forall w, I w ->
             I (snd (operation w)) /\
             exists new, sent (snd (operation w)) = (sent w ++ new)%list /\ Forall P new) ->
  forall w, I w ->
            exists new,
              sent (snd (retryWithBackoff operation maxAttempts baseDelay shouldRetry w))
              = (sent w ++ new)%list /\ Forall P new.
Proof.
  intros Hop w. unfold retryWithBackoff, retryTrace. simpl. generalize 1. intros attempt.
  funelim (retryLoop operation maxAttempts baseDelay shouldRetry attempt w);
    simpl; intros Hw.
  - destruct (Hop w Hw) as [_ Hs]. now rewrite Heq in Hs.
  - destruct (Hop w Hw) as [_ Hs]. now rewrite Heq0 in Hs.
  - destruct (Hop w Hw) as [Hi [new1 [H1 F1]]]. rewrite Heq0 in Hi, H1. simpl in Hi, H1.
    match goal with
    | IH : forall I P, _ -> I w' -> _ |- _ => destruct (IH I P Hop Hi) as [new2 [H2 F2]]
    end.
    exists (new1 ++ new2)%list.
    split; [now rewrite H2, H1, app_assoc | now apply Forall_app].
Qed.

Section RequestTheorem.

Variable localeCompare : string -> string -> comparison.
Variable getSimilarModels : string -> list string -> list string.
Variable stringSimilarity : string -> string -> Q.
Variable subclass : errorClass -> errorClass -> bool.
Variable messageOf : errorClass -> string -> string.
Variable h : host.

Let run := executePrompt localeCompare getSimilarModels stringSimilarity
                         subclass messageOf h.

(** Whatever a call of [executePrompt] sends goes to the one model that
    [getModel] resolves from the options the provider goes on with. *)
Lemma executePrompt_requests (p : provider) (prompt : string) (options : option ref)
      (w : world) :
  exists new,
    sent (snd (run p prompt options w)) = (sent w ++ new)%list /\
    (new = [] \/
     exists m,
       getModel localeCompare getSimilarModels p (thisAvailableModels w)
                (effectiveOptions p (optionsAt w options)) = Return m /\
       Forall (Addresses m) new).
Proof.
  unfold run. destruct p; simpl.
  - (* Vertex AI *)
    unfold vertexExecutePrompt. unfold bindM at 1. rewrite getModelOf_eval.
    apply (after_getModel localeCompare getSimilarModels GoogleVertexAIProvider
             (optionsAt w options)
             (fun m => options' <- applyTokenCount GoogleVertexAIProvider options ;; _)).
    intros m. apply sends_vertex_rest.
  - (* Generative Language *)
    unfold generativeLanguageExecutePrompt. unfold bindM at 1.
    destruct (applyTokenCount GoogleGenerativeLanguageProvider options w)
      as [[options' | e] w1] eqn:Hstep.
    + pose proof (silent_applyTokenCount GoogleGenerativeLanguageProvider options w) as Hs.
      destruct (applyTokenCount_effective options w options') as [Ho Ha];
        [now rewrite Hstep |].
      rewrite Hstep in Hs, Ho, Ha. simpl in Hs, Ho, Ha.
      unfold bindM at 1. rewrite getModelOf_eval, Ho, Ha, <- Hs.
      rewrite <- Ha.
      apply (after_getModel localeCompare getSimilarModels GoogleGenerativeLanguageProvider
               (effectiveOptions GoogleGenerativeLanguageProvider (optionsAt w options))
               (fun m => o <- derefRequired options' ;; _)).
      intros m. apply sends_generativeLanguage_rest.
    + pose proof (silent_applyTokenCount GoogleGenerativeLanguageProvider options w) as Hs.
      rewrite Hstep in Hs. simpl in *. exists []. rewrite app_nil_r. now split; [| left].
  - (* OpenAI *)
    unfold openAIExecutePrompt. unfold bindM at 1. rewrite getModelOf_eval.
    apply (after_getModel localeCompare getSimilarModels OpenAIProvider
             (optionsAt w options) (fun m => o <- derefRequired options ;; _)).
    intros m. apply sends_bind; [apply sends_silent, silent_derefRequired | intros o].
    cbv zeta. apply sends_bind; [apply sends_openAIChunks | intros combined].
    destruct (negb _); apply sends_silent; [apply silent_throw | apply silent_ret].
  - (* OpenRouter *)
    unfold openRouterExecutePrompt. unfold bindM at 1. rewrite getModelOf_eval.
    apply (after_getModel localeCompare getSimilarModels OpenRouterProvider
             (optionsAt w options) (fun m => o <- derefRequired options ;; _)).
    intros m. apply sends_bind; [apply sends_silent, silent_derefRequired | intros o].
    cbv zeta. apply sends_tryCatch;
      [| intros ?; apply sends_silent, silent_rethrowProviderOrNetworkError].
    apply sends_bind; [now apply sends_exchange | intros reply]. apply sends_chatReply.
  - (* Perplexity *)
    unfold perplexityExecutePrompt.
    destruct (truthyField (PERPLEXITY_API_KEY h)) as [apiKey |].
    2:{ exists []. simpl. rewrite app_nil_r. now split; [| left]. }
    destruct (getModel localeCompare getSimilarModels PerplexityProvider
                (thisAvailableModels w) (optionsAt w options)) as [m | e] eqn:Hget.
    + destruct (retryWithBackoff_invariant string
                  (fun w' => thisAvailableModels w' = thisAvailableModels w /\
                             heap w' = heap w)
                  (Addresses m)
                  (perplexityOperation localeCompare getSimilarModels subclass h
                                       apiKey prompt options)
                  5 1000 (perplexityShouldRetry subclass messageOf)) with (w := w)
        as [new [Hs Hf]].
      * intros w' [Ha Hh].
        assert (Ho : optionsAt w' options = optionsAt w options)
          by (destruct options; simpl; now rewrite ?Hh).
        assert (Hop : perplexityOperation localeCompare getSimilarModels subclass h
                                          apiKey prompt options w' =
                      (o <- derefRequired options ;;
                       let maxTokens := maxTokens o in
                       let systemPrompt := getSystemPrompt (Some o) in
                       tryCatch
                         (reply <- exchange (fetchPerplexity h)
                                     (PerplexityRequest apiKey m
                                        (chatMessages systemPrompt prompt) maxTokens) ;;
                          match reply with
                          | FetchThrows e => throw e
                          | NotOk _ errorText =>
                              throw (mkError NetworkError
                                       ("Perplexity API error: " ++ errorText))
                          | Ok data =>
                              content <- lift (perplexityContent data) ;;
                              match content with
                              | None =>
                                  throw (mkError ProviderError
                                           "Perplexity returned an empty response")
                              | Some c => ret c
                              end
                          end)
                         (rethrowProviderOrNetworkError subclass
                            "Failed to communicate with Perplexity API")) w').
        { unfold perplexityOperation. unfold bindM at 1.
          now rewrite getModelOf_eval, Ha, Ho, Hget. }
        rewrite Hop. split.
        -- assert (Hk : KeepsObjects
                          (o <- derefRequired options ;;
                           let maxTokens := maxTokens o in
                           let systemPrompt := getSystemPrompt (Some o) in
                           tryCatch
                             (reply <- exchange (fetchPerplexity h)
                                         (PerplexityRequest apiKey m
                                            (chatMessages systemPrompt prompt) maxTokens) ;;
                              match reply with
                              | FetchThrows e => throw e
                              | NotOk _ errorText =>
                                  throw (mkError NetworkError
                                           ("Perplexity API error: " ++ errorText))
                              | Ok data =>
                                  content <- lift (perplexityContent data) ;;
                                  match content with
                                  | None =>
                                      throw (mkError ProviderError
                                               "Perplexity returned an empty response")
                                  | Some c => ret c
                                  end
                              end)
                             (rethrowProviderOrNetworkError subclass
                                "Failed to communicate with Perplexity API"))).
           { unfold derefRequired, rethrowProviderOrNetworkError. keeps. }
           destruct (Hk w') as [Hka Hkh].
           split; [etransitivity; [exact Hka | exact Ha]
                  | etransitivity; [exact Hkh | exact Hh]].
        -- apply sends_perplexity_rest.
      * now split.
      * exists new. split; [exact Hs |]. right. now exists m.
    + rewrite (retryWithBackoff_fixed_throw world string _ 5 1000 _ e w).
      * exists []. simpl. rewrite app_nil_r. now split; [| left].
      * unfold perplexityOperation. unfold bindM at 1. now rewrite getModelOf_eval, Hget.
  - (* ModelBox *)
    unfold modelBoxExecutePrompt. unfold bindM at 1. rewrite getModelOf_eval.
    destruct (getModel localeCompare getSimilarModels ModelBoxProvider
                (thisAvailableModels w) (optionsAt w options)) as [m | e] eqn:Hget.
    2:{ exists []. simpl. rewrite app_nil_r. now split; [| left]. }
    unfold bindM at 1. rewrite derefRequired_eval.
    destruct (optionsAt w options) as [o |].
    2:{ exists []. simpl. rewrite app_nil_r. now split; [| left]. }
    cbv zeta.
    assert (Hsend : exists new,
               sent (snd (tryCatch
                            (executeWithModel h m prompt (maxTokens o)
                               (getSystemPrompt (Some o)) o (flag (webSearch o)))
                            (rethrowProviderOrNetworkError subclass
                               "Failed to communicate with ModelBoxProvider API") w))
               = (sent w ++ new)%list /\ Forall (Addresses m) new).
    { apply (sends_tryCatch string (Addresses m)).
      - apply sends_executeWithModel.
      - intros e. apply sends_silent, silent_rethrowProviderOrNetworkError. }
    unfold tryCatch at 1. unfold bindM at 1. rewrite awaitAvailableModels_eval.
    destruct (thisAvailableModels w) as [[available | e] |] eqn:Hav.
    + assert (Hhas : JS.has available m = true)
        by (apply has_iff; exact (getModel_member _ _ _ _ _ _ Hget)).
      rewrite Hhas. destruct Hsend as [new [Hs Hf]]. exists new.
      split; [exact Hs |]. right. now exists m.
    + exists []. rewrite app_nil_r. split; [| now left].
      apply (silent_rethrowProviderOrNetworkError subclass string).
    + exists []. rewrite app_nil_r. split; [| now left].
      apply (silent_rethrowProviderOrNetworkError subclass string).
  - (* Anthropic *)
    unfold anthropicExecutePrompt. unfold bindM at 1. rewrite getModelOf_eval.
    apply (after_getModel localeCompare getSimilarModels AnthropicProvider
             (optionsAt w options) (fun m => o <- derefRequired options ;; _)).
    intros m. apply sends_bind; [apply sends_silent, silent_derefRequired | intros o].
    cbv zeta. apply sends_tryCatch;
      [| intros ?; apply sends_silent, silent_rethrowProviderError].
    apply sends_bind; [now apply sends_exchange | intros reply]. sends.
Qed.

End RequestTheorem.

(** X1.  Every request a call of [executePrompt] sends, on any provider,
    goes to one model: the one [getModel] resolves from the options the
    provider goes on with.  These are the caller's options, except on
    [GoogleGenerativeLanguageProvider] with a token count between 800000 and
    2000000, where the model is 'gemini-2.0-pro-exp' before resolution; on
    [GoogleVertexAIProvider] the token count has no part in it.  When
    [getModel] throws, nothing is sent. *)
Theorem executePrompt_addresses_resolved_model
        (localeCompare : string -> string -> comparison)
        (getSimilarModels : string -> list string -> list string)
        (stringSimilarity : string -> string -> Q)
        (subclass : errorClass -> errorClass -> bool)
        (messageOf : errorClass -> string -> string)
        (h : host) (p : provider) (prompt : string) (options : option ref) (w : world) :
  exists new,
    sent (snd (executePrompt localeCompare getSimilarModels stringSimilarity
                             subclass messageOf h p prompt options w))
    = (sent w ++ new)%list /\
    (new = [] \/
     exists m,
       getModel localeCompare getSimilarModels p (thisAvailableModels w)
                (effectiveOptions p (optionsAt w options)) = Return m /\
       Forall (Addresses m) new).
Proof. apply executePrompt_requests. Qed.

(** ** Too many tokens *)

Lemma applyTokenCount_too_large (p : provider) (options : option ref) (w : world)
      (opts : ModelOptions) (n : Z) :
  p = GoogleVertexAIProvider \/ p = GoogleGenerativeLanguageProvider ->
  optionsAt w options = Some opts -> tokenCount opts = Some n -> 2000000 <= n ->
  applyTokenCount p options w = (Throw (mkError ProviderError tooLargeMessage), w).
Proof.
  intros Hp Ho Hn Hbig. unfold applyTokenCount, bindM, deref. simpl. rewrite Ho, Hn.
  replace (n =? 0) with false by (symmetry; apply Z.eqb_neq; lia).
  assert (Hd : handleLargeTokenCount p n = mkDecision None (Some tooLargeMessage)).
  { destruct Hp as [-> | ->]; simpl;
      now apply (proj1 (proj2 (googleTokenCount_cases _ n))). }
  rewrite Hd. reflexivity.
Qed.

(** X2.  With a token count of 2000000 or more the two Google providers
    send no request and fail: [GoogleGenerativeLanguageProvider] with the
    [ProviderError] of [handleLargeTokenCount], [GoogleVertexAIProvider] with
    that error too unless [getModel], which runs first there, has already
    thrown. *)
Theorem google_too_many_tokens_sends_nothing
        (localeCompare : string -> string -> comparison)
        (getSimilarModels : string -> list string -> list string)
        (stringSimilarity : string -> string -> Q)
        (subclass : errorClass -> errorClass -> bool)
        (messageOf : errorClass -> string -> string)
        (h : host) (p : provider) (prompt : string) (options : option ref) (w : world)
        (opts : ModelOptions) (n : Z) :
  p = GoogleVertexAIProvider \/ p = GoogleGenerativeLanguageProvider ->
  optionsAt w options = Some opts -> tokenCount opts = Some n -> 2000000 <= n ->
  let outcome := executePrompt localeCompare getSimilarModels stringSimilarity
                               subclass messageOf h p prompt options w in
  snd outcome = w /\
  (fst outcome = Throw (mkError ProviderError tooLargeMessage) \/
   (p = GoogleVertexAIProvider /\
    exists e, fst outcome = Throw e /\
              getModel localeCompare getSimilarModels p (thisAvailableModels w)
                       (Some opts) = Throw e)).
Proof.
  intros Hp Ho Hn Hbig outcome. subst outcome.
  pose proof (applyTokenCount_too_large p options w opts n Hp Ho Hn Hbig) as Hstep.
  destruct Hp as [-> | ->].
  - destruct (getModel localeCompare getSimilarModels GoogleVertexAIProvider
                (thisAvailableModels w) (Some opts)) as [m | e] eqn:Hget.
    + assert (Hrun : executePrompt localeCompare getSimilarModels stringSimilarity
                       subclass messageOf h GoogleVertexAIProvider prompt options w
                     = (Throw (mkError ProviderError tooLargeMessage), w)).
      { simpl. unfold vertexExecutePrompt. unfold bindM at 1.
        rewrite getModelOf_eval, Ho, Hget. unfold bindM at 1. now rewrite Hstep. }
      rewrite Hrun. split; [reflexivity | now left].
    + assert (Hrun : executePrompt localeCompare getSimilarModels stringSimilarity
                       subclass messageOf h GoogleVertexAIProvider prompt options w
                     = (Throw e, w)).
      { simpl. unfold vertexExecutePrompt. unfold bindM at 1.
        now rewrite getModelOf_eval, Ho, Hget. }
      rewrite Hrun. split; [reflexivity |]. right. split; [reflexivity |]. now exists e.
  - assert (Hrun : executePrompt localeCompare getSimilarModels stringSimilarity
                     subclass messageOf h GoogleGenerativeLanguageProvider prompt options w
                   = (Throw (mkError ProviderError tooLargeMessage), w)).
    { simpl. unfold generativeLanguageExecutePrompt. unfold bindM at 1. now rewrite Hstep. }
    rewrite Hrun. split; [reflexivity | now left].
Qed.

Lemma google_too_many_tokens_sends_nothing_witness :
  let w := worldWith ["gemini-2.0-flash"]
             (mkOptions (Some "gemini-2.0-flash") 8000 None (Some 2500000) None None None) in
  let outcome := executePrompt String.compare (fun _ _ => []) (fun _ _ => 0%Q)
                   sampleSubclass sampleMessageOf (answeringHost "key-123" "hello")
                   GoogleGenerativeLanguageProvider "hi" (Some 0%nat) w in
  snd outcome = w /\
  (fst outcome = Throw (mkError ProviderError tooLargeMessage) \/
   (GoogleGenerativeLanguageProvider = GoogleVertexAIProvider /\
    exists e, fst outcome = Throw e /\
              getModel String.compare (fun _ _ => []) GoogleGenerativeLanguageProvider
                       (thisAvailableModels w)
                       (Some (mkOptions (Some "gemini-2.0-flash") 8000 None (Some 2500000)
                                        None None None)) = Throw e)).
Proof.
  apply (google_too_many_tokens_sends_nothing String.compare (fun _ _ => [])
           (fun _ _ => 0%Q) sampleSubclass sampleMessageOf
           (answeringHost "key-123" "hello") GoogleGenerativeLanguageProvider "hi"
           (Some 0%nat)
           (worldWith ["gemini-2.0-flash"]
              (mkOptions (Some "gemini-2.0-flash") 8000 None (Some 2500000) None None None))
           (mkOptions (Some "gemini-2.0-flash") 8000 None (Some 2500000) None None None)
           2500000).
  - now right.
  - reflexivity.
  - reflexivity.
  - lia.
Defined.

(** ** A resolved name resolves to itself *)

(** X3.  A non-empty model name that [getModel] returns for a provider
    with a model list is a fixed point: requesting it, on any provider class
    with the same list, returns it unchanged. *)
Theorem getModel_resolved_name_is_stable
        (localeCompare : string -> string -> comparison)
        (getSimilarModels : string -> list string -> list string)
        (p p' : provider) (availableModels : list string)
        (options : option ModelOptions) (o : ModelOptions) (m : string) :
  getModel localeCompare getSimilarModels p (Some (Return availableModels)) options
  = Return m ->
  m <> EmptyString ->
  getModel localeCompare getSimilarModels p' (Some (Return availableModels))
           (Some (withModel o m)) = Return m.
Proof.
  intros Hget Hm. apply getModel_member in Hget.
  rewrite (getModel_requested _ _ _ _ (withModel o m) m eq_refl Hm).
  unfold resolveModel. apply has_iff in Hget. now rewrite Hget.
Qed.

Lemma getModel_resolved_name_is_stable_witness :
  getModel String.compare (fun _ _ => []) ModelBoxProvider
           (Some (Return ["anthropic/claude"; "openai/gpt-4"]))
           (Some (withModel noModelOptions "openai/gpt-4")) = Return "openai/gpt-4".
Proof.
  apply (getModel_resolved_name_is_stable String.compare (fun _ _ => [])
           ModelBoxProvider ModelBoxProvider ["anthropic/claude"; "openai/gpt-4"]
           (Some (mkOptions (Some "gpt-4") 100 None None None None None))
           noModelOptions "openai/gpt-4").
  - reflexivity.
  - discriminate.
Defined.

(** ** The time spent waiting *)

Lemma totalDelay_geometric (b : Z) (l : list Z) :
  forall c, 0 <= c ->
    (forall i d, nth_error l i = Some d -> d = b * 2 ^ (c + Z.of_nat i)) ->
    totalDelay l = b * 2 ^ c * (2 ^ Z.of_nat (List.length l) - 1).
Proof.
  induction l as [| x l IH]; intros c Hc Hl.
  - simpl. lia.
  - assert (Hx : x = b * 2 ^ c).
    { rewrite (Hl 0%nat x eq_refl). f_equal. f_equal. lia. }
    assert (Hrest : totalDelay l = b * 2 ^ (c + 1) * (2 ^ Z.of_nat (List.length l) - 1)).
    { apply IH; [lia |]. intros i d Hi. rewrite (Hl (S i) d Hi). f_equal. f_equal. lia. }
    change (totalDelay (x :: l)) with (x + totalDelay l).
    rewrite Hx, Hrest. cbn [List.length]. rewrite Nat2Z.inj_succ.
    rewrite Z.pow_succ_r by lia. rewrite Z.pow_add_r by lia. change (2 ^ 1) with 2.
    ring.
Qed.

(** X4.  Between its calls of the operation [retryWithBackoff] waits, in
    all, [baseDelay * (2 ^ k - 1)] for [k] retries, hence at most
    [baseDelay * (2 ^ (maxAttempts - 1) - 1)]: fifteen seconds with the
    values every provider passes. *)
Theorem retryWithBackoff_total_delay
        (W T : Type) (operation : W -> result T * W)
        (maxAttempts baseDelay : Z) (shouldRetry : error -> bool) (w : W) :
  1 <= maxAttempts -> 0 <= baseDelay ->
  let run := retryTrace operation maxAttempts baseDelay shouldRetry w in
  totalDelay (waited run) = baseDelay * (2 ^ Z.of_nat (List.length (waited run)) - 1) /\
  totalDelay (waited run) <= baseDelay * (2 ^ (maxAttempts - 1) - 1) /\
  (maxAttempts = 5 -> baseDelay = 1000 -> totalDelay (waited run) <= 15000).
Proof.
  intros Hmax Hbase run.
  assert (Htotal : totalDelay (waited run) =
                   baseDelay * (2 ^ Z.of_nat (List.length (waited run)) - 1)).
  { rewrite (totalDelay_geometric baseDelay (waited run) 0); [ring_simplify; ring | lia |].
    intros i d Hd. unfold run, retryTrace in Hd.
    rewrite (retryLoop_waited operation maxAttempts baseDelay shouldRetry 1 w i d Hd).
    f_equal. }
  assert (Hlen : Z.of_nat (List.length (waited run)) <= maxAttempts - 1).
  { pose proof (retryLoop_bound operation maxAttempts baseDelay shouldRetry 1 w) as Hb.
    pose proof (retryLoop_invocations operation maxAttempts baseDelay shouldRetry 1 w) as Hi.
    unfold run, retryTrace. lia. }
  assert (Hbound : totalDelay (waited run) <= baseDelay * (2 ^ (maxAttempts - 1) - 1)).
  { rewrite Htotal. apply Z.mul_le_mono_nonneg_l; [exact Hbase |].
    apply Z.sub_le_mono_r. apply Z.pow_le_mono_r; lia. }
  split; [exact Htotal |]. split; [exact Hbound |].
  intros -> ->. exact Hbound.
Qed.

Lemma retryWithBackoff_total_delay_witness :
  let run := retryTrace alwaysRateLimited 5 1000
               (googleShouldRetry sampleSubclass sampleMessageOf) tt in
  totalDelay (waited run) = 1000 * (2 ^ Z.of_nat (List.length (waited run)) - 1) /\
  totalDelay (waited run) <= 1000 * (2 ^ (5 - 1) - 1) /\
  (5 = 5 -> 1000 = 1000 -> totalDelay (waited run) <= 15000).
Proof.
  apply (retryWithBackoff_total_delay unit string alwaysRateLimited 5 1000
           (googleShouldRetry sampleSubclass sampleMessageOf) tt); lia.
Defined.

(** ** No empty answer *)

(** X5.  On every provider but [AnthropicProvider], a call of
    [executePrompt] that returns returns a non-empty string, whatever the
    vendor replies. *)
Theorem executePrompt_answer_is_not_empty
        (localeCompare : string -> string -> comparison)
        (getSimilarModels : string -> list string -> list string)
        (stringSimilarity : string -> string -> Q)
        (subclass : errorClass -> errorClass -> bool)
        (messageOf : errorClass -> string -> string)
        (h : host) (p : provider) (prompt : string) (options : option ref) (w : world)
        (answer : string) :
  p <> AnthropicProvider ->
  fst (executePrompt localeCompare getSimilarModels stringSimilarity
                     subclass messageOf h p prompt options w) = Return answer ->
  answer <> EmptyString.
Proof.
  intros Hp. apply (executePrompt_never_empty localeCompare getSimilarModels
                      stringSimilarity subclass messageOf h p prompt options Hp).
Qed.

Lemma executePrompt_answer_is_not_empty_witness :
  "hello" <> EmptyString.
Proof.
  apply (executePrompt_answer_is_not_empty String.compare (fun _ _ => [])
           (fun _ _ => 0%Q) sampleSubclass sampleMessageOf
           (answeringHost "key-123" "hello") OpenRouterProvider "hi" (Some 0%nat)
           (worldWithout (mkOptions (Some "gpt-4o") 8000 None None None None None))
           "hello").
  - discriminate.
  - vm_compute. reflexivity.
Defined.

(** ** Rate limits *)

Section AllRetryable.

Context {W T : Type}.
Variable operation : W -> result T * W.
Variable maxAttempts : Z.
Variable baseDelay : Z.
Variable shouldRetry : error -> bool.
Variable I : W -> Prop.
Variable count : W -> nat.

(** Every call fails with a retryable error, keeps [I] and adds one to
    [count]. *)
Hypothesis step :
  forall w, I w ->
            exists e w', operation w = (Throw e, w') /\ shouldRetry e = true /\
                         I w' /\ count w' = S (count w).

Lemma retryLoop_all_retryable (attempt : Z) (w : W) :
  I w -> attempt <= maxAttempts ->
  let run := retryLoop operation maxAttempts baseDelay shouldRetry attempt w in
  Z.of_nat (invocations run) = maxAttempts - attempt + 1 /\
  count (final run) = (count w + invocations run)%nat /\
  exists e, outcome run = Throw e /\ shouldRetry e = true.
Proof.
  funelim (retryLoop operation maxAttempts baseDelay shouldRetry attempt w);
    intros Hw Hle; cbv zeta; simpl.
  - destruct (step w Hw) as [e [w0 [Hop _]]]. rewrite Heq in Hop. discriminate.
  - destruct (step w Hw) as [e0 [w0 [Hop [Hs [_ Hc]]]]]. rewrite Heq0 in Hop.
    injection Hop as He0 Hw0. subst e0 w0.
    destruct o as [Hge | Hno]; [| congruence].
    split; [lia |]. split; [lia |]. now exists e.
  - destruct (step w Hw) as [e0 [w0 [Hop [Hs [Hi Hc]]]]]. rewrite Heq0 in Hop.
    injection Hop as He0 Hw0. subst e0 w0. destruct a as [Hlt Hretry].
    match goal with
    | IH : I w' -> _ |- _ => destruct (IH Hi) as [Hn [Hcount He]]; [lia |]
    end.
    split; [lia |]. split; [lia | exact He].
Qed.

End AllRetryable.

Lemma toLowerCase_append (a b : string) :
  JS.toLowerCase (a ++ b) = JS.toLowerCase a ++ JS.toLowerCase b.
Proof. induction a as [| c a IH]; simpl; [reflexivity | now rewrite IH]. Qed.

Lemma contains_toLowerCase (sub s : string) :
  Contains sub s -> Contains (JS.toLowerCase sub) (JS.toLowerCase s).
Proof.
  intros [pre [post ->]]. exists (JS.toLowerCase pre), (JS.toLowerCase post).
  now rewrite !toLowerCase_append.
Qed.

Lemma contains_trans (a b c : string) : Contains a b -> Contains b c -> Contains a c.
Proof.
  intros [p1 [q1 ->]] [p2 [q2 ->]]. exists (p2 ++ p1), (q1 ++ q2).
  now rewrite !append_assoc.
Qed.

Lemma waited_of_five (l : list Z) :
  List.length l = 4%nat ->
  (forall i d, nth_error l i = Some d -> d = 1000 * 2 ^ Z.of_nat i) ->
  l = [1000; 2000; 4000; 8000].
Proof.
  intros Hlen Hl. destruct l as [| a [| b [| c [| d [| x l]]]]]; try discriminate.
  rewrite (Hl 0%nat a eq_refl), (Hl 1%nat b eq_refl), (Hl 2%nat c eq_refl),
    (Hl 3%nat d eq_refl).
  reflexivity.
Qed.

Section RateLimit.

Variable localeCompare : string -> string -> comparison.
Variable getSimilarModels : string -> list string -> list string.
Variable stringSimilarity : string -> string -> Q.
Variable subclass : errorClass -> errorClass -> bool.
Variable messageOf : errorClass -> string -> string.
Variable h : host.

(** What the code relies on from '../errors': [NetworkError] extends
    [ProviderError], and the message of a [NetworkError] holds the text it
    was made with. *)
Hypothesis network_is_provider_error : subclass NetworkError ProviderError = true.
Hypothesis message_holds_text : forall text, Contains text (messageOf NetworkError text).

(** The Gemini endpoint answers every request with status 429. *)
Hypothesis always_429 : forall history rq, exists text, fetchGemini h history rq = NotOk 429 text.

Lemma rate_limit_error_is_retryable (vendorName text : string) :
  let e := mkError NetworkError
                   (vendorName ++ " API error (" ++ JS.numberToString 429 ++ "): " ++ text) in
  googleShouldRetry subclass messageOf e = true /\
  instanceOf subclass e ProviderError = true /\
  instanceOf subclass e NetworkError = true.
Proof.
  cbv zeta. split; [| split].
  - apply googleShouldRetry_iff. split; [reflexivity |]. left.
    unfold message. simpl errClass. simpl errArg.
    apply contains_trans with
      (JS.toLowerCase (vendorName ++ " API error (" ++ JS.numberToString 429 ++ "): " ++ text)).
    + rewrite toLowerCase_append. exists (JS.toLowerCase vendorName ++ " api error (").
      exists ("): " ++ JS.toLowerCase text).
      rewrite !toLowerCase_append. rewrite !append_assoc. reflexivity.
    + apply contains_toLowerCase, message_holds_text.
  - unfold instanceOf. simpl. exact network_is_provider_error.
  - reflexivity.
Qed.

(** One call of the operation: one request, and the error of a 429. *)
Lemma googleOperation_429 (p : provider) (prompt : string) (options : option ref)
      (maxTokens : Z) (systemPrompt baseURL : string) (w : world) :
  GoogleAuthorized h p ->
  exists vendorName text w',
    googleOperation subclass h p prompt options maxTokens systemPrompt baseURL w =
    (Throw (mkError NetworkError
              (vendorName ++ " API error (" ++ JS.numberToString 429 ++ "): " ++ text)),
     w') /\
    List.length (sent w') = S (List.length (sent w)).
Proof.
  intros Hauth. destruct p; try contradiction; simpl in Hauth.
  - destruct Hauth as [Hclient [token Htoken]].
    unfold googleOperation, vertexOperation, tryCatch, bindM, webSearchOf, deref, ret,
      lift, exchange. simpl. rewrite Hclient, Htoken. simpl.
    match goal with
    | |- context [fetchGemini h ?a ?b] => destruct (always_429 a b) as [text Hreply]
    end.
    rewrite Hreply. exists "Google Vertex AI", text.
    unfold readGeminiReply, throw, rethrowProviderError, instanceOf. simpl.
    rewrite network_is_provider_error. eexists. split; [reflexivity |].
    simpl. rewrite length_app. simpl. lia.
  - destruct Hauth as [key Hkey].
    unfold googleOperation, generativeLanguageOperation, tryCatch, bindM, webSearchOf,
      deref, ret, lift, exchange. simpl. rewrite Hkey. simpl.
    match goal with
    | |- context [fetchGemini h ?a ?b] => destruct (always_429 a b) as [text Hreply]
    end.
    rewrite Hreply. exists "Google Generative Language", text.
    unfold readGeminiReply, throw, rethrowProviderError, instanceOf. simpl.
    rewrite network_is_provider_error. eexists. split; [reflexivity |].
    simpl. rewrite length_app. simpl. lia.
Qed.

(** One call of the operation: one request, and a retryable error. *)
Lemma googleOperation_rate_limited (p : provider) (prompt : string) (options : option ref)
      (maxTokens : Z) (systemPrompt baseURL : string) (w : world) :
  GoogleAuthorized h p ->
  exists e w',
    googleOperation subclass h p prompt options maxTokens systemPrompt baseURL w = (Throw e, w') /\
    googleShouldRetry subclass messageOf e = true /\
    (fun _ : world => True) w' /\
    List.length (sent w') = S (List.length (sent w)).
Proof.
  intros Hauth.
  destruct (googleOperation_429 p prompt options maxTokens systemPrompt baseURL w Hauth)
    as [vendorName [text [w' [Hrun Hlen]]]].
  destruct (rate_limit_error_is_retryable vendorName text) as [Hretry _].
  eexists. exists w'. split; [exact Hrun |]. split; [exact Hretry |]. split; [exact I | exact Hlen].
Qed.

(** With a token count that asks for nothing, the call is the retry loop
    around the operation. *)
Lemma google_executePrompt_eval (p : provider) (prompt : string) (options : option ref)
      (w : world) (o : ModelOptions) (m : string) :
  p = GoogleVertexAIProvider \/ p = GoogleGenerativeLanguageProvider ->
  optionsAt w options = Some o ->
  (forall n, tokenCount o = Some n -> n <= 800000) ->
  getModel localeCompare getSimilarModels p (thisAvailableModels w) (Some o) = Return m ->
  (p = GoogleVertexAIProvider ->
   exists models, thisAvailableModels w = Some (Return models) /\ JS.has models m = true) ->
  exists baseURL,
    executePrompt localeCompare getSimilarModels stringSimilarity subclass messageOf h
                  p prompt options w =
    retryWithBackoff
      (googleOperation subclass h p prompt options (maxTokens o) (getSystemPrompt (Some o))
                       baseURL)
      5 1000 (googleShouldRetry subclass messageOf) w.
Proof.
  intros Hp Ho Hcount Hm Hlisted.
  assert (Hsmall : forall o' n, optionsAt w options = Some o' -> tokenCount o' = Some n ->
                                n <= 800000).
  { intros o' n Ho' Hn. rewrite Ho in Ho'. injection Ho' as <-. now apply Hcount. }
  destruct Hp as [-> | ->]; simpl.
  - destruct (Hlisted eq_refl) as [models [Hmodels Hhas]].
    exists (vertexURL m).
    unfold vertexExecutePrompt. unfold bindM at 1. rewrite getModelOf_eval, Ho, Hm.
    unfold bindM at 1. rewrite (applyTokenCount_small _ _ _ Hsmall).
    unfold bindM at 1. rewrite awaitAvailableModels_eval, Hmodels. rewrite Hhas. simpl.
    unfold bindM at 1. rewrite derefRequired_eval, Ho. reflexivity.
  - exists (generativeLanguageURL m).
    unfold generativeLanguageExecutePrompt. unfold bindM at 1.
    rewrite (applyTokenCount_small _ _ _ Hsmall).
    unfold bindM at 1. rewrite getModelOf_eval, Ho, Hm.
    unfold bindM at 1. rewrite derefRequired_eval, Ho. reflexivity.
Qed.

(** X6. When the Gemini endpoint answers every request with status 429, a
    call of [executePrompt] on one of the two Google providers, with
    credentials of the right kind, a model that resolves (and, on Vertex AI,
    is listed) and no token count above 800000, sends exactly five requests,
    all to the resolved model, and then throws a [NetworkError]. *)
Theorem google_rate_limit_exhausts_retries
        (p : provider) (prompt : string) (options : option ref)
        (w : world) (o : ModelOptions) (m : string) :
  GoogleAuthorized h p ->
  optionsAt w options = Some o ->
  (forall n, tokenCount o = Some n -> n <= 800000) ->
  getModel localeCompare getSimilarModels p (thisAvailableModels w) (Some o) = Return m ->
  (p = GoogleVertexAIProvider ->
   exists models, thisAvailableModels w = Some (Return models) /\ JS.has models m = true) ->
  let r := executePrompt localeCompare getSimilarModels stringSimilarity subclass messageOf h
                         p prompt options w in
  (exists e, fst r = Throw e /\ instanceOf subclass e NetworkError = true) /\
  exists new,
    sent (snd r) = (sent w ++ new)%list /\ List.length new = 5%nat /\
    Forall (Addresses m) new.
Proof.
  intros Hauth Ho Hcount Hm Hlisted r.
  assert (Hp : p = GoogleVertexAIProvider \/ p = GoogleGenerativeLanguageProvider).
  { destruct p; try contradiction; auto. }
  destruct (google_executePrompt_eval p prompt options w o m Hp Ho Hcount Hm Hlisted)
    as [baseURL Heval].
  pose proof (retryLoop_all_retryable
                (googleOperation subclass h p prompt options (maxTokens o)
                                 (getSystemPrompt (Some o)) baseURL)
                5 1000 (googleShouldRetry subclass messageOf)
                (fun _ : world => True) (fun w => List.length (sent w))
                (fun w _ => googleOperation_rate_limited p prompt options (maxTokens o)
                              (getSystemPrompt (Some o)) baseURL w Hauth)
                1 w I ltac:(lia)) as Hloop.
  cbv zeta in Hloop. destruct Hloop as [Hn [Hsent [e [Hout Hretry]]]].
  assert (Hfive : invocations
                    (retryLoop (googleOperation subclass h p prompt options (maxTokens o)
                                                (getSystemPrompt (Some o)) baseURL)
                               5 1000 (googleShouldRetry subclass messageOf) 1 w) = 5%nat)
    by lia.
  rewrite Hfive in Hsent.
  assert (Hfst : fst r = Throw e).
  { unfold r. rewrite Heval. exact Hout. }
  assert (Hlen : List.length (sent (snd r)) = (List.length (sent w) + 5)%nat).
  { unfold r. rewrite Heval. exact Hsent. }
  split.
  - exists e. split; [exact Hfst |]. now apply googleShouldRetry_iff in Hretry.
  - destruct (executePrompt_requests localeCompare getSimilarModels stringSimilarity
                subclass messageOf h p prompt options w) as [new [Hnew Hto]].
    fold r in Hnew. exists new. split; [exact Hnew |].
    assert (Hnew5 : List.length new = 5%nat).
    { rewrite Hnew, length_app in Hlen. lia. }
    split; [exact Hnew5 |].
    destruct Hto as [-> | [m' [Hm' Hall]]]; [discriminate |].
    assert (Heff : effectiveOptions p (optionsAt w options) = Some o).
    { rewrite Ho. unfold effectiveOptions. destruct p; try reflexivity.
      destruct (tokenCount o) as [n |] eqn:Hn'; [| reflexivity].
      specialize (Hcount n eq_refl).
      destruct (Z.ltb_spec 800000 n); [lia | reflexivity]. }
    rewrite Heff, Hm in Hm'. injection Hm' as <-. exact Hall.
Qed.

End RateLimit.

Lemma contains_itself (s : string) : Contains s s.
Proof.
  exists EmptyString, EmptyString. simpl.
  induction s as [| c s IH]; simpl; [reflexivity | now f_equal].
Qed.

Lemma google_rate_limit_exhausts_retries_witness :
  let r := executePrompt String.compare (fun _ models => models) (fun _ _ => 0%Q)
                         sampleSubclass sampleMessageOf (rateLimitedHost "adc")
                         GoogleVertexAIProvider "hello" (Some 0%nat)
                         (worldWith ["gemini-2.0-flash"]
                                    (withModel noModelOptions "gemini-2.0-flash")) in
  (exists e, fst r = Throw e /\ instanceOf sampleSubclass e NetworkError = true) /\
  exists new,
    sent (snd r) = new /\ List.length new = 5%nat /\
    Forall (Addresses "gemini-2.0-flash") new.
Proof.
  apply (google_rate_limit_exhausts_retries
           String.compare (fun _ models => models) (fun _ _ => 0%Q)
           sampleSubclass sampleMessageOf (rateLimitedHost "adc")
           eq_refl
           contains_itself
           (fun _ _ => ex_intro _ "quota exceeded" eq_refl)
           GoogleVertexAIProvider "hello" (Some 0%nat)
           (worldWith ["gemini-2.0-flash"] (withModel noModelOptions "gemini-2.0-flash"))
           (withModel noModelOptions "gemini-2.0-flash") "gemini-2.0-flash").
  - split; [reflexivity | now exists "token"].
  - reflexivity.
  - intros n Hn. discriminate Hn.
  - reflexivity.
  - intros _. exists ["gemini-2.0-flash"]. split; reflexivity.
Defined.

(** ** Listing the models *)

Lemma newSet_fold (arr acc : list string) :
  NoDup acc ->
  let set := fold_left (fun set x => if JS.has set x then set else (set ++ [x])%list) arr acc in
  NoDup set /\ forall x, In x set <-> In x acc \/ In x arr.
Proof.
  revert acc. induction arr as [| a arr IH]; intros acc Hacc; simpl.
  - split; [exact Hacc |]. intros x. tauto.
  - destruct (JS.has acc a) eqn:Hhas.
    + destruct (IH acc Hacc) as [Hnd Hin]. split; [exact Hnd |].
      intros x. rewrite Hin. apply has_iff in Hhas.
      split; [tauto |]. intros [H | [<- | H]]; auto.
    + assert (Hnot : ~ In a acc).
      { intros Hin. apply has_iff in Hin. congruence. }
      assert (Hacc' : NoDup (acc ++ [a])).
      { apply NoDup_app; [exact Hacc | repeat constructor; intros [] |].
        intros x Hx [<- | []]. now apply Hnot. }
      destruct (IH (acc ++ [a])%list Hacc') as [Hnd Hin]. split; [exact Hnd |].
      intros x. rewrite Hin, in_app_iff. simpl. tauto.
Qed.

Lemma newSet_NoDup (arr : list string) : NoDup (Listing.newSet arr).
Proof. apply (newSet_fold arr []). constructor. Qed.

Lemma newSet_In (arr : list string) (x : string) : In x (Listing.newSet arr) <-> In x arr.
Proof.
  unfold Listing.newSet. destruct (newSet_fold arr [] (NoDup_nil _)) as [_ H].
  rewrite H. simpl. tauto.
Qed.

Lemma mapNames_Return (rename : string -> string) (entries : list (option string))
      (names : list string) :
  Listing.mapNames rename entries = Return names ->
  names = map rename (listedNames (Listing.ListOk (Listing.Entries entries))).
Proof.
  revert names. induction entries as [| [name |] entries IH]; intros names; simpl.
  - now intros [= <-].
  - destruct (Listing.mapNames rename entries) as [rest | e]; simpl; [| discriminate].
    intros [= <-]. f_equal. now apply IH.
  - discriminate.
Qed.

Lemma orNetworkError_cases {T : Type} (failure : string) (r : result T) :
  match Listing.orNetworkError failure r with
  | Return v => r = Return v
  | Throw e => e = mkError NetworkError failure
  end.
Proof. now destruct r. Qed.

Lemma generativeLanguageInitializeModels_cases
        (h : host) (fetchModels : string -> option string -> Listing.modelsReply) :
  match Listing.generativeLanguageInitializeModels h fetchModels with
  | Throw e => e = mkError NetworkError "Failed to fetch available Gemini models"
  | Return models =>
      NoDup models /\
      exists apiKey,
        getAPIKey h = Return apiKey /\
        forall m,
          In m models <->
          Contains "gemini" m /\
          exists name,
            In name (listedNames (fetchModels (geminiModelsURL apiKey) None)) /\
            m = JS.replace name "models/" EmptyString
  end.
Proof.
  unfold Listing.generativeLanguageInitializeModels.
  match goal with
  | |- match Listing.orNetworkError ?f ?r with _ => _ end =>
      pose proof (orNetworkError_cases f r) as Hcases;
      destruct (Listing.orNetworkError f r) as [models | e]; [| exact Hcases]
  end.
  destruct (getAPIKey h) as [apiKey | e]; cbn [bindR] in Hcases; [| discriminate].
  change ("https://generativelanguage.googleapis.com/v1beta/models?key=" ++ apiKey)
    with (geminiModelsURL apiKey) in Hcases.
  destruct (fetchModels (geminiModelsURL apiKey) None) as [e | text | e | [| | entries]]
    eqn:Hreply; try discriminate.
  - injection Hcases as <-. split; [constructor |]. exists apiKey. split; [reflexivity |].
    intros m. rewrite Hreply. simpl. split; [intros [] | intros [_ [name [[] _]]]].
  - destruct (Listing.mapNames (fun name => JS.replace name "models/" EmptyString) entries)
      as [names | e] eqn:Hmap; cbn [bindR] in Hcases; [| discriminate].
    injection Hcases as <-. apply mapNames_Return in Hmap.
    split; [apply newSet_NoDup |]. exists apiKey. split; [reflexivity |].
    intros m. rewrite Hreply, newSet_In, filter_In, includes_iff, Hmap, in_map_iff.
    split.
    + intros [[name [Hname Hin]] Hgem]. split; [exact Hgem |]. now exists name.
    + intros [Hgem [name [Hin Hname]]]. split; [| exact Hgem]. now exists name.
Qed.

(** X7. [GoogleGenerativeLanguageProvider.initializeModels] settles in one
    of two ways.  It rejects with the [NetworkError] 'Failed to fetch
    available Gemini models', whatever went wrong; or it resolves with a set
    without repetition that holds exactly the listed names, their first
    'models/' removed, that contain 'gemini'. *)
Theorem generativeLanguage_lists_gemini_models
        (h : host) (fetchModels : string -> option string -> Listing.modelsReply) :
  match Listing.generativeLanguageInitializeModels h fetchModels with
  | Throw e => e = mkError NetworkError "Failed to fetch available Gemini models"
  | Return models =>
      NoDup models /\
      exists apiKey,
        getAPIKey h = Return apiKey /\
        forall m,
          In m models <->
          Contains "gemini" m /\
          exists name,
            In name (listedNames (fetchModels (geminiModelsURL apiKey) None)) /\
            m = JS.replace name "models/" EmptyString
  end.
Proof. apply generativeLanguageInitializeModels_cases. Qed.

Lemma vertexInitializeModels_cases
        (h : host) (fetchModels : string -> option string -> Listing.modelsReply) :
  match Listing.vertexInitializeModels h fetchModels with
  | Throw e => e = mkError NetworkError "Failed to fetch available Vertex AI models"
  | Return models =>
      NoDup models /\
      exists token,
        getAuthClient h = Return tt /\ getAccessToken h = Return token /\
        forall m,
          In m models <->
          exists name,
            In name (listedNames (fetchModels vertexModelsURL (Some ("Bearer " ++ token)))) /\
            m = JS.replace name "publishers/google/models/" EmptyString
  end.
Proof.
  unfold Listing.vertexInitializeModels.
  match goal with
  | |- match Listing.orNetworkError ?f ?r with _ => _ end =>
      pose proof (orNetworkError_cases f r) as Hcases;
      destruct (Listing.orNetworkError f r) as [models | e]; [| exact Hcases]
  end.
  destruct (getAuthClient h) as [[] | e]; cbn [bindR] in Hcases; [| discriminate].
  destruct (getAccessToken h) as [token | e]; cbn [bindR] in Hcases; [| discriminate].
  fold vertexModelsURL in Hcases.
  destruct (fetchModels vertexModelsURL (Some ("Bearer " ++ token)))
    as [e | text | e | [| | entries]] eqn:Hreply; try discriminate.
  - injection Hcases as <-. split; [constructor |]. exists token.
    split; [reflexivity |]. split; [reflexivity |].
    intros m. rewrite Hreply. simpl. split; [intros [] | intros [name [[] _]]].
  - destruct (Listing.mapNames
                (fun name => JS.replace name "publishers/google/models/" EmptyString) entries)
      as [names | e] eqn:Hmap; cbn [bindR] in Hcases; [| discriminate].
    injection Hcases as <-. apply mapNames_Return in Hmap.
    split; [apply newSet_NoDup |]. exists token.
    split; [reflexivity |]. split; [reflexivity |].
    intros m. rewrite Hreply, newSet_In, Hmap, in_map_iff.
    split.
    + intros [name [Hname Hin]]. now exists name.
    + intros [name [Hin Hname]]. now exists name.
Qed.

(** X8. [GoogleVertexAIProvider.initializeModels] settles in one of two
    ways.  It rejects with the [NetworkError] 'Failed to fetch available
    Vertex AI models', whatever went wrong, a missing credential included; or
    it resolves with a set without repetition that holds exactly the listed
    names, their first 'publishers/google/models/' removed. *)
Theorem vertex_lists_publisher_models
        (h : host) (fetchModels : string -> option string -> Listing.modelsReply) :
  match Listing.vertexInitializeModels h fetchModels with
  | Throw e => e = mkError NetworkError "Failed to fetch available Vertex AI models"
  | Return models =>
      NoDup models /\
      exists token,
        getAuthClient h = Return tt /\ getAccessToken h = Return token /\
        forall m,
          In m models <->
          exists name,
            In name (listedNames (fetchModels vertexModelsURL (Some ("Bearer " ++ token)))) /\
            m = JS.replace name "publishers/google/models/" EmptyString
  end.
Proof. apply vertexInitializeModels_cases. Qed.

(** ** createProvider *)

Lemma newProvider_google (h : host) (keys : constructorKeys) (loadConfig : Config)
      (fetchModels : string -> option string -> Listing.modelsReply)
      (modelBoxModels : result (list string)) (p : provider) (w : world) :
  p = GoogleVertexAIProvider \/ p = GoogleGenerativeLanguageProvider ->
  newProvider h keys loadConfig fetchModels modelBoxModels p w =
  (Return p,
   mkWorld loadConfig
           (Some (match p with
                  | GoogleVertexAIProvider => Listing.vertexInitializeModels h fetchModels
                  | _ => Listing.generativeLanguageInitializeModels h fetchModels
                  end))
           (heap w) (sent w)).
Proof. intros [-> | ->]; reflexivity. Qed.

(** X9. [createProvider('gemini')] chooses the class by the kind of the
    credential, and the class it returns accepts that kind: it returns a
    [GoogleGenerativeLanguageProvider] exactly when [getAPIKey] of that
    class would return the key; it returns a [GoogleVertexAIProvider]
    whenever [getAuthClient] would succeed, and then the key ends with
    '.json' or says 'adc' in some letter case, and [getAuthClient] goes as
    far as [getClient] of [GoogleAuth], with the key file or with the
    application default credentials, and settles as that does, or fails
    before it for a key file that does not exist, never for the kind of the
    credential; and it throws only [ApiKeyMissingError('Gemini')], when the
    variable is unset or empty. *)
Theorem createProvider_gemini_follows_credentials
        (h : host) (keys : constructorKeys) (loadConfig : Config)
        (fetchModels : string -> option string -> Listing.modelsReply)
        (modelBoxModels : result (list string)) (w : world) :
  let r := createProvider h keys loadConfig fetchModels modelBoxModels gemini w in
  (fst r = Return GoogleGenerativeLanguageProvider <-> exists key, getAPIKey h = Return key) /\
  (getAuthClient h = Return tt -> fst r = Return GoogleVertexAIProvider) /\
  (fst r = Return GoogleVertexAIProvider ->
   exists key,
     GEMINI_API_KEY h = Some key /\
     ((IsSuffix ".json" key /\ existsSync h key = true /\
       getAuthClient h = getClient h (Some key)) \/
      (IsSuffix ".json" key /\ existsSync h key = false /\
       getAuthClient h =
       Throw (mkError PlainError ("Google Vertex AI JSON key file not found at: " ++ key))) \/
      (SaysIgnoringCase key "adc" /\ getAuthClient h = getClient h None))) /\
  (forall e, fst r = Throw e ->
             e = mkError ApiKeyMissingError "Gemini" /\
             truthyField (GEMINI_API_KEY h) = None /\ snd r = w).
Proof.
  cbv zeta. unfold createProvider, getAPIKey, getAuthClient.
  destruct (truthyField (GEMINI_API_KEY h)) as [key |] eqn:Hkey.
  - assert (Hsome : GEMINI_API_KEY h = Some key).
    { unfold truthyField in Hkey. destruct (GEMINI_API_KEY h) as [v |]; [| discriminate].
      destruct (JS.truthy v); [congruence | discriminate]. }
    destruct (JS.endsWith key ".json") eqn:Hjson; cbn [orb]; cbv beta iota.
    + rewrite newProvider_google by now left. cbn [fst snd].
      split; [split; [discriminate | intros [k Hk]; discriminate] |].
      split; [reflexivity |]. split; [| discriminate].
      intros _. exists key. split; [exact Hsome |]. apply endsWith_iff in Hjson.
      destruct (existsSync h key) eqn:Hfile; cbn [negb]; cbv iota; auto.
    + destruct (String.eqb (JS.toLowerCase key) "adc") eqn:Hadc; cbv beta iota.
      * rewrite newProvider_google by now left. cbn [fst snd].
        split; [split; [discriminate | intros [k Hk]; discriminate] |].
        split; [reflexivity |]. split; [| discriminate].
        intros _. exists key. split; [exact Hsome |]. right. right.
        split; [| reflexivity]. apply String.eqb_eq in Hadc.
        now apply toLowerCase_says; [apply noCapital_check |].
      * rewrite newProvider_google by now right. cbn [fst snd].
        split; [split; [intros _; now exists key | reflexivity] |].
        split; [discriminate |]. split; discriminate.
  - cbn [fst snd throw]. unfold throw. cbn [fst snd].
    split; [split; [discriminate | intros [k Hk]; discriminate] |].
    split; [discriminate |]. split; [discriminate |].
    intros e [= <-]. auto.
Qed.

(** ** A provider whose list of models failed *)

Lemma getModel_failed_listing (localeCompare : string -> string -> comparison)
      (getSimilarModels : string -> list string -> list string)
      (p : provider) (e : error) (o : option ModelOptions) :
  (exists e', getModel localeCompare getSimilarModels p (Some (Throw e)) o = Throw e') /\
  (requestedModel o <> None ->
   getModel localeCompare getSimilarModels p (Some (Throw e)) o = Throw e).
Proof.
  unfold getModel. destruct (requestedModel o) as [name |]; simpl.
  - split; [now exists e | reflexivity].
  - split; [eexists; reflexivity | congruence].
Qed.

Lemma applyTokenCount_throws (options : option ref) (w : world) (e : error) :
  fst (applyTokenCount GoogleGenerativeLanguageProvider options w) = Throw e ->
  exists o n, optionsAt w options = Some o /\ tokenCount o = Some n /\ 2000000 <= n.
Proof.
  unfold applyTokenCount, bindM, deref, ret, throw, alloc. simpl.
  destruct (optionsAt w options) as [opts |] eqn:Ho; simpl; [| discriminate].
  destruct (tokenCount opts) as [n |] eqn:Hn; simpl; [| discriminate].
  destruct (Z.eqb_spec n 0) as [-> | Hnz]; simpl; [discriminate |].
  destruct (googleTokenCount_cases "gemini-2.0-pro-exp" n) as [Hmid [Hbig Hsmall]].
  destruct (Z.le_gt_cases 2000000 n) as [Hge | Hlt].
  - intros _. now exists opts, n.
  - destruct (Z.le_gt_cases n 800000) as [Hle | Hgt].
    + rewrite Hsmall by lia. simpl. discriminate.
    + rewrite Hmid by lia. simpl. discriminate.
Qed.

Section FailedListing.

Variable localeCompare : string -> string -> comparison.
Variable getSimilarModels : string -> list string -> list string.
Variable stringSimilarity : string -> string -> Q.
Variable subclass : errorClass -> errorClass -> bool.
Variable messageOf : errorClass -> string -> string.
Variable h : host.

(** X10. On a provider whose list of models could not be fetched (the three
    classes that list their models), every call of [executePrompt] throws
    and sends nothing; and when a model is requested, and on
    [GoogleGenerativeLanguageProvider] the token count is below 2000000, what
    it throws is the error of the failed list, unchanged and without a
    retry. *)
Theorem failed_listing_fails_every_prompt
        (p : provider) (prompt : string) (options : option ref) (w : world) (e : error) :
  p = GoogleVertexAIProvider \/ p = GoogleGenerativeLanguageProvider \/ p = ModelBoxProvider ->
  thisAvailableModels w = Some (Throw e) ->
  let r := executePrompt localeCompare getSimilarModels stringSimilarity subclass messageOf h
                         p prompt options w in
  sent (snd r) = sent w /\
  (exists e', fst r = Throw e') /\
  (requestedModel (effectiveOptions p (optionsAt w options)) <> None ->
   (p = GoogleGenerativeLanguageProvider ->
    forall o n, optionsAt w options = Some o -> tokenCount o = Some n -> n < 2000000) ->
   fst r = Throw e).
Proof.
  intros Hp Hfailed r.
  assert (Hrun : exists e' w1,
             r = (Throw e', w1) /\ sent w1 = sent w /\
             (requestedModel (effectiveOptions p (optionsAt w options)) <> None ->
              (p = GoogleGenerativeLanguageProvider ->
               forall o n, optionsAt w options = Some o -> tokenCount o = Some n ->
                           n < 2000000) ->
              e' = e)).
  { unfold r. destruct Hp as [-> | [-> | ->]]; cbn [executePrompt].
    - unfold vertexExecutePrompt. unfold bindM at 1. rewrite getModelOf_eval, Hfailed.
      destruct (getModel_failed_listing localeCompare getSimilarModels GoogleVertexAIProvider e
                  (optionsAt w options)) as [[e' He'] Hsame].
      rewrite He'. exists e', w. split; [reflexivity |]. split; [reflexivity |].
      intros Hreq _. specialize (Hsame Hreq). congruence.
    - unfold generativeLanguageExecutePrompt. unfold bindM at 1.
      pose proof (silent_applyTokenCount GoogleGenerativeLanguageProvider options w) as Hsilent.
      pose proof (applyTokenCount_throws options w) as Hthrows.
      pose proof (applyTokenCount_effective options w) as Heff.
      destruct (applyTokenCount GoogleGenerativeLanguageProvider options w)
        as [[options' | e0] w1]; cbn [fst snd] in Hsilent, Hthrows, Heff.
      + destruct (Heff options' eq_refl) as [Ho Ha].
        unfold bindM at 1. rewrite getModelOf_eval, Ho, Ha, Hfailed.
        destruct (getModel_failed_listing localeCompare getSimilarModels
                    GoogleGenerativeLanguageProvider e
                    (effectiveOptions GoogleGenerativeLanguageProvider (optionsAt w options)))
          as [[e' He'] Hsame].
        rewrite He'. exists e', w1. split; [reflexivity |]. split; [exact Hsilent |].
        intros Hreq _. specialize (Hsame Hreq). congruence.
      + exists e0, w1. split; [reflexivity |]. split; [exact Hsilent |].
        intros _ Hcount. destruct (Hthrows e0 eq_refl) as [o [n [Ho [Hn Hbig]]]].
        specialize (Hcount eq_refl o n Ho Hn). lia.
    - unfold modelBoxExecutePrompt. unfold bindM at 1. rewrite getModelOf_eval, Hfailed.
      destruct (getModel_failed_listing localeCompare getSimilarModels ModelBoxProvider e
                  (optionsAt w options)) as [[e' He'] Hsame].
      rewrite He'. exists e', w. split; [reflexivity |]. split; [reflexivity |].
      intros Hreq _. specialize (Hsame Hreq). congruence. }
  destruct Hrun as [e' [w1 [Hrun [Hsent Hsame]]]]. rewrite Hrun. simpl.
  split; [exact Hsent |]. split; [now exists e' |].
  intros Hreq Hcount. f_equal. now apply Hsame.
Qed.

End FailedListing.

Lemma failed_listing_fails_every_prompt_witness :
  let created := createProvider (answeringHost "key-123" "hello") noKeys (fun _ => None)
                                brokenListing (Return []) gemini
                                (worldWithout (withModel noModelOptions "gemini-2.0-flash")) in
  let r := executePrompt String.compare (fun _ _ => []) (fun _ _ => 0%Q)
                         sampleSubclass sampleMessageOf (answeringHost "key-123" "hello")
                         GoogleGenerativeLanguageProvider "hello" (Some 0%nat) (snd created) in
  fst created = Return GoogleGenerativeLanguageProvider /\
  sent (snd r) = [] /\
  fst r = Throw (mkError NetworkError "Failed to fetch available Gemini models").
Proof.
  split; [reflexivity |].
  pose proof (failed_listing_fails_every_prompt
                String.compare (fun _ _ => []) (fun _ _ => 0%Q)
                sampleSubclass sampleMessageOf (answeringHost "key-123" "hello")
                GoogleGenerativeLanguageProvider "hello" (Some 0%nat)
                (snd (createProvider (answeringHost "key-123" "hello") noKeys (fun _ => None)
                        brokenListing (Return []) gemini
                        (worldWithout (withModel noModelOptions "gemini-2.0-flash"))))
                (mkError NetworkError "Failed to fetch available Gemini models")
                (or_intror (or_introl eq_refl)) eq_refl) as [Hsent [_ Hthrown]].
  split; [exact Hsent |].
  apply Hthrown.
  - discriminate.
  - intros _ o n [= <-]. discriminate.
Defined.

(** ** From createProvider to the requests *)

Lemma createProvider_gemini_world (h : host) (keys : constructorKeys) (loadConfig : Config)
      (fetchModels : string -> option string -> Listing.modelsReply)
      (modelBoxModels : result (list string)) (w : world) :
  fst (createProvider h keys loadConfig fetchModels modelBoxModels gemini w)
  = Return GoogleGenerativeLanguageProvider ->
  snd (createProvider h keys loadConfig fetchModels modelBoxModels gemini w)
  = mkWorld loadConfig (Some (Listing.generativeLanguageInitializeModels h fetchModels))
            (heap w) (sent w).
Proof.
  unfold createProvider.
  destruct (truthyField (GEMINI_API_KEY h)) as [key |]; [| discriminate].
  destruct (JS.endsWith key ".json" || String.eqb (JS.toLowerCase key) "adc").
  - rewrite newProvider_google by now left. discriminate.
  - rewrite newProvider_google by now right. reflexivity.
Qed.

Section CreatedProvider.

Variable localeCompare : string -> string -> comparison.
Variable getSimilarModels : string -> list string -> list string.
Variable stringSimilarity : string -> string -> Q.
Variable subclass : errorClass -> errorClass -> bool.
Variable messageOf : errorClass -> string -> string.
Variable h : host.
Variable keys : constructorKeys.
Variable loadConfig : Config.
Variable fetchModels : string -> option string -> Listing.modelsReply.
Variable modelBoxModels : result (list string).

(** X11. When [createProvider('gemini')] returns a
    [GoogleGenerativeLanguageProvider], whatever a later call of
    [executePrompt] on it sends goes to one model, and that model is a name
    the service listed, its first 'models/' removed, that contains
    'gemini'. *)
Theorem created_gemini_provider_addresses_listed_models
        (w : world) (prompt : string) (options : option ref) :
  let created := createProvider h keys loadConfig fetchModels modelBoxModels gemini w in
  fst created = Return GoogleGenerativeLanguageProvider ->
  let r := executePrompt localeCompare getSimilarModels stringSimilarity subclass messageOf h
                         GoogleGenerativeLanguageProvider prompt options (snd created) in
  exists new,
    sent (snd r) = (sent w ++ new)%list /\
    (new = [] \/
     exists m apiKey name,
       getAPIKey h = Return apiKey /\
       In name (listedNames (fetchModels (geminiModelsURL apiKey) None)) /\
       m = JS.replace name "models/" EmptyString /\
       Contains "gemini" m /\
       Forall (Addresses m) new).
Proof.
  intros created Hcreated r. unfold r, created.
  rewrite (createProvider_gemini_world h keys loadConfig fetchModels modelBoxModels w Hcreated).
  set (w1 := mkWorld loadConfig
                     (Some (Listing.generativeLanguageInitializeModels h fetchModels))
                     (heap w) (sent w)).
  destruct (executePrompt_requests localeCompare getSimilarModels stringSimilarity
              subclass messageOf h GoogleGenerativeLanguageProvider prompt options w1)
    as [new [Hnew Hto]].
  exists new. split; [exact Hnew |].
  destruct Hto as [-> | [m [Hm Hall]]]; [now left | right].
  simpl thisAvailableModels in Hm.
  pose proof (generativeLanguageInitializeModels_cases h fetchModels) as Hcases.
  destruct (Listing.generativeLanguageInitializeModels h fetchModels) as [models | e].
  - apply getModel_member in Hm.
    destruct Hcases as [_ [apiKey [Hkey Hmem]]].
    apply Hmem in Hm. destruct Hm as [Hgem [name [Hin Hname]]].
    exists m, apiKey, name. auto.
  - destruct (getModel_failed_listing localeCompare getSimilarModels
                GoogleGenerativeLanguageProvider e
                (effectiveOptions GoogleGenerativeLanguageProvider (optionsAt w1 options)))
      as [[e' He'] _].
    congruence.
Qed.

End CreatedProvider.

Lemma created_gemini_provider_addresses_listed_models_witness :
  let created := createProvider (answeringHost "key-123" "hello") noKeys (fun _ => None)
                                sampleListing (Return []) gemini
                                (worldWithout (withModel noModelOptions "gemini-2.0-pro")) in
  let r := executePrompt String.compare (fun _ _ => []) (fun _ _ => 0%Q)
                         sampleSubclass sampleMessageOf (answeringHost "key-123" "hello")
                         GoogleGenerativeLanguageProvider "hello" (Some 0%nat) (snd created) in
  exists new,
    sent (snd r) = new /\
    (new = [] \/
     exists m apiKey name,
       getAPIKey (answeringHost "key-123" "hello") = Return apiKey /\
       In name (listedNames (sampleListing (geminiModelsURL apiKey) None)) /\
       m = JS.replace name "models/" EmptyString /\
       Contains "gemini" m /\
       Forall (Addresses m) new).
Proof.
  exact (created_gemini_provider_addresses_listed_models
           String.compare (fun _ _ => []) (fun _ _ => 0%Q)
           sampleSubclass sampleMessageOf (answeringHost "key-123" "hello")
           noKeys (fun _ => None) sampleListing (Return [])
           (worldWithout (withModel noModelOptions "gemini-2.0-pro")) "hello" (Some 0%nat)
           eq_refl).
Defined.

(** ** truncateForLogging *)

Lemma length_take (n : nat) (s : string) :
  String.length (JS.take n s) = Nat.min n (String.length s).
Proof.
  revert s. induction n as [| n IH]; intros [| c s]; simpl; try reflexivity.
  now rewrite IH.
Qed.

Lemma take_take_append (n : nat) (s t : string) :
  (n <= String.length s)%nat -> JS.take n (JS.take n s ++ t) = JS.take n s.
Proof.
  revert s. induction n as [| n IH]; intros [| c s] Hn; simpl in *; try reflexivity; try lia.
  f_equal. apply IH. lia.
Qed.

(** X12. [truncateForLogging] on a string, for a limit that is not
    negative: a string within the limit is returned as it is; a longer one is
    cut to the limit and marked, so that the result is never more than 15
    characters over the limit; and truncating what was truncated changes
    nothing.  The limit is the argument when given, else the configured one,
    else 500. *)
Theorem truncateForLogging_bounded_and_idempotent
        (config : Config) (p : provider) (obj : string) (maxLength : option Z) :
  let limit := effectiveMaxLength config p maxLength in
  let logged := truncateForLogging config p obj maxLength in
  0 <= limit ->
  (Z.of_nat (String.length obj) <= limit -> logged = obj) /\
  (limit < Z.of_nat (String.length obj) ->
   logged = JS.take (Z.to_nat limit) obj ++ "... (truncated)") /\
  Z.of_nat (String.length logged) <= limit + 15 /\
  truncateForLogging config p logged maxLength = logged /\
  (forall n, maxLength = Some n -> limit = n) /\
  (maxLength = None -> forall c, config (JS.toLowerCase (constructorName p)) = Some c ->
                                 limit = match debugLogMaxLength c with
                                         | Some n => n
                                         | None => 500
                                         end).
Proof.
  intros limit logged Hlimit. unfold logged, truncateForLogging. fold limit.
  assert (Hslice : slicePrefix obj limit = JS.take (Z.to_nat limit) obj).
  { unfold slicePrefix. destruct (Z.ltb_spec limit 0); [lia | reflexivity]. }
  destruct (Z.leb_spec (Z.of_nat (String.length obj)) limit) as [Hshort | Hlong].
  - split; [reflexivity |]. split; [lia |]. split; [lia |].
    split.
    + destruct (Z.leb_spec (Z.of_nat (String.length obj)) limit); [reflexivity | lia].
    + split.
      * intros n ->. reflexivity.
      * intros -> c Hc. unfold limit, effectiveMaxLength. now rewrite Hc.
  - rewrite Hslice.
    assert (Hlen : String.length (JS.take (Z.to_nat limit) obj ++ "... (truncated)")
                   = (Z.to_nat limit + 15)%nat).
    { rewrite length_append, length_take. simpl. lia. }
    split; [lia |]. split; [reflexivity |]. split; [rewrite Hlen; lia |].
    split.
    + rewrite Hlen.
      destruct (Z.leb_spec (Z.of_nat (Z.to_nat limit + 15)) limit) as [Hle | Hgt]; [lia |].
      f_equal. unfold slicePrefix. destruct (Z.ltb_spec limit 0); [lia |].
      apply take_take_append. lia.
    + split.
      * intros n ->. reflexivity.
      * intros -> c Hc. unfold limit, effectiveMaxLength. now rewrite Hc.
Qed.

Lemma truncateForLogging_bounded_and_idempotent_witness :
  truncateForLogging (fun _ => None) OpenAIProvider "You are a helpful assistant." (Some 7)
  = "You are... (truncated)" /\
  truncateForLogging (fun _ => None) OpenAIProvider "You are... (truncated)" (Some 7)
  = "You are... (truncated)".
Proof.
  destruct (truncateForLogging_bounded_and_idempotent
              (fun _ => None) OpenAIProvider "You are a helpful assistant." (Some 7)
              ltac:(simpl; lia)) as [_ [Hcut [_ [Hagain _]]]].
  split; [apply Hcut; simpl; lia | exact Hagain].
Defined.

(** ** The answers of supportsWebSearch *)

Lemma firstn_member {A : Type} (n : nat) (l : list A) (x : A) :
  In x (firstn n l) -> In x l.
Proof.
  revert l. induction n as [| n IH]; intros [| y l]; simpl; try tauto.
  intros [H | H]; [now left | right; now apply IH].
Qed.

Lemma insert_member {A : Type} (cmp : A -> A -> comparison) (x y : A) (l : list A) :
  In y (JS.insert cmp x l) <-> y = x \/ In y l.
Proof.
  induction l as [| z l IH]; simpl.
  - intuition.
  - destruct (cmp x z); simpl; rewrite ?IH; intuition.
Qed.

Lemma sort_member {A : Type} (cmp : A -> A -> comparison) (y : A) (l : list A) :
  In y (JS.sort cmp l) <-> In y l.
Proof.
  induction l as [| x l IH]; simpl; [tauto |].
  rewrite insert_member, IH. intuition.
Qed.

Lemma webSearchModelsOf_In (availableModels : list string) (s : string) :
  In s (webSearchModelsOf availableModels) ->
  In s availableModels /\ namesWebSearch s = true.
Proof.
  unfold webSearchModelsOf. intros H. apply firstn_member in H. now apply filter_In in H.
Qed.

Lemma filter_head {A : Type} (f : A -> bool) (l : list A) (x : A) (rest : list A) :
  filter f l = x :: rest -> In x l /\ f x = true.
Proof.
  intros H. apply filter_In. rewrite H. now left.
Qed.

Section Answers.

Variable getSimilarModels : string -> list string -> list string.
Variable stringSimilarity : string -> string -> Q.

(** X13. The answers of [supportsWebSearch], on every provider.  An answer
    that reports support carries neither a model nor an error; an answer
    that reports none carries an error.  A model that is suggested has a name
    that contains 'sonar', 'online' or 'gemini'; on [ModelBoxProvider] it is
    one of the listed models; on [PerplexityProvider] and
    [GoogleGenerativeLanguageProvider] asking about the suggested model
    reports support. *)
Theorem supportsWebSearch_answers_are_consistent
        (p : provider) (promise : option (result (list string))) (modelName : string) :
  let answer := supportsWebSearch getSimilarModels stringSimilarity p promise modelName in
  (supported answer = true -> suggestion answer = None /\ explanation answer = None) /\
  (supported answer = false -> explanation answer <> None) /\
  (forall s, suggestion answer = Some s ->
             NamesWebSearch s /\
             (p = ModelBoxProvider ->
              exists availableModels,
                promise = Some (Return availableModels) /\ In s availableModels) /\
             (p = PerplexityProvider \/ p = GoogleGenerativeLanguageProvider ->
              supported (supportsWebSearch getSimilarModels stringSimilarity p promise s)
              = true)).
Proof.
  destruct p; simpl.
  - (* Vertex AI *)
    unfold vertexSupportsWebSearch.
    destruct promise as [[availableModels | e] |]; simpl;
      try (split; [discriminate | split; discriminate]).
    destruct (JS.has availableModels (withoutPrefix modelName)); simpl.
    + destruct (isWebSearchSupportedModelOnModelBox (withoutPrefix modelName)); simpl.
      * split; [auto | split; discriminate].
      * split; [discriminate | split; [discriminate |]].
        intros s Hs. apply (nth_error_In (webSearchModelsOf availableModels) 0) in Hs.
        apply webSearchModelsOf_In in Hs.
        split; [now apply namesWebSearch_iff |].
        split; [discriminate | intros [H | H]; discriminate].
    + destruct (filter namesWebSearch
                       (getSimilarModels (withoutPrefix modelName) availableModels))
        as [| first rest] eqn:Hfilter; simpl.
      * split; [discriminate | split; discriminate].
      * split; [discriminate | split; [discriminate |]].
        intros s [= <-]. apply filter_head in Hfilter.
        split; [now apply namesWebSearch_iff |].
        split; [discriminate | intros [H | H]; discriminate].
  - (* Generative Language *)
    unfold generativeLanguageSupportsWebSearch.
    destruct (JS.has _ modelName); simpl.
    + split; [discriminate | split; [discriminate |]].
      intros s [= <-]. split; [| split; [discriminate | reflexivity]].
      right. right. now exists EmptyString, "-2.0-pro-exp".
    + split; [auto | split; discriminate].
  - split; [discriminate | split; discriminate].
  - split; [discriminate | split; discriminate].
  - (* Perplexity *)
    unfold perplexitySupportsWebSearch.
    destruct (JS.startsWith modelName "sonar"); simpl.
    + split; [auto | split; discriminate].
    + split; [discriminate | split; [discriminate |]].
      intros s [= <-]. split; [| split; [discriminate | reflexivity]].
      left. now exists EmptyString, "-pro".
  - (* ModelBox *)
    unfold modelBoxSupportsWebSearch.
    destruct promise as [[availableModels | e] |]; simpl;
      try (split; [discriminate | split; discriminate]).
    destruct (filter (matchesModelBox modelName (withoutPrefix modelName)) availableModels)
      as [| resolvedModel others]; simpl.
    + destruct (filter namesWebSearch
                       (modelBoxSimilar stringSimilarity availableModels
                                        (withoutPrefix modelName)))
        as [| first rest] eqn:Hfilter; simpl.
      * split; [discriminate | split; discriminate].
      * split; [discriminate | split; [discriminate |]].
        intros s [= <-]. apply filter_head in Hfilter. destruct Hfilter as [Hin Hnames].
        split; [now apply namesWebSearch_iff |].
        split; [| intros [H | H]; discriminate].
        intros _. exists availableModels. split; [reflexivity |].
        unfold modelBoxSimilar in Hin. apply sort_member in Hin. now apply filter_In in Hin.
    + destruct (isWebSearchSupportedModelOnModelBox resolvedModel); simpl.
      * split; [auto | split; discriminate].
      * split; [discriminate | split; [discriminate |]].
        intros s Hs. apply (nth_error_In (webSearchModelsOf availableModels) 0) in Hs.
        apply webSearchModelsOf_In in Hs.
        destruct Hs as [Hin Hnames].
        split; [now apply namesWebSearch_iff |].
        split; [| intros [H | H]; discriminate].
        intros _. now exists availableModels.
  - split; [discriminate | split; discriminate].
Qed.

End Answers.

(** ** The chunks of OpenAIProvider *)

Section Chunks.

Variable localeCompare : string -> string -> comparison.
Variable getSimilarModels : string -> list string -> list string.
Variable stringSimilarity : string -> string -> Q.
Variable subclass : errorClass -> errorClass -> bool.
Variable messageOf : errorClass -> string -> string.
Variable h : host.

Lemma openAIChunks_requests (client : bool) (model : string) (maxTokens : Z)
      (systemPrompt : string) (promptChunks : list string) :
  forall (combined : string) (w : world),
    let r := openAIChunks subclass h client model maxTokens systemPrompt promptChunks
                          combined w in
    exists k,
      (k <= List.length promptChunks)%nat /\
      sent (snd r) =
      (sent w ++ map (openAIRequest client model maxTokens systemPrompt)
                     (firstn k promptChunks))%list /\
      (forall v, fst r = Return v -> k = List.length promptChunks) /\
      (forall e, fst r = Throw e -> (0 < k)%nat).
Proof.
  induction promptChunks as [| chunk rest IH]; intros combined w; cbv zeta.
  - exists 0%nat. simpl. rewrite app_nil_r. repeat split; auto; discriminate.
  - cbn [openAIChunks].
    set (step := tryCatch _ _).
    assert (Hstep : exists outcome,
               step w =
               (outcome,
                mkWorld (thisConfig w) (thisAvailableModels w) (heap w)
                        (sent w ++ [openAIRequest client model maxTokens systemPrompt chunk]))).
    { unfold step, tryCatch, bindM, exchange, lift.
      fold (openAIRequest client model maxTokens systemPrompt chunk).
      destruct (chatCompletionsCreate h (sent w)
                  (openAIRequest client model maxTokens systemPrompt chunk))
        as [response | e].
      - destruct (firstChoice response) as [[c |] | e];
          try (eexists; reflexivity).
        unfold rethrowProviderError.
        destruct (instanceOf subclass e ProviderError); eexists; reflexivity.
      - unfold rethrowProviderError.
        destruct (instanceOf subclass e ProviderError); eexists; reflexivity. }
    destruct Hstep as [outcome Hstep].
    match goal with
    | |- context [bindM step ?k w] =>
        change (bindM step k w)
          with (match step w with
                | (Return v, w') => k v w'
                | (Throw e, w') => (Throw e, w')
                end)
    end.
    rewrite Hstep. destruct outcome as [combined' | e]; cbv beta iota.
    + match goal with
      | |- context [openAIChunks _ _ _ _ _ _ rest combined' ?w1] =>
          destruct (IH combined' w1) as [k [Hk [Hsent [Hret Hthrow]]]]
      end.
      exists (S k). split; [simpl; lia |]. split; [| split].
      * rewrite Hsent. simpl. now rewrite <- app_assoc.
      * intros v Hv. simpl. f_equal. now apply (Hret v).
      * intros; lia.
    + exists 1%nat. simpl. split; [lia |]. split; [reflexivity |].
      split; [discriminate | intros; lia].
Qed.

(** X14. [OpenAIProvider.executePrompt] sends one request per chunk of
    [chunkMessage(prompt, 1048576)], in the order of the chunks and never one
    twice: what it has sent when it ends are the requests of the first [k]
    chunks, each with the resolved model, the caller's token limit and the
    system prompt.  When it returns, [k] is the number of chunks and the
    answer is not empty; when nothing was sent, there was no chunk. *)
Theorem openAI_sends_one_request_per_chunk
        (prompt : string) (options : option ref) (w : world) (o : ModelOptions) (m : string) :
  optionsAt w options = Some o ->
  getModel localeCompare getSimilarModels OpenAIProvider (thisAvailableModels w) (Some o)
  = Return m ->
  let r := executePrompt localeCompare getSimilarModels stringSimilarity subclass messageOf h
                         OpenAIProvider prompt options w in
  let promptChunks := chunkMessage h prompt 1048576 in
  exists k,
    (k <= List.length promptChunks)%nat /\
    sent (snd r) =
    (sent w ++ map (openAIRequest (flag (webSearch o)) m (maxTokens o)
                                  (getSystemPrompt (Some o)))
                   (firstn k promptChunks))%list /\
    (forall v, fst r = Return v -> k = List.length promptChunks /\ v <> EmptyString) /\
    (k = 0%nat -> promptChunks = []).
Proof.
  intros Ho Hm r promptChunks.
  destruct (openAIChunks_requests (flag (webSearch o)) m (maxTokens o)
              (getSystemPrompt (Some o)) promptChunks EmptyString w)
    as [k [Hk [Hsent [Hret Hthrow]]]].
  assert (Hrun : r =
                 match openAIChunks subclass h (flag (webSearch o)) m (maxTokens o)
                                    (getSystemPrompt (Some o)) promptChunks EmptyString w with
                 | (Return combined, w1) =>
                     if negb (JS.truthy (JS.trim combined))
                     then (Throw (mkError ProviderError
                                    "OpenAIProvider returned an overall empty response after processing chunks."),
                           w1)
                     else (Return (JS.trim combined), w1)
                 | (Throw e, w1) => (Throw e, w1)
                 end).
  { unfold r. cbn [executePrompt]. unfold openAIExecutePrompt.
    unfold bindM at 1. rewrite getModelOf_eval, Ho, Hm.
    unfold bindM at 1. rewrite derefRequired_eval, Ho.
    unfold bindM at 1. fold promptChunks.
    destruct (openAIChunks subclass h (flag (webSearch o)) m (maxTokens o)
                           (getSystemPrompt (Some o)) promptChunks EmptyString w)
      as [[combined | e] w1]; [| reflexivity].
    destruct (JS.truthy (JS.trim combined)); reflexivity. }
  exists k. split; [exact Hk |].
  destruct (openAIChunks subclass h (flag (webSearch o)) m (maxTokens o)
                         (getSystemPrompt (Some o)) promptChunks EmptyString w)
    as [[combined | e] w1]; simpl in Hsent, Hret, Hthrow.
  - destruct (JS.truthy (JS.trim combined)) eqn:Htruthy; simpl in Hrun; rewrite Hrun; simpl.
    + split; [exact Hsent |]. split.
      * intros v [= <-]. split; [now apply (Hret combined) | now apply truthy_iff].
      * intros ->. specialize (Hret combined eq_refl).
        destruct promptChunks; [reflexivity | discriminate].
    + split; [exact Hsent |]. split; [discriminate |].
      intros ->. specialize (Hret combined eq_refl).
      destruct promptChunks; [reflexivity | discriminate].
  - rewrite Hrun. simpl. split; [exact Hsent |]. split; [discriminate |].
    intros ->. specialize (Hthrow e eq_refl). lia.
Qed.

End Chunks.

Lemma openAI_sends_one_request_per_chunk_witness :
  let o := mkOptions (Some "o3-mini") 4000 None None None None None in
  let r := executePrompt String.compare (fun _ _ => []) (fun _ _ => 0%Q)
                         sampleSubclass sampleMessageOf (chunkingHost "fine")
                         OpenAIProvider "first,second" (Some 0%nat) (worldWithout o) in
  exists k,
    (k <= 2)%nat /\
    sent (snd r) =
    map (openAIRequest false "o3-mini" 4000
                       "You are a helpful assistant. Provide clear and concise responses.")
        (firstn k ["first"; "second"]) /\
    (forall v, fst r = Return v -> k = 2%nat /\ v <> EmptyString) /\
    (k = 0%nat -> ["first"; "second"] = []).
Proof.
  exact (openAI_sends_one_request_per_chunk
           String.compare (fun _ _ => []) (fun _ _ => 0%Q)
           sampleSubclass sampleMessageOf (chunkingHost "fine")
           "first,second" (Some 0%nat)
           (worldWithout (mkOptions (Some "o3-mini") 4000 None None None None None))
           (mkOptions (Some "o3-mini") 4000 None None None None None) "o3-mini"
           eq_refl eq_refl).
Defined.

(** ** Where the keys are checked *)

Section Keys.

Variable localeCompare : string -> string -> comparison.
Variable getSimilarModels : string -> list string -> list string.
Variable stringSimilarity : string -> string -> Q.
Variable subclass : errorClass -> errorClass -> bool.
Variable messageOf : errorClass -> string -> string.
Variable h : host.
Variable keys : constructorKeys.
Variable loadConfig : Config.
Variable fetchModels : string -> option string -> Listing.modelsReply.
Variable modelBoxModels : result (list string).

(** X15. The OpenAI, OpenRouter, ModelBox and Anthropic classes check their
    key when they are constructed: [createProvider] throws
    [ApiKeyMissingError] with the name of the vendor when the variable is
    unset or empty, and returns a provider otherwise.  [PerplexityProvider]
    does not: [createProvider('perplexity')] always returns a provider, and
    without a key every call of [executePrompt] on it throws
    [ApiKeyMissingError('Perplexity')] and sends nothing. *)
Theorem createProvider_checks_keys_except_perplexity (w : world) :
  (forall name key label,
      checkedKey keys name = Some (key, label) ->
      let r := createProvider h keys loadConfig fetchModels modelBoxModels name w in
      (truthyField key = None -> fst r = Throw (mkError ApiKeyMissingError label)) /\
      (truthyField key <> None -> exists p, fst r = Return p)) /\
  (let created := createProvider h keys loadConfig fetchModels modelBoxModels perplexity w in
   fst created = Return PerplexityProvider /\
   (truthyField (PERPLEXITY_API_KEY h) = None ->
    forall prompt options,
      executePrompt localeCompare getSimilarModels stringSimilarity subclass messageOf h
                    PerplexityProvider prompt options (snd created)
      = (Throw (mkError ApiKeyMissingError "Perplexity"), snd created))).
Proof.
  split.
  - intros name key label Hchecked r. unfold r.
    destruct name; simpl in Hchecked; try discriminate;
      injection Hchecked as <- <-;
      unfold createProvider, newProvider, bindM, construct, setConfig, ret, throw; simpl.
    + destruct (truthyField (OPENAI_API_KEY keys)); simpl;
        split; try congruence; intros _; eexists; reflexivity.
    + destruct (truthyField (OPENROUTER_API_KEY keys)); simpl;
        split; try congruence; intros _; eexists; reflexivity.
    + destruct (truthyField (MODELBOX_API_KEY keys)); simpl;
        split; try congruence; intros _; eexists; reflexivity.
    + destruct (truthyField (ANTHROPIC_API_KEY keys)); simpl;
        split; try congruence; intros _; eexists; reflexivity.
  - cbv zeta. split; [reflexivity |].
    intros Hkey prompt options. cbn [executePrompt]. unfold perplexityExecutePrompt.
    now rewrite Hkey.
Qed.

End Keys.

(** ** The system prompt *)

Lemma getSystemPrompt_truthy (o : option ModelOptions) :
  JS.truthy (getSystemPrompt o) = true.
Proof.
  unfold getSystemPrompt. destruct o as [o |]; [| reflexivity].
  destruct (systemPrompt o) as [s |]; [| reflexivity].
  destruct (JS.truthy s) eqn:Hs; [exact Hs | reflexivity].
Qed.

Lemma chatMessages_getSystemPrompt (o : option ModelOptions) (prompt : string) :
  chatMessages (getSystemPrompt o) prompt = [("system", getSystemPrompt o); ("user", prompt)].
Proof. unfold chatMessages. now rewrite getSystemPrompt_truthy. Qed.

Lemma getSystemPrompt_not_empty (o : option ModelOptions) : getSystemPrompt o <> EmptyString.
Proof. apply truthy_iff, getSystemPrompt_truthy. Qed.

Section SystemPrompt.

Variable localeCompare : string -> string -> comparison.
Variable getSimilarModels : string -> list string -> list string.
Variable stringSimilarity : string -> string -> Q.
Variable subclass : errorClass -> errorClass -> bool.
Variable messageOf : errorClass -> string -> string.
Variable h : host.

Lemma carries_chat (p : provider) (client : bool) (m : string) (o : ModelOptions)
      (prompt : string) (maxTokens : Z) (completion : bool)
      (timeoutMs : option RequestOptions) :
  CarriesSystemPrompt
    (ChatRequest p client m (chatMessages (getSystemPrompt (Some o)) prompt) maxTokens
                 completion timeoutMs).
Proof.
  exists (getSystemPrompt (Some o)). split; [apply getSystemPrompt_not_empty |].
  exists prompt. apply chatMessages_getSystemPrompt.
Qed.

Lemma carries_gemini (url : string) (bearer role : option string) (prompt : string)
      (maxTokens : Z) (o : ModelOptions) (tools : bool) :
  CarriesSystemPrompt
    (GeminiRequest url bearer role prompt maxTokens
                   (truthyField (Some (getSystemPrompt (Some o)))) tools).
Proof.
  exists (getSystemPrompt (Some o)). split; [apply getSystemPrompt_not_empty |].
  unfold truthyField. now rewrite getSystemPrompt_truthy.
Qed.

Lemma sends_getModelOf (P : request -> Prop) (p : provider) (options : option ref) :
  Sends P (getModelOf localeCompare getSimilarModels p options).
Proof. unfold getModelOf. sends. Qed.

Lemma carries_openAIChunks (client : bool) (m : string) (maxTokens : Z) (o : ModelOptions)
      (promptChunks : list string) :
  forall combined,
    Sends CarriesSystemPrompt
          (openAIChunks subclass h client m maxTokens (getSystemPrompt (Some o))
                        promptChunks combined).
Proof.
  induction promptChunks as [| chunk rest IH]; intros combined; simpl.
  - apply sends_silent, silent_ret.
  - apply sends_bind; [| intros ?; apply IH].
    apply sends_tryCatch;
      [| intros ?; apply sends_silent, silent_rethrowProviderError].
    apply sends_bind; [apply sends_exchange, carries_chat | intros reply]. sends.
Qed.

Lemma executePrompt_carries_system_prompt (p : provider) (prompt : string)
      (options : option ref) :
  Sends CarriesSystemPrompt
        (executePrompt localeCompare getSimilarModels stringSimilarity subclass messageOf h
                       p prompt options).
Proof.
  destruct p; cbn [executePrompt].
  - unfold vertexExecutePrompt.
    apply sends_bind; [apply sends_getModelOf | intros m].
    apply sends_bind; [apply sends_silent, silent_applyTokenCount | intros options'].
    apply sends_bind; [apply sends_silent, silent_awaitAvailableModels | intros available].
    destruct available as [available |]; [| apply sends_silent, silent_throw].
    destruct (negb (JS.has available m)); [apply sends_silent, silent_throw |].
    apply sends_bind; [apply sends_silent, silent_derefRequired | intros o].
    apply sends_retryWithBackoff. unfold vertexOperation.
    apply sends_tryCatch; [| intros ?; apply sends_silent, silent_rethrowProviderError].
    apply sends_bind; [apply sends_silent, silent_webSearchOf | intros tools].
    apply sends_bind; [apply sends_silent, silent_lift | intros ?].
    apply sends_bind; [apply sends_silent, silent_lift | intros token].
    apply sends_bind; [apply sends_exchange, carries_gemini | intros reply].
    apply sends_silent, silent_readGeminiReply.
  - unfold generativeLanguageExecutePrompt.
    apply sends_bind; [apply sends_silent, silent_applyTokenCount | intros options'].
    apply sends_bind; [apply sends_getModelOf | intros m].
    apply sends_bind; [apply sends_silent, silent_derefRequired | intros o].
    apply sends_retryWithBackoff. unfold generativeLanguageOperation.
    apply sends_tryCatch; [| intros ?; apply sends_silent, silent_rethrowProviderError].
    apply sends_bind; [apply sends_silent, silent_webSearchOf | intros tools].
    apply sends_bind; [apply sends_silent, silent_lift | intros apiKey].
    apply sends_bind; [apply sends_exchange, carries_gemini | intros reply].
    apply sends_silent, silent_readGeminiReply.
  - unfold openAIExecutePrompt.
    apply sends_bind; [apply sends_getModelOf | intros m].
    apply sends_bind; [apply sends_silent, silent_derefRequired | intros o].
    cbv zeta. apply sends_bind; [apply carries_openAIChunks | intros combined].
    destruct (negb _); apply sends_silent; [apply silent_throw | apply silent_ret].
  - unfold openRouterExecutePrompt.
    apply sends_bind; [apply sends_getModelOf | intros m].
    apply sends_bind; [apply sends_silent, silent_derefRequired | intros o].
    cbv zeta. apply sends_tryCatch;
      [| intros ?; apply sends_silent, silent_rethrowProviderOrNetworkError].
    apply sends_bind; [apply sends_exchange, carries_chat | intros reply].
    apply sends_chatReply.
  - unfold perplexityExecutePrompt.
    destruct (truthyField (PERPLEXITY_API_KEY h)) as [apiKey |];
      [| apply sends_silent, silent_throw].
    apply sends_retryWithBackoff. unfold perplexityOperation.
    apply sends_bind; [apply sends_getModelOf | intros m].
    apply sends_bind; [apply sends_silent, silent_derefRequired | intros o].
    cbv zeta. apply sends_tryCatch;
      [| intros ?; apply sends_silent, silent_rethrowProviderOrNetworkError].
    apply sends_bind; [| intros reply; sends].
    apply sends_exchange. exists (getSystemPrompt (Some o)).
    split; [apply getSystemPrompt_not_empty |].
    exists prompt. apply chatMessages_getSystemPrompt.
  - unfold modelBoxExecutePrompt.
    apply sends_bind; [apply sends_getModelOf | intros m].
    apply sends_bind; [apply sends_silent, silent_derefRequired | intros o].
    cbv zeta. apply sends_tryCatch;
      [| intros ?; apply sends_silent, silent_rethrowProviderOrNetworkError].
    apply sends_bind; [apply sends_silent, silent_awaitAvailableModels | intros available].
    assert (Hwith : forall m', Sends CarriesSystemPrompt
                                     (executeWithModel h m' prompt (maxTokens o)
                                        (getSystemPrompt (Some o)) o (flag (webSearch o)))).
    { intros m'. unfold executeWithModel.
      apply sends_bind; [apply sends_exchange, carries_chat | intros reply].
      apply sends_chatReply. }
    destruct available as [available |]; [| apply sends_silent, silent_throw].
    destruct (JS.has available m); [apply Hwith |].
    destruct (truthyField _); [apply Hwith |].
    destruct (filter _ available); [apply sends_silent, silent_throw | apply Hwith].
  - unfold anthropicExecutePrompt.
    apply sends_bind; [apply sends_getModelOf | intros m].
    apply sends_bind; [apply sends_silent, silent_derefRequired | intros o].
    cbv zeta. apply sends_tryCatch; [| intros ?; apply sends_silent, silent_rethrowProviderError].
    apply sends_bind; [| intros reply; sends].
    apply sends_exchange. exists (getSystemPrompt (Some o)).
    split; [apply getSystemPrompt_not_empty | reflexivity].
Qed.

(** X16. Every request that [executePrompt] sends, on every provider,
    carries a system prompt that is not empty: the [system_instruction] of a
    Gemini request, the first of the two messages of a chat request, the
    [system] field of an Anthropic request.  The branches of the code for an
    absent system prompt are never taken. *)
Theorem every_request_carries_a_system_prompt
        (p : provider) (prompt : string) (options : option ref) (w : world) :
  exists new,
    sent (snd (executePrompt localeCompare getSimilarModels stringSimilarity
                             subclass messageOf h p prompt options w))
    = (sent w ++ new)%list /\
    Forall CarriesSystemPrompt new.
Proof. apply executePrompt_carries_system_prompt. Qed.

End SystemPrompt.

(** ** The providers that send one request *)

Section OneRequest.

Variable localeCompare : string -> string -> comparison.
Variable getSimilarModels : string -> list string -> list string.
Variable stringSimilarity : string -> string -> Q.
Variable subclass : errorClass -> errorClass -> bool.
Variable messageOf : errorClass -> string -> string.
Variable h : host.

Lemma chat_exchange_sent (p : provider) (rq : request) (failure : error)
      (handler : error -> M string) (w : world) :
  (forall e, Silent (handler e)) ->
  sent (snd (tryCatch
               (reply <- exchange (chatCompletionsCreate h) rq ;;
                response <- lift reply ;;
                content <- lift (firstChoice response) ;;
                match content with
                | None => throw failure
                | Some c => ret c
                end) handler w))
  = (sent w ++ [rq])%list.
Proof.
  intros Hsilent. unfold tryCatch, bindM, exchange, lift. simpl.
  destruct (chatCompletionsCreate h (sent w) rq) as [response | e]; simpl;
    [| now rewrite Hsilent].
  destruct (firstChoice response) as [[c |] | e]; simpl; try reflexivity;
    now rewrite Hsilent.
Qed.

(** X17. With options and a model that [getModel] resolves,
    [OpenRouterProvider], [AnthropicProvider] and, when its list of models
    was fetched, [ModelBoxProvider] call the [create] method of their client
    exactly once, whatever it answers: for the resolved model, with the
    caller's token limit and the system prompt, and for the two chat
    providers on the web-search client exactly when the caller asked for web
    search, with the options [{ timeout, maxRetries: 3 }] where the timeout
    is the caller's or ten minutes.  The providers themselves never call
    again; how often the client repeats the HTTP request within that one
    call is left to the client, which is allowed three retries.  On
    [ModelBoxProvider] the lookup that [executePrompt] makes itself never
    changes the model. *)
Theorem single_request_providers
        (p : provider) (prompt : string) (options : option ref) (w : world)
        (o : ModelOptions) (m : string) :
  optionsAt w options = Some o ->
  getModel localeCompare getSimilarModels p (thisAvailableModels w) (Some o) = Return m ->
  let r := executePrompt localeCompare getSimilarModels stringSimilarity subclass messageOf h
                         p prompt options w in
  let messages := [("system", getSystemPrompt (Some o)); ("user", prompt)] in
  (p = OpenRouterProvider ->
   sent (snd r) =
   (sent w ++ [ChatRequest OpenRouterProvider (flag (webSearch o)) m messages (maxTokens o)
                           false (Some (mkRequestOptions (timeoutOf o) 3))])%list) /\
  (p = ModelBoxProvider ->
   (exists availableModels, thisAvailableModels w = Some (Return availableModels)) ->
   sent (snd r) =
   (sent w ++ [ChatRequest ModelBoxProvider (flag (webSearch o)) m messages (maxTokens o)
                           false (Some (mkRequestOptions (timeoutOf o) 3))])%list) /\
  (p = AnthropicProvider ->
   sent (snd r) =
   (sent w ++ [AnthropicRequest m (maxTokens o) (getSystemPrompt (Some o)) prompt])%list).
Proof.
  intros Ho Hm r messages.
  assert (Hmessages : chatMessages (getSystemPrompt (Some o)) prompt = messages)
    by apply chatMessages_getSystemPrompt.
  split; [| split].
  - intros ->. unfold r. cbn [executePrompt]. unfold openRouterExecutePrompt.
    unfold bindM at 1. rewrite getModelOf_eval, Ho, Hm.
    unfold bindM at 1. rewrite derefRequired_eval, Ho. cbv zeta.
    rewrite Hmessages. apply (chat_exchange_sent OpenRouterProvider).
    intros e. apply silent_rethrowProviderOrNetworkError.
  - intros -> [availableModels Hlist]. unfold r. cbn [executePrompt].
    unfold modelBoxExecutePrompt.
    unfold bindM at 1. rewrite getModelOf_eval, Ho, Hm.
    unfold bindM at 1. rewrite derefRequired_eval, Ho. cbv zeta.
    assert (Hin : JS.has availableModels m = true).
    { apply has_iff. rewrite Hlist in Hm. now apply getModel_member in Hm. }
    unfold tryCatch at 1. unfold bindM at 1. rewrite awaitAvailableModels_eval, Hlist, Hin.
    unfold executeWithModel. rewrite Hmessages.
    pose proof (chat_exchange_sent ModelBoxProvider
                  (ChatRequest ModelBoxProvider (flag (webSearch o)) m messages (maxTokens o)
                               false (Some (mkRequestOptions (timeoutOf o) 3)))
                  (mkError ProviderError "ModelBoxProvider returned an empty response")
                  (rethrowProviderOrNetworkError subclass
                     "Failed to communicate with ModelBoxProvider API") w
                  (fun e => silent_rethrowProviderOrNetworkError subclass _ _ e)) as Hsent.
    unfold tryCatch in Hsent. exact Hsent.
  - intros ->. unfold r. cbn [executePrompt]. unfold anthropicExecutePrompt.
    unfold bindM at 1. rewrite getModelOf_eval, Ho, Hm.
    unfold bindM at 1. rewrite derefRequired_eval, Ho. cbv zeta.
    unfold tryCatch, bindM, exchange, lift, throw, ret.
    assert (Hcaught : forall e w',
               sent (snd (@rethrowProviderError subclass string
                            "Failed to communicate with Anthropic API" e w')) = sent w').
    { intros e w'. apply (silent_rethrowProviderError subclass). }
    destruct (messagesCreate h (sent w) _) as [response | e]; cbv beta iota.
    + destruct (nth_error response 0) as [content |]; cbv beta iota.
      * destruct (negb _); cbv beta iota; [now rewrite Hcaught | reflexivity].
      * now rewrite Hcaught.
    + now rewrite Hcaught.
Qed.

End OneRequest.

Lemma single_request_providers_witness :
  let o := mkOptions (Some "gpt-4") 4000 None None (Some true) None None in
  let r := executePrompt String.compare (fun _ _ => []) (fun _ _ => 0%Q)
                         sampleSubclass sampleMessageOf (answeringHost "key" "hello")
                         ModelBoxProvider "hi" (Some 0%nat)
                         (worldWith ["anthropic/claude"; "openai/gpt-4"] o) in
  sent (snd r) =
  [ChatRequest ModelBoxProvider true "openai/gpt-4"
               [("system", "You are a helpful assistant. Provide clear and concise responses.");
                ("user", "hi")] 4000 false (Some (mkRequestOptions 600000 3))].
Proof.
  refine (proj1 (proj2 (single_request_providers
           String.compare (fun _ _ => []) (fun _ _ => 0%Q)
           sampleSubclass sampleMessageOf (answeringHost "key" "hello")
           ModelBoxProvider "hi" (Some 0%nat)
           (worldWith ["anthropic/claude"; "openai/gpt-4"]
                      (mkOptions (Some "gpt-4") 4000 None None (Some true) None None))
           (mkOptions (Some "gpt-4") 4000 None None (Some true) None None) "openai/gpt-4"
           eq_refl eq_refl)) eq_refl _).
  now exists ["anthropic/claude"; "openai/gpt-4"].
Defined.

(** * commands/install.ts *)

(** ** Strings *)

Lemma trimEnd_last (pre : string) (l : ascii) :
  JS.isWhiteSpace l = false ->
  JS.trimEnd (pre ++ String l EmptyString) = pre ++ String l EmptyString.
Proof.
  intros Hl. induction pre as [| c pre IH]; simpl.
  - now rewrite Hl.
  - rewrite IH. destruct pre; reflexivity.
Qed.

Lemma trim_unchanged (c l : ascii) (middle : string) :
  JS.isWhiteSpace c = false -> JS.isWhiteSpace l = false ->
  JS.trim (String c (middle ++ String l EmptyString)) = String c (middle ++ String l EmptyString).
Proof.
  intros Hc Hl. unfold JS.trim. simpl JS.trimStart. rewrite Hc.
  apply (trimEnd_last (String c middle) l Hl).
Qed.

Lemma string_last (s : string) :
  s <> EmptyString -> exists pre l, s = pre ++ String l EmptyString.
Proof.
  induction s as [| c s IH]; [congruence | intros _].
  destruct s as [| d s].
  - now exists EmptyString, c.
  - destruct IH as [pre [l Hs]]; [discriminate |]. exists (String c pre), l. simpl.
    now rewrite <- Hs.
Qed.

Lemma chars_append (a b : string) : chars (a ++ b) = (chars a ++ chars b)%list.
Proof. induction a as [| c a IH]; simpl; [reflexivity | now rewrite <- IH]. Qed.

(** ** Escaping *)

Lemma escapeAfter_idempotent (value : string) :
  forall previous,
    Install.escapeAfter previous (Install.escapeAfter previous value)
    = Install.escapeAfter previous value.
Proof.
  induction value as [| c rest IH]; intros previous; [reflexivity |].
  cbn [Install.escapeAfter].
  destruct (Ascii.eqb c Install.doubleQuote) eqn:Hquote.
  - apply Ascii.eqb_eq in Hquote. subst c.
    destruct (match previous with
              | Some p => Ascii.eqb p Install.backslash
              | None => false
              end) eqn:Hescaped; cbn [andb negb].
    + cbn [Install.escapeAfter]. rewrite Ascii.eqb_refl, Hescaped. cbn [andb negb].
      now rewrite IH.
    + cbn [Install.escapeAfter].
      change (Ascii.eqb Install.backslash Install.doubleQuote) with false.
      cbn [andb]. rewrite Ascii.eqb_refl.
      change (Ascii.eqb Install.backslash Install.backslash) with true.
      cbn [andb negb]. now rewrite IH.
  - cbn [andb]. cbn [Install.escapeAfter]. rewrite Hquote. cbn [andb]. now rewrite IH.
Qed.

Lemma escapeAfter_escaped (value : string) :
  forall previous pre post,
    Install.escapeAfter previous value = pre ++ String Install.doubleQuote post ->
    (exists pre', pre = pre' ++ String Install.backslash EmptyString) \/
    (pre = EmptyString /\ previous = Some Install.backslash).
Proof.
  induction value as [| c rest IH]; intros previous pre post.
  - destruct pre; discriminate.
  - cbn [Install.escapeAfter].
    destruct (Ascii.eqb c Install.doubleQuote) eqn:Hquote.
    + apply Ascii.eqb_eq in Hquote. subst c.
      destruct (match previous with
                | Some p => Ascii.eqb p Install.backslash
                | None => false
                end) eqn:Hescaped; cbn [andb negb].
      * destruct pre as [| d pre]; simpl.
        -- intros _. right. split; [reflexivity |].
           destruct previous as [p |]; [| discriminate].
           apply Ascii.eqb_eq in Hescaped. now subst.
        -- intros [= <- Hrest]. apply IH in Hrest.
           destruct Hrest as [[pre' ->] | [-> [=]]].
           left. now exists (String Install.doubleQuote pre').
      * destruct pre as [| d pre]; simpl; [discriminate |].
        intros [= <- Hrest]. destruct pre as [| d' pre]; simpl in Hrest.
        -- left. now exists EmptyString.
        -- injection Hrest as <- Hrest. apply IH in Hrest.
           destruct Hrest as [[pre' ->] | [-> [=]]].
           left. now exists (String Install.backslash (String Install.doubleQuote pre')).
    + cbn [andb]. destruct pre as [| d pre]; simpl.
      * intros [= -> _]. now rewrite Ascii.eqb_refl in Hquote.
      * intros [= <- Hrest]. apply IH in Hrest.
        destruct Hrest as [[pre' ->] | [-> [= ->]]].
        -- left. now exists (String c pre').
        -- left. now exists EmptyString.
Qed.

(** X18. The escaping of [writeKeysToFile] puts a backslash before every
    double quote that has none: in its result every double quote has a
    backslash right before it, and escaping a second time changes nothing,
    so that a value read from a written file is not escaped twice. *)
Theorem escapeQuotes_escapes_once (value : string) :
  QuotesEscaped (Install.escapeQuotes value) /\
  Install.escapeQuotes (Install.escapeQuotes value) = Install.escapeQuotes value.
Proof.
  split.
  - intros pre post H. apply escapeAfter_escaped in H.
    destruct H as [H | [_ [=]]]. exact H.
  - apply escapeAfter_idempotent.
Qed.

(** ** A written line is read back *)

Lemma findEq_plain (name rest : string) :
  forall before i,
    forallb (fun c => negb (JS.isWhiteSpace c) && negb (Ascii.eqb c "=") &&
                      negb (Ascii.eqb c Install.backslash)) (chars name) = true ->
    Nat.even (Install.escapeCount before) = true ->
    Install.findEq before i (name ++ String "=" rest) = Some (i + String.length name)%nat.
Proof.
  induction name as [| c name IH]; intros before i Hplain Heven.
  - simpl. rewrite Heven. simpl. f_equal. lia.
  - simpl in Hplain. apply andb_true_iff in Hplain. destruct Hplain as [Hc Hplain].
    apply andb_true_iff in Hc. destruct Hc as [Hc Hback].
    apply andb_true_iff in Hc. destruct Hc as [_ Heq].
    apply negb_true_iff in Heq, Hback.
    cbn [append Install.findEq]. rewrite Heq. cbn [andb].
    rewrite IH; [f_equal; simpl; lia | exact Hplain |].
    cbn [Install.escapeCount]. now rewrite Hback.
Qed.

Lemma plainName_cases (name : string) :
  plainName name = true ->
  name <> "__proto__" /\
  forallb (fun c => negb (JS.isWhiteSpace c) && negb (Ascii.eqb c "=") &&
                    negb (Ascii.eqb c Install.backslash)) (chars name) = true /\
  exists c middle,
    name = String c middle /\ JS.isWhiteSpace c = false /\ Ascii.eqb c "#" = false.
Proof.
  unfold plainName. rewrite !andb_true_iff, !negb_true_iff.
  intros [[[Htruthy Hproto] Hhash] Hall].
  split; [now apply String.eqb_neq |]. split; [exact Hall |].
  destruct name as [| c middle]; [discriminate |].
  exists c, middle. split; [reflexivity |].
  simpl in Hall. apply andb_true_iff in Hall. destruct Hall as [Hc _].
  rewrite !andb_true_iff, !negb_true_iff in Hc. destruct Hc as [[Hws _] _].
  split; [exact Hws |].
  simpl in Hhash. destruct (Ascii.eqb c "#"); [discriminate | reflexivity].
Qed.

Lemma quoted_value (inner : string) :
  let value := String Install.doubleQuote (inner ++ String Install.doubleQuote EmptyString) in
  JS.trim value = value /\
  Install.quotedWith Install.doubleQuote value = true /\
  Install.slice1 value = inner.
Proof.
  cbv zeta. split; [| split].
  - now apply trim_unchanged.
  - unfold Install.quotedWith. apply andb_true_iff. split.
    + reflexivity.
    + apply endsWith_iff. now exists (String Install.doubleQuote inner).
  - unfold Install.slice1. cbn [JS.drop String.length].
    rewrite length_append. cbn [String.length].
    replace (S (String.length inner + 1) - 2)%nat with (String.length inner) by lia.
    apply take_append.
Qed.

Lemma parseLine_envLine (name value : string) :
  plainName name = true ->
  Install.parseLine (Install.envLine (name, value))
  = Some (name, Install.escapeQuotes value).
Proof.
  intros Hplain. destruct (plainName_cases name Hplain) as [_ [Hall [c [middle [Hname [Hws Hhash]]]]]].
  destruct (quoted_value (Install.escapeQuotes value)) as [Htrim [Hquoted Hslice]].
  set (quoted := String Install.doubleQuote
                        (Install.escapeQuotes value ++ String Install.doubleQuote EmptyString))
    in *.
  assert (Hline : Install.envLine (name, value) = name ++ String "=" quoted) by reflexivity.
  assert (Htrimmed : JS.trim (name ++ String "=" quoted) = name ++ String "=" quoted).
  { destruct (string_last quoted) as [pre [l Hl]]; [discriminate |].
    assert (Hlast : l = Install.doubleQuote).
    { unfold quoted in Hl.
      assert (H : chars (String Install.doubleQuote
                           (Install.escapeQuotes value ++ String Install.doubleQuote EmptyString))
                  = chars (pre ++ String l EmptyString)) by now rewrite Hl.
      change (String Install.doubleQuote
                (Install.escapeQuotes value ++ String Install.doubleQuote EmptyString))
        with (String Install.doubleQuote (Install.escapeQuotes value)
              ++ String Install.doubleQuote EmptyString) in H.
      rewrite !chars_append in H. simpl in H.
      apply (app_inj_tail (Install.doubleQuote :: chars (Install.escapeQuotes value))
                          (chars pre)) in H.
      now destruct H as [_ ->]. }
    subst l. rewrite Hl, Hname. cbn [append].
    replace (middle ++ String "=" (pre ++ String Install.doubleQuote EmptyString))
      with ((middle ++ String "=" pre) ++ String Install.doubleQuote EmptyString)
      by (rewrite append_assoc; reflexivity).
    now apply trim_unchanged. }
  unfold Install.parseLine. rewrite Hline, Htrimmed.
  assert (Hfirst : negb (JS.truthy (name ++ String "=" quoted))
                   || JS.startsWith (name ++ String "=" quoted) "#" = false).
  { rewrite Hname. simpl. now rewrite Hhash. }
  rewrite Hfirst.
  rewrite (findEq_plain name quoted [] 0 Hall eq_refl). cbn [Nat.add].
  rewrite take_append.
  replace (name ++ String "=" quoted) with ((name ++ "=") ++ quoted)
    by (rewrite append_assoc; reflexivity).
  replace (String.length name + 1)%nat with (String.length (name ++ "="))
    by (rewrite length_append; reflexivity).
  rewrite drop_append, Htrim, Hquoted. cbn [orb]. rewrite Hslice.
  assert (Hkey : JS.trim name = name).
  { destruct (string_last name) as [pre [l Hl]]; [rewrite Hname; discriminate |].
    assert (Hlws : JS.isWhiteSpace l = false).
    { rewrite Hl, chars_append, forallb_app in Hall. apply andb_true_iff in Hall.
      destruct Hall as [_ Hall]. simpl in Hall.
      rewrite !andb_true_iff, !negb_true_iff in Hall. tauto. }
    destruct pre as [| p pre].
    - rewrite Hl. cbn [append]. unfold JS.trim. cbn [JS.trimStart]. rewrite Hlws.
      apply (trimEnd_last EmptyString l Hlws).
    - rewrite Hl in Hname. simpl in Hname. injection Hname as -> _.
      rewrite Hl. simpl. now apply trim_unchanged. }
  rewrite Hkey. rewrite Hname at 1. reflexivity.
Qed.

(** ** Records *)

Lemma hasOwn_iff (o : Install.record) (name : string) :
  Install.hasOwn o name = true <-> In name (map fst o).
Proof.
  unfold Install.hasOwn. rewrite existsb_exists, in_map_iff. split.
  - intros [entry [Hin Heq]]. apply String.eqb_eq in Heq. now exists entry.
  - intros [entry [Heq Hin]]. exists entry. split; [exact Hin | now apply String.eqb_eq].
Qed.

Lemma update_names (name value : string) (o : Install.record) :
  map fst (Install.update name value o) = map fst o.
Proof.
  unfold Install.update. rewrite map_map. apply map_ext_in. intros [n v] _. simpl.
  destruct (String.eqb_spec n name); simpl; congruence.
Qed.

Lemma add_In (name value : string) (o : Install.record) (entry : string * string) :
  In entry (Install.add name value o) <-> entry = (name, value) \/ In entry o.
Proof.
  induction o as [| [n v] rest IH]; simpl.
  - intuition.
  - destruct (Install.arrayIndex name) as [i |], (Install.arrayIndex n) as [j |];
      try destruct (i <? j)%N; simpl; rewrite ?IH; intuition.
Qed.

Lemma add_names (name value : string) (o : Install.record) (k : string) :
  In k (map fst (Install.add name value o)) <-> k = name \/ In k (map fst o).
Proof.
  rewrite !in_map_iff. split.
  - intros [entry [Hk Hin]]. apply add_In in Hin. destruct Hin as [-> | Hin].
    + now left.
    + right. now exists entry.
  - intros [-> | [entry [Hk Hin]]].
    + exists (name, value). split; [reflexivity |]. apply add_In. now left.
    + exists entry. split; [exact Hk |]. apply add_In. now right.
Qed.

Lemma add_NoDup (name value : string) (o : Install.record) :
  ~ In name (map fst o) -> NoDup (map fst o) -> NoDup (map fst (Install.add name value o)).
Proof.
  induction o as [| [n v] rest IH]; intros Hnew Hnodup; simpl.
  - constructor; [intros [] | constructor].
  - assert (Hcons : NoDup (name :: n :: map fst rest)) by now constructor.
    assert (Hrest : NoDup (n :: map fst (Install.add name value rest))).
    { simpl in Hnew, Hnodup. inversion Hnodup as [| ? ? Hn Hnd]; subst.
      constructor.
      - rewrite add_names. intros [-> | Hin]; [apply Hnew; now left | now apply Hn].
      - apply IH; [intros Hin; apply Hnew; now right | exact Hnd]. }
    destruct (Install.arrayIndex name) as [i |], (Install.arrayIndex n) as [j |];
      try destruct (i <? j)%N; simpl; assumption.
Qed.

Lemma listedBefore_index (a b : string) (i j : N) :
  Install.arrayIndex a = Some i -> Install.arrayIndex b = Some j ->
  listedBefore a b <-> (i <= j)%N.
Proof. unfold listedBefore. now intros -> ->. Qed.

Lemma add_sorted (name value : string) (o : Install.record) :
  StronglySorted (fun x y => listedBefore (fst x) (fst y)) o ->
  StronglySorted (fun x y => listedBefore (fst x) (fst y)) (Install.add name value o).
Proof.
  induction o as [| [n v] rest IH]; intros Hsorted; simpl.
  - repeat constructor.
  - inversion Hsorted as [| ? ? Hrest Hall]; subst.
    assert (Hlater : forall x, In x rest -> listedBefore n (fst x))
      by (intros x Hx; rewrite Forall_forall in Hall; now apply (Hall x)).
    destruct (Install.arrayIndex name) as [i |] eqn:Hi;
      destruct (Install.arrayIndex n) as [j |] eqn:Hj.
    + destruct (N.ltb_spec i j) as [Hlt | Hge].
      * constructor; [exact Hsorted |]. constructor.
        -- simpl. unfold listedBefore. rewrite Hi, Hj. lia.
        -- apply Forall_forall. intros x Hx. specialize (Hlater x Hx).
           simpl. unfold listedBefore in *. rewrite Hi. rewrite Hj in Hlater.
           destruct (Install.arrayIndex (fst x)); [lia | exact I].
      * constructor; [now apply IH |]. apply Forall_forall. intros x Hx.
        apply add_In in Hx. destruct Hx as [-> | Hx]; [| now apply Hlater].
        simpl. unfold listedBefore. rewrite Hi, Hj. lia.
    + constructor; [exact Hsorted |]. constructor.
      * simpl. unfold listedBefore. now rewrite Hi, Hj.
      * apply Forall_forall. intros x Hx. specialize (Hlater x Hx).
        simpl. unfold listedBefore in *. rewrite Hi. rewrite Hj in Hlater.
        destruct (Install.arrayIndex (fst x)); [contradiction | exact I].
    + constructor; [now apply IH |]. apply Forall_forall. intros x Hx.
      apply add_In in Hx. destruct Hx as [-> | Hx]; [| now apply Hlater].
      simpl. unfold listedBefore. now rewrite Hi, Hj.
    + constructor; [now apply IH |]. apply Forall_forall. intros x Hx.
      apply add_In in Hx. destruct Hx as [-> | Hx]; [| now apply Hlater].
      simpl. unfold listedBefore. now rewrite Hi, Hj.
Qed.

Lemma update_sorted (name value : string) (o : Install.record) :
  StronglySorted (fun x y => listedBefore (fst x) (fst y)) o ->
  StronglySorted (fun x y => listedBefore (fst x) (fst y)) (Install.update name value o).
Proof.
  intros Hsorted. induction Hsorted as [| [n v] rest Hrest IH Hall]; simpl.
  - constructor.
  - assert (Hfst : fst (if String.eqb n name then (name, value) else (n, v)) = n)
      by (destruct (String.eqb_spec n name); simpl; congruence).
    constructor; [exact IH |].
    apply Forall_forall. intros x Hx. rewrite Hfst.
    unfold Install.update in Hx. apply in_map_iff in Hx. destruct Hx as [[n' v'] [Hx Hin]].
    rewrite Forall_forall in Hall. specialize (Hall (n', v') Hin). simpl in Hall, Hx.
    destruct (String.eqb_spec n' name); subst x; simpl; congruence.
Qed.

Lemma define_enumerated (o : Install.record) (entry : string * string) :
  Enumerated o -> Enumerated (Install.define o entry).
Proof.
  intros [Hsorted Hnodup]. destruct entry as [name value]. unfold Install.define.
  destruct (Install.hasOwn o name) eqn:Hown.
  - split; [now apply update_sorted | now rewrite update_names].
  - split; [now apply add_sorted |]. apply add_NoDup; [| exact Hnodup].
    intros Hin. apply hasOwn_iff in Hin. congruence.
Qed.

Lemma fold_define_enumerated (entries : list (string * string)) (o : Install.record) :
  Enumerated o -> Enumerated (fold_left Install.define entries o).
Proof.
  revert o. induction entries as [| entry entries IH]; intros o Ho; simpl;
    [exact Ho | now apply IH, define_enumerated].
Qed.

Lemma enumerated_nil : Enumerated [].
Proof. split; constructor. Qed.

Lemma add_last (name value : string) (o : Install.record) :
  (forall x, In x o -> listedBefore (fst x) name) ->
  Install.add name value o = (o ++ [(name, value)])%list.
Proof.
  induction o as [| [n v] rest IH]; intros Hbefore; simpl; [reflexivity |].
  assert (Hn : listedBefore n name) by (apply (Hbefore (n, v)); now left).
  assert (Hrest : Install.add name value rest = (rest ++ [(name, value)])%list)
    by (apply IH; intros x Hx; apply Hbefore; now right).
  unfold listedBefore in Hn.
  destruct (Install.arrayIndex name) as [i |], (Install.arrayIndex n) as [j |];
    try contradiction; try (now rewrite Hrest).
  destruct (N.ltb_spec i j); [lia | now rewrite Hrest].
Qed.

(** Building an object from its own enumeration gives it back. *)
Lemma fold_define_enumeration (rest : Install.record) :
  forall done,
    Enumerated (done ++ rest)%list ->
    fold_left Install.define rest done = (done ++ rest)%list.
Proof.
  induction rest as [| [name value] rest IH]; intros done Hall; simpl.
  - now rewrite app_nil_r.
  - destruct Hall as [Hsorted Hnodup].
    assert (Hown : Install.hasOwn done name = false).
    { destruct (Install.hasOwn done name) eqn:Hown; [| reflexivity].
      apply hasOwn_iff in Hown. rewrite map_app in Hnodup. simpl in Hnodup.
      apply NoDup_remove_2 in Hnodup. exfalso. apply Hnodup. apply in_or_app. now left. }
    rewrite Hown.
    assert (Hbefore : forall x, In x done -> listedBefore (fst x) name).
    { intros x Hx. clear - Hsorted Hx. induction done as [| d done IHd]; [contradiction |].
      simpl in Hsorted. inversion Hsorted as [| ? ? Hs Hf]; subst.
      destruct Hx as [-> | Hx]; [| now apply IHd].
      rewrite Forall_forall in Hf. apply (Hf (name, value)). apply in_or_app. right. now left. }
    rewrite (add_last name value done Hbefore).
    rewrite IH; rewrite <- app_assoc; [reflexivity |]. now split.
Qed.

Lemma fold_define_self (o : Install.record) :
  Enumerated o -> fold_left Install.define o [] = o.
Proof. intros Ho. now apply (fold_define_enumeration o []). Qed.

(** ** Lines *)

Lemma splitAcc_piece (sep : ascii) (piece : string) :
  forall acc rest,
    forallb (fun c => negb (Ascii.eqb c sep)) (chars piece) = true ->
    JS.splitAcc sep acc (piece ++ String sep rest)
    = (acc ++ piece) :: JS.splitAcc sep EmptyString rest.
Proof.
  induction piece as [| c piece IH]; intros acc rest Hpiece.
  - simpl. now rewrite Ascii.eqb_refl, append_empty_r.
  - simpl in Hpiece. apply andb_true_iff in Hpiece. destruct Hpiece as [Hc Hpiece].
    apply negb_true_iff in Hc. cbn [append JS.splitAcc]. rewrite Hc.
    rewrite IH by exact Hpiece. now rewrite append_assoc.
Qed.

Lemma split_lines (lines : list string) :
  lines <> [] ->
  Forall (fun line => oneLine line = true) lines ->
  JS.split (JS.join (String Install.lineFeed EmptyString) lines
            ++ String Install.lineFeed EmptyString) Install.lineFeed
  = (lines ++ [EmptyString])%list.
Proof.
  unfold JS.split, JS.join.
  induction lines as [| line lines IH]; [congruence | intros _ Hlines].
  inversion Hlines as [| ? ? Hline Hrest]; subst.
  destruct lines as [| next lines].
  - cbn [String.concat]. rewrite splitAcc_piece by exact Hline. reflexivity.
  - change (String.concat (String Install.lineFeed EmptyString) (line :: next :: lines))
      with (line ++ String Install.lineFeed EmptyString
            ++ String.concat (String Install.lineFeed EmptyString) (next :: lines)).
    rewrite !append_assoc.
    change (String Install.lineFeed EmptyString
            ++ String.concat (String Install.lineFeed EmptyString) (next :: lines)
            ++ String Install.lineFeed EmptyString)
      with (String Install.lineFeed
              (String.concat (String Install.lineFeed EmptyString) (next :: lines)
               ++ String Install.lineFeed EmptyString)).
    rewrite splitAcc_piece by exact Hline.
    rewrite IH; [reflexivity | discriminate | exact Hrest].
Qed.

Lemma escapeAfter_chars (value : string) :
  forall previous c,
    In c (chars (Install.escapeAfter previous value)) ->
    c = Install.backslash \/ In c (chars value).
Proof.
  induction value as [| d rest IH]; intros previous c; [intros [] |].
  cbn [Install.escapeAfter].
  destruct (Ascii.eqb d Install.doubleQuote && _) eqn:Hquote.
  - apply andb_true_iff in Hquote. destruct Hquote as [Hquote _].
    apply Ascii.eqb_eq in Hquote. subst d.
    simpl. intros [<- | [<- | Hin]]; [now left | right; now left |].
    apply IH in Hin. destruct Hin; [now left | right; now right].
  - simpl. intros [<- | Hin]; [right; now left |].
    apply IH in Hin. destruct Hin; [now left | right; now right].
Qed.

Lemma envLine_oneLine (entry : string * string) :
  plainEntry entry = true -> oneLine (Install.envLine entry) = true.
Proof.
  destruct entry as [name value]. unfold plainEntry. simpl fst. simpl snd.
  intros Hplain. apply andb_true_iff in Hplain. destruct Hplain as [Hname Hvalue].
  destruct (plainName_cases name Hname) as [_ [Hall _]].
  unfold oneLine in *. rewrite forallb_forall in *.
  intros c Hc. apply negb_true_iff. destruct (Ascii.eqb_spec c Install.lineFeed) as [-> |];
    [exfalso | reflexivity].
  unfold Install.envLine in Hc.
  change (name ++ "=" ++ String Install.doubleQuote
                 (Install.escapeQuotes value ++ String Install.doubleQuote EmptyString))
    with (name ++ (String "=" (String Install.doubleQuote EmptyString)
                   ++ (Install.escapeQuotes value ++ String Install.doubleQuote EmptyString)))
    in Hc.
  rewrite !chars_append in Hc. rewrite !in_app_iff in Hc.
  destruct Hc as [Hc | [Hc | [Hc | Hc]]].
  - specialize (Hall _ Hc). now vm_compute in Hall.
  - simpl in Hc. destruct Hc as [Hc | [Hc | []]]; now vm_compute in Hc.
  - apply escapeAfter_chars in Hc. destruct Hc as [Hc | Hc]; [now vm_compute in Hc |].
    specialize (Hvalue _ Hc). now vm_compute in Hvalue.
  - simpl in Hc. destruct Hc as [Hc | []]. now vm_compute in Hc.
Qed.

(** ** Reading what was written *)

Lemma parse_lines (entries : Install.record) :
  Forall (fun entry => plainEntry entry = true) entries ->
  forall o,
    fold_left
      (fun existingEnvVars line =>
         match Install.parseLine line with
         | Some (key, value) => Install.assign existingEnvVars key value
         | None => existingEnvVars
         end)
      (map Install.envLine entries) o
    = fold_left Install.define (escapedValues entries) o.
Proof.
  induction entries as [| [name value] entries IH]; intros Hplain o; [reflexivity |].
  inversion Hplain as [| ? ? Hentry Hrest]; subst.
  unfold plainEntry in Hentry. apply andb_true_iff in Hentry. destruct Hentry as [Hname _].
  simpl fst in Hname. cbn [map fold_left escapedValues].
  rewrite (parseLine_envLine name value Hname).
  destruct (plainName_cases name Hname) as [Hproto _].
  unfold Install.assign. apply String.eqb_neq in Hproto. rewrite Hproto.
  apply (IH Hrest).
Qed.

Lemma escapedValues_enumerated (o : Install.record) :
  Enumerated o -> Enumerated (escapedValues o).
Proof.
  intros [Hsorted Hnodup]. split.
  - clear Hnodup. induction Hsorted as [| entry rest Hrest IH Hall]; simpl; constructor.
    + exact IH.
    + apply Forall_forall. intros x Hx. unfold escapedValues in Hx.
      apply in_map_iff in Hx. destruct Hx as [y [<- Hy]]. simpl.
      rewrite Forall_forall in Hall. now apply Hall.
  - unfold escapedValues. rewrite map_map. simpl. exact Hnodup.
Qed.

Lemma parseEnv_written (o : Install.record) :
  Enumerated o ->
  Forall (fun entry => plainEntry entry = true) o ->
  Install.parseEnv
    (JS.join (String Install.lineFeed EmptyString) (map Install.envLine o)
     ++ String Install.lineFeed EmptyString)
  = escapedValues o.
Proof.
  intros Ho Hplain. destruct o as [| entry o]; [reflexivity |].
  unfold Install.parseEnv. rewrite split_lines.
  - rewrite fold_left_app. rewrite (parse_lines _ Hplain).
    rewrite (fold_define_self _ (escapedValues_enumerated _ Ho)). reflexivity.
  - discriminate.
  - apply Forall_forall. intros line Hline. apply in_map_iff in Hline.
    destruct Hline as [e [<- He]]. apply envLine_oneLine.
    rewrite Forall_forall in Hplain. now apply Hplain.
Qed.

(** ** Writing twice *)

Lemma define_own (o : Install.record) (name value : string) :
  In (name, value) (Install.define o (name, value)).
Proof.
  unfold Install.define. destruct (Install.hasOwn o name) eqn:Hown.
  - unfold Install.hasOwn in Hown. apply existsb_exists in Hown.
    destruct Hown as [entry [Hin Heq]]. unfold Install.update. apply in_map_iff.
    exists entry. now rewrite Heq.
  - apply add_In. now left.
Qed.

Lemma define_other (o : Install.record) (entry : string * string) (name value : string) :
  In entry o -> fst entry <> name -> In entry (Install.define o (name, value)).
Proof.
  intros Hin Hother. unfold Install.define. destruct (Install.hasOwn o name).
  - unfold Install.update. apply in_map_iff. exists entry. split; [| exact Hin].
    apply String.eqb_neq in Hother. now rewrite Hother.
  - apply add_In. now right.
Qed.

Lemma fold_define_keeps (entries : list (string * string)) :
  forall o entry,
    In entry o -> ~ In (fst entry) (map fst entries) ->
    In entry (fold_left Install.define entries o).
Proof.
  induction entries as [| [name value] entries IH]; intros o entry Hin Hnew; [exact Hin |].
  simpl. apply IH.
  - apply define_other; [exact Hin |]. intros Heq. apply Hnew. now left.
  - intros H. apply Hnew. now right.
Qed.

Lemma fold_define_holds (entries : list (string * string)) :
  NoDup (map fst entries) ->
  forall o entry, In entry entries -> In entry (fold_left Install.define entries o).
Proof.
  induction entries as [| [name value] entries IH]; intros Hnodup o entry Hin;
    [contradiction |].
  simpl in Hnodup. inversion Hnodup as [| ? ? Hnew Hrest]; subst.
  simpl. destruct Hin as [<- | Hin].
  - apply fold_define_keeps; [apply define_own | exact Hnew].
  - now apply IH.
Qed.

Lemma enumerated_value (o : Install.record) (name v v' : string) :
  NoDup (map fst o) -> In (name, v) o -> In (name, v') o -> v = v'.
Proof.
  induction o as [| [n w] o IH]; intros Hnodup H1 H2; [contradiction |].
  simpl in Hnodup. inversion Hnodup as [| ? ? Hnew Hrest]; subst.
  assert (Hfresh : forall x, In (n, x) o -> False).
  { intros x Hx. apply Hnew. apply in_map_iff. now exists (n, x). }
  destruct H1 as [H1 | H1], H2 as [H2 | H2].
  - congruence.
  - injection H1 as -> ->. exfalso. eauto.
  - injection H2 as -> ->. exfalso. eauto.
  - now apply IH.
Qed.

Lemma sameLines_names (x m : Install.record) : SameLines x m -> map fst x = map fst m.
Proof.
  intros H. induction H as [| a b x m [Hfst _] _ IH]; simpl; [reflexivity | congruence].
Qed.

Lemma sameLines_update (name value : string) (x m : Install.record) :
  (forall v, In (name, v) m -> v = value) ->
  SameLines x m -> SameLines (Install.update name value x) m.
Proof.
  intros Hvalue H. induction H as [| [n v] [n' v'] x m [Hfst Hsnd] Hrest IH]; simpl.
  - constructor.
  - simpl in Hfst. subst n'. constructor.
    + destruct (String.eqb_spec n name) as [-> | Hother]; simpl.
      * split; [reflexivity |]. left. symmetry. apply Hvalue. now left.
      * now split.
    + apply IH. intros w Hw. apply Hvalue. now right.
Qed.

Lemma sameLines_define (x m : Install.record) (name value : string) :
  NoDup (map fst m) -> In (name, value) m ->
  SameLines x m -> SameLines (Install.define x (name, value)) m.
Proof.
  intros Hnodup Hin Hsame. unfold Install.define.
  assert (Hown : Install.hasOwn x name = true).
  { apply hasOwn_iff. rewrite (sameLines_names _ _ Hsame). apply in_map_iff.
    now exists (name, value). }
  rewrite Hown. apply sameLines_update; [| exact Hsame].
  intros v Hv. exact (enumerated_value m name v value Hnodup Hv Hin).
Qed.

Lemma sameLines_fold (entries : list (string * string)) (m : Install.record) :
  NoDup (map fst m) ->
  (forall entry, In entry entries -> In entry m) ->
  forall x, SameLines x m -> SameLines (fold_left Install.define entries x) m.
Proof.
  intros Hnodup. induction entries as [| [name value] entries IH]; intros Hin x Hsame;
    [exact Hsame |].
  simpl. apply IH.
  - intros entry Hentry. apply Hin. now right.
  - apply sameLines_define; [exact Hnodup | apply Hin; now left | exact Hsame].
Qed.

Lemma sameLines_envLine (x m : Install.record) :
  SameLines x m -> map Install.envLine x = map Install.envLine m.
Proof.
  intros H. induction H as [| [n v] [n' v'] x m [Hfst Hsnd] _ IH]; simpl; [reflexivity |].
  simpl in Hfst, Hsnd. subst n'. f_equal; [| exact IH].
  destruct Hsnd as [-> | ->]; [reflexivity |].
  unfold Install.escapeQuotes. now rewrite escapeAfter_idempotent.
Qed.

Lemma sameLines_escaped (m : Install.record) : SameLines (escapedValues m) m.
Proof.
  induction m as [| entry m IH]; simpl; constructor; [| exact IH].
  simpl. split; [reflexivity | now right].
Qed.

Lemma mergedKeys_enumerated (existingEnvVars : Install.record) (keys : list (string * string)) :
  Enumerated (Install.mergedKeys existingEnvVars keys).
Proof.
  unfold Install.mergedKeys, Install.spread.
  apply fold_define_enumerated, fold_define_enumerated, enumerated_nil.
Qed.

Lemma mergedKeys_escaped (existingEnvVars : Install.record) (keys : list (string * string)) :
  let merged := Install.mergedKeys existingEnvVars keys in
  SameLines (Install.mergedKeys (escapedValues merged) keys) merged.
Proof.
  cbv zeta. set (merged := Install.mergedKeys existingEnvVars keys).
  destruct (mergedKeys_enumerated existingEnvVars keys) as [Hsorted Hnodup].
  fold merged in Hsorted, Hnodup.
  unfold Install.mergedKeys at 1. unfold Install.spread.
  rewrite (fold_define_self (escapedValues merged))
    by (apply escapedValues_enumerated; now split).
  apply sameLines_fold; [exact Hnodup | | apply sameLines_escaped].
  intros entry Hentry. unfold merged, Install.mergedKeys, Install.spread.
  apply fold_define_holds; [| exact Hentry].
  apply (fold_define_enumerated _ [] enumerated_nil).
Qed.

(** X19. Writing the keys a second time leaves the environment file as the
    first time left it, whatever the file held before, when the names that
    end up in the file are plain (not empty, not '__proto__', not starting
    with '#', without white space, '=' or backslash) and no value holds a
    line feed.  What is then read from the file are the merged variables
    with their values escaped. *)
Theorem writeKeysToFile_twice_is_once
        (keys : list (string * string)) (file : Install.fileState) :
  let merged := Install.mergedKeys (Install.readExisting file) keys in
  Forall (fun entry => plainEntry entry = true) merged ->
  let first := Install.writeKeysToFile keys None file in
  let second := Install.writeKeysToFile keys None (snd first) in
  fst first = Return tt /\
  Install.readExisting (snd first) = escapedValues merged /\
  fst second = Return tt /\
  snd second = snd first.
Proof.
  intros merged Hplain first second.
  assert (Hread : Install.readExisting (snd first) = escapedValues merged).
  { unfold first, Install.writeKeysToFile. cbn [snd Install.readExisting].
    unfold Install.envContent. fold merged.
    apply parseEnv_written; [apply mergedKeys_enumerated | exact Hplain]. }
  split; [reflexivity |]. split; [exact Hread |]. split; [reflexivity |].
  unfold second, Install.writeKeysToFile. cbn [snd]. fold first. rewrite Hread.
  unfold first, Install.writeKeysToFile. cbn [snd]. f_equal.
  unfold Install.envContent. fold merged. f_equal. f_equal.
  apply sameLines_envLine. apply (mergedKeys_escaped (Install.readExisting file) keys).
Qed.

Lemma writeKeysToFile_twice_is_once_witness :
  let first := Install.writeKeysToFile sampleKeys None sampleEnvFile in
  let second := Install.writeKeysToFile sampleKeys None (snd first) in
  fst first = Return tt /\
  Install.readExisting (snd first)
  = [("OLD", "x y"); ("GEMINI_API_KEY", "abc"); ("PERPLEXITY_API_KEY", "pplx-1");
     ("OPENAI_API_KEY",
      "sk" ++ String Install.backslash (String Install.doubleQuote "1"))] /\
  fst second = Return tt /\
  snd second = snd first.
Proof.
  apply (writeKeysToFile_twice_is_once sampleKeys sampleEnvFile).
  vm_compute. repeat constructor.
Defined.

(** ** A name that ends with a backslash *)

Lemma envLine_trimmed (c : ascii) (middle value : string) :
  JS.isWhiteSpace c = false ->
  JS.trim (Install.envLine (String c middle, value))
  = Install.envLine (String c middle, value).
Proof.
  intros Hc. unfold Install.envLine.
  change (String c middle ++ "=" ++
          String Install.doubleQuote
            (Install.escapeQuotes value ++ String Install.doubleQuote EmptyString))
    with (String c (middle ++ (String "=" (String Install.doubleQuote
                                             (Install.escapeQuotes value)))
                           ++ String Install.doubleQuote EmptyString)).
  rewrite <- append_assoc. now apply trim_unchanged.
Qed.

Lemma findEq_none (rest : string) :
  forall before i,
    forallb (fun c => negb (Ascii.eqb c "=")) (chars rest) = true ->
    Install.findEq before i rest = None.
Proof.
  induction rest as [| c rest IH]; intros before i Hrest; [reflexivity |].
  simpl in Hrest. apply andb_true_iff in Hrest. destruct Hrest as [Hc Hrest].
  apply negb_true_iff in Hc. cbn [Install.findEq]. rewrite Hc. cbn [andb].
  now apply IH.
Qed.

Lemma findEq_escaped (stem rest : string) :
  forall before i,
    forallb (fun c => negb (JS.isWhiteSpace c) && negb (Ascii.eqb c "=") &&
                      negb (Ascii.eqb c Install.backslash)) (chars stem) = true ->
    Nat.even (Install.escapeCount before) = true ->
    forallb (fun c => negb (Ascii.eqb c "=")) (chars rest) = true ->
    Install.findEq before i (stem ++ String Install.backslash (String "=" rest)) = None.
Proof.
  induction stem as [| c stem IH]; intros before i Hplain Heven Hrest.
  - cbn [append Install.findEq].
    change (Ascii.eqb Install.backslash "=") with false. cbn [andb].
    rewrite Ascii.eqb_refl. cbn [Install.escapeCount].
    change (Ascii.eqb Install.backslash Install.backslash) with true. cbv iota.
    rewrite Nat.even_succ, <- Nat.negb_even, Heven. cbn [negb andb].
    now apply findEq_none.
  - simpl in Hplain. apply andb_true_iff in Hplain. destruct Hplain as [Hc Hplain].
    apply andb_true_iff in Hc. destruct Hc as [Hc Hback].
    apply andb_true_iff in Hc. destruct Hc as [_ Heq].
    apply negb_true_iff in Heq, Hback.
    cbn [append Install.findEq]. rewrite Heq. cbn [andb].
    apply IH; [exact Hplain | | exact Hrest].
    cbn [Install.escapeCount]. now rewrite Hback.
Qed.

(** X20. A variable whose name is a plain name followed by one backslash
    is written by [writeKeysToFile] on a line that it does not read again
    when the value holds no '=': the backslash escapes the '=' of the line.
    Such a variable, once read from a file, is lost at the second write. *)
Theorem name_ending_with_backslash_is_not_read_back (stem value : string) :
  plainName stem = true ->
  forallb (fun c => negb (Ascii.eqb c "=")) (chars value) = true ->
  Install.parseLine
    (Install.envLine (stem ++ String Install.backslash EmptyString, value)) = None.
Proof.
  intros Hstem Hvalue.
  destruct (plainName_cases stem Hstem) as [_ [Hall [c [middle [Hname [Hws Hhash]]]]]].
  unfold Install.parseLine.
  assert (Htrim : JS.trim (Install.envLine (stem ++ String Install.backslash EmptyString, value))
                  = Install.envLine (stem ++ String Install.backslash EmptyString, value)).
  { rewrite Hname. cbn [append]. now apply envLine_trimmed. }
  rewrite Htrim.
  assert (Hline : Install.envLine (stem ++ String Install.backslash EmptyString, value)
                  = stem ++ String Install.backslash
                      (String "=" (String Install.doubleQuote
                                     (Install.escapeQuotes value
                                      ++ String Install.doubleQuote EmptyString)))).
  { unfold Install.envLine. now rewrite append_assoc. }
  rewrite Hline.
  assert (Hfirst : negb (JS.truthy (stem ++ String Install.backslash
                      (String "=" (String Install.doubleQuote
                                     (Install.escapeQuotes value
                                      ++ String Install.doubleQuote EmptyString)))))
                   || JS.startsWith (stem ++ String Install.backslash
                      (String "=" (String Install.doubleQuote
                                     (Install.escapeQuotes value
                                      ++ String Install.doubleQuote EmptyString)))) "#"
                   = false).
  { rewrite Hname. simpl. now rewrite Hhash. }
  rewrite Hfirst.
  rewrite findEq_escaped; [reflexivity | exact Hall | reflexivity |].
  apply forallb_forall. intros x Hx. apply negb_true_iff.
  destruct (Ascii.eqb_spec x "=") as [-> |]; [exfalso | reflexivity].
  change (String Install.doubleQuote
            (Install.escapeQuotes value ++ String Install.doubleQuote EmptyString))
    with (String Install.doubleQuote EmptyString
          ++ (Install.escapeQuotes value ++ String Install.doubleQuote EmptyString)) in Hx.
  rewrite !chars_append, !in_app_iff in Hx.
  destruct Hx as [Hx | [Hx | Hx]].
  - simpl in Hx. destruct Hx as [Hx | []]. now vm_compute in Hx.
  - apply escapeAfter_chars in Hx. destruct Hx as [Hx | Hx]; [now vm_compute in Hx |].
    rewrite forallb_forall in Hvalue. specialize (Hvalue _ Hx). now vm_compute in Hvalue.
  - simpl in Hx. destruct Hx as [Hx | []]. now vm_compute in Hx.
Qed.

Lemma name_ending_with_backslash_is_not_read_back_witness :
  let file := Install.Content
                ("A" ++ String Install.backslash (" =v" ++ String Install.lineFeed EmptyString)) in
  let first := snd (Install.writeKeysToFile [] None file) in
  let second := snd (Install.writeKeysToFile [] None first) in
  Install.readExisting file = [("A" ++ String Install.backslash EmptyString, "v")] /\
  Install.parseLine
    (Install.envLine ("A" ++ String Install.backslash EmptyString, "v")) = None /\
  Install.readExisting first = [] /\
  second = Install.Content (String Install.lineFeed EmptyString).
Proof.
  split; [reflexivity |]. split; [| split; reflexivity].
  apply (name_ending_with_backslash_is_not_read_back "A" "v"); reflexivity.
Defined.

(** ** askForCursorRulesDirectory *)

Lemma says_iff (value : option string) (word : string) :
  NoCapital word ->
  Rules.says value word = true <-> exists v, value = Some v /\ SaysIgnoringCase v word.
Proof.
  intros Hword. unfold Rules.says. destruct value as [v |].
  - rewrite String.eqb_eq, (toLowerCase_says word Hword). split.
    + intros H. now exists v.
    + intros [v' [[= <-] H]]. exact H.
  - split; [discriminate | intros [v [H _]]; discriminate].
Qed.

Lemma setAndNotBlank_iff (value : string) :
  Rules.setAndNotBlank (Some value) = false <-> Blank value.
Proof.
  unfold Rules.setAndNotBlank. rewrite andb_false_iff, negb_false_iff, String.eqb_eq.
  rewrite <- trim_blank. split.
  - intros [H | H]; [| exact H].
    unfold JS.truthy in H. apply negb_false_iff, String.eqb_eq in H. now subst.
  - now right.
Qed.

Lemma blank_says_nothing (value word : string) (c : ascii) :
  NoCapital (String c word) -> ~ WhiteSpace c -> Blank value ->
  ~ SaysIgnoringCase value (String c word).
Proof.
  intros [Hc _] Hwhite Hblank H. inversion H as [| d w s word' Hd Hs]; subst.
  destruct Hblank as [Hwd _]. destruct Hd as [-> | [Hrange Hsmall]]; [contradiction |].
  unfold WhiteSpace in Hwd. simpl in Hwd. lia.
Qed.

(** X21. [askForCursorRulesDirectory] is decided by USE_LEGACY_CURSORRULES:
    a value that says 'true' in some letter case gives false, one that says
    'false' gives true, in both cases without a prompt or a read; every
    other value that is not blank makes the call throw
    'USE_LEGACY_CURSORRULES must be either "true" or "false"', with nothing
    asked and nothing changed; and when the variable is unset or blank the
    question is written exactly once and one chunk of stdin is read: the
    answer is true exactly when the chunk, without the white space at its
    ends, says 'y' or 'yes' in some letter case, and the promise never
    settles without a chunk.  [execute] records the negation of the answer
    in the variable, so that a second call gives the same answer, whatever
    is on stdin, and neither writes a prompt nor reads a chunk. *)
Theorem recorded_rules_directory_is_not_asked_again (w : Rules.process) :
  let first := Rules.recordRulesDirectory w in
  let variable := Rules.USE_LEGACY_CURSORRULES w in
  let question :=
    "Would you like to use the new .cursor/rules directory for cursor rules? (y/N): " in
  (forall useCursorRulesDirectory,
      fst first = Rules.Resolved useCursorRulesDirectory ->
      forall input output,
        let again := Rules.mkProcess (Rules.USE_LEGACY_CURSORRULES (snd first)) input output in
        Rules.askForCursorRulesDirectory again
        = (Rules.Resolved useCursorRulesDirectory, again)) /\
  (forall e, fst first = Rules.Rejected e ->
             e = Rules.mustBeTrueOrFalse /\ snd first = w /\
             Rules.setAndNotBlank (Rules.USE_LEGACY_CURSORRULES w) = true) /\
  (Rules.stdout (snd first) = Rules.stdout w /\ Rules.stdin (snd first) = Rules.stdin w \/
   Rules.says (Rules.USE_LEGACY_CURSORRULES w) "true" = false /\
   Rules.says (Rules.USE_LEGACY_CURSORRULES w) "false" = false /\
   Rules.setAndNotBlank (Rules.USE_LEGACY_CURSORRULES w) = false /\
   Rules.stdout (snd first) = (Rules.stdout w ++ [question])%list /\
   Rules.stdin (snd first) = tl (Rules.stdin w)) /\
  (forall value,
      variable = Some value -> SaysIgnoringCase value "true" ->
      first = (Rules.Resolved false,
               Rules.mkProcess (Some "true") (Rules.stdin w) (Rules.stdout w))) /\
  (forall value,
      variable = Some value -> SaysIgnoringCase value "false" ->
      first = (Rules.Resolved true,
               Rules.mkProcess (Some "false") (Rules.stdin w) (Rules.stdout w))) /\
  (forall value,
      variable = Some value -> ~ Blank value ->
      ~ SaysIgnoringCase value "true" -> ~ SaysIgnoringCase value "false" ->
      first = (Rules.Rejected Rules.mustBeTrueOrFalse, w)) /\
  (variable = None \/ (exists value, variable = Some value /\ Blank value) ->
   Rules.stdout (snd first) = (Rules.stdout w ++ [question])%list /\
   Rules.stdin (snd first) = tl (Rules.stdin w) /\
   (Rules.stdin w = [] ->
    fst first = Rules.Pending /\ Rules.USE_LEGACY_CURSORRULES (snd first) = variable) /\
   (forall data rest answer,
       Rules.stdin w = data :: rest -> TrimOf data answer ->
       (SaysIgnoringCase answer "y" \/ SaysIgnoringCase answer "yes" ->
        fst first = Rules.Resolved true /\
        Rules.USE_LEGACY_CURSORRULES (snd first) = Some "false") /\
       (~ SaysIgnoringCase answer "y" -> ~ SaysIgnoringCase answer "yes" ->
        fst first = Rules.Resolved false /\
        Rules.USE_LEGACY_CURSORRULES (snd first) = Some "true"))).
Proof.
  cbv zeta.
  assert (Htrue_word : NoCapital "true") by (apply noCapital_check; reflexivity).
  assert (Hfalse_word : NoCapital "false") by (apply noCapital_check; reflexivity).
  assert (Hy_word : NoCapital "y") by (apply noCapital_check; reflexivity).
  assert (Hyes_word : NoCapital "yes") by (apply noCapital_check; reflexivity).
  assert (Hletter : forall c, In c ["t"; "f"]%char -> ~ WhiteSpace c).
  { intros c Hc. apply isWhiteSpace_not. simpl in Hc.
    repeat (destruct Hc as [<- | Hc]); [| | contradiction]; reflexivity. }
  unfold Rules.recordRulesDirectory, Rules.askForCursorRulesDirectory.
  destruct (Rules.says (Rules.USE_LEGACY_CURSORRULES w) "true") eqn:Htrue.
  { apply (says_iff _ "true" Htrue_word) in Htrue. destruct Htrue as [v [Hv Hsays]].
    apply (toLowerCase_says "true" Htrue_word) in Hsays.
    split; [intros b [= <-] input output; reflexivity |].
    split; [discriminate |]. split; [now left |].
    split; [reflexivity |].
    split. { intros value Hvalue H. apply (toLowerCase_says "false" Hfalse_word) in H.
             rewrite Hv in Hvalue. injection Hvalue as <-. congruence. }
    split. { intros value Hvalue _ H _. exfalso. apply H.
             rewrite Hv in Hvalue. injection Hvalue as <-.
             now apply (toLowerCase_says "true" Htrue_word). }
    intros [Hnone | [value [Hvalue Hblank]]]; [congruence |]. exfalso.
    rewrite Hv in Hvalue. injection Hvalue as <-.
    apply (blank_says_nothing v "rue" "t" Htrue_word); [apply Hletter; simpl; auto | exact Hblank |].
    now apply (toLowerCase_says "true" Htrue_word). }
  destruct (Rules.says (Rules.USE_LEGACY_CURSORRULES w) "false") eqn:Hfalse.
  { apply (says_iff _ "false" Hfalse_word) in Hfalse. destruct Hfalse as [v [Hv Hsays]].
    assert (Hnot : ~ SaysIgnoringCase v "true").
    { intros H. apply (toLowerCase_says "true" Htrue_word) in H.
      apply (toLowerCase_says "false" Hfalse_word) in Hsays. congruence. }
    split; [intros b [= <-] input output; reflexivity |].
    split; [discriminate |]. split; [now left |].
    split. { intros value Hvalue H. rewrite Hv in Hvalue. injection Hvalue as <-.
             contradiction. }
    split; [reflexivity |].
    split. { intros value Hvalue _ _ H. rewrite Hv in Hvalue. injection Hvalue as <-.
             contradiction. }
    intros [Hnone | [value [Hvalue Hblank]]]; [congruence |]. exfalso.
    rewrite Hv in Hvalue. injection Hvalue as <-.
    now apply (blank_says_nothing v "alse" "f" Hfalse_word);
      [apply Hletter; simpl; auto | |]. }
  assert (Hnot_true : forall value, Rules.USE_LEGACY_CURSORRULES w = Some value ->
                                    ~ SaysIgnoringCase value "true").
  { intros value Hvalue H.
    assert (Rules.says (Rules.USE_LEGACY_CURSORRULES w) "true" = true)
      by (apply (says_iff _ "true" Htrue_word); now exists value).
    congruence. }
  assert (Hnot_false : forall value, Rules.USE_LEGACY_CURSORRULES w = Some value ->
                                     ~ SaysIgnoringCase value "false").
  { intros value Hvalue H.
    assert (Rules.says (Rules.USE_LEGACY_CURSORRULES w) "false" = true)
      by (apply (says_iff _ "false" Hfalse_word); now exists value).
    congruence. }
  destruct (Rules.setAndNotBlank (Rules.USE_LEGACY_CURSORRULES w)) eqn:Hset.
  { split; [discriminate |]. split; [intros e [= <-]; auto |]. split; [now left |].
    split; [intros value Hvalue H; now apply Hnot_true in Hvalue |].
    split; [intros value Hvalue H; now apply Hnot_false in Hvalue |].
    split; [reflexivity |].
    intros [Hnone | [value [Hvalue Hblank]]]; exfalso.
    - rewrite Hnone in Hset. discriminate.
    - rewrite Hvalue in Hset. apply setAndNotBlank_iff in Hblank. congruence. }
  assert (Hrest :
            (forall value, Rules.USE_LEGACY_CURSORRULES w = Some value -> Blank value)).
  { intros value Hvalue. rewrite Hvalue in Hset. now apply setAndNotBlank_iff. }
  unfold Rules.getUserInput. destruct (Rules.stdin w) as [| data rest] eqn:Hin; simpl.
  - split; [discriminate |]. split; [discriminate |]. split; [right; auto |].
    split; [intros value Hvalue H; now apply Hnot_true in Hvalue |].
    split; [intros value Hvalue H; now apply Hnot_false in Hvalue |].
    split; [intros value Hvalue H; now apply Hrest in Hvalue |].
    intros _. repeat split; auto; discriminate.
  - split.
    { intros b [= <-] input output.
      destruct (String.eqb (JS.toLowerCase (JS.trim data)) "y"
                || String.eqb (JS.toLowerCase (JS.trim data)) "yes"); reflexivity. }
    split; [discriminate |]. split; [right; auto |].
    split; [intros value Hvalue H; now apply Hnot_true in Hvalue |].
    split; [intros value Hvalue H; now apply Hnot_false in Hvalue |].
    split; [intros value Hvalue H; now apply Hrest in Hvalue |].
    intros _. split; [reflexivity |]. split; [reflexivity |]. split; [discriminate |].
    intros data' rest' answer [= <- <-] Htrim. apply trimOf_trim in Htrim. rewrite Htrim.
    split.
    + intros Hyes.
      assert (Hanswer : String.eqb (JS.toLowerCase answer) "y"
                        || String.eqb (JS.toLowerCase answer) "yes" = true).
      { apply orb_true_iff. rewrite !String.eqb_eq.
        destruct Hyes as [H | H]; [left | right].
        - now apply (toLowerCase_says "y" Hy_word).
        - now apply (toLowerCase_says "yes" Hyes_word). }
      rewrite Hanswer. auto.
    + intros Hy Hyes.
      assert (Hanswer : String.eqb (JS.toLowerCase answer) "y"
                        || String.eqb (JS.toLowerCase answer) "yes" = false).
      { apply orb_false_iff. rewrite !String.eqb_neq. split; intros H.
        - now apply (toLowerCase_says "y" Hy_word) in H.
        - now apply (toLowerCase_says "yes" Hyes_word) in H. }
      rewrite Hanswer. auto.
Qed.

Lemma recorded_rules_directory_is_not_asked_again_witness :
  let asked := Rules.recordRulesDirectory (Rules.mkProcess None ["  Yes "; "no"] []) in
  let told := Rules.recordRulesDirectory (Rules.mkProcess (Some "TRUE") ["yes"] []) in
  let wrong := Rules.mkProcess (Some "1") ["yes"] [] in
  (fst asked = Rules.Resolved true /\
   snd asked
   = Rules.mkProcess
       (Some "false") ["no"]
       ["Would you like to use the new .cursor/rules directory for cursor rules? (y/N): "]) /\
  told = (Rules.Resolved false, Rules.mkProcess (Some "true") ["yes"] []) /\
  Rules.recordRulesDirectory wrong = (Rules.Rejected Rules.mustBeTrueOrFalse, wrong).
Proof.
  cbv zeta.
  assert (Hword : forall s word, JS.toLowerCase word = word -> JS.toLowerCase s = word ->
                                 SaysIgnoringCase s word).
  { intros s word Hsmall Hs. now apply toLowerCase_says; [apply noCapital_check |]. }
  assert (Hnot : forall s word, JS.toLowerCase word = word -> JS.toLowerCase s <> word ->
                                ~ SaysIgnoringCase s word).
  { intros s word Hsmall Hs H. apply Hs.
    now apply (toLowerCase_says word (noCapital_check word Hsmall)). }
  split; [| split].
  - destruct (recorded_rules_directory_is_not_asked_again
                (Rules.mkProcess None ["  Yes "; "no"] []))
      as [_ [_ [_ [_ [_ [_ Hasked]]]]]].
    destruct (Hasked (or_introl eq_refl)) as [Hout [Hin [_ Hanswer]]].
    destruct (Hanswer "  Yes " ["no"] "Yes" eq_refl) as [Hyes _].
    { change (TrimOf "  Yes " (JS.trim "  Yes ")). apply trim_trimOf. }
    destruct Hyes as [Hresolved Hvariable]; [right; now apply Hword |].
    split; [exact Hresolved |].
    destruct (snd (Rules.recordRulesDirectory (Rules.mkProcess None ["  Yes "; "no"] [])))
      as [variable input output].
    simpl in Hout, Hin, Hvariable. now subst.
  - destruct (recorded_rules_directory_is_not_asked_again
                (Rules.mkProcess (Some "TRUE") ["yes"] []))
      as [_ [_ [_ [Htold _]]]].
    apply (Htold "TRUE" eq_refl). now apply Hword.
  - destruct (recorded_rules_directory_is_not_asked_again
                (Rules.mkProcess (Some "1") ["yes"] []))
      as [_ [_ [_ [_ [_ [Hwrong _]]]]]].
    apply (Hwrong "1" eq_refl).
    + intros [Hwhite _]. apply isWhiteSpace_iff in Hwhite. discriminate.
    + now apply Hnot.
    + now apply Hnot.
Defined.

(** * utils/logger.ts *)

Lemma subLogger_chain (children : list string) :
  forall l,
    Logger.component (fold_left Logger.subLogger children l) = Logger.component l /\
    (children <> [] ->
     fold_left Logger.subLogger children l
     = Logger.createLogger (Logger.component l) (Some (last children EmptyString))).
Proof.
  induction children as [| child children IH]; intros l; simpl.
  - split; [reflexivity | congruence].
  - destruct (IH (Logger.subLogger l child)) as [Hcomponent Hlast].
    split; [exact Hcomponent |]. intros _.
    destruct children as [| next children]; [reflexivity |].
    rewrite Hlast by discriminate. reflexivity.
Qed.

(** X22. A logger reached from [createLogger(component, ...)] through any
    number of [subLogger] calls keeps the component and only the last child:
    it is the logger [createLogger(component, lastChild)], so that the
    children do not add up in the prefix, and an empty last child gives the
    prefix of the component alone.  Every text such a logger hands to consola
    starts with '[' and the component, and without DEBUG its [debug] hands
    over nothing. *)
Theorem subLogger_keeps_only_the_last_child
        (component : string) (subComponent : option string) (children : list string) :
  let l := fold_left Logger.subLogger children
                     (Logger.createLogger component subComponent) in
  (children <> [] ->
   l = Logger.createLogger component (Some (last children EmptyString))) /\
  (last children EmptyString = EmptyString -> children <> [] ->
   Logger.prefix l = "[" ++ component ++ "]") /\
  (forall DEBUG lv message line,
      In line (Logger.emit l DEBUG lv message) ->
      fst line = lv /\ exists rest, snd line = "[" ++ component ++ rest ++ " " ++ message) /\
  (forall message, Logger.emit l None Logger.Debug message = []).
Proof.
  intros l.
  destruct (subLogger_chain children (Logger.createLogger component subComponent))
    as [Hcomponent Hlast].
  fold l in Hcomponent, Hlast. simpl in Hcomponent, Hlast.
  assert (Hprefix : exists rest, Logger.prefix l = "[" ++ component ++ rest).
  { destruct children as [| child children].
    - unfold l. simpl. unfold Logger.createLogger.
      destruct (truthyField subComponent) as [sub |]; simpl.
      + now exists (":" ++ sub ++ "]").
      + now exists "]".
    - rewrite Hlast by discriminate. unfold Logger.createLogger.
      destruct (truthyField _) as [sub |]; simpl.
      + now exists (":" ++ sub ++ "]").
      + now exists "]". }
  split; [exact Hlast |]. split; [| split].
  - intros Hempty Hsome. rewrite (Hlast Hsome), Hempty. reflexivity.
  - intros DEBUG lv message line Hline. destruct Hprefix as [rest Hrest].
    assert (Htext : Logger.prefix l ++ " " ++ message
                    = "[" ++ component ++ rest ++ " " ++ message).
    { rewrite Hrest. cbn [append]. now rewrite !append_assoc. }
    unfold Logger.emit in Hline.
    destruct lv; try destruct (truthyField DEBUG); simpl in Hline;
      try contradiction; destruct Hline as [<- | []]; simpl;
      (split; [reflexivity | exists rest; exact Htext]).
  - reflexivity.
Qed.

Lemma subLogger_keeps_only_the_last_child_witness :
  let l := fold_left Logger.subLogger ["client"; "transport"]
                     (Logger.createLogger "MCPClientNew" None) in
  l = Logger.createLogger "MCPClientNew" (Some "transport") /\
  Logger.emit l None Logger.Warn "closed" = [(Logger.Warn, "[MCPClientNew:transport] closed")].
Proof.
  split; [| reflexivity].
  apply (subLogger_keeps_only_the_last_child "MCPClientNew" None ["client"; "transport"]).
  discriminate.
Defined.

(** * providers/base.ts: errors that are not retried *)

Lemma retryLoop_not_retryable (W T : Type) (operation : W -> result T * W)
      (maxAttempts baseDelay : Z) (shouldRetry : error -> bool) (e : error)
      (attempt : Z) (w w' : W) :
  operation w = (Throw e, w') ->
  shouldRetry e = false ->
  let run := retryLoop operation maxAttempts baseDelay shouldRetry attempt w in
  outcome run = Throw e /\ final run = w' /\ invocations run = 1%nat /\ waited run = [].
Proof.
  funelim (retryLoop operation maxAttempts baseDelay shouldRetry attempt w);
    intros Hop Hno; rewrite Hop in *; cbv zeta.
  - discriminate.
  - match goal with H : (_, _) = (_, _) |- _ => injection H as <- <- end. now repeat split.
  - match goal with H : (_, _) = (_, _) |- _ => injection H as <- <- end.
    destruct a as [Hlt Hyes]. congruence.
Qed.

Section PerplexityStatus.

Variable localeCompare : string -> string -> comparison.
Variable getSimilarModels : string -> list string -> list string.
Variable stringSimilarity : string -> string -> Q.
Variable subclass : errorClass -> errorClass -> bool.
Variable messageOf : errorClass -> string -> string.
Variable h : host.

(** What is taken from '../errors': the message of a [NetworkError] is the
    text it was made with. *)
Hypothesis message_is_text : forall text, messageOf NetworkError text = text.

(** X23. [PerplexityProvider] decides by the body of a refusal, not by its
    status, whether to try again: when the endpoint answers a request with a
    status that is not 2xx, 429 included, and a body that holds neither '429'
    nor 'rate limit' in any letter case, [executePrompt] sends that one
    request only and throws the [NetworkError] with the body. *)
Theorem perplexity_retries_by_text_not_by_status
        (prompt : string) (options : option ref) (w : world)
        (apiKey : string) (o : ModelOptions) (m : string) (status : Z) (errorText : string) :
  truthyField (PERPLEXITY_API_KEY h) = Some apiKey ->
  optionsAt w options = Some o ->
  getModel localeCompare getSimilarModels PerplexityProvider (thisAvailableModels w) (Some o)
  = Return m ->
  let rq := PerplexityRequest apiKey m
              [("system", getSystemPrompt (Some o)); ("user", prompt)] (maxTokens o) in
  fetchPerplexity h (sent w) rq = NotOk status errorText ->
  JS.includes (JS.toLowerCase errorText) "429" = false ->
  JS.includes (JS.toLowerCase errorText) "rate limit" = false ->
  let r := executePrompt localeCompare getSimilarModels stringSimilarity subclass messageOf h
                         PerplexityProvider prompt options w in
  fst r = Throw (mkError NetworkError ("Perplexity API error: " ++ errorText)) /\
  sent (snd r) = (sent w ++ [rq])%list.
Proof.
  intros Hkey Ho Hm rq Hreply H429 Hlimit r.
  set (e := mkError NetworkError ("Perplexity API error: " ++ errorText)).
  set (w' := mkWorld (thisConfig w) (thisAvailableModels w) (heap w) (sent w ++ [rq])).
  assert (Hop : perplexityOperation localeCompare getSimilarModels subclass h
                                    apiKey prompt options w = (Throw e, w')).
  { unfold perplexityOperation. unfold bindM at 1. rewrite getModelOf_eval, Ho, Hm.
    unfold bindM at 1. rewrite derefRequired_eval, Ho. cbv zeta.
    rewrite chatMessages_getSystemPrompt. fold rq.
    unfold tryCatch, bindM, exchange. rewrite Hreply.
    unfold throw, rethrowProviderOrNetworkError.
    assert (Hnet : instanceOf subclass e NetworkError = true) by reflexivity.
    fold e. rewrite Hnet, orb_true_r. reflexivity. }
  assert (Hno : perplexityShouldRetry subclass messageOf e = false).
  { unfold perplexityShouldRetry.
    assert (Hnet : instanceOf subclass e NetworkError = true) by reflexivity.
    rewrite Hnet. unfold message, e. cbn [errClass errArg]. rewrite message_is_text.
    rewrite toLowerCase_append.
    change (JS.toLowerCase "Perplexity API error: ") with "perplexity api error: ".
    simpl. now rewrite H429, Hlimit. }
  destruct (retryLoop_not_retryable world string
              (perplexityOperation localeCompare getSimilarModels subclass h
                                   apiKey prompt options)
              5 1000 (perplexityShouldRetry subclass messageOf) e 1 w w' Hop Hno)
    as [Hout [Hfinal _]].
  unfold r. cbn [executePrompt]. unfold perplexityExecutePrompt. rewrite Hkey.
  unfold retryWithBackoff, retryTrace. cbn [fst snd]. rewrite Hout, Hfinal.
  split; reflexivity.
Qed.

End PerplexityStatus.

Lemma perplexity_retries_by_text_not_by_status_witness :
  let o := withModel noModelOptions "sonar-pro" in
  let r := executePrompt String.compare (fun _ _ => []) (fun _ _ => 0%Q)
                         sampleSubclass sampleMessageOf (refusingHost 429 "Too Many Requests")
                         PerplexityProvider "hi" (Some 0%nat) (worldWithout o) in
  fst r = Throw (mkError NetworkError "Perplexity API error: Too Many Requests") /\
  sent (snd r) =
  [PerplexityRequest "pplx-key" "sonar-pro"
     [("system", "You are a helpful assistant. Provide clear and concise responses.");
      ("user", "hi")] 8000].
Proof.
  exact (perplexity_retries_by_text_not_by_status
           String.compare (fun _ _ => []) (fun _ _ => 0%Q)
           sampleSubclass sampleMessageOf (refusingHost 429 "Too Many Requests")
           (fun _ => eq_refl)
           "hi" (Some 0%nat) (worldWithout (withModel noModelOptions "sonar-pro"))
           "pplx-key" (withModel noModelOptions "sonar-pro") "sonar-pro" 429
           "Too Many Requests" eq_refl eq_refl eq_refl eq_refl eq_refl eq_refl).
Defined.

(** ** The requests of the Google providers *)

Lemma applyTokenCount_result (p : provider) (options : option ref) (w : world)
      (o : ModelOptions) :
  optionsAt w options = Some o ->
  let r := applyTokenCount p options w in
  sent (snd r) = sent w /\
  thisAvailableModels (snd r) = thisAvailableModels w /\
  forall options', fst r = Return options' ->
                   exists o', optionsAt (snd r) options' = Some o' /\
                              maxTokens o' = maxTokens o /\
                              systemPrompt o' = systemPrompt o /\
                              webSearch o' = webSearch o.
Proof.
  intros Ho. cbv zeta. unfold applyTokenCount, bindM, deref, ret, throw, alloc. simpl.
  rewrite Ho. destruct (tokenCount o) as [n |]; simpl.
  2:{ repeat split; try reflexivity. intros options' [= <-]. now exists o. }
  destruct (n =? 0); simpl.
  { repeat split; try reflexivity. intros options' [= <-]. now exists o. }
  destruct (truthyField (tokenError (handleLargeTokenCount p n))); simpl.
  { repeat split; try reflexivity. discriminate. }
  destruct (truthyField (switchTo (handleLargeTokenCount p n))) as [tokenModel |]; simpl.
  - repeat split; try reflexivity. intros options' [= <-]. simpl.
    exists (withModel o tokenModel). rewrite nth_error_app2 by lia.
    rewrite Nat.sub_diag. now repeat split.
  - repeat split; try reflexivity. intros options' [= <-]. now exists o.
Qed.

Section GoogleRequests.

Variable localeCompare : string -> string -> comparison.
Variable getSimilarModels : string -> list string -> list string.
Variable stringSimilarity : string -> string -> Q.
Variable subclass : errorClass -> errorClass -> bool.
Variable messageOf : errorClass -> string -> string.
Variable h : host.

Lemma googleOperation_step (p : provider) (prompt : string) (options : option ref)
      (o : ModelOptions) (baseURL : string) (w : world) :
  p = GoogleVertexAIProvider \/ p = GoogleGenerativeLanguageProvider ->
  optionsAt w options = Some o ->
  exists r new,
    googleOperation subclass h p prompt options (maxTokens o) (getSystemPrompt (Some o))
                    baseURL w
    = (r, mkWorld (thisConfig w) (thisAvailableModels w) (heap w) (sent w ++ new)%list) /\
    Forall (FollowsOptions prompt o) new.
Proof.
  intros Hp Ho.
  assert (Hsystem : truthyField (Some (getSystemPrompt (Some o)))
                    = Some (getSystemPrompt (Some o))).
  { unfold truthyField. now rewrite getSystemPrompt_truthy. }
  assert (Hnone : forall r : result string,
             exists r' new,
               (r, w) = (r', mkWorld (thisConfig w) (thisAvailableModels w) (heap w)
                                     (sent w ++ new)%list) /\
               Forall (FollowsOptions prompt o) new).
  { intros r. exists r, []. rewrite app_nil_r. destruct w. now split. }
  assert (Hcatch : forall failure e w',
             exists r, @rethrowProviderError subclass string failure e w' = (r, w')).
  { intros failure e w'. unfold rethrowProviderError, throw.
    destruct (instanceOf subclass e ProviderError); eexists; reflexivity. }
  destruct Hp as [-> | ->]; cbn [googleOperation].
  - unfold vertexOperation, webSearchOf, tryCatch, bindM, deref, ret, lift, exchange.
    cbv beta iota. rewrite Ho, Hsystem.
    destruct (getAuthClient h) as [[] | e].
    2:{ destruct (Hcatch "Failed to communicate with Google Vertex AI API" e w) as [r ->].
        apply Hnone. }
    destruct (getAccessToken h) as [token | e].
    2:{ destruct (Hcatch "Failed to communicate with Google Vertex AI API" e w) as [r ->].
        apply Hnone. }
    cbv beta iota.
    set (rq := GeminiRequest baseURL (Some token) (Some "user") prompt (maxTokens o)
                             (Some (getSystemPrompt (Some o))) (flag (webSearch o))).
    set (w' := mkWorld (thisConfig w) (thisAvailableModels w) (heap w) (sent w ++ [rq])).
    assert (Hrq : Forall (FollowsOptions prompt o) [rq]).
    { constructor; [| constructor]. now exists baseURL, (Some token), (Some "user"). }
    unfold readGeminiReply, throw, lift.
    destruct (fetchGemini h (sent w) rq) as [e | status text | data].
    + destruct (Hcatch "Failed to communicate with Google Vertex AI API" e w') as [r ->].
      now exists r, [rq].
    + destruct (Hcatch "Failed to communicate with Google Vertex AI API"
                       (mkError NetworkError
                          ("Google Vertex AI" ++ " API error (" ++ JS.numberToString status
                           ++ "): " ++ text)) w') as [r ->].
      now exists r, [rq].
    + destruct (geminiResponseText "Google Vertex AI" data) as [answer | e].
      * now exists (Return answer), [rq].
      * destruct (Hcatch "Failed to communicate with Google Vertex AI API" e w') as [r ->].
        now exists r, [rq].
  - unfold generativeLanguageOperation, webSearchOf, tryCatch, bindM, deref, ret, lift,
      exchange.
    cbv beta iota. rewrite Ho, Hsystem.
    destruct (getAPIKey h) as [apiKey | e].
    2:{ destruct (Hcatch "Failed to communicate with Google Generative Language API" e w)
          as [r ->].
        apply Hnone. }
    cbv beta iota.
    set (rq := GeminiRequest (baseURL ++ "?key=" ++ apiKey) None None prompt (maxTokens o)
                             (Some (getSystemPrompt (Some o))) (flag (webSearch o))).
    set (w' := mkWorld (thisConfig w) (thisAvailableModels w) (heap w) (sent w ++ [rq])).
    assert (Hrq : Forall (FollowsOptions prompt o) [rq]).
    { constructor; [| constructor]. now exists (baseURL ++ "?key=" ++ apiKey), None, None. }
    unfold readGeminiReply, throw, lift.
    destruct (fetchGemini h (sent w) rq) as [e | status text | data].
    + destruct (Hcatch "Failed to communicate with Google Generative Language API" e w')
        as [r ->].
      now exists r, [rq].
    + destruct (Hcatch "Failed to communicate with Google Generative Language API"
                       (mkError NetworkError
                          ("Google Generative Language" ++ " API error ("
                           ++ JS.numberToString status ++ "): " ++ text)) w') as [r ->].
      now exists r, [rq].
    + destruct (geminiResponseText "Google Generative Language" data) as [answer | e].
      * now exists (Return answer), [rq].
      * destruct (Hcatch "Failed to communicate with Google Generative Language API" e w')
          as [r ->].
        now exists r, [rq].
Qed.

Lemma google_retry_requests (p : provider) (prompt : string) (options : option ref)
      (o : ModelOptions) (baseURL : string) (w : world) :
  p = GoogleVertexAIProvider \/ p = GoogleGenerativeLanguageProvider ->
  optionsAt w options = Some o ->
  exists new,
    sent (snd (retryWithBackoff
                 (googleOperation subclass h p prompt options (maxTokens o)
                                  (getSystemPrompt (Some o)) baseURL)
                 5 1000 (googleShouldRetry subclass messageOf) w))
    = (sent w ++ new)%list /\
    Forall (FollowsOptions prompt o) new.
Proof.
  intros Hp Ho.
  apply (retryWithBackoff_invariant string (fun w' => optionsAt w' options = Some o)
           (FollowsOptions prompt o)); [| exact Ho].
  intros w' Hw'.
  destruct (googleOperation_step p prompt options o baseURL w' Hp Hw') as [r [new [-> Hnew]]].
  cbn [snd sent]. split; [| now exists new].
  destruct options as [a |]; simpl in *; exact Hw'.
Qed.

Lemma followsOptions_same (prompt : string) (o o' : ModelOptions) (new : list request) :
  maxTokens o' = maxTokens o -> systemPrompt o' = systemPrompt o ->
  webSearch o' = webSearch o ->
  Forall (FollowsOptions prompt o') new -> Forall (FollowsOptions prompt o) new.
Proof.
  intros Hmax Hsystem Hweb. apply Forall_impl. intros rq [url [bearer [role ->]]].
  exists url, bearer, role. unfold getSystemPrompt. now rewrite Hmax, Hsystem, Hweb.
Qed.

(** X24. Every request that the two Google providers send for a call of
    [executePrompt] with options, the retries included, carries the prompt,
    the token limit and the system prompt of the caller's options, and the
    Google search tool exactly when these options ask for web search; a
    switch of the model for a large token count changes none of this. *)
Theorem gemini_requests_follow_options
        (p : provider) (prompt : string) (options : option ref) (w : world)
        (o : ModelOptions) :
  p = GoogleVertexAIProvider \/ p = GoogleGenerativeLanguageProvider ->
  optionsAt w options = Some o ->
  exists new,
    sent (snd (executePrompt localeCompare getSimilarModels stringSimilarity
                             subclass messageOf h p prompt options w))
    = (sent w ++ new)%list /\
    Forall (FollowsOptions prompt o) new.
Proof.
  intros Hp Ho.
  assert (Hnothing : forall w1 : world,
             sent w1 = sent w ->
             exists new, sent w1 = (sent w ++ new)%list /\
                         Forall (FollowsOptions prompt o) new).
  { intros w1 Hw1. exists []. rewrite app_nil_r. now split. }
  destruct (applyTokenCount_result p options w o Ho) as [Hsent [Hmodels Hoptions]].
  destruct Hp as [-> | ->]; cbn [executePrompt].
  - unfold vertexExecutePrompt. unfold bindM at 1. rewrite getModelOf_eval.
    destruct (getModel localeCompare getSimilarModels GoogleVertexAIProvider
                (thisAvailableModels w) (optionsAt w options)) as [m | e];
      [| now apply Hnothing].
    unfold bindM at 1.
    destruct (applyTokenCount GoogleVertexAIProvider options w) as [[options' | e] w1];
      cbn [fst snd] in Hsent, Hmodels, Hoptions; [| now apply Hnothing].
    destruct (Hoptions options' eq_refl) as [o' [Ho' [Hmax [Hsystem Hweb]]]].
    unfold bindM at 1. rewrite awaitAvailableModels_eval.
    destruct (thisAvailableModels w1) as [[models | e] |]; try now apply Hnothing.
    destruct (negb (JS.has models m)); [now apply Hnothing |].
    unfold bindM at 1. rewrite derefRequired_eval, Ho'. cbv zeta.
    destruct (google_retry_requests GoogleVertexAIProvider prompt options' o' (vertexURL m) w1
                (or_introl eq_refl) Ho') as [new [Hnew Hall]].
    cbn [googleOperation] in Hnew. exists new. rewrite Hnew, Hsent.
    split; [reflexivity |]. exact (followsOptions_same prompt o o' new Hmax Hsystem Hweb Hall).
  - unfold generativeLanguageExecutePrompt. unfold bindM at 1.
    destruct (applyTokenCount GoogleGenerativeLanguageProvider options w)
      as [[options' | e] w1];
      cbn [fst snd] in Hsent, Hmodels, Hoptions; [| now apply Hnothing].
    destruct (Hoptions options' eq_refl) as [o' [Ho' [Hmax [Hsystem Hweb]]]].
    unfold bindM at 1. rewrite getModelOf_eval.
    destruct (getModel localeCompare getSimilarModels GoogleGenerativeLanguageProvider
                (thisAvailableModels w1) (optionsAt w1 options')) as [m | e];
      [| now apply Hnothing].
    unfold bindM at 1. rewrite derefRequired_eval, Ho'. cbv zeta.
    destruct (google_retry_requests GoogleGenerativeLanguageProvider prompt options' o'
                (generativeLanguageURL m) w1 (or_intror eq_refl) Ho') as [new [Hnew Hall]].
    cbn [googleOperation] in Hnew. exists new. rewrite Hnew, Hsent.
    split; [reflexivity |]. exact (followsOptions_same prompt o o' new Hmax Hsystem Hweb Hall).
Qed.

End GoogleRequests.

Lemma gemini_requests_follow_options_witness :
  let o := mkOptions (Some "gemini-2.0-flash") 8000 (Some "Be brief.") (Some 900000)
                     (Some true) None None in
  exists new,
    sent (snd (executePrompt String.compare (fun _ _ => []) (fun _ _ => 0%Q)
                             sampleSubclass sampleMessageOf (answeringHost "key-123" "hello")
                             GoogleGenerativeLanguageProvider "hi" (Some 0%nat)
                             (worldWith ["gemini-2.0-flash"; "gemini-2.0-pro-exp"] o)))
    = new /\
    Forall (FollowsOptions "hi" o) new.
Proof.
  exact (gemini_requests_follow_options
           String.compare (fun _ _ => []) (fun _ _ => 0%Q)
           sampleSubclass sampleMessageOf (answeringHost "key-123" "hello")
           GoogleGenerativeLanguageProvider "hi" (Some 0%nat)
           (worldWith ["gemini-2.0-flash"; "gemini-2.0-pro-exp"]
                      (mkOptions (Some "gemini-2.0-flash") 8000 (Some "Be brief.")
                                 (Some 900000) (Some true) None None))
           (mkOptions (Some "gemini-2.0-flash") 8000 (Some "Be brief.")
                      (Some 900000) (Some true) None None)
           (or_intror eq_refl) eq_refl).
Defined.

(** * providers/base.ts: grounded replies *)

Section GroundedReplies.

Variable localeCompare : string -> string -> comparison.
Variable getSimilarModels : string -> list string -> list string.
Variable stringSimilarity : string -> string -> Q.
Variable subclass : errorClass -> errorClass -> bool.
Variable messageOf : errorClass -> string -> string.
Variable h : host.






End GroundedReplies.



(** * providers/base.ts: the retry loop of the providers *)

Section ProviderRetries.

Variable localeCompare : string -> string -> comparison.
Variable getSimilarModels : string -> list string -> list string.
Variable stringSimilarity : string -> string -> Q.
Variable subclass : errorClass -> errorClass -> bool.
Variable messageOf : errorClass -> string -> string.
Variable h : host.

(** C4.  [retryWithBackoff] calls the operation at least once and at most
    [maxAttempts] times, five by default, each call in the state the one
    before left; to see the calls, the operation is watched, which changes
    neither the result nor the state.  The result of the last call is the
    result of [retryWithBackoff], and every call before it threw an error
    that [shouldRetry] accepts; so an error is thrown only for one of two
    reasons, [shouldRetry] rejects it or the call was the
    [maxAttempts]-th; an error that [shouldRetry] rejects is thrown at once,
    with no call after the one that threw it; and an error that it accepts
    is followed by another call as long as fewer than [maxAttempts] were
    made.  The Google providers retry exactly a [NetworkError] whose message
    contains '429' or, in any letter case, 'resource exhausted', and
    [PerplexityProvider] exactly one whose message contains '429' or, in any
    letter case, 'rate limit'.  These are the predicates the providers
    pass: a call of [executePrompt] on a Google provider whose model
    resolves and whose token count asks for nothing is the retry loop around
    the provider's operation with five attempts, a base delay of one second
    and the first predicate, and a call on [PerplexityProvider] with a key
    is the loop around its operation with five attempts, one second and the
    second predicate. *)
Theorem retryWithBackoff_attempts
        (W T : Type) (operation : W -> result T * W)
        (maxAttempts baseDelay : Z) (shouldRetry : error -> bool) (w : W) :
  1 <= maxAttempts ->
  let r := retryWithBackoff operation maxAttempts baseDelay shouldRetry w in
  let seen := retryWithBackoff (watched operation) maxAttempts baseDelay shouldRetry
                               (w, []) in
  let calls := snd (snd seen) in
  (fst seen = fst r /\ fst (snd seen) = snd r) /\
  CallsFrom operation w calls (snd r) /\
  1 <= Z.of_nat (List.length calls) <= maxAttempts /\
  (exists earlier,
      calls = (earlier ++ [fst r])%list /\ Forall (Retryable shouldRetry) earlier) /\
  (forall e, fst r = Throw e ->
             shouldRetry e = false \/ Z.of_nat (List.length calls) = maxAttempts) /\
  (forall i e, nth_error calls i = Some (Throw e) -> shouldRetry e = false ->
               fst r = Throw e /\ List.length calls = S i) /\
  (forall i e, nth_error calls i = Some (Throw e) -> shouldRetry e = true ->
               Z.of_nat (S i) < maxAttempts -> (S i < List.length calls)%nat) /\
  invocations (retryTrace operation maxAttempts baseDelay shouldRetry w)
  = List.length calls /\
  Z.of_nat (List.length
              (snd (snd (retryWithBackoff (watched operation) defaultMaxAttempts
                                          defaultBaseDelay defaultShouldRetry (w, [])))))
  <= 5 /\
  (forall e, googleShouldRetry subclass messageOf e = true <->
             instanceOf subclass e NetworkError = true /\
             (ContainsIgnoringCase "429" (message messageOf e) \/
              ContainsIgnoringCase "resource exhausted" (message messageOf e))) /\
  (forall e, perplexityShouldRetry subclass messageOf e = true <->
             instanceOf subclass e NetworkError = true /\
             (ContainsIgnoringCase "429" (message messageOf e) \/
              ContainsIgnoringCase "rate limit" (message messageOf e))) /\
  (forall p prompt options w0 o m,
      p = GoogleVertexAIProvider \/ p = GoogleGenerativeLanguageProvider ->
      optionsAt w0 options = Some o ->
      (forall n, tokenCount o = Some n -> n <= 800000) ->
      getModel localeCompare getSimilarModels p (thisAvailableModels w0) (Some o)
      = Return m ->
      (p = GoogleVertexAIProvider ->
       exists models,
         thisAvailableModels w0 = Some (Return models) /\ JS.has models m = true) ->
      exists baseURL,
        executePrompt localeCompare getSimilarModels stringSimilarity subclass messageOf h
                      p prompt options w0
        = retryWithBackoff
            (googleOperation subclass h p prompt options (maxTokens o)
                             (getSystemPrompt (Some o)) baseURL)
            5 1000 (googleShouldRetry subclass messageOf) w0) /\
  (forall prompt options w0 apiKey,
      truthyField (PERPLEXITY_API_KEY h) = Some apiKey ->
      executePrompt localeCompare getSimilarModels stringSimilarity subclass messageOf h
                    PerplexityProvider prompt options w0
      = retryWithBackoff
          (perplexityOperation localeCompare getSimilarModels subclass h
                               apiKey prompt options)
          5 1000 (perplexityShouldRetry subclass messageOf) w0).
Proof.
  intros Hmax. cbv zeta. unfold retryWithBackoff, retryTrace. cbn [fst snd].
  destruct (retryLoop_watched operation maxAttempts baseDelay shouldRetry 1 w [])
    as [earlier [Hout [Hfinal [Hcalls [Hcount [Hall [Hbound Hwhy]]]]]]].
  destruct (retryLoop_watched operation defaultMaxAttempts defaultBaseDelay
                              defaultShouldRetry 1 w [])
    as [earlier5 [_ [Hfinal5 [_ [_ [_ [Hbound5 _]]]]]]].
  rewrite Hfinal, Hfinal5. cbn [fst snd app]. rewrite !length_app. cbn [List.length].
  assert (Hlength : 1 <= Z.of_nat (List.length earlier + 1) <= maxAttempts)
    by (destruct Hbound as [-> | Hbound]; simpl; lia).
  split; [now split |]. split; [exact Hcalls |]. split; [exact Hlength |].
  split; [now exists earlier |].
  split. { intros e He. destruct (Hwhy e He) as [Hno | Hge]; [now left | right; lia]. }
  split.
  { intros i e Hi Hno. apply nth_error_last_call in Hi.
    destruct Hi as [[Hlt Hi] | [-> Hlast]].
    - apply nth_error_In in Hi. rewrite Forall_forall in Hall.
      destruct (Hall _ Hi) as [e' [[= <-] Hyes]]. congruence.
    - split; [now symmetry | lia]. }
  split.
  { intros i e Hi Hyes Hbefore. apply nth_error_last_call in Hi.
    destruct Hi as [[Hlt Hi] | [-> Hlast]]; [lia |].
    destruct (Hwhy e (eq_sym Hlast)) as [Hno | Hge]; [congruence | lia]. }
  split; [rewrite Hcount; lia |].
  split. { unfold defaultMaxAttempts in Hbound5.
           destruct Hbound5 as [-> | Hbound5]; simpl; lia. }
  split; [apply googleShouldRetry_ignoring_case |].
  split; [apply perplexityShouldRetry_ignoring_case |].
  split.
  - intros p prompt options w0 o m. apply google_executePrompt_eval.
  - intros prompt options w0 apiKey Hkey. cbn [executePrompt].
    unfold perplexityExecutePrompt. now rewrite Hkey.
Qed.

End ProviderRetries.

Lemma retryWithBackoff_attempts_witness :
  let shouldRetry := googleShouldRetry sampleSubclass sampleMessageOf in
  let exhausted := mkError NetworkError "Quota exceeded: RESOURCE EXHAUSTED" in
  let refused := mkError NetworkError "Google Vertex AI API error (400): bad request" in
  let seen := retryWithBackoff (watched exhaustedThenRefused) 5 1000 shouldRetry
                               (0%nat, []) in
  1 <= 5 /\
  ContainsIgnoringCase "resource exhausted" (message sampleMessageOf exhausted) /\
  shouldRetry exhausted = true /\
  shouldRetry refused = false /\
  snd (snd seen) = [Throw exhausted; Throw exhausted; Throw refused] /\
  retryWithBackoff exhaustedThenRefused 5 1000 shouldRetry 0%nat = (Throw refused, 3%nat) /\
  1 <= Z.of_nat (List.length (snd (snd seen))) <= 5.
Proof.
  cbv zeta.
  assert (Hsays : ContainsIgnoringCase
                    "resource exhausted"
                    (message sampleMessageOf
                             (mkError NetworkError "Quota exceeded: RESOURCE EXHAUSTED"))).
  { exists "Quota exceeded: ", "RESOURCE EXHAUSTED", EmptyString. split; [reflexivity |].
    apply toLowerCase_says; [apply noCapital_check |]; reflexivity. }
  destruct (retryWithBackoff_attempts
              String.compare (fun _ models => models) (fun _ _ => 0%Q)
              sampleSubclass sampleMessageOf (rateLimitedHost "adc")
              nat string exhaustedThenRefused 5 1000
              (googleShouldRetry sampleSubclass sampleMessageOf) 0%nat ltac:(lia))
    as [[Hsame Hstate] [Hcalls [Hlength [[earlier [Hlog Hearlier]] [Hwhy [Hrefused
          [_ [_ [_ [Hgoogle _]]]]]]]]]].
  split; [lia |]. split; [exact Hsays |].
  split; [apply Hgoogle; split; [reflexivity | now right] |].
  split; [reflexivity |].
  destruct (Hrefused 2%nat (mkError NetworkError
                              "Google Vertex AI API error (400): bad request")
                     eq_refl eq_refl) as [Hthrown Hthree].
  split; [reflexivity |].
  split; [| exact Hlength].
  rewrite (surjective_pairing (retryWithBackoff _ _ _ _ _)), Hthrown.
  reflexivity.
Defined.
